(* ===== verification/_CoqProject ===== *)
-Q . S2P
Prelude.v
GoStrings.v
NetIP.v
Platform.v
JsonText.v
GoText.v
Config.v
Json.v
JsonValues.v
Wire.v
Firewall.v
Circuit.v
RateLimiter.v
AuditLog.v
AuditJson.v
Regex.v
DockerLogs.v
Strace.v
Cache.v
Server.v
Secrets.v
HttpProxy.v
Sni.v
Validation.v
ControlPlane.v
StoredConfig.v
Dnssec.v
Query0x20.v
Handler.v
Daemon.v
Services.v
Reload.v
Cli.v
Restart.v
