(* ===== verification/Prelude.v ===== *)
(** * A verification library for Ottergate

    Ottergate is a filtering gateway for sandboxes, written in Go: a DNS server
    (UDP, TCP, TLS and HTTPS) with a cache, a firewall and DNSSEC, an HTTP proxy, a
    proxy that routes TLS connections by server name, a control plane that replaces
    the configuration, an audit log, and a collector of container logs.  This
    library models that code, definition by definition, and proves what it
    promises.  Theorems are about these definitions; the comment before each says
    what it means for the program.

    ** How the parts interact

    [main.go] reads its configuration file, starts the DNS listeners, the HTTP proxy
    and the SNI proxy with it, and the control plane, whose accepted updates replace
    the file and stop and restart them, each in a goroutine of its own.  The
    listeners ask the resolver, which looks into the cache and the configuration and
    consults the firewall; what it leaves open is forwarded to an upstream resolver,
    and the answers are checked (0x20 names, DNSSEC, addresses) before they are
    relayed.  The HTTP and SNI proxies choose a host section by
    name, apply the firewall and the outbound policy to the address, and exchange
    the request or tunnel the connection, the former under a circuit breaker per
    host.  Everything reports to the audit log.

    ** Files

    - [Prelude]: the type [go] of outcomes (return, panic, hang), bytes, slices,
      big-endian words, tactics, hints and shared lemmas.
    - [GoStrings], [NetIP], [Platform]: what the code uses of Go's [strings],
      [unicode/utf8], [encoding/hex], [strconv], [net] and [net/url].  Case mapping
      beyond ASCII, URL parsing and the iteration order of maps are classes
      ([Unicode], [Url], [MapRange]).
    - [JsonText]: the text of [encoding/json]: a parser from bytes to trees, with
      the escapes, the limit of nesting and the repair of ill-formed UTF-8, and the
      printers, compact and indented.  Parsing ends on every input and inverts
      printing.
    - [GoText]: [strconv.Atoi], the verb [%q], query strings, [filepath.Join].
    - [Config]: the records of [pkg/config/types.go].
    - [Json]: what [encoding/json] does with the tags of those records: keys up to
      letter case, [null], [omitempty], and values of type [interface{}], whose
      numbers are floating-point.  Decoding inverts encoding, also by way of an
      [interface{}] for integers of 53 bits.
    - [JsonValues]: the strings and integers of a configuration.  What is decoded
      from any text can be encoded again.
    - [Validation]: [pkg/config/validation.go].  Accepted configurations are well
      formed, validation is idempotent, and accepted names and records fit the DNS
      encoding.
    - [Wire]: [pkg/dns/wire.go].  Names and questions survive a round trip, and
      reading terminates in bounds on every input, pointer loops included.
    - [Firewall]: [pkg/firewall/firewall.go].  The decisions refine specifications
      on addresses and labels.
    - [Circuit]: [pkg/proxy/circuit.go].  The two critical sections of [Execute] and
      a step relation in which those of any number of callers interleave with the
      clock; one trial at a time, fail-fast and recovery by induction on traces.
    - [RateLimiter]: [pkg/dns/ratelimiter.go].  Refinement of independent fixed
      windows, the bound on any interval, and the bound of the table.
    - [AuditLog], [AuditJson]: [pkg/audit].  Counters, text lines, events and the
      ring buffer, and the bytes of the JSON mode; no argument that the logger
      sanitises can break a line, and a JSON line means its payload.
    - [Cache]: [pkg/dns/cache.go].  Refinement of an LRU map with expiry, the TTL
      rewriter, and keys that collide only if the hash does.
    - [Server]: [pkg/dns/server.go] and the address scan of [handler.go].  What a
      query is answered, also after any history of the cache.
    - [Dnssec]: [pkg/dns/dnssec.go], with the algorithms as the class [Crypto].  Key
      tags, canonical data and accepted signatures against the RFCs.
    - [Query0x20], [Handler]: [pkg/dns/handler.go].  The forwarding table and the
      UDP, TCP and HTTPS paths, each from the bytes received to the bytes sent; a
      ledger of the forwarded queries says which reply answers which.
    - [Secrets]: [pkg/crypto/crypto.go], with the ciphers as the class [Aead], whose
      laws are those of AES-256-GCM: keys of 32 bytes and nonces of 12.
    - [HttpProxy]: [pkg/proxy/http.go], over the class [Net].  Outbound policy,
      header rules, loop tokens, breaker table, body limit, faults, tunnels.
    - [Sni]: [pkg/proxy/sni.go].  The ClientHello parser against the structure of
      the message, the decision, and the replay of the bytes read.
    - [ControlPlane]: [pkg/controlplane/controlplane.go].  Authentication, replay
      protection, the atomic replacement of the configuration, secrets at rest.
    - [StoredConfig]: the configuration on its way from request to file and back;
      the file keeps meaning the control plane's configuration.
    - [Regex]: what the code uses of [regexp], as a matcher with Go's preference for
      the left alternative and the longer repetition, sound and complete for the
      language of the expression.
    - [DockerLogs], [Strace]: [pkg/controlplane/docker_logs.go].  Discovery, frames
      and the cleaning of lines; the tailing of trace files, the expressions that
      reformat a trace line, and the loop that starts and stops one stream per
      container.
    - [Daemon]: [main.go].  Start, stop, reload with roll-back, [config set], and
      the key of the control plane, each service seen by its success or error.
    - [Services]: the same over a table of sockets: the [Start] and [Stop] of
      [pkg/dns/handler.go], [pkg/proxy/http.go], [pkg/proxy/sni.go] and
      [controlplane.go], TLS material, accept and read loops, the garbage collector
      of the limiter, and [Start], [Stop] and [Reload] of [main.go].  [serving] is
      about the sockets that [Start] binds itself (DNS, DNS over TLS, SNI); those
      that it binds in goroutines (HTTP, DNS over HTTPS) are those of [online] and,
      after [settle], of [allBound].
    - [Reload]: updates whose reload goroutines interleave, as a step relation.
    - [Cli]: the commands of [main.go]: flags, [init], [config], [start], shutdown.
    - [Restart]: the control plane between the start of one process and the next.

    Definitions have the names of the source, with a prefix where one name occurs
    in several files ([httpStop], [sniStop], [cpServeHTTP]); a part of a function
    that is a definition of its own is named after what it does.  A struct is a
    record, a mutex-protected method is a function from state to state, an error
    result is a sum or an option, and log calls are part of the result ([call]).

    ** Groups of theorems

    Policy: no name or address that is denied is answered, relayed or dialled
    ([Server], [Handler], [HttpProxy], [Sni]).  For the two proxies this is said of
    the whole handler: putting the network behind a filter that refuses every
    denied address changes no outcome.  Totality: every parser of untrusted bytes
    returns ([Wire], [Cache], [Dnssec], [Handler], [Sni], [DockerLogs]).
    Refinement: the cache, the limiter, the firewall, the ClientHello parser and
    the frame reader implement abstract specifications.  Authority: only an
    authenticated, fresh request changes the configuration, and it does so entirely
    or not at all ([ControlPlane]); a process that starts from the file has the
    configuration that the control plane had ([StoredConfig], [Restart]), which after
    a reload that was rolled back is newer than the one served.  Texts: configurations, log lines and the values
    of [config set] survive their JSON, byte for byte ([JsonText], [Json],
    [JsonValues], [AuditJson], [Cli]).  Life cycle, for configurations whose
    ports are valid, distinct and not taken by others ([bindable]): a failed reload
    goes back and sockets are neither lost nor leaked ([Daemon], [Services]); a lone
    update is served under every schedule, while overlapping ones can be lost
    ([Reload]); what [init], [config set] and an update write is what the next
    [start] serves, and a signal releases every socket ([Cli]).  Telemetry: every complete line of a trace file is delivered
    once and in order, and reported as the trace says ([Strace]).  Defects that the
    models show are theorems too, each with a concrete case.

    ** Fuel

    Loops that are not structural take fuel and return [Hang] without it; the
    totality theorems show that the fuel that the callers give is enough.  It is
    the length of the input where each round consumes input (names, runes, frames,
    lines, TCP messages; twice the length in the JSON parser, whose brackets and
    commas cost a round each), the number of permitted jumps plus the length in
    [ReadDomainName], 52 in [extensionsLoop] (the counter stops it at 51), and the
    requested length in [HKDF].  [Regex] needs none: the expressions repeat single
    characters only, and a repetition recurs on the text.  Lists of
    random draws stand for the loops that pick an identifier, and lists of events for
    the loops that wait for the network, a timer or a signal.

    ** Not modelled

    Deadlines, TLS hand-shakes and the copying of an established tunnel, which are
    the network's; the rounding of numbers that are no small integer and the wording
    of JSON errors (class [JsonLib]); which file operations fail (class [Machine],
    [Ambient]); the texts of the usage and of the dashboard ([dashboard.go] is one
    HTML constant, handed to the model as a value); the formatting of the clock; the
    headers that [net/http] adds to an answer by itself, and what is left behind by a
    handler that panics, which [net/http] recovers.  A slice or map is nil or empty
    without a difference, so that a configuration without hosts is written [{}] where Go
    writes [null] before validation.  Handlers of one connection are atomic except where
    a step relation says otherwise ([Circuit], the table of [Handler], [Reload]); in
    particular the clock of the proof of work is read with its lock held. *)

From stdpp Require Export strings base numbers option gmap list.

#[global] Open Scope Z_scope.
#[global] Set Default Goal Selector "!".

(** ** The outcome of running Go code

    [Ret a] is a normal return, [Panic] a run-time panic (index or slice out of
    range, write to a nil map, close of a closed channel), [Hang] a loop that
    used up the fuel of the model.  A theorem that a routine is total says that
    it is some [Ret]. *)
Inductive go (A : Type) : Type :=
| Ret (a : A)
| Panic
| Hang.
Arguments Ret {A} a.
Arguments Panic {A}.
Arguments Hang {A}.

#[export] Instance go_ret : MRet go := fun A a => Ret a.
#[export] Instance go_bind : MBind go := fun A B f m =>
  match m with Ret a => f a | Panic => Panic | Hang => Hang end.
#[export] Instance go_fmap : FMap go := fun A B f m =>
  match m with Ret a => Ret (f a) | Panic => Panic | Hang => Hang end.

(** [go_run m] forgets why a run failed. *)
Definition go_run {A} (m : go A) : option A :=
  match m with Ret a => Some a | _ => None end.

(** A loop [for ; n > 0; n-- { s = body(s) }] whose body may panic. *)
Fixpoint go_iter {S} (n : nat) (body : S -> go S) (s : S) : go S :=
  match n with
  | O => Ret s
  | S n => s' ← body s; go_iter n body s'
  end.

(** ** Bytes, slices and strings

    A byte is an integer in [0, 256); a [[]byte] and a Go string are both lists
    of bytes, so that the conversions between them are the identity.  Go [int]
    values (lengths and offsets) are integers: every one of them is bounded by a
    slice length or a 16-bit count, far below the width of [int]. *)
Abbreviation bytes := (list Z).
Abbreviation gostring := (list Z).

Definition is_byte (b : Z) : Prop := 0 <= b < 256.
Abbreviation bytes_ok := (Forall is_byte).

#[export] Instance is_byte_dec b : Decision (is_byte b).
Proof. unfold is_byte. apply _. Defined.

Definition len {A} (l : list A) : Z := Z.of_nat (length l).

(** String literals, as the bytes of the source text. *)
Definition byte_of_ascii (a : Ascii.ascii) : Z := Z.of_N (Ascii.N_of_ascii a).
Fixpoint gs (s : string) : gostring :=
  match s with
  | EmptyString => []
  | String a s => byte_of_ascii a :: gs s
  end.
Coercion gs : string >-> list.

(** [b[i]] *)
Definition index (b : bytes) (i : Z) : go Z :=
  if decide (0 <= i < len b) then Ret (nth (Z.to_nat i) b 0) else Panic.

(** [b[lo:hi]]; the capacity of a slice is taken to be its length. *)
Definition slice (b : bytes) (lo hi : Z) : go bytes :=
  if decide (0 <= lo <= hi /\ hi <= len b)
  then Ret (take (Z.to_nat (hi - lo)) (drop (Z.to_nat lo) b))
  else Panic.

(** The effect of writing [d] over [b] from position [o], within [b]. *)
Definition overwrite (o : nat) (d b : bytes) : bytes :=
  take o b ++ take (length b - o) d ++ drop (o + length d) b.

(** [copy(b[o:], d)] *)
Definition copy_at (b : bytes) (o : Z) (d : bytes) : go bytes :=
  if decide (0 <= o <= len b) then Ret (overwrite (Z.to_nat o) d b) else Panic.

(** ** Fixed-width integers and [encoding/binary.BigEndian] *)
Definition uint8 (v : Z) : Z := v mod 2 ^ 8.
Definition uint16 (v : Z) : Z := v mod 2 ^ 16.
Definition uint32 (v : Z) : Z := v mod 2 ^ 32.

Definition be16 (v : Z) : bytes := [uint8 (v / 256); uint8 v].
Definition be32 (v : Z) : bytes :=
  [uint8 (v / 16777216); uint8 (v / 65536); uint8 (v / 256); uint8 v].
Definition of_be16 (a b : Z) : Z := a * 256 + b.
Definition of_be32 (a b c d : Z) : Z := a * 16777216 + b * 65536 + c * 256 + d.

(** [binary.BigEndian.Uint16(b[o:])] and [Uint32]. *)
Definition get_uint16 (b : bytes) (o : Z) : go Z :=
  if decide (0 <= o /\ o + 2 <= len b)
  then Ret (of_be16 (nth (Z.to_nat o) b 0) (nth (Z.to_nat (o + 1)) b 0))
  else Panic.
Definition get_uint32 (b : bytes) (o : Z) : go Z :=
  if decide (0 <= o /\ o + 4 <= len b)
  then Ret (of_be32 (nth (Z.to_nat o) b 0) (nth (Z.to_nat (o + 1)) b 0)
                    (nth (Z.to_nat (o + 2)) b 0) (nth (Z.to_nat (o + 3)) b 0))
  else Panic.

(** [binary.BigEndian.PutUint16(b[o:], v)] and [PutUint32]. *)
Definition put_uint16 (b : bytes) (o v : Z) : go bytes :=
  if decide (0 <= o /\ o + 2 <= len b)
  then Ret (overwrite (Z.to_nat o) (be16 v) b) else Panic.
Definition put_uint32 (b : bytes) (o v : Z) : go bytes :=
  if decide (0 <= o /\ o + 4 <= len b)
  then Ret (overwrite (Z.to_nat o) (be32 v) b) else Panic.

(** ** Tactics and hint databases *)

(** [go_cases]: case analysis on every test of the goal or of a hypothesis, with
    the contradictory cases closed. *)
Ltac go_cases :=
  repeat (first [ case_decide | case_match ]; simplify_eq/=; try done; try lia).

(** Step over a test whose outcome follows by arithmetic. *)
Ltac go_if :=
  match goal with
  | |- context [decide ?P] =>
      first [ rewrite (decide_True (P:=P)) by lia | rewrite (decide_False (P:=P)) by lia ]
  end.

Create HintDb ottergate.
#[global] Create Rewrite HintDb lens.
#[global] Hint Rewrite @length_app @length_take @length_drop @length_map
  @length_replicate @length_cons : lens.

(** Normalise [len] to lengths of the parts, then arithmetic. *)
Ltac len_solve :=
  unfold len in *; autorewrite with lens in *; simpl length in *; lia.

(** ** Shared lemmas *)

Lemma bind_Ret {A B} (a : A) (f : A -> go B) : (x ← Ret a; f x) = f a.
Proof. done. Qed.

Lemma Ret_inj {A} (a b : A) : Ret a = Ret b -> a = b.
Proof. by intros [= ->]. Qed.

Lemma bind_Ret_inv {A B} (m : go A) (f : A -> go B) b :
  (x ← m; f x) = Ret b -> exists a, m = Ret a /\ f a = Ret b.
Proof. destruct m; try done. eauto. Qed.

Lemma len_nonneg {A} (l : list A) : 0 <= len l.
Proof. unfold len. lia. Qed.
#[export] Hint Resolve len_nonneg : ottergate.

Lemma len_app {A} (l k : list A) : len (l ++ k) = len l + len k.
Proof. len_solve. Qed.
Lemma len_cons {A} (x : A) l : len (x :: l) = 1 + len l.
Proof. len_solve. Qed.
Lemma len_nil {A} : len (@nil A) = 0.
Proof. done. Qed.
#[global] Hint Rewrite @len_app @len_cons @len_nil : lens.

Lemma index_Ret b i : 0 <= i < len b -> index b i = Ret (nth (Z.to_nat i) b 0).
Proof. intros. unfold index. by go_if. Qed.

Lemma slice_Ret b lo hi :
  0 <= lo <= hi -> hi <= len b ->
  slice b lo hi = Ret (take (Z.to_nat (hi - lo)) (drop (Z.to_nat lo) b)).
Proof. intros. unfold slice. by go_if. Qed.

(** Reading inside [p ++ x :: q] and slicing [x] out of [p ++ x ++ q]. *)
Lemma index_app_mid (p q : bytes) x : index (p ++ x :: q) (len p) = Ret x.
Proof.
  rewrite index_Ret by (autorewrite with lens; pose proof (len_nonneg q); pose proof (len_nonneg p); lia).
  unfold len. rewrite Nat2Z.id, app_nth2, Nat.sub_diag by lia. done.
Qed.

Lemma slice_app_mid (p x q : bytes) : slice (p ++ x ++ q) (len p) (len p + len x) = Ret x.
Proof.
  rewrite slice_Ret by (pose proof (len_nonneg p); pose proof (len_nonneg x); pose proof (len_nonneg q);
    autorewrite with lens; lia).
  unfold len. rewrite Nat2Z.id. replace (Z.to_nat (_ - _)) with (length x) by lia.
  by rewrite drop_app_length, take_app_length.
Qed.

Lemma nth_app_len (p q : bytes) k :
  (k < length q)%nat -> nth (Z.to_nat (len p + Z.of_nat k)) (p ++ q) 0 = nth k q 0.
Proof. intros. unfold len. rewrite app_nth2 by lia. f_equal. lia. Qed.

Lemma uint8_byte v : is_byte (uint8 v).
Proof. unfold is_byte, uint8. apply Z.mod_pos_bound. lia. Qed.
Lemma uint8_id v : is_byte v -> uint8 v = v.
Proof. intros. apply Z.mod_small. done. Qed.
#[export] Hint Resolve uint8_byte : ottergate.

Lemma be16_ok v : bytes_ok (be16 v).
Proof. repeat constructor; auto with ottergate; apply uint8_byte. Qed.
Lemma be32_ok v : bytes_ok (be32 v).
Proof. repeat constructor; apply uint8_byte. Qed.
#[export] Hint Resolve be16_ok be32_ok : ottergate.

Lemma of_be16_be16 v :
  of_be16 (uint8 (v / 256)) (uint8 v) = uint16 v.
Proof. unfold of_be16, uint8, uint16. Z.div_mod_to_equations. lia. Qed.

Lemma of_be32_be32 v :
  of_be32 (uint8 (v / 16777216)) (uint8 (v / 65536)) (uint8 (v / 256)) (uint8 v) = uint32 v.
Proof. unfold of_be32, uint8, uint32. Z.div_mod_to_equations. lia. Qed.

Lemma be16_of_be16 a b : is_byte a -> is_byte b -> be16 (of_be16 a b) = [a; b].
Proof.
  unfold be16, of_be16, is_byte, uint8. intros.
  repeat f_equal; Z.div_mod_to_equations; lia.
Qed.

Lemma of_be16_range a b : is_byte a -> is_byte b -> 0 <= of_be16 a b < 65536.
Proof. unfold is_byte, of_be16. lia. Qed.

(** Reading a 16- or 32-bit word written in the middle of a buffer. *)
Lemma get_uint16_app (p q : bytes) v :
  get_uint16 (p ++ be16 v ++ q) (len p) = Ret (uint16 v).
Proof.
  unfold get_uint16. rewrite decide_True.
  - replace (len p) with (len p + Z.of_nat 0) at 1 by lia.
    replace (len p + 1) with (len p + Z.of_nat 1) by lia.
    rewrite !nth_app_len by (simpl; lia). simpl. by rewrite of_be16_be16.
  - pose proof (len_nonneg p). pose proof (len_nonneg q). autorewrite with lens. unfold be16.
    autorewrite with lens. lia.
Qed.

Lemma get_uint32_app (p q : bytes) v :
  get_uint32 (p ++ be32 v ++ q) (len p) = Ret (uint32 v).
Proof.
  unfold get_uint32. rewrite decide_True.
  - replace (len p) with (len p + Z.of_nat 0) at 1 by lia.
    replace (len p + 1) with (len p + Z.of_nat 1) by lia.
    replace (len p + 2) with (len p + Z.of_nat 2) by lia.
    replace (len p + 3) with (len p + Z.of_nat 3) by lia.
    rewrite !nth_app_len by (simpl; lia). simpl. by rewrite of_be32_be32.
  - pose proof (len_nonneg p). pose proof (len_nonneg q). autorewrite with lens. unfold be32.
    autorewrite with lens. lia.
Qed.

Lemma overwrite_length o d b : length (overwrite o d b) = length b \/ (length b < o)%nat.
Proof. unfold overwrite. autorewrite with lens. lia. Qed.

(** Overwriting a part of the same length replaces exactly that part. *)
Lemma overwrite_mid (p x q d : bytes) :
  length d = length x -> overwrite (length p) d (p ++ x ++ q) = p ++ d ++ q.
Proof.
  intros Hd. unfold overwrite. rewrite take_app_length. f_equal.
  rewrite (take_ge d) by (autorewrite with lens; lia). f_equal.
  by rewrite <- drop_drop, drop_app_length, Hd, drop_app_length.
Qed.

Lemma nth_bytes_ok (b : bytes) i : bytes_ok b -> is_byte (nth i b 0).
Proof.
  intros Hb. destruct (decide (i < length b)%nat) as [Hi|Hi].
  - apply Forall_nth with (d:=0) (1:=Hb) (2:=Hi).
  - rewrite nth_overflow by lia. unfold is_byte. lia.
Qed.

Lemma Forall_filter_1 {A} (P Q : A -> Prop) `{!forall x, Decision (Q x)} (l : list A) :
  Forall P l -> Forall P (filter Q l).
Proof. rewrite !Forall_forall. intros HP x [_ Hx]%list_elem_of_filter. by apply HP. Qed.

Lemma filter_all {A} (P : A -> Prop) `{!forall x, Decision (P x)} (l : list A) : Forall P l -> filter P l = l.
Proof. induction 1 as [|x l Hx Hl IH]; [done|]. rewrite filter_cons_True by done. by rewrite IH. Qed.

Lemma existsb_true {A} (f : A -> bool) (l : list A) :
  existsb f l = true <-> exists x, x ∈ l /\ f x = true.
Proof. rewrite existsb_exists. by setoid_rewrite list_elem_of_In. Qed.

Lemma existsb_false {A} (f : A -> bool) (l : list A) :
  existsb f l = false <-> forall x, x ∈ l -> f x = false.
Proof.
  rewrite <- not_true_iff_false, existsb_true. split.
  - intros H x Hx. apply not_true_iff_false. eauto.
  - intros H (x & Hx & E). by rewrite H in E.
Qed.

Lemma gs_bytes_ok s : bytes_ok (gs s).
Proof.
  induction s as [|a s IH]; simpl; constructor; [|done].
  unfold is_byte, byte_of_ascii. pose proof (Ascii.N_ascii_bounded a). lia.
Qed.
#[export] Hint Resolve gs_bytes_ok : ottergate.

(** Writing a word over a part of its width. *)
Lemma put_uint16_app (p x q : bytes) v :
  length x = 2%nat -> put_uint16 (p ++ x ++ q) (len p) v = Ret (p ++ be16 v ++ q).
Proof.
  intros Hx. unfold put_uint16. rewrite decide_True by len_solve. unfold len. rewrite Nat2Z.id.
  by rewrite overwrite_mid.
Qed.
Lemma put_uint32_app (p x q : bytes) v :
  length x = 4%nat -> put_uint32 (p ++ x ++ q) (len p) v = Ret (p ++ be32 v ++ q).
Proof.
  intros Hx. unfold put_uint32. rewrite decide_True by len_solve. unfold len. rewrite Nat2Z.id.
  by rewrite overwrite_mid.
Qed.
Lemma copy_at_app (p x d : bytes) : length d = length x -> copy_at (p ++ x) (len p) d = Ret (p ++ d).
Proof.
  intros Hd. unfold copy_at. rewrite decide_True by len_solve. unfold len. rewrite Nat2Z.id.
  pose proof (overwrite_mid p x [] d Hd) as E. rewrite !app_nil_r in E. by rewrite E.
Qed.

Lemma be16_uint16 v : be16 (uint16 v) = be16 v.
Proof.
  unfold be16, uint16, uint8. change (2 ^ 16) with 65536. change (2 ^ 8) with 256.
  f_equal; [|f_equal]; Z.div_mod_to_equations; lia.
Qed.

(** Reads whose bounds were checked. *)
Lemma get_uint16_total b o : bytes_ok b -> 0 <= o -> o + 2 <= len b -> exists v, get_uint16 b o = Ret v /\ 0 <= v < 65536.
Proof.
  intros Hb H1 H2. unfold get_uint16. rewrite decide_True by done. eexists. split; [done|].
  apply of_be16_range; by apply nth_bytes_ok.
Qed.

Lemma index_total data o : bytes_ok data -> 0 <= o < len data -> exists v, index data o = Ret v /\ is_byte v.
Proof. intros Hd Ho. rewrite index_Ret by done. eexists. split; [done|]. by apply nth_bytes_ok. Qed.

Lemma slice_head (a b : bytes) : slice (a ++ b) 0 (len a) = Ret a.
Proof. rewrite slice_Ret by len_solve. rewrite Z.sub_0_r, drop_0. unfold len. by rewrite Nat2Z.id, take_app_length. Qed.

Lemma slice_tail (a b : bytes) : slice (a ++ b) (len a) (len (a ++ b)) = Ret b.
Proof.
  rewrite slice_Ret by len_solve. rewrite len_app. replace (len a + len b - len a) with (len b) by lia. unfold len.
  by rewrite !Nat2Z.id, drop_app_length, firstn_all.
Qed.
