(* ===== verification/GoStrings.v ===== *)
(** * The parts of Go's [strings], [strconv], [encoding/hex] and [unicode/utf8]
    packages that Ottergate uses, on byte lists, with their algebra.

    The simple case tables of package [unicode] beyond ASCII are data that are
    not part of the repository: they are the class [Unicode], about which nothing
    is assumed. *)
From S2P Require Import Prelude.

(** ** [strings] *)

(** [strings.Split(s, sep)] for a one-byte separator. *)
Fixpoint Split (s : gostring) (sep : Z) : list gostring :=
  match s with
  | [] => [[]]
  | c :: s =>
      if decide (c = sep) then [] :: Split s sep
      else match Split s sep with
           | [] => [[c]]
           | h :: t => (c :: h) :: t
           end
  end.

(** [strings.Join(ls, sep)] *)
Fixpoint Join (ls : list gostring) (sep : gostring) : gostring :=
  match ls with
  | [] => []
  | [l] => l
  | l :: ls => l ++ sep ++ Join ls sep
  end.

Definition HasPrefix (s p : gostring) : bool := bool_decide (p `prefix_of` s).
Definition HasSuffix (s p : gostring) : bool := bool_decide (p `suffix_of` s).
Definition TrimSuffix (s p : gostring) : gostring :=
  if HasSuffix s p then take (length s - length p) s else s.
Definition TrimPrefix (s p : gostring) : gostring :=
  if HasPrefix s p then drop (length p) s else s.

(** [strings.Contains] and [strings.Index]; [None] stands for -1. *)
Fixpoint Index (s sub : gostring) : option Z :=
  if HasPrefix s sub then Some 0
  else match s with
       | [] => None
       | _ :: s => Z.succ <$> Index s sub
       end.
Definition Contains (s sub : gostring) : bool := bool_decide (is_Some (Index s sub)).
Definition ContainsAny (s cs : gostring) : bool := existsb (fun c => bool_decide (c ∈ cs)) s.
Definition IndexByte (s : gostring) (c : Z) : option Z := Index s [c].

Abbreviation dot := 46.
Abbreviation colon := 58.

(** ** [unicode/utf8] *)

Definition RuneError : Z := 65533.
Definition is_cont (b : Z) : bool := bool_decide (128 <= b <= 191).

(** [utf8.DecodeRuneInString]: the rune and its width; every ill-formed byte is
    [RuneError] with width 1. *)
Definition DecodeRune (s : bytes) : option (Z * nat) :=
  match s with
  | [] => None
  | b0 :: t =>
      if decide (b0 < 128) then Some (b0, 1%nat)
      else if decide (194 <= b0 <= 223) then
        match t with
        | b1 :: _ => if is_cont b1 then Some ((b0 - 192) * 64 + (b1 - 128), 2%nat)
                     else Some (RuneError, 1%nat)
        | _ => Some (RuneError, 1%nat)
        end
      else if decide (224 <= b0 <= 239) then
        match t with
        | b1 :: b2 :: _ =>
            let lo := if decide (b0 = 224) then 160 else 128 in
            let hi := if decide (b0 = 237) then 159 else 191 in
            if bool_decide (lo <= b1 <= hi) && is_cont b2
            then Some ((b0 - 224) * 4096 + (b1 - 128) * 64 + (b2 - 128), 3%nat)
            else Some (RuneError, 1%nat)
        | _ => Some (RuneError, 1%nat)
        end
      else if decide (240 <= b0 <= 244) then
        match t with
        | b1 :: b2 :: b3 :: _ =>
            let lo := if decide (b0 = 240) then 144 else 128 in
            let hi := if decide (b0 = 244) then 143 else 191 in
            if bool_decide (lo <= b1 <= hi) && is_cont b2 && is_cont b3
            then Some ((b0 - 240) * 262144 + (b1 - 128) * 4096 + (b2 - 128) * 64 + (b3 - 128), 4%nat)
            else Some (RuneError, 1%nat)
        | _ => Some (RuneError, 1%nat)
        end
      else Some (RuneError, 1%nat)
  end.

(** The runes a [for _, r := range s] loop visits. *)
Fixpoint runes_fuel (n : nat) (s : bytes) : list Z :=
  match n with
  | O => []
  | S n => match DecodeRune s with
           | None => []
           | Some (r, w) => r :: runes_fuel n (drop w s)
           end
  end.
Definition runes (s : bytes) : list Z := runes_fuel (length s) s.

(** [strings.Builder.WriteRune] *)
Definition EncodeRune (r : Z) : bytes :=
  if decide (0 <= r < 128) then [r]
  else if decide (128 <= r < 2048) then [192 + r / 64; 128 + r mod 64]
  else if decide (2048 <= r < 65536 /\ ~ (55296 <= r <= 57343)) then
    [224 + r / 4096; 128 + (r / 64) mod 64; 128 + r mod 64]
  else if decide (65536 <= r < 1114112) then
    [240 + r / 262144; 128 + (r / 4096) mod 64; 128 + (r / 64) mod 64; 128 + r mod 64]
  else [239; 191; 189].

(** ** Letter case *)

Class Unicode := {
  unicode_ToLower : Z -> Z;
  unicode_ToUpper : Z -> Z;
  unicode_IsPrint : Z -> bool;      (* beyond ASCII *)
}.

Definition ascii_lower (c : Z) : Z := if decide (65 <= c <= 90) then c + 32 else c.
Definition ascii_upper (c : Z) : Z := if decide (97 <= c <= 122) then c - 32 else c.
Definition is_ascii (s : bytes) : bool := forallb (fun c => bool_decide (c < 128)) s.

(** A concrete instance, used where a statement is evaluated. *)
Definition ascii_unicode : Unicode :=
  {| unicode_ToLower := ascii_lower; unicode_ToUpper := ascii_upper; unicode_IsPrint := fun _ => false |}.

Section Case.
Context {U : Unicode}.

(** [strings.ToLower] and [strings.ToUpper]: bytewise on ASCII strings,
    otherwise rune by rune, an ill-formed byte becoming U+FFFD. *)
Definition ToLower (s : gostring) : gostring :=
  if is_ascii s then map ascii_lower s
  else flat_map (fun r => EncodeRune (if decide (r < 128) then ascii_lower r else unicode_ToLower r)) (runes s).

Definition ToUpper (s : gostring) : gostring :=
  if is_ascii s then map ascii_upper s
  else flat_map (fun r => EncodeRune (if decide (r < 128) then ascii_upper r else unicode_ToUpper r)) (runes s).
End Case.

(** ** [encoding/hex] *)

Definition hex_digit (n : Z) : Z := if decide (n < 10) then 48 + n else 87 + n.
Definition HexEncode (b : bytes) : gostring :=
  flat_map (fun x => [hex_digit (x / 16); hex_digit (x mod 16)]) b.

Definition from_hex_char (c : Z) : option Z :=
  if decide (48 <= c <= 57) then Some (c - 48)
  else if decide (97 <= c <= 102) then Some (c - 87)
  else if decide (65 <= c <= 70) then Some (c - 55)
  else None.

(** [hex.DecodeString]; [None] is the error result. *)
Fixpoint HexDecode (s : gostring) : option bytes :=
  match s with
  | [] => Some []
  | a :: b :: s =>
      x ← from_hex_char a; y ← from_hex_char b;
      r ← HexDecode s; Some (x * 16 + y :: r)
  | _ => None
  end.

(** ** Decimal numbers ([%d] of a non-negative integer) *)
Fixpoint itoa_fuel (f : nat) (n : Z) : gostring :=
  match f with
  | O => []
  | S f => if decide (n < 10) then [48 + n] else itoa_fuel f (n / 10) ++ [48 + n mod 10]
  end.
Definition itoa (n : Z) : gostring := itoa_fuel (S (Z.to_nat (Z.log2 n))) n.

(** [%d] of any integer. *)
Definition fmt_d (n : Z) : gostring := if decide (n < 0) then gs "-" ++ itoa (- n) else itoa n.

(** The value of a digit string. *)
Definition dec_val (ds : gostring) : Z := foldl (fun a d => a * 10 + (d - 48)) 0 ds.

(** ** Lemmas *)

Lemma Split_nonnil s sep : Split s sep <> [].
Proof. induction s as [|c s IH]; simpl; [done|]. by repeat case_match. Qed.

Lemma Split_no_sep s sep : Forall (fun l => sep ∉ l) (Split s sep).
Proof.
  induction s as [|c s IH]; simpl.
  - repeat constructor. apply not_elem_of_nil.
  - case_decide; [constructor; [apply not_elem_of_nil|done]|].
    destruct (Split s sep) as [|h t]; [repeat constructor; set_solver|].
    apply Forall_cons_1 in IH as [? ?]. constructor; [set_solver|done].
Qed.

Lemma Join_Split s sep : Join (Split s sep) [sep] = s.
Proof.
  induction s as [|c s IH]; simpl; [done|].
  pose proof (Split_nonnil s sep).
  destruct (Split s sep) as [|h t]; [done|]. rewrite <- IH.
  case_decide; subst; [done|]. by destruct t.
Qed.

Lemma Split_one l sep : sep ∉ l -> Split l sep = [l].
Proof.
  induction l as [|c l IH]; simpl; [done|]. intros Hn.
  rewrite decide_False by set_solver. rewrite IH by set_solver. done.
Qed.

Lemma Split_app l sep s : sep ∉ l -> Split (l ++ sep :: s) sep = l :: Split s sep.
Proof.
  induction l as [|c l IH]; simpl; intros Hn.
  - by rewrite decide_True.
  - rewrite decide_False by set_solver. rewrite IH by set_solver. done.
Qed.

Lemma Split_Join ls sep :
  ls <> [] -> Forall (fun l => sep ∉ l) ls -> Split (Join ls [sep]) sep = ls.
Proof.
  intros Hne Hall. induction Hall as [|l ls Hl Hall IH]; [done|].
  destruct ls as [|l2 ls]; [by apply Split_one|].
  change (Join (l :: l2 :: ls) [sep]) with (l ++ sep :: Join (l2 :: ls) [sep]).
  rewrite Split_app by done. by rewrite IH.
Qed.

Lemma Split_app_sep a b sep : Split (a ++ sep :: b) sep = Split a sep ++ Split b sep.
Proof.
  induction a as [|c a IH]; simpl; [by rewrite decide_True|].
  rewrite IH. case_decide; [done|]. pose proof (Split_nonnil a sep). by destruct (Split a sep).
Qed.

Lemma Split_piece_len s sep : Forall (fun l => len l <= len s) (Split s sep).
Proof.
  induction s as [|c s IH]; simpl; [by repeat constructor|].
  assert (IH' : Forall (fun l => len l <= len (c :: s)) (Split s sep)).
  { eapply Forall_impl; [exact IH|]. intros. simpl in *. len_solve. }
  case_decide; [constructor; [len_solve|done]|].
  destruct (Split s sep) as [|h t]; [repeat constructor; len_solve|].
  apply Forall_cons_1 in IH as [? _]. apply Forall_cons_1 in IH' as [_ ?].
  constructor; [len_solve|done].
Qed.

Lemma Join_cons2 (l l2 : gostring) ls sep :
  Join (l :: l2 :: ls) sep = l ++ sep ++ Join (l2 :: ls) sep.
Proof. done. Qed.

Lemma HasPrefix_true s p : HasPrefix s p = true <-> exists t, s = p ++ t.
Proof. unfold HasPrefix. rewrite bool_decide_eq_true. done. Qed.

Lemma HasSuffix_true s p : HasSuffix s p = true <-> exists t, s = t ++ p.
Proof. unfold HasSuffix. rewrite bool_decide_eq_true. done. Qed.

Lemma TrimSuffix_app s p : TrimSuffix (s ++ p) p = s.
Proof.
  unfold TrimSuffix. replace (HasSuffix (s ++ p) p) with true.
  - rewrite length_app, Nat.add_sub. apply take_app_length.
  - symmetry. apply HasSuffix_true. by exists s.
Qed.

Lemma TrimSuffix_no s p : HasSuffix s p = false -> TrimSuffix s p = s.
Proof. unfold TrimSuffix. by intros ->. Qed.

Lemma ascii_lower_idemp c : ascii_lower (ascii_lower c) = ascii_lower c.
Proof. unfold ascii_lower. go_cases. Qed.

Lemma ascii_lower_lt c : c < 128 -> ascii_lower c < 128.
Proof. unfold ascii_lower. go_cases. Qed.

Lemma is_ascii_Forall s : is_ascii s = true <-> Forall (fun c => c < 128) s.
Proof.
  unfold is_ascii. induction s as [|c s IH]; simpl; [split; [constructor|done]|].
  rewrite andb_true_iff, IH, bool_decide_eq_true, List.Forall_cons_iff. done.
Qed.

Section CaseLemmas.
Context {U : Unicode}.

Lemma ToLower_ascii s : is_ascii s = true -> ToLower s = map ascii_lower s.
Proof. unfold ToLower. by intros ->. Qed.

Lemma ToLower_is_ascii s : is_ascii s = true -> is_ascii (ToLower s) = true.
Proof.
  intros H. rewrite ToLower_ascii by done. revert H.
  rewrite !is_ascii_Forall, Forall_map. intros H. eapply Forall_impl; [exact H|]. intros. by apply ascii_lower_lt.
Qed.

Lemma ToLower_idemp s : is_ascii s = true -> ToLower (ToLower s) = ToLower s.
Proof.
  intros H. rewrite (ToLower_ascii (ToLower s)) by by apply ToLower_is_ascii.
  rewrite ToLower_ascii by done. rewrite map_map. apply map_ext, ascii_lower_idemp.
Qed.
End CaseLemmas.

Lemma from_hex_digit n : 0 <= n < 16 -> from_hex_char (hex_digit n) = Some n.
Proof.
  intros. unfold hex_digit, from_hex_char.
  repeat (case_decide; try lia); f_equal; lia.
Qed.

Lemma HexDecode_Encode b : bytes_ok b -> HexDecode (HexEncode b) = Some b.
Proof.
  induction 1 as [|x b Hx Hb IH]; [done|]. unfold is_byte in Hx.
  assert (0 <= x / 16 < 16) by (split; [apply Z.div_pos|apply Z.div_lt_upper_bound]; lia).
  pose proof (Z.mod_pos_bound x 16 ltac:(lia)).
  change (HexEncode (x :: b)) with (hex_digit (x / 16) :: hex_digit (x mod 16) :: HexEncode b).
  cbn [HexDecode].
  rewrite (from_hex_digit (x / 16)), (from_hex_digit (x mod 16)) by done.
  simpl. rewrite IH. simpl. f_equal. f_equal. pose proof (Z.div_mod x 16). lia.
Qed.

Lemma HexEncode_inj a b : bytes_ok a -> bytes_ok b -> HexEncode a = HexEncode b -> a = b.
Proof.
  intros Ha Hb H. apply (f_equal HexDecode) in H.
  rewrite !HexDecode_Encode in H by done. by simplify_eq.
Qed.

Lemma hex_digit_range n : 0 <= n < 16 -> 48 <= hex_digit n <= 57 \/ 97 <= hex_digit n <= 102.
Proof. unfold hex_digit. case_decide; lia. Qed.

Lemma HexEncode_chars b :
  bytes_ok b -> Forall (fun c => 48 <= c <= 57 \/ 97 <= c <= 102) (HexEncode b).
Proof.
  induction 1 as [|x b Hx Hb IH]; [constructor|]. unfold is_byte in Hx.
  change (HexEncode (x :: b)) with (hex_digit (x / 16) :: hex_digit (x mod 16) :: HexEncode b).
  constructor; [|constructor; [|done]]; apply hex_digit_range.
  - split; [apply Z.div_pos|apply Z.div_lt_upper_bound]; lia.
  - apply Z.mod_pos_bound. lia.
Qed.

Lemma HexEncode_length b : length (HexEncode b) = (2 * length b)%nat.
Proof. induction b; simpl in *; lia. Qed.

Lemma dec_val_snoc ds d : dec_val (ds ++ [d]) = dec_val ds * 10 + (d - 48).
Proof. unfold dec_val. by rewrite foldl_snoc. Qed.

Lemma itoa_fuel_val f n : 0 <= n < 2 ^ Z.of_nat f -> dec_val (itoa_fuel f n) = n.
Proof.
  revert n. induction f as [|f IH]; intros n Hn; [change (0 = n); change (2 ^ Z.of_nat 0) with 1 in Hn; lia|].
  simpl. case_decide.
  - unfold dec_val. simpl. lia.
  - rewrite dec_val_snoc, IH.
    + pose proof (Z.div_mod n 10). lia.
    + rewrite Nat2Z.inj_succ, Z.pow_succ_r in Hn by lia.
      split; [apply Z.div_pos; lia|]. apply Z.div_lt_upper_bound; lia.
Qed.

Lemma itoa_val n : 0 <= n -> dec_val (itoa n) = n.
Proof.
  intros. unfold itoa. apply itoa_fuel_val. split; [done|].
  rewrite Nat2Z.inj_succ, Z2Nat.id by apply Z.log2_nonneg.
  destruct (decide (n = 0)) as [->|]; [done|]. apply Z.log2_spec. lia.
Qed.

Lemma itoa_inj n m : 0 <= n -> 0 <= m -> itoa n = itoa m -> n = m.
Proof. intros Hn Hm H. apply (f_equal dec_val) in H. by rewrite !itoa_val in H. Qed.

Lemma itoa_fuel_digits f n : 0 <= n -> Forall (fun c => 48 <= c <= 57) (itoa_fuel f n).
Proof.
  revert n. induction f as [|f IH]; intros n Hn; simpl; [constructor|].
  case_decide; [repeat constructor; lia|].
  apply Forall_app. split; [apply IH, Z.div_pos; lia|].
  pose proof (Z.mod_pos_bound n 10). repeat constructor; lia.
Qed.

Lemma itoa_digits n : 0 <= n -> Forall (fun c => 48 <= c <= 57) (itoa n).
Proof. apply itoa_fuel_digits. Qed.

Lemma itoa_nonnil n : itoa n <> [].
Proof. unfold itoa. simpl. case_decide; [done|]. by destruct (itoa_fuel _ _). Qed.
