(* ===== verification/NetIP.v ===== *)
(** * The parts of Go's [net] package the gateway relies on: [ParseIP],
    [IP.To4], [IP.String], [ParseCIDR] and [IPNet.Contains], as documented and
    implemented in the Go 1.22 standard library, with the print/parse round trip
    the firewall's normalisation depends on.

    A [net.IP] is its byte list: [ParseIP] always yields the 16-byte form. *)
From S2P Require Import Prelude GoStrings.

(** ** Parsing *)

Definition is_digit (c : Z) : bool := bool_decide (48 <= c <= 57).

(** [netip.parseIPv4Fields]: no leading zeros, four fields of at most 255. *)
Fixpoint parseIPv4Fields (s : gostring) (first prevdot : bool) (val digLen : Z)
    (fields : list Z) : option (list Z) :=
  match s with
  | [] => if decide (len fields < 3) then None else Some (fields ++ [val])
  | c :: s' =>
      if is_digit c then
        if decide (digLen = 1 /\ val = 0) then None
        else let val := val * 10 + (c - 48) in
             if decide (255 < val) then None
             else parseIPv4Fields s' false false val (digLen + 1) fields
      else if decide (c = dot) then
        if first || bool_decide (s' = []) || prevdot then None
        else if decide (len fields = 3) then None
        else parseIPv4Fields s' false true 0 0 (fields ++ [val])
      else None
  end.
Definition parseIPv4 (s : gostring) : option (list Z) := parseIPv4Fields s true false 0 0 [].

(** One hexadecimal field: value, number of digits, rest. *)
Fixpoint hexrun (s : gostring) (off acc : Z) : option (Z * Z * gostring) :=
  match s with
  | [] => Some (acc, off, [])
  | c :: s' =>
      match from_hex_char c with
      | None => Some (acc, off, s)
      | Some d =>
          if decide (3 < off) then None
          else let acc := acc * 16 + d in
               if decide (65535 < acc) then None else hexrun s' (off + 1) acc
      end
  end.

(** The main loop of [netip.parseIPv6]: the bytes read so far, the position of
    the ellipsis, the rest of the text. *)
Fixpoint parseIPv6Loop (f : nat) (s : gostring) (ip : list Z) (ell : option nat)
    : option (list Z * option nat * gostring) :=
  match f with
  | O => None
  | S f =>
      if decide (16 <= length ip)%nat then Some (ip, ell, s) else
      '(acc, off, rest) ← hexrun s 0 0;
      if decide (off = 0) then None
      else if bool_decide (head rest = Some dot) then
        if bool_decide (ell = None) && bool_decide (length ip <> 12%nat) then None
        else if decide (16 < length ip + 4)%nat then None
        else f4 ← parseIPv4 s; Some (ip ++ f4, ell, [])
      else
        let ip := ip ++ [acc / 256; acc mod 256] in
        match rest with
        | [] => Some (ip, ell, [])
        | c :: rest =>
            if decide (c <> colon) then None
            else match rest with
                 | [] => None
                 | c2 :: rest2 =>
                     if decide (c2 = colon) then
                       match ell, rest2 with
                       | Some _, _ => None
                       | None, [] => Some (ip, Some (length ip), [])
                       | None, _ => parseIPv6Loop f rest2 ip (Some (length ip))
                       end
                     else parseIPv6Loop f rest ip ell
                 end
        end
  end.

(** Expansion of the ellipsis. *)
Definition parseIPv6Finish (r : list Z * option nat * gostring) : option (list Z) :=
  match r with
  | (ip, ell, []) =>
      if decide (length ip < 16)%nat
      then e ← ell; Some (take e ip ++ replicate (16 - length ip) 0 ++ drop e ip)
      else if bool_decide (ell = None) then Some ip else None
  | _ => None
  end.

(** [netip.parseIPv6]; a text with a zone is never accepted by the callers. *)
Definition parseIPv6 (s : gostring) : option (list Z) :=
  if bool_decide (37 ∈ s) then None
  else if HasPrefix s [colon; colon] then
    if bool_decide (drop 2 s = []) then Some (replicate 16 0)
    else parseIPv6Loop 9 (drop 2 s) [] (Some 0%nat) ≫= parseIPv6Finish
  else parseIPv6Loop 9 s [] None ≫= parseIPv6Finish.

Inductive addr : Type := Addr4 (b : list Z) | Addr6 (b : list Z).

(** [netip.ParseAddr]: the first of [.], [:] and [%] decides the family. *)
Fixpoint parse_kind (s : gostring) : option bool :=
  match s with
  | [] => None
  | c :: s => if decide (c = dot) then Some true
              else if decide (c = colon) then Some false
              else if decide (c = 37) then None
              else parse_kind s
  end.
Definition ParseAddr (s : gostring) : option addr :=
  k ← parse_kind s;
  if (k : bool) then Addr4 <$> parseIPv4 s else Addr6 <$> parseIPv6 s.

Definition v4InV6Prefix : bytes := [0; 0; 0; 0; 0; 0; 0; 0; 0; 0; 255; 255].
Definition As16 (a : addr) : bytes :=
  match a with Addr4 b => v4InV6Prefix ++ b | Addr6 b => b end.
Definition BitLen (a : addr) : Z := match a with Addr4 _ => 32 | Addr6 _ => 128 end.

(** [net.ParseIP]; [None] is the nil result. *)
Definition ParseIP (s : gostring) : option bytes := As16 <$> ParseAddr s.

(** [IP.To4] *)
Definition To4 (ip : bytes) : option bytes :=
  if decide (length ip = 4%nat) then Some ip
  else if decide (length ip = 16%nat /\ take 12 ip = v4InV6Prefix) then Some (drop 12 ip)
  else None.

(** ** Printing *)

Definition String4 (b : bytes) : gostring := Join (map itoa b) [dot].

(** [netip.appendHex]: no leading zeros. *)
Definition hex16 (x : Z) : gostring :=
  (if decide (4096 <= x) then [hex_digit (x / 4096)] else []) ++
  (if decide (256 <= x) then [hex_digit (x / 256 mod 16)] else []) ++
  (if decide (16 <= x) then [hex_digit (x / 16 mod 16)] else []) ++
  [hex_digit (x mod 16)].

Fixpoint groups (b : bytes) : list Z :=
  match b with
  | h :: l :: b => of_be16 h l :: groups b
  | _ => []
  end.

Fixpoint leading_zeros (g : list Z) : nat :=
  match g with
  | x :: g => if decide (x = 0) then S (leading_zeros g) else O
  | [] => O
  end.

(** The leftmost longest run of at least two zero groups: start and length. *)
Definition zero_run (g : list Z) : nat * nat :=
  foldl (fun best i =>
    let l := leading_zeros (drop i g) in
    if decide (2 <= l /\ best.2 < l)%nat then (i, l) else best) (0, 0)%nat (seq 0 8).

Definition String6 (ip : bytes) : gostring :=
  let g := groups ip in
  let '(zs, zl) := zero_run g in
  if decide (zl = 0)%nat then Join (map hex16 g) [colon]
  else Join (map hex16 (take zs g)) [colon] ++ [colon; colon]
       ++ Join (map hex16 (drop (zs + zl) g)) [colon].

(** [IP.String] on 4- and 16-byte addresses. *)
Definition IPString (ip : bytes) : gostring :=
  match To4 ip with Some b => String4 b | None => String6 ip end.

(** ** CIDR blocks *)

Record IPNet := { net_IP : bytes; net_Mask : bytes }.

(** [net.dtoi] on the whole text, with its overflow limit 0xFFFFFF. *)
Fixpoint dtoi (s : gostring) (n : Z) : option Z :=
  match s with
  | [] => Some n
  | c :: s => if is_digit c then
                let n := n * 10 + (c - 48) in
                if decide (16777215 <= n) then None else dtoi s n
              else None
  end.

(** [net.CIDRMask(ones, bits)] *)
Definition CIDRMask (ones : Z) (nbytes : nat) : bytes :=
  map (fun i => let k := ones - 8 * Z.of_nat i in
                if decide (8 <= k) then 255
                else if decide (k <= 0) then 0
                else 256 - 2 ^ (8 - k)) (seq 0 nbytes).

Definition land_bytes (a m : bytes) : bytes := zip_with Z.land a m.

(** [IP.Mask] on a 16-byte address and a 4- or 16-byte mask. *)
Definition IPMask (ip mask : bytes) : bytes :=
  if decide (length mask = 4%nat /\ take 12 ip = v4InV6Prefix)
  then land_bytes (drop 12 ip) mask else land_bytes ip mask.

Definition cut (s : gostring) (c : Z) : option (gostring * gostring) :=
  i ← IndexByte s c; Some (take (Z.to_nat i) s, drop (S (Z.to_nat i)) s).

(** [net.ParseCIDR]; [None] is the error result. *)
Definition ParseCIDR (s : gostring) : option IPNet :=
  '(a, m) ← cut s 47;
  ip ← ParseAddr a;
  n ← (if bool_decide (m = []) then None else dtoi m 0);
  if decide (BitLen ip < n) then None
  else let mask := CIDRMask n (Z.to_nat (BitLen ip / 8)) in
       Some {| net_IP := IPMask (As16 ip) mask; net_Mask := mask |}.

(** [IPNet.Contains] *)
Definition Contains_ip (n : IPNet) (ip : bytes) : bool :=
  let nn := default (net_IP n) (To4 (net_IP n)) in
  let m := if decide (length (net_Mask n) = 16%nat /\ length nn = 4%nat)
           then drop 12 (net_Mask n) else net_Mask n in
  let ip := default ip (To4 ip) in
  bool_decide (length ip = length nn) && bool_decide (length m = length nn)
  && bool_decide (land_bytes nn m = land_bytes ip m).

(** ** Lemmas: printing and parsing of IPv4 addresses *)

Lemma byte_cases (P : Z -> bool) :
  forallb P (seqZ 0 256) = true -> forall b, is_byte b -> P b = true.
Proof.
  intros H b Hb. rewrite List.forallb_forall in H. apply H.
  apply list_elem_of_In, elem_of_seqZ. unfold is_byte in Hb. lia.
Qed.

Lemma itoa_byte b :
  is_byte b ->
  itoa b = if decide (b < 10) then [48 + b]
           else if decide (b < 100) then [48 + b / 10; 48 + b mod 10]
           else [48 + b / 100; 48 + b / 10 mod 10; 48 + b mod 10].
Proof.
  intros Hb. eapply bool_decide_eq_true_1.
  refine (byte_cases (fun b => bool_decide (itoa b =
    if decide (b < 10) then [48 + b]
    else if decide (b < 100) then [48 + b / 10; 48 + b mod 10]
    else [48 + b / 100; 48 + b / 10 mod 10; 48 + b mod 10])) _ b Hb).
  vm_compute. reflexivity.
Qed.

Lemma is_digit_true d : 0 <= d < 10 -> is_digit (48 + d) = true.
Proof. intros. apply bool_decide_eq_true. lia. Qed.

Lemma parseIPv4Fields_digit d s first prevdot val digLen fields :
  0 <= d < 10 -> ~ (digLen = 1 /\ val = 0) -> val * 10 + d <= 255 ->
  parseIPv4Fields ((48 + d) :: s) first prevdot val digLen fields =
  parseIPv4Fields s false false (val * 10 + d) (digLen + 1) fields.
Proof.
  intros Hd Hz Hv. cbn [parseIPv4Fields]. rewrite is_digit_true by done.
  rewrite decide_False by done. replace (48 + d - 48) with d by lia.
  by rewrite decide_False by lia.
Qed.

(** Reading one printed octet. *)
Lemma parseIPv4Fields_octet b s first prevdot fields :
  is_byte b ->
  exists n, parseIPv4Fields (itoa b ++ s) first prevdot 0 0 fields =
            parseIPv4Fields s false false b n fields.
Proof.
  intros Hb. rewrite itoa_byte by done. unfold is_byte in Hb.
  case_decide; [|case_decide]; cbn [app].
  - exists 1. rewrite parseIPv4Fields_digit by lia. f_equal; lia.
  - exists 2. rewrite !parseIPv4Fields_digit; try (Z.div_mod_to_equations; lia).
    f_equal; Z.div_mod_to_equations; lia.
  - exists 3. rewrite !parseIPv4Fields_digit; try (Z.div_mod_to_equations; lia).
    f_equal; Z.div_mod_to_equations; lia.
Qed.

Lemma parseIPv4Fields_dot b s n fields :
  s <> [] -> len fields < 3 ->
  parseIPv4Fields (dot :: s) false false b n fields =
  parseIPv4Fields s false true 0 0 (fields ++ [b]).
Proof.
  intros Hs Hf. simpl. rewrite (decide_False (P:=len fields = 3)) by lia.
  by rewrite bool_decide_eq_false_2.
Qed.

Lemma parseIPv4_String4 a b c d :
  bytes_ok [a; b; c; d] -> parseIPv4 (String4 [a; b; c; d]) = Some [a; b; c; d].
Proof.
  intros [Ha [Hb [Hc [Hd _]%List.Forall_cons_iff]%List.Forall_cons_iff]%List.Forall_cons_iff]%List.Forall_cons_iff.
  unfold parseIPv4, String4. cbn [map]. rewrite !Join_cons2. cbn [Join app].
  destruct (parseIPv4Fields_octet a (dot :: itoa b ++ dot :: itoa c ++ dot :: itoa d) true false [] Ha) as [n1 ->].
  rewrite parseIPv4Fields_dot by (done || by destruct (itoa b)).
  destruct (parseIPv4Fields_octet b (dot :: itoa c ++ dot :: itoa d) false true ([] ++ [a]) Hb) as [n2 ->].
  rewrite parseIPv4Fields_dot by (done || by destruct (itoa c)).
  destruct (parseIPv4Fields_octet c (dot :: itoa d) false true (([] ++ [a]) ++ [b]) Hc) as [n3 ->].
  rewrite parseIPv4Fields_dot by (done || by apply itoa_nonnil).
  rewrite <- (app_nil_r (itoa d)).
  destruct (parseIPv4Fields_octet d [] false true ((([] ++ [a]) ++ [b]) ++ [c]) Hd) as [n4 ->].
  reflexivity.
Qed.

Lemma parse_kind_skip p s :
  Forall (fun c => c <> dot /\ c <> colon /\ c <> 37) p -> parse_kind (p ++ s) = parse_kind s.
Proof.
  induction 1 as [|c p (H1 & H2 & H3) Hp IH]; [done|]. simpl.
  by rewrite !decide_False by done.
Qed.

Lemma ParseAddr_String4 b :
  length b = 4%nat -> bytes_ok b -> ParseAddr (String4 b) = Some (Addr4 b).
Proof.
  intros Hl Hb. destruct b as [|a1 [|a2 [|a3 [|a4 [|]]]]]; try done.
  unfold ParseAddr. replace (parse_kind _) with (Some true).
  - simpl. by rewrite parseIPv4_String4.
  - unfold String4. cbn [map]. rewrite Join_cons2, parse_kind_skip; [done|].
    apply Forall_cons_1 in Hb as [Ha1 _].
    eapply Forall_impl; [apply itoa_digits, Ha1|]. simpl. lia.
Qed.

(** ** Lemmas: printing and parsing of IPv6 addresses *)

Definition is_hexc (c : Z) : Prop := 48 <= c <= 57 \/ 97 <= c <= 102.
Abbreviation is_u16 g := (0 <= g < 65536) (only parsing).

Lemma hex16_hexc g : is_u16 g -> Forall is_hexc (hex16 g).
Proof.
  intros Hg.
  assert (Hd : forall d, 0 <= d < 16 -> Forall is_hexc [hex_digit d]).
  { intros d Hd. constructor; [by apply hex_digit_range|constructor]. }
  assert (Hm : forall x, 0 <= x mod 16 < 16) by (intros; apply Z.mod_pos_bound; lia).
  unfold hex16. rewrite !Forall_app. repeat split; repeat case_decide; auto.
  apply Hd. split; [apply Z.div_pos|apply Z.div_lt_upper_bound]; lia.
Qed.

Lemma hex16_nonnil g : hex16 g <> [].
Proof. unfold hex16. intros H. apply (f_equal length) in H. autorewrite with lens in H. simpl in H. lia. Qed.

Lemma hexrun_digit d s off acc :
  0 <= d < 16 -> off <= 3 -> acc * 16 + d <= 65535 ->
  hexrun (hex_digit d :: s) off acc = hexrun s (off + 1) (acc * 16 + d).
Proof.
  intros. simpl. rewrite from_hex_digit by done. by rewrite !decide_False by lia.
Qed.

Lemma hexrun_hex16 g s :
  is_u16 g -> from_hex_char (default 0 (head s)) = None ->
  exists n, 0 < n /\ hexrun (hex16 g ++ s) 0 0 = Some (g, n, s).
Proof.
  intros Hg Hs.
  assert (Hend : forall off acc, hexrun s off acc = Some (acc, off, s)).
  { intros. destruct s as [|c s]; [done|]. simpl in *. by rewrite Hs. }
  unfold hex16. repeat case_decide; try lia; cbn [app].
  - exists 4. split; [lia|]. rewrite !hexrun_digit, Hend; try (Z.div_mod_to_equations; lia).
    do 3 f_equal; Z.div_mod_to_equations; lia.
  - exists 3. split; [lia|]. rewrite !hexrun_digit, Hend; try (Z.div_mod_to_equations; lia).
    do 3 f_equal; Z.div_mod_to_equations; lia.
  - exists 2. split; [lia|]. rewrite !hexrun_digit, Hend; try (Z.div_mod_to_equations; lia).
    do 3 f_equal; Z.div_mod_to_equations; lia.
  - exists 1. split; [lia|]. rewrite !hexrun_digit, Hend; try (Z.div_mod_to_equations; lia).
    do 3 f_equal; Z.div_mod_to_equations; lia.
Qed.

(** The bytes of a list of groups. *)
Definition ungroup (g : list Z) : bytes := flat_map (fun x => [x / 256; x mod 256]) g.

Lemma ungroup_length g : length (ungroup g) = (2 * length g)%nat.
Proof. induction g; simpl in *; lia. Qed.

(** One field followed by the end of the text, by a colon, or by an ellipsis. *)
Lemma parseIPv6Loop_last f g ip ell :
  is_u16 g -> (length ip < 16)%nat ->
  parseIPv6Loop (S f) (hex16 g) ip ell = Some (ip ++ [g / 256; g mod 256], ell, []).
Proof.
  intros Hg Hl. cbn [parseIPv6Loop]. rewrite decide_False by lia.
  destruct (hexrun_hex16 g [] Hg eq_refl) as (n & Hn & E).
  rewrite app_nil_r in E. rewrite E. simpl. by rewrite decide_False by lia.
Qed.

Lemma parseIPv6Loop_colon f g c s ip ell :
  is_u16 g -> (length ip < 16)%nat -> c <> colon ->
  parseIPv6Loop (S f) (hex16 g ++ colon :: c :: s) ip ell =
  parseIPv6Loop f (c :: s) (ip ++ [g / 256; g mod 256]) ell.
Proof.
  intros Hg Hl Hc. cbn [parseIPv6Loop]. rewrite decide_False by lia.
  destruct (hexrun_hex16 g (colon :: c :: s) Hg eq_refl) as (n & Hn & ->).
  cbn -[parseIPv6Loop]. rewrite (decide_False (P:=n = 0)) by lia.
  by rewrite (decide_False (P:=c = colon)) by done.
Qed.

Lemma parseIPv6Loop_ellipsis f g s ip :
  is_u16 g -> (length ip < 16)%nat ->
  let ip' := ip ++ [g / 256; g mod 256] in
  parseIPv6Loop (S f) (hex16 g ++ colon :: colon :: s) ip None =
  match s with
  | [] => Some (ip', Some (length ip'), [])
  | _ => parseIPv6Loop f s ip' (Some (length ip'))
  end.
Proof.
  intros Hg Hl. cbn [parseIPv6Loop]. rewrite decide_False by lia.
  destruct (hexrun_hex16 g (colon :: colon :: s) Hg eq_refl) as (n & Hn & ->).
  cbn -[parseIPv6Loop]. rewrite (decide_False (P:=n = 0)) by lia. by destruct s.
Qed.

Lemma hex16_head g : is_u16 g -> exists c s, hex16 g = c :: s /\ is_hexc c.
Proof.
  intros Hg. pose proof (hex16_hexc g Hg) as H. pose proof (hex16_nonnil g).
  destruct (hex16 g) as [|c s]; [done|]. apply Forall_cons_1 in H as [? _]. eauto.
Qed.

(** A colon-separated list of fields that ends the text. *)
Lemma parseIPv6Loop_fields g gr f ip ell :
  Forall (fun g => is_u16 g) (g :: gr) -> (length ip + 2 * length (g :: gr) <= 16)%nat ->
  (length (g :: gr) <= f)%nat ->
  parseIPv6Loop f (Join (map hex16 (g :: gr)) [colon]) ip ell =
  Some (ip ++ ungroup (g :: gr), ell, []).
Proof.
  revert g f ip. induction gr as [|g2 gr IH]; intros g f ip Hall Hl Hf;
    apply Forall_cons_1 in Hall as [Hg Hall]; destruct f as [|f]; simpl in Hl, Hf; try lia.
  - apply parseIPv6Loop_last; [done|lia].
  - cbn [map]. rewrite Join_cons2. cbn [app].
    pose proof (Forall_cons_1 _ _ _ Hall) as [Hg2 _].
    destruct (hex16_head g2 Hg2) as (c & s & E & Hc).
    assert (exists s', Join (map hex16 (g2 :: gr)) [colon] = c :: s') as [s' E'].
    { destruct gr; cbn [map Join]; rewrite E; eauto. }
    cbn [map] in E'. rewrite E'. rewrite parseIPv6Loop_colon; [|done|lia|unfold is_hexc in Hc; lia].
    rewrite <- E'. change (hex16 g2 :: map hex16 gr) with (map hex16 (g2 :: gr)).
    rewrite IH; [|done|autorewrite with lens; simpl in *; lia|simpl in *; lia].
    by rewrite <- app_assoc.
Qed.

(** A list of fields followed by the ellipsis. *)
Lemma parseIPv6Loop_fields_ellipsis g gr f ip s :
  Forall (fun g => is_u16 g) (g :: gr) -> (length ip + 2 * length (g :: gr) <= 16)%nat ->
  let ip' := ip ++ ungroup (g :: gr) in
  parseIPv6Loop (length (g :: gr) + f) (Join (map hex16 (g :: gr)) [colon] ++ colon :: colon :: s) ip None =
  match s with
  | [] => Some (ip', Some (length ip'), [])
  | _ => parseIPv6Loop f s ip' (Some (length ip'))
  end.
Proof.
  revert g ip. induction gr as [|g2 gr IH]; intros g ip Hall Hl; cbn zeta;
    apply Forall_cons_1 in Hall as [Hg Hall]; simpl in Hl.
  - simpl length. cbn [Nat.add]. apply parseIPv6Loop_ellipsis; [done|lia].
  - cbn [map]. rewrite Join_cons2. cbn [app]. rewrite <- app_assoc. cbn [app].
    pose proof (Forall_cons_1 _ _ _ Hall) as [Hg2 _].
    destruct (hex16_head g2 Hg2) as (c & t & E & Hc).
    assert (exists s', Join (map hex16 (g2 :: gr)) [colon] ++ colon :: colon :: s = c :: s') as [s' E'].
    { destruct gr; cbn [map Join]; rewrite E; eauto. }
    cbn [map] in E'. rewrite E'.
    change (length (g :: g2 :: gr) + f)%nat with (S (length (g2 :: gr) + f)).
    rewrite parseIPv6Loop_colon; [|done|lia|unfold is_hexc in Hc; lia].
    rewrite <- E'. change (hex16 g2 :: map hex16 gr) with (map hex16 (g2 :: gr)).
    rewrite IH; [|done|autorewrite with lens; simpl in *; lia].
    rewrite <- app_assoc. done.
Qed.

Lemma leading_zeros_spec g :
  (leading_zeros g <= length g)%nat /\
  take (leading_zeros g) g = replicate (leading_zeros g) 0.
Proof.
  induction g as [|x g [IH1 IH2]]; simpl; [done|].
  case_decide; simpl; [|split; [lia|done]]. subst. rewrite IH2. split; [lia|done].
Qed.

(** The chosen run consists of zero groups. *)
Lemma zero_run_spec g zs zl :
  zero_run g = (zs, zl) -> zl <> 0%nat ->
  (2 <= zl /\ zs + zl <= length g)%nat /\ g = take zs g ++ replicate zl 0 ++ drop (zs + zl) g.
Proof.
  unfold zero_run. generalize (seq 0 8) as js. intros js.
  assert (forall best, (best.2 = 0%nat \/ ((2 <= best.2 /\ best.1 + best.2 <= length g)%nat /\
            g = take best.1 g ++ replicate best.2 0 ++ drop (best.1 + best.2) g)) ->
          foldl (fun best i => let l := leading_zeros (drop i g) in
            if decide (2 <= l /\ best.2 < l)%nat then (i, l) else best) best js = (zs, zl) ->
          zl <> 0%nat -> (2 <= zl /\ zs + zl <= length g)%nat /\
            g = take zs g ++ replicate zl 0 ++ drop (zs + zl) g) as Hgen.
  { induction js as [|i js IH]; intros best Hb E Hz; simpl in E.
    - subst best. simpl in Hb. destruct Hb; [done|]. done.
    - eapply IH; [|exact E|exact Hz]. case_decide as Hd; [|done]. right. simpl.
      destruct (leading_zeros_spec (drop i g)) as [H1 H2]. autorewrite with lens in H1.
      split; [lia|]. rewrite <- H2, <- drop_drop, take_drop. symmetry. apply take_drop. }
  apply (Hgen (0, 0)%nat). by left.
Qed.

Lemma groups_spec ip n :
  length ip = (2 * n)%nat -> bytes_ok ip ->
  length (groups ip) = n /\ Forall (fun g => is_u16 g) (groups ip) /\ ungroup (groups ip) = ip.
Proof.
  revert ip. induction n as [|n IH]; intros [|a [|b ip]] Hl Hok; simpl in Hl; try lia.
  - done.
  - apply Forall_cons_1 in Hok as [Ha Hok]. apply Forall_cons_1 in Hok as [Hb Hok].
    destruct (IH ip ltac:(lia) Hok) as (H1 & H2 & H3). unfold is_byte in *. cbn [groups].
    split; [simpl; lia|]. split; [constructor; [unfold of_be16; lia|done]|].
    change (ungroup (of_be16 a b :: groups ip)) with
      (of_be16 a b / 256 :: of_be16 a b mod 256 :: ungroup (groups ip)).
    rewrite H3. f_equal; [|f_equal]; unfold of_be16; Z.div_mod_to_equations; lia.
Qed.

Lemma ungroup_app g h : ungroup (g ++ h) = ungroup g ++ ungroup h.
Proof. apply flat_map_app. Qed.
Lemma ungroup_zeros n : ungroup (replicate n 0) = replicate (2 * n) 0.
Proof.
  induction n as [|n IH]; [done|]. change (ungroup (replicate (S n) 0)) with (0 :: 0 :: ungroup (replicate n 0)).
  rewrite IH. replace (2 * S n)%nat with (S (S (2 * n))) by lia. done.
Qed.

(** A printed list of fields contains neither a zone mark nor two colons in front. *)
Lemma Join_hex16_chars g :
  Forall (fun g => is_u16 g) g -> Forall (fun c => is_hexc c \/ c = colon) (Join (map hex16 g) [colon]).
Proof.
  induction 1 as [|x g Hx Hg IH]; [constructor|].
  assert (Hh : Forall (fun c => is_hexc c \/ c = colon) (hex16 x)).
  { eapply Forall_impl; [apply hex16_hexc, Hx|]. by left. }
  destruct g as [|y g]; [done|]. cbn [map]. rewrite Join_cons2. apply Forall_app. split; [done|].
  constructor; [by right|done].
Qed.

Lemma Join_hex16_head g gr :
  is_u16 g -> exists c s, Join (map hex16 (g :: gr)) [colon] = c :: s /\ is_hexc c.
Proof.
  intros Hg. destruct (hex16_head g Hg) as (c & s & E & Hc).
  destruct gr; cbn [map Join]; rewrite E; eauto.
Qed.

Lemma Join_hex16_nonnil g : Forall (fun g => is_u16 g) g -> Join (map hex16 g) [colon] = [] -> g = [].
Proof.
  destruct 1 as [|x g Hx Hg]; [done|]. intros E.
  destruct (Join_hex16_head x g Hx) as (c & s & E' & _). congruence.
Qed.

Lemma not_zone s : Forall (fun c => is_hexc c \/ c = colon) s -> bool_decide (37 ∈ s) = false.
Proof.
  intros H. apply bool_decide_eq_false_2. intros Hin. rewrite Forall_forall in H.
  destruct (H _ Hin) as [Hc|]; [unfold is_hexc in Hc; lia|done].
Qed.

Lemma not_ellipsis c s : is_hexc c -> HasPrefix (c :: s) [colon; colon] = false.
Proof.
  intros Hc. unfold HasPrefix. apply bool_decide_eq_false_2. intros [k E].
  injection E as -> _. unfold is_hexc in Hc. lia.
Qed.

Lemma parseIPv6Finish_full ip :
  length ip = 16%nat -> Some (ip, None, []) ≫= parseIPv6Finish = Some ip.
Proof. intros H. simpl. by rewrite decide_False by lia. Qed.

Lemma parseIPv6Finish_ell ip e :
  (length ip < 16)%nat ->
  Some (ip, Some e, []) ≫= parseIPv6Finish =
  Some (take e ip ++ replicate (16 - length ip) 0 ++ drop e ip).
Proof. intros H. cbn -[Nat.sub]. by rewrite decide_True by lia. Qed.

Lemma parseIPv6_String6 ip :
  length ip = 16%nat -> bytes_ok ip -> parseIPv6 (String6 ip) = Some ip.
Proof.
  intros Hl Hok. destruct (groups_spec ip 8 Hl Hok) as (Hg8 & Hu & Hun).
  unfold String6. destruct (zero_run (groups ip)) as [zs zl] eqn:Hz.
  remember (groups ip) as g eqn:Eg. clear Eg. subst ip. case_decide as Hzl.
  - (* no ellipsis *)
    unfold parseIPv6. rewrite not_zone by by apply Join_hex16_chars.
    destruct g as [|x g]; [done|]. pose proof (Forall_cons_1 _ _ _ Hu) as [Hx _].
    destruct (Join_hex16_head x g Hx) as (c & s & E & Hc). rewrite E, not_ellipsis, <- E by done.
    rewrite parseIPv6Loop_fields by (done || simpl in *; lia).
    by apply parseIPv6Finish_full.
  - destruct (zero_run_spec g zs zl Hz Hzl) as ((Hz2 & Hzb) & Hg).
    set (pre := take zs g) in *. set (post := drop (zs + zl) g) in *.
    assert (Hpl : length pre = zs) by (unfold pre; rewrite length_take; lia).
    assert (Hql : (length post = 8 - zs - zl)%nat) by (unfold post; rewrite length_drop; lia).
    assert (Hpre : Forall (fun g => is_u16 g) pre) by by apply Forall_take.
    assert (Hpost : Forall (fun g => is_u16 g) post) by by apply Forall_drop.
    rewrite Hg, !ungroup_app, ungroup_zeros in *. clearbody pre post. clear Hg Hz Hu g.
    unfold parseIPv6. rewrite not_zone.
    2:{ rewrite !Forall_app. repeat split; try by apply Join_hex16_chars. repeat constructor; by right. }
    destruct pre as [|x pre].
    + simpl in Hpl. subst zs. change (Join (map hex16 []) [colon]) with (@nil Z). rewrite app_nil_l.
      replace (HasPrefix _ _) with true by (symmetry; apply HasPrefix_true; by eexists).
      change (drop 2 ([colon; colon] ++ ?j)) with j. case_bool_decide as Hn.
      * apply Join_hex16_nonnil in Hn as ->; [|done]. simpl in Hql.
        replace zl with 8%nat by lia. done.
      * destruct post as [|y post]; [done|]. rewrite parseIPv6Loop_fields by (done || simpl in *; lia).
        rewrite parseIPv6Finish_ell by (rewrite app_nil_l, ungroup_length; simpl in *; lia).
        rewrite !app_nil_l, ungroup_length. rewrite drop_0.
        do 3 f_equal. simpl in *. lia.
    + pose proof (Forall_cons_1 _ _ _ Hpre) as [Hx _].
      destruct (Join_hex16_head x pre Hx) as (c & s & E & Hc).
      rewrite E. cbn [app]. rewrite not_ellipsis by done.
      change (c :: s ++ ?t) with ((c :: s) ++ t). rewrite <- E.
      replace 9%nat with (length (x :: pre) + (9 - length (x :: pre)))%nat by (simpl in *; lia).
      rewrite parseIPv6Loop_fields_ellipsis by (done || simpl in *; lia).
      destruct post as [|y post].
      * simpl in Hql. change (Join (map hex16 []) [colon]) with (@nil Z). cbv match.
        rewrite parseIPv6Finish_ell by (rewrite app_nil_l, ungroup_length; simpl in *; lia).
        rewrite take_ge, drop_ge, !app_nil_l, ungroup_length by done.
        do 4 f_equal. simpl in *. lia.
      * pose proof (Forall_cons_1 _ _ _ Hpost) as [Hy _].
        destruct (Join_hex16_head y post Hy) as (c' & s' & E' & Hc'). rewrite E', <- E'.
        rewrite parseIPv6Loop_fields by (done || (rewrite ?app_nil_l, ?ungroup_length; simpl in *; lia)).
        rewrite !app_nil_l, parseIPv6Finish_ell by (rewrite length_app, !ungroup_length; simpl in *; lia).
        rewrite take_app_length, drop_app_length, length_app, !ungroup_length.
        do 4 f_equal. simpl in *. lia.
Qed.

Lemma parse_kind_String6 ip :
  length ip = 16%nat -> bytes_ok ip -> parse_kind (String6 ip) = Some false.
Proof.
  intros Hl Hok. destruct (groups_spec ip 8 Hl Hok) as (Hg8 & Hu & _).
  unfold String6. destruct (zero_run (groups ip)) as [zs zl].
  assert (Hskip : forall x s, is_u16 x -> parse_kind (hex16 x ++ colon :: s) = Some false).
  { intros x s Hx. rewrite parse_kind_skip; [done|].
    eapply Forall_impl; [apply hex16_hexc, Hx|]. unfold is_hexc. intros. lia. }
  case_decide.
  - destruct (groups ip) as [|x [|y g]]; try done.
    apply Forall_cons_1 in Hu as [Hx _]. cbn [map]. rewrite Join_cons2. by apply Hskip.
  - pose proof (Forall_take _ zs _ Hu) as Ht.
    destruct (take zs (groups ip)) as [|x pre]; [done|].
    apply Forall_cons_1 in Ht as [Hx _]. destruct pre as [|y pre]; cbn [map].
    + by apply Hskip.
    + rewrite Join_cons2, <- app_assoc. by apply Hskip.
Qed.

Lemma To4_Some ip b :
  To4 ip = Some b -> (length ip = 4%nat /\ b = ip) \/ (length ip = 16%nat /\ ip = v4InV6Prefix ++ b).
Proof.
  unfold To4. case_decide; [intros; simplify_eq; by left|].
  case_decide as H1; intros; simplify_eq. right. destruct H1 as [? <-]. by rewrite take_drop.
Qed.

Lemma To4_As16 b : length b = 4%nat -> To4 (v4InV6Prefix ++ b) = Some b.
Proof. intros. destruct b as [|a1 [|a2 [|a3 [|a4 [|]]]]]; done. Qed.

Lemma String6_chars ip :
  length ip = 16%nat -> bytes_ok ip -> Forall (fun c => is_hexc c \/ c = colon) (String6 ip).
Proof.
  intros Hl Hok. destruct (groups_spec ip 8 Hl Hok) as (_ & Hu & _).
  unfold String6. destruct (zero_run (groups ip)) as [zs zl].
  case_decide; [by apply Join_hex16_chars|]. rewrite !Forall_app. split_and!.
  - by apply Join_hex16_chars, Forall_take.
  - repeat constructor; by right.
  - by apply Join_hex16_chars, Forall_drop.
Qed.

Lemma ToLower_String6 {U : Unicode} ip :
  length ip = 16%nat -> bytes_ok ip -> ToLower (String6 ip) = String6 ip.
Proof.
  intros Hl Hok. pose proof (String6_chars ip Hl Hok) as Hc. rewrite ToLower_ascii.
  - rewrite <- (map_id (String6 ip)) at 2. apply map_ext_in. intros c Hin.
    rewrite Forall_forall in Hc. specialize (Hc c). rewrite list_elem_of_In in Hc.
    destruct (Hc Hin) as [Hx| ->]; [|done]. unfold ascii_lower, is_hexc in *.
    rewrite decide_False by lia. done.
  - apply is_ascii_Forall. eapply Forall_impl; [exact Hc|]. unfold is_hexc. intros c [?| ->]; lia.
Qed.

(** The printed form of an address parses back to the address: the text
    normalisation of the firewall loses nothing. *)
Lemma ParseIP_IPString ip :
  length ip = 16%nat -> bytes_ok ip -> ParseIP (IPString ip) = Some ip.
Proof.
  intros Hl Hok. unfold ParseIP, IPString. destruct (To4 ip) as [b|] eqn:E.
  - apply To4_Some in E as [[? _]|[_ ->]]; [lia|]. rewrite length_app in Hl. simpl in Hl.
    apply Forall_app in Hok as [_ Hok]. rewrite ParseAddr_String4 by (done || lia). done.
  - unfold ParseAddr. rewrite parse_kind_String6 by done. simpl. by rewrite parseIPv6_String6.
Qed.

Lemma IPString_inj a b :
  length a = 16%nat -> bytes_ok a -> length b = 16%nat -> bytes_ok b ->
  IPString a = IPString b -> a = b.
Proof.
  intros. apply (f_equal ParseIP) in H3. rewrite !ParseIP_IPString in H3 by done. by simplify_eq.
Qed.

(** ** Lemmas: what a successful parse yields *)

Lemma parseIPv4Fields_ok s first prevdot val digLen fields b :
  parseIPv4Fields s first prevdot val digLen fields = Some b ->
  0 <= val <= 255 -> bytes_ok fields -> len fields <= 3 -> length b = 4%nat /\ bytes_ok b.
Proof.
  revert first prevdot val digLen fields.
  induction s as [|c s IH]; intros first prevdot val digLen fields E Hv Hf Hl; simpl in E.
  - case_decide; simplify_eq. split; [len_solve|]. apply Forall_app.
    repeat constructor; try done; unfold is_byte; lia.
  - destruct (is_digit c) eqn:Hd.
    + apply bool_decide_eq_true in Hd. do 2 (case_decide; [done|]).
      eapply IH; [exact E|lia|done|done].
    + case_decide; [|done]. destruct (_ || _) eqn:?; [done|]. case_decide; [done|].
      eapply IH; [exact E|lia| |len_solve].
      apply Forall_app. repeat constructor; try done; unfold is_byte; lia.
Qed.

Lemma from_hex_char_range c d : from_hex_char c = Some d -> 0 <= d < 16.
Proof. unfold from_hex_char. intros. repeat (case_decide; simplify_eq; try lia). Qed.

Lemma hexrun_range s off acc v n r :
  hexrun s off acc = Some (v, n, r) -> 0 <= acc <= 65535 -> 0 <= v <= 65535.
Proof.
  revert off acc. induction s as [|c s IH]; intros off acc E Ha; simpl in E; [by simplify_eq|].
  destruct (from_hex_char c) as [d|] eqn:Hd; [|by simplify_eq].
  apply from_hex_char_range in Hd. repeat (case_decide; try done). eapply IH; [exact E|]. lia.
Qed.

Lemma parseIPv6Loop_ok f s ip ell r :
  parseIPv6Loop f s ip ell = Some r -> bytes_ok ip -> (length ip <= 16)%nat ->
  Nat.Even (length ip) -> (default 0%nat ell <= length ip)%nat ->
  bytes_ok r.1.1 /\ (length r.1.1 <= 16)%nat /\ (default 0%nat r.1.2 <= length r.1.1)%nat.
Proof.
  revert s ip ell. induction f as [|f IH]; intros s ip ell E Hok Hl Hev He; [done|].
  cbn [parseIPv6Loop] in E. case_decide; [by simplify_eq|].
  destruct (hexrun s 0 0) as [[[acc off] rest]|] eqn:Eh; [|done].
  apply hexrun_range in Eh; [|lia]. cbn -[parseIPv6Loop] in E. case_decide; [done|].
  assert (Hok' : bytes_ok (ip ++ [acc / 256; acc mod 256])).
  { apply Forall_app. repeat constructor; try done; unfold is_byte; Z.div_mod_to_equations; lia. }
  assert (Hl' : length (ip ++ [acc / 256; acc mod 256]) = S (S (length ip))) by len_solve.
  assert (Hev' : Nat.Even (S (S (length ip)))) by by apply Nat.Even_succ_succ.
  assert (S (S (length ip)) <= 16)%nat.
  { destruct Hev as [k Hk]. lia. }
  case_match.
  - case_match; [done|]. case_decide; [done|].
    destruct (parseIPv4 s) as [f4|] eqn:E4; [|done]. simplify_eq/=.
    apply parseIPv4Fields_ok in E4 as [? ?]; [|lia|done|unfold len; simpl; lia].
    rewrite Forall_app, length_app. split; [done|]. lia.
  - destruct rest as [|c rest]; [simplify_eq/=; split; [done|lia]|].
    case_decide; [done|]. destruct rest as [|c2 rest]; [done|]. case_decide.
    + destruct ell; [done|]. destruct rest; [simplify_eq/=; split; [done|lia]|].
      eapply IH in E; try done; simpl; rewrite ?Hl'; try done; lia.
    + eapply IH in E; try done; rewrite ?Hl'; try done; lia.
Qed.

Lemma parseIPv6_ok s b : parseIPv6 s = Some b -> length b = 16%nat /\ bytes_ok b.
Proof.
  assert (Hz : forall n, bytes_ok (replicate n 0)).
  { intros. apply Forall_replicate. unfold is_byte. lia. }
  assert (Hfin : forall f s ell b, (default 0%nat ell <= 0)%nat ->
    parseIPv6Loop f s [] ell ≫= parseIPv6Finish = Some b -> length b = 16%nat /\ bytes_ok b).
  { intros f s' ell b' He E. destruct (parseIPv6Loop f s' [] ell) as [[[ip e] r]|] eqn:EL; [|done].
    apply parseIPv6Loop_ok in EL as (H1 & H2 & H3); try done; [|simpl; lia|by exists 0%nat].
    simpl in *. destruct r; [|done]. case_decide.
    - destruct e as [e|]; [|done]. simplify_eq/=. autorewrite with lens. split; [lia|].
      rewrite !Forall_app. repeat split; [by apply Forall_take|done|by apply Forall_drop].
    - case_bool_decide; simplify_eq. split; [lia|done]. }
  unfold parseIPv6. case_match; [done|]. case_match; [case_match|]; intros E.
  - simplify_eq/=. split; [done|]. apply (Hz 16%nat).
  - eapply Hfin; [|exact E]. done.
  - eapply Hfin; [|exact E]. done.
Qed.

Lemma ParseIP_ok s ip : ParseIP s = Some ip -> length ip = 16%nat /\ bytes_ok ip.
Proof.
  unfold ParseIP, ParseAddr. destruct (parse_kind s) as [[]|]; simpl; [| |done].
  - destruct (parseIPv4 s) as [b|] eqn:E; [|done]. intros. simplify_eq/=.
    apply parseIPv4Fields_ok in E as [Hl Hb]; [|lia|done|unfold len; simpl; lia].
    split; [simpl; lia|]. repeat (constructor; [unfold is_byte; lia|]). done.
  - destruct (parseIPv6 s) as [b|] eqn:E; [|done]. intros. simplify_eq/=. by apply parseIPv6_ok in E.
Qed.

(** Normalising twice is normalising once. *)
Lemma ParseIP_normal s ip : ParseIP s = Some ip -> ParseIP (IPString ip) = Some ip.
Proof. intros [? ?]%ParseIP_ok. by apply ParseIP_IPString. Qed.
#[export] Hint Resolve ParseIP_ok ParseIP_normal : ottergate.

(** ** Lemmas: membership in a block *)

Lemma land_bytes_full b : bytes_ok b -> land_bytes b (replicate (length b) 255) = b.
Proof.
  induction 1 as [|x b Hx Hb IH]; [done|]. unfold land_bytes in *. simpl. rewrite IH. f_equal.
  change 255 with (Z.ones 8). rewrite Z.land_ones by lia. by apply Z.mod_small.
Qed.

Lemma Contains_ip_v4 n b :
  length (net_IP n) = 4%nat -> length (net_Mask n) = 4%nat -> length b = 4%nat ->
  Contains_ip n (v4InV6Prefix ++ b) =
  bool_decide (land_bytes (net_IP n) (net_Mask n) = land_bytes b (net_Mask n)).
Proof.
  intros H1 H2 H3. unfold Contains_ip. rewrite To4_As16 by done.
  unfold To4. rewrite decide_True by done. simpl. rewrite decide_False by lia.
  by rewrite !bool_decide_eq_true_2 by lia.
Qed.

Lemma Contains_ip_v4_in_v6 n b :
  length (net_IP n) = 16%nat -> To4 (net_IP n) = None -> length b = 4%nat ->
  Contains_ip n (v4InV6Prefix ++ b) = false.
Proof.
  intros H1 H2 H3. unfold Contains_ip. rewrite To4_As16, H2 by done. simpl.
  by rewrite bool_decide_eq_false_2 by lia.
Qed.

Lemma Contains_ip_v6_in_v4 n a :
  length (net_IP n) = 4%nat -> length a = 16%nat -> To4 a = None -> Contains_ip n a = false.
Proof.
  intros H1 H2 H3. unfold Contains_ip. rewrite H3. unfold To4. rewrite decide_True by done. simpl.
  by rewrite bool_decide_eq_false_2 by lia.
Qed.

Lemma Contains_ip_v6 n a :
  length (net_IP n) = 16%nat -> length (net_Mask n) = 16%nat -> To4 (net_IP n) = None ->
  length a = 16%nat -> To4 a = None ->
  Contains_ip n a = bool_decide (land_bytes (net_IP n) (net_Mask n) = land_bytes a (net_Mask n)).
Proof.
  intros H1 H2 H3 H4 H5. unfold Contains_ip. rewrite H3, H5. simpl. rewrite decide_False by lia.
  by rewrite !bool_decide_eq_true_2 by lia.
Qed.
