(* ===== verification/Platform.v ===== *)
(** * What the proxies and the control plane use of Go's run time

    The iteration order of a Go map is unspecified: it is the class [MapRange],
    whose only law is that every entry is visited once.  [net/url] is the class
    [Url]: parsing and printing are operations about which nothing is assumed; the
    accessors [Hostname] and [Port] are defined here. *)
From S2P Require Import Prelude GoStrings NetIP.

(** ** [for k, v := range m] *)
Class MapRange := {
  range : forall {A}, gmap gostring A -> list (gostring * A);
  range_perm : forall {A} (m : gmap gostring A), range m ≡ₚ map_to_list m;
}.

(** One admissible order. *)
Definition list_range : MapRange := {| range := fun A m => map_to_list m; range_perm := fun A m => reflexivity _ |}.

Lemma elem_of_range `{MapRange} {A} (m : gmap gostring A) k v : (k, v) ∈ range m <-> m !! k = Some v.
Proof. rewrite range_perm. apply elem_of_map_to_list. Qed.

Lemma range_length `{MapRange} {A} (m : gmap gostring A) : length (range m) = size m.
Proof. rewrite range_perm. apply length_map_to_list. Qed.

Lemma range_NoDup `{MapRange} {A} (m : gmap gostring A) : NoDup (range m).*1.
Proof. rewrite range_perm. apply NoDup_fst_map_to_list. Qed.

(** ** [net/url] *)

(** The fields that the code reads or writes; the others only matter to [String]. *)
Record URL := {
  u_Scheme : gostring;
  u_Host : gostring;
  u_Path : gostring;
  u_RawQuery : gostring;
  u_other : gostring;
}.

#[export] Instance URL_eq_dec : EqDecision URL.
Proof. solve_decision. Defined.

(** [url.Parse] with the text of its error, and [URL.String]. *)
Class Url := {
  url_Parse : gostring -> gostring + URL;
  url_String : URL -> gostring;
}.

(** [strings.LastIndexByte]; [None] stands for -1. *)
Fixpoint LastIndexByte (s : gostring) (c : Z) : option nat :=
  match s with
  | [] => None
  | d :: s => match LastIndexByte s c with
              | Some i => Some (S i)
              | None => if decide (d = c) then Some O else None
              end
  end.

(** [:] and digits, or nothing. *)
Definition validOptionalPort (port : gostring) : bool :=
  match port with
  | [] => true
  | c :: ds => bool_decide (c = colon) && forallb is_digit ds
  end.

(** [URL.Hostname] and [URL.Port] *)
Definition splitHostPort (hostPort : gostring) : gostring * gostring :=
  let '(host, port) :=
    match LastIndexByte hostPort colon with
    | Some i => if validOptionalPort (drop i hostPort) then (take i hostPort, drop (S i) hostPort) else (hostPort, [])
    | None => (hostPort, [])
    end in
  if HasPrefix host (gs "[") && HasSuffix host (gs "]") then (take (length host - 2) (drop 1 host), port) else (host, port).
Definition Hostname (u : URL) : gostring := (splitHostPort (u_Host u)).1.
Definition PortOf (u : URL) : gostring := (splitHostPort (u_Host u)).2.

(** ** [net] *)

(** [net.SplitHostPort]; [None] is the error result. *)
Definition SplitHostPort (hostport : gostring) : option (gostring * gostring) :=
  match LastIndexByte hostport colon with
  | None => None
  | Some i =>
      let finish host (j k : nat) :=
        if bool_decide (91 ∈ drop j hostport) then None
        else if bool_decide (93 ∈ drop k hostport) then None
        else Some (host, drop (S i) hostport) in
      if HasPrefix hostport (gs "[") then
        match IndexByte hostport 93 with
        | None => None
        | Some fin =>
            let e := Z.to_nat fin in
            if decide (S e = i) then finish (take (e - 1) (drop 1 hostport)) 1%nat (S e) else None
        end
      else
        let host := take i hostport in
        if bool_decide (colon ∈ host) then None else finish host 0%nat 0%nat
  end.

(** [net.JoinHostPort] *)
Definition JoinHostPort (host port : gostring) : gostring :=
  if bool_decide (colon ∈ host) then gs "[" ++ host ++ gs "]:" ++ port else host ++ gs ":" ++ port.

(** ** More of [strings] *)

(** [unicode.IsSpace] *)
Definition is_space (r : Z) : bool :=
  bool_decide (9 <= r <= 13 \/ r = 32 \/ r = 133 \/ r = 160 \/ r = 5760 \/ 8192 <= r <= 8202 \/ r = 8232 \/ r = 8233
               \/ r = 8239 \/ r = 8287 \/ r = 12288).

(** The text as the slices that its runes occupy. *)
Fixpoint rune_slices (n : nat) (s : bytes) : list (Z * bytes) :=
  match n with
  | O => []
  | S n => match DecodeRune s with None => [] | Some (r, w) => (r, take w s) :: rune_slices n (drop w s) end
  end.
Fixpoint drop_spaces (l : list (Z * bytes)) : list (Z * bytes) :=
  match l with
  | (r, b) :: l' => if is_space r then drop_spaces l' else l
  | [] => []
  end.
(** [strings.TrimSpace] *)
Definition TrimSpace (s : gostring) : gostring :=
  concat (map snd (reverse (drop_spaces (reverse (drop_spaces (rune_slices (length s) s)))))).

(** The part before the first occurrence of [sep], as [strings.Split(s, sep)[0]]. *)
Definition FirstPart (s sep : gostring) : gostring :=
  match Index s sep with Some i => take (Z.to_nat i) s | None => s end.

(** [%s:%s] of an address and a port: without the brackets that an IPv6 address needs. *)
Definition plainAddr (ip port : gostring) : gostring := ip ++ gs ":" ++ port.

(** A parser for the demonstrations: [scheme://host] and [scheme://host/path]. *)
Definition simple_parse (s : gostring) : gostring + URL :=
  match Index s (gs "://") with
  | None => inl (gs "missing protocol scheme")
  | Some i =>
      let rest := drop (Z.to_nat i + 3) s in
      match IndexByte rest 47 with
      | None => inr {| u_Scheme := take (Z.to_nat i) s; u_Host := rest; u_Path := []; u_RawQuery := []; u_other := [] |}
      | Some j => inr {| u_Scheme := take (Z.to_nat i) s; u_Host := take (Z.to_nat j) rest; u_Path := drop (Z.to_nat j) rest;
                         u_RawQuery := []; u_other := [] |}
      end
  end.
Definition simple_url : Url :=
  {| url_Parse := simple_parse; url_String := fun u => u_Scheme u ++ gs "://" ++ u_Host u ++ u_Path u |}.

Example Hostname_v6 : splitHostPort (gs "[2001:db8::1]:8080") = (gs "2001:db8::1", gs "8080").
Proof. vm_compute. reflexivity. Qed.
Example Hostname_plain : splitHostPort (gs "a.example:80") = (gs "a.example", gs "80").
Proof. vm_compute. reflexivity. Qed.
Example TrimSpace_ex : TrimSpace ([32; 9] ++ gs "a b" ++ [194; 160; 10]) = gs "a b".
Proof. vm_compute. reflexivity. Qed.
Example SplitHostPort_ex : SplitHostPort (gs "[::1]:443") = Some (gs "::1", gs "443") /\ SplitHostPort (gs "a:1") = Some (gs "a", gs "1")
  /\ SplitHostPort (gs "::1:443") = None /\ SplitHostPort (gs "a") = None.
Proof. vm_compute. done. Qed.

(** ** Lemmas *)

Lemma LastIndexByte_app s c t : c ∉ t -> LastIndexByte (s ++ c :: t) c = Some (length s).
Proof.
  intros Ht. assert (LastIndexByte t c = None) as Hn.
  { induction t as [|d t IH]; [done|]. apply not_elem_of_cons in Ht as [Hd Ht]. simpl. rewrite IH by done. by rewrite decide_False. }
  induction s as [|d s IH]; simpl; [by rewrite Hn, decide_True|]. by rewrite IH.
Qed.

(** An IPv6 address joined to a port without brackets cannot be split again, so it
    cannot be dialled; an IPv4 address can. *)
Lemma plainAddr_v6 ip port : colon ∈ ip -> colon ∉ port -> HasPrefix ip (gs "[") = false -> SplitHostPort (plainAddr ip port) = None.
Proof.
  intros Hi Hp Hb. unfold SplitHostPort, plainAddr. change (gs ":") with [colon]. cbn [app].
  rewrite LastIndexByte_app by done. destruct (HasPrefix (ip ++ colon :: port) (gs "[")) eqn:E.
  - apply HasPrefix_true in E as [t E]. destruct ip as [|c ip]; [by apply elem_of_nil in Hi|]. injection E as -> E.
    exfalso. apply not_true_iff_false in Hb. apply Hb, HasPrefix_true. by exists ip.
  - by rewrite take_app_length, bool_decide_eq_true_2.
Qed.
