(* ===== verification/JsonText.v ===== *)
(** * The text of JSON ([encoding/json])

    Parsing of bytes into trees whose objects keep the order and the repetitions of the
    text, and printing of trees, compact or indented.  Strings are escaped and unescaped
    as [json.Marshal] and [json.Unmarshal] do it, ill-formed UTF-8 included.  The printed
    text of a tree is parsed back into the tree, and the parser returns on every input. *)
From S2P Require Import Prelude GoStrings NetIP Platform.
#[local] Open Scope Z_scope.

(** ** Trees *)

#[warnings="-register-all"]
Inductive tree : Type :=
| TNull
| TBool (b : bool)
| TNum (text : gostring)                     (* the literal *)
| TStr (s : gostring)
| TArr (l : list tree)
| TObj (l : list (gostring * tree)).

Lemma tree_induction (P : tree -> Prop) :
  P TNull -> (forall b, P (TBool b)) -> (forall t, P (TNum t)) -> (forall s, P (TStr s)) ->
  (forall l, Forall P l -> P (TArr l)) -> (forall l, Forall (fun kv => P kv.2) l -> P (TObj l)) -> forall t, P t.
Proof.
  intros Hn Hb Hnum Hs Ha Ho. fix IH 1. intros [|b|x|s|l|l]; [exact Hn|apply Hb|apply Hnum|apply Hs| |].
  - apply Ha. induction l as [|t l IHl]; constructor; [apply IH|apply IHl].
  - apply Ho. induction l as [|kv l IHl]; constructor; [apply IH|apply IHl].
Qed.

(** ** Strings *)

(** [utf8.Valid]: no byte is an error of width one. *)
Definition ill_formed (x : Z * bytes) : Prop := x.1 = RuneError /\ length x.2 = 1%nat.
#[export] Instance ill_formed_dec x : Decision (ill_formed x).
Proof. unfold ill_formed. apply _. Defined.
Definition slices (s : bytes) : list (Z * bytes) := rune_slices (length s) s.
Definition ValidString (s : gostring) : bool := forallb (fun x => bool_decide (~ ill_formed x)) (slices s).

Definition replacement : bytes := [239; 191; 189].
(** What unquoting leaves of a string: every ill-formed byte is replaced. *)
Definition toValid (s : gostring) : gostring := flat_map (fun x => if decide (ill_formed x) then replacement else x.2) (slices s).

Definition hex4 (n : Z) : gostring := [hex_digit (n / 4096); hex_digit (n / 256 mod 16); hex_digit (n / 16 mod 16); hex_digit (n mod 16)].
Definition escapeU (n : Z) : gostring := gs "\u" ++ hex4 n.

(** One character of a string, with the HTML characters escaped. *)
Definition escapeByte (c : Z) : gostring :=
  if decide (c = 34 \/ c = 92) then [92; c]
  else if decide (c = 8) then gs "\b"
  else if decide (c = 12) then gs "\f"
  else if decide (c = 10) then gs "\n"
  else if decide (c = 13) then gs "\r"
  else if decide (c = 9) then gs "\t"
  else if decide (c < 32 \/ c = 60 \/ c = 62 \/ c = 38) then escapeU c
  else [c].
Definition escapeSlice (x : Z * bytes) : gostring :=
  if decide (x.1 < 128) then escapeByte x.1
  else if decide (ill_formed x) then gs "\ufffd"
  else if decide (x.1 = 8232 \/ x.1 = 8233) then escapeU x.1
  else x.2.
Definition escapeString (s : gostring) : gostring := flat_map escapeSlice (slices s).
Definition quoteJson (s : gostring) : gostring := [34] ++ escapeString s ++ [34].

(** A string literal after its opening quote: the text with the escapes resolved, and
    what follows the closing quote. *)
Definition getu4 (a b c d : Z) : option Z :=
  match from_hex_char a, from_hex_char b, from_hex_char c, from_hex_char d with
  | Some a, Some b, Some c, Some d => Some (a * 4096 + b * 256 + c * 16 + d)
  | _, _, _, _ => None
  end.
Definition simpleEscape (e : Z) : option Z :=
  if decide (e = 34 \/ e = 92 \/ e = 47) then Some e
  else if decide (e = 98) then Some 8
  else if decide (e = 102) then Some 12
  else if decide (e = 110) then Some 10
  else if decide (e = 114) then Some 13
  else if decide (e = 116) then Some 9
  else None.
(** The rune of a pair of UTF-16 surrogates. *)
Definition surrogatePair (r1 r2 : Z) : option Z :=
  if decide (55296 <= r1 < 56320 /\ 56320 <= r2 < 57344) then Some ((r1 - 55296) * 1024 + (r2 - 56320) + 65536) else None.
Definition prepend (p : bytes) (r : option (bytes * bytes)) : option (bytes * bytes) := (fun '(s, rest) => (p ++ s, rest)) <$> r.

Fixpoint scanString (s : bytes) : option (bytes * bytes) :=
  match s with
  | [] => None
  | c :: s =>
      if decide (c = 34) then Some ([], s)
      else if decide (c = 92) then
        match s with
        | [] => None
        | e :: s1 =>
            if decide (e = 117) then
              match s1 with
              | a :: b :: x :: y :: s2 =>
                  match getu4 a b x y with
                  | None => None
                  | Some r =>
                      match s2 with
                      | b1 :: u1 :: a1 :: a2 :: a3 :: a4 :: s3 =>
                          match (if decide (b1 = 92 /\ u1 = 117) then getu4 a1 a2 a3 a4 ≫= surrogatePair r else None) with
                          | Some rr => prepend (EncodeRune rr) (scanString s3)
                          | None => prepend (EncodeRune r) (scanString s2)
                          end
                      | _ => prepend (EncodeRune r) (scanString s2)
                      end
                  end
              | _ => None
              end
            else match simpleEscape e with Some b => prepend [b] (scanString s1) | None => None end
        end
      else if decide (c < 32) then None
      else prepend [c] (scanString s)
  end.
Definition stringLit (s : bytes) : option (gostring * bytes) := (fun '(raw, rest) => (toValid raw, rest)) <$> scanString s.

(** ** Numbers *)

Fixpoint takeDigits (s : bytes) : bytes * bytes :=
  match s with
  | c :: s' => if is_digit c then let '(ds, rest) := takeDigits s' in (c :: ds, rest) else ([], s)
  | [] => ([], [])
  end.
Definition scanInt (s : bytes) : option (bytes * bytes) :=
  match s with
  | c :: s' => if decide (c = 48) then Some ([c], s') else if is_digit c then Some (takeDigits s) else None
  | [] => None
  end.
Definition scanFrac (s : bytes) : option (bytes * bytes) :=
  match s with
  | c :: s' => if decide (c = 46) then let '(ds, rest) := takeDigits s' in if decide (ds = []) then None else Some (c :: ds, rest) else Some ([], s)
  | [] => Some ([], [])
  end.
Definition scanExp (s : bytes) : option (bytes * bytes) :=
  match s with
  | e :: s' =>
      if decide (e = 101 \/ e = 69) then
        let '(sign, s2) := match s' with c :: s3 => if decide (c = 43 \/ c = 45) then ([c], s3) else ([], s') | [] => ([], []) end in
        let '(ds, rest) := takeDigits s2 in
        if decide (ds = []) then None else Some (e :: sign ++ ds, rest)
      else Some ([], s)
  | [] => Some ([], [])
  end.
Definition scanNumber (s : bytes) : option (gostring * bytes) :=
  let '(sign, s) := match s with c :: s' => if decide (c = 45) then ([c], s') else ([], s) | [] => ([], []) end in
  '(int, s) ← scanInt s;
  '(frac, s) ← scanFrac s;
  '(exp, s) ← scanExp s;
  Some (sign ++ int ++ frac ++ exp, s).

(** ** Values *)

Definition is_ws (c : Z) : bool := bool_decide (c = 32 \/ c = 9 \/ c = 13 \/ c = 10).
Fixpoint skipWs (s : bytes) : bytes := match s with c :: s' => if is_ws c then skipWs s' else s | [] => [] end.

Definition literal (text : gostring) (t : tree) (s : bytes) : option (tree * bytes) :=
  if HasPrefix s text then Some (t, drop (length text) s) else None.

(** Values that hold no others. *)
Definition scalar (s : bytes) : option (tree * bytes) :=
  match s with
  | [] => None
  | c :: s' =>
      if decide (c = 34) then (fun '(x, rest) => (TStr x, rest)) <$> stringLit s'
      else if decide (c = 116) then literal (gs "true") (TBool true) s
      else if decide (c = 102) then literal (gs "false") (TBool false) s
      else if decide (c = 110) then literal (gs "null") TNull s
      else (fun '(x, rest) => (TNum x, rest)) <$> scanNumber s
  end.

(** A run may use up its fuel ([Hang]) or find an error ([Ret None]). *)
Abbreviation parsed A := (go (option (A * bytes))).
Definition andThen {A B} (m : parsed A) (k : A -> bytes -> parsed B) : parsed B :=
  r ← m; match r with Some (a, s) => k a s | None => Ret None end.

(** [d] is the number of levels that may still be opened. *)
Fixpoint value (fuel d : nat) (s : bytes) : parsed tree :=
  match fuel with
  | O => Hang
  | S fuel =>
      match skipWs s with
      | c :: s' =>
          if decide (c = 123) then
            match d with
            | O => Ret None
            | S d =>
                match skipWs s' with
                | c1 :: s2 => if decide (c1 = 125) then Ret (Some (TObj [], s2)) else andThen (members fuel d s') (fun l rest => Ret (Some (TObj l, rest)))
                | [] => Ret None
                end
            end
          else if decide (c = 91) then
            match d with
            | O => Ret None
            | S d =>
                match skipWs s' with
                | c1 :: s2 => if decide (c1 = 93) then Ret (Some (TArr [], s2)) else andThen (elements fuel d s') (fun l rest => Ret (Some (TArr l, rest)))
                | [] => Ret None
                end
            end
          else Ret (scalar (c :: s'))
      | [] => Ret None
      end
  end
with elements (fuel d : nat) (s : bytes) : parsed (list tree) :=
  match fuel with
  | O => Hang
  | S fuel =>
      andThen (value fuel d s) (fun t rest =>
        match skipWs rest with
        | c :: rest =>
            if decide (c = 44) then andThen (elements fuel d rest) (fun l rest => Ret (Some (t :: l, rest)))
            else if decide (c = 93) then Ret (Some ([t], rest)) else Ret None
        | [] => Ret None
        end)
  end
with members (fuel d : nat) (s : bytes) : parsed (list (gostring * tree)) :=
  match fuel with
  | O => Hang
  | S fuel =>
      match skipWs s with
      | q :: s =>
          if decide (q = 34) then
            match stringLit s with
            | None => Ret None
            | Some (k, s) =>
                match skipWs s with
                | c :: s =>
                    if decide (c = 58) then
                      andThen (value fuel d s) (fun t rest =>
                        match skipWs rest with
                        | c :: rest =>
                            if decide (c = 44) then andThen (members fuel d rest) (fun l rest => Ret (Some ((k, t) :: l, rest)))
                            else if decide (c = 125) then Ret (Some ([(k, t)], rest)) else Ret None
                        | [] => Ret None
                        end)
                    else Ret None
                | [] => Ret None
                end
            end
          else Ret None
      | [] => Ret None
      end
  end.

Definition maxNestingDepth : nat := Z.to_nat 10000.
(** The first value of a text ([Decoder.Decode]) and the only one ([json.Unmarshal]). *)
Definition decodeFirst (s : bytes) : parsed tree := value (2 * length s + 1) maxNestingDepth s.
Definition parseText (s : bytes) : go (option tree) :=
  r ← decodeFirst s;
  Ret (match r with Some (t, rest) => match skipWs rest with [] => Some t | _ => None end | None => None end).

(** ** Printing *)

Section Print.
(** What is written before a value at a level, and after the colon. *)
Context (nl : nat -> bytes) (sp : bytes).

Fixpoint print (d : nat) (t : tree) : bytes :=
  match t with
  | TNull => gs "null"
  | TBool b => if b then gs "true" else gs "false"
  | TNum x => x
  | TStr s => quoteJson s
  | TArr [] => gs "[]"
  | TArr l => [91] ++ nl (S d) ++ Join (map (print (S d)) l) (44 :: nl (S d)) ++ nl d ++ [93]
  | TObj [] => gs "{}"
  | TObj l => [123] ++ nl (S d) ++ Join (map (fun kv => quoteJson kv.1 ++ [58] ++ sp ++ print (S d) kv.2) l) (44 :: nl (S d)) ++ nl d ++ [125]
  end.
End Print.

(** [json.Marshal], [json.MarshalIndent] with two blanks, and an [Encoder] with that
    indentation. *)
Definition compactText (t : tree) : bytes := print (fun _ => []) [] 0 t.
Definition indentText (t : tree) : bytes := print (fun d => 10 :: replicate (2 * d) 32) [32] 0 t.
Definition encoderText (t : tree) : bytes := indentText t ++ [10].

(** ** UTF-8 *)

Lemma DecodeRune_width s r w : DecodeRune s = Some (r, w) -> (1 <= w <= length s)%nat.
Proof. unfold DecodeRune. intros H. repeat case_match; simplify_eq; simpl; lia. Qed.

(** A well-formed rune is decoded whatever follows it. *)
Lemma DecodeRune_prefix s r w t :
  DecodeRune s = Some (r, w) -> ~ (r = RuneError /\ w = 1%nat) -> DecodeRune (take w s ++ t) = Some (r, w).
Proof.
  unfold DecodeRune. intros H Hn. destruct s as [|b0 s]; [done|].
  destruct (decide (b0 < 128)) as [H0|H0]; [simplify_eq; simpl; by rewrite decide_True|].
  destruct (decide (194 <= b0 <= 223)) as [H1|H1].
  - destruct s as [|b1 s]; [exfalso; naive_solver|]. destruct (is_cont b1) eqn:E; [|exfalso; naive_solver].
    simplify_eq. simpl. rewrite decide_False, decide_True, E by lia. done.
  - destruct (decide (224 <= b0 <= 239)) as [H2|H2].
    + destruct s as [|b1 [|b2 s]]; [exfalso; naive_solver..|]. cbn zeta in *. destruct (_ && _) eqn:E; [|exfalso; naive_solver].
      simplify_eq. simpl. rewrite decide_False, decide_False, decide_True, E by lia. done.
    + destruct (decide (240 <= b0 <= 244)) as [H3|H3]; [|exfalso; naive_solver].
      destruct s as [|b1 [|b2 [|b3 s]]]; [exfalso; naive_solver..|]. cbn zeta in *. destruct (_ && _) eqn:E; [|exfalso; naive_solver].
      simplify_eq. simpl. rewrite decide_False, decide_False, decide_False, decide_True, E by lia. done.
Qed.

(** A byte below 128, an ill-formed byte, or the encoding of a rune. *)
Lemma DecodeRune_cases s r w :
  DecodeRune s = Some (r, w) ->
  (take w s = [r] /\ r < 128) \/ (128 <= r /\ (r <> RuneError \/ w <> 1%nat) /\ take w s = EncodeRune r /\ Forall (fun c => 128 <= c) (take w s)) \/
  (r = RuneError /\ w = 1%nat /\ Forall (fun c => 128 <= c) (take w s)).
Proof.
  unfold DecodeRune. destruct s as [|b0 s]; [done|]. destruct (decide (b0 < 128)) as [H0|H0]; [intros [= <- <-]; by left|].
  assert (Forall (fun c => 128 <= c) (take 1 (b0 :: s))) as Hill by (repeat constructor; lia). intros H. right.
  destruct (decide (194 <= b0 <= 223)) as [H1|H1].
  - destruct s as [|b1 s]; [injection H as <- <-; by right|]. destruct (is_cont b1) eqn:E; [|injection H as <- <-; by right].
    apply bool_decide_eq_true in E. injection H as <- <-. left. split; [lia|]. split; [by right|].
    split; [|repeat constructor; lia]. unfold EncodeRune. rewrite decide_False, decide_True by lia. cbn [take].
    f_equal; [|f_equal]; Z.to_euclidean_division_equations; lia.
  - destruct (decide (224 <= b0 <= 239)) as [H2|H2].
    + destruct s as [|b1 [|b2 s]]; [injection H as <- <-; by right..|]. cbn zeta in H. destruct (_ && _) eqn:E; [|injection H as <- <-; by right].
      apply andb_prop in E as [E1 E2]. apply bool_decide_eq_true in E1, E2. injection H as <- <-. left.
      assert (2048 <= (b0 - 224) * 4096 + (b1 - 128) * 64 + (b2 - 128) < 65536 /\
              ~ 55296 <= (b0 - 224) * 4096 + (b1 - 128) * 64 + (b2 - 128) <= 57343) as Hr by (repeat case_decide; lia).
      split; [lia|]. split; [by right|]. split; [|repeat constructor; repeat case_decide; lia].
      unfold EncodeRune. rewrite decide_False, decide_False, decide_True by (done || lia). cbn [take].
      assert (128 <= b1 <= 191) by (repeat case_decide; lia). clear E1 Hr Hill.
      f_equal; [|f_equal; [|f_equal]]; Z.to_euclidean_division_equations; lia.
    + destruct (decide (240 <= b0 <= 244)) as [H3|H3]; [|injection H as <- <-; by right].
      destruct s as [|b1 [|b2 [|b3 s]]]; [injection H as <- <-; by right..|]. cbn zeta in H. destruct (_ && _) eqn:E; [|injection H as <- <-; by right].
      apply andb_prop in E as [E E3]. apply andb_prop in E as [E1 E2]. apply bool_decide_eq_true in E1, E2, E3. injection H as <- <-. left.
      assert (65536 <= (b0 - 240) * 262144 + (b1 - 128) * 4096 + (b2 - 128) * 64 + (b3 - 128) < 1114112) as Hr by (repeat case_decide; lia).
      split; [lia|]. split; [by right|]. split; [|repeat constructor; repeat case_decide; lia].
      unfold EncodeRune. rewrite decide_False, decide_False, decide_False, decide_True by lia. cbn [take].
      assert (128 <= b1 <= 191) by (repeat case_decide; lia). clear E1 Hr Hill.
      f_equal; [|f_equal; [|f_equal; [|f_equal]]]; Z.to_euclidean_division_equations; lia.
Qed.

Lemma rune_slices_fuel n m s : (length s <= n)%nat -> (length s <= m)%nat -> rune_slices n s = rune_slices m s.
Proof.
  revert m s. induction n as [|n IH]; intros [|m] s Hn Hm; try (by destruct s; simpl in *; [|lia]). cbn [rune_slices].
  destruct (DecodeRune s) as [[r w]|] eqn:E; [|done]. f_equal. apply DecodeRune_width in E. apply IH; rewrite length_drop; lia.
Qed.
Lemma slices_cons s r w : DecodeRune s = Some (r, w) -> slices s = (r, take w s) :: slices (drop w s).
Proof.
  intros E. unfold slices. pose proof (DecodeRune_width _ _ _ E). destruct s as [|c s]; [done|]. cbn [length rune_slices]. rewrite E. f_equal.
  apply rune_slices_fuel; rewrite length_drop; simpl in *; lia.
Qed.

(** Reasoning on a string slice by slice. *)
Lemma slices_ind (P : bytes -> Prop) : P [] -> (forall s r w, DecodeRune s = Some (r, w) -> P (drop w s) -> P s) -> forall s, P s.
Proof.
  intros H0 Hs s. remember (length s) as n eqn:En. revert s En. induction (lt_wf n) as [n _ IH]. intros s ->.
  destruct s as [|c s]; [done|]. destruct (DecodeRune (c :: s)) as [[r w]|] eqn:E; [|by unfold DecodeRune in E; repeat case_match].
  apply (Hs _ r w E). pose proof (DecodeRune_width _ _ _ E). eapply IH; [|done]. rewrite length_drop. lia.
Qed.

Lemma concat_slices s : concat (map snd (slices s)) = s.
Proof.
  induction s as [|s r w E IH] using slices_ind; [done|]. rewrite (slices_cons s r w E). cbn [map concat snd]. rewrite IH. apply take_drop.
Qed.
Lemma slices_app s r w t : DecodeRune s = Some (r, w) -> ~ (r = RuneError /\ w = 1%nat) -> slices (take w s ++ t) = (r, take w s) :: slices t.
Proof.
  intros E Hn. pose proof (DecodeRune_width _ _ _ E). rewrite (slices_cons _ r w) by (by apply DecodeRune_prefix).
  rewrite take_app_length', drop_app_length' by (rewrite length_take; lia). done.
Qed.
Lemma slice_ill s r w : DecodeRune s = Some (r, w) -> ill_formed (r, take w s) <-> r = RuneError /\ w = 1%nat.
Proof. intros E%DecodeRune_width. unfold ill_formed. simpl. rewrite length_take. split; intros [? ?]; split; lia || done. Qed.

Lemma toValid_cons s r w :
  DecodeRune s = Some (r, w) -> toValid s = (if decide (r = RuneError /\ w = 1%nat) then replacement else take w s) ++ toValid (drop w s).
Proof.
  intros E. unfold toValid. rewrite (slices_cons s r w E). cbn [flat_map]. f_equal. pose proof (slice_ill s r w E) as Hi.
  destruct (decide (ill_formed _)) as [H|H]; rewrite Hi in H; [by rewrite decide_True|by rewrite decide_False].
Qed.
Lemma toValid_id s : ValidString s = true -> toValid s = s.
Proof.
  intros H. rewrite <- (concat_slices s) at 2. unfold toValid. rewrite flat_map_concat_map. f_equal. apply map_ext_in. intros x Hx.
  unfold ValidString in H. rewrite forallb_forall in H. apply H, bool_decide_eq_true in Hx. by rewrite decide_False.
Qed.
Lemma ValidString_cons s r w : DecodeRune s = Some (r, w) -> ValidString s = bool_decide (~ (r = RuneError /\ w = 1%nat)) && ValidString (drop w s).
Proof.
  intros E. unfold ValidString. rewrite (slices_cons s r w E). cbn [forallb]. f_equal. apply bool_decide_ext. by rewrite slice_ill.
Qed.

(** What is left of any string is well formed. *)
Lemma toValid_valid s : ValidString (toValid s) = true.
Proof.
  induction s as [|s r w E IH] using slices_ind; [done|]. rewrite (toValid_cons s r w E). case_decide as Hd.
  - rewrite (ValidString_cons _ 65533 3%nat) by done. done.
  - unfold ValidString. rewrite (slices_app s r w) by done. cbn [forallb]. fold (ValidString (toValid (drop w s))). rewrite IH, andb_true_r.
    apply bool_decide_eq_true. by rewrite slice_ill.
Qed.
Lemma Forall_toValid s : bytes_ok s -> bytes_ok (toValid s).
Proof.
  induction s as [|s r w E IH] using slices_ind; [done|]. intros H. rewrite (toValid_cons s r w E). apply Forall_app. split; [|apply IH; by apply Forall_drop].
  case_decide; [|by apply Forall_take]. repeat constructor; unfold is_byte; lia.
Qed.

(** ** Escapes *)

Lemma getu4_hex4 n : 0 <= n < 65536 ->
  getu4 (hex_digit (n / 4096)) (hex_digit (n / 256 mod 16)) (hex_digit (n / 16 mod 16)) (hex_digit (n mod 16)) = Some n.
Proof.
  intros H. unfold getu4. rewrite !from_hex_digit; [|apply Z.mod_pos_bound; lia..|split; [apply Z.div_pos; lia|apply Z.div_lt_upper_bound; lia]].
  f_equal. Z.to_euclidean_division_equations. lia.
Qed.

Lemma scan_u n s : 0 <= n < 65536 -> ~ 55296 <= n < 56320 -> scanString (escapeU n ++ s) = prepend (EncodeRune n) (scanString s).
Proof.
  intros H Hs. unfold escapeU. change (gs "\u") with [92; 117]. cbn [app hex4 scanString]. rewrite decide_False, !decide_True, (getu4_hex4 n H) by done.
  destruct s as [|b1 [|u1 [|a1 [|a2 [|a3 [|a4 s3]]]]]]; try done.
  assert ((if decide (b1 = 92 /\ u1 = 117) then getu4 a1 a2 a3 a4 ≫= surrogatePair n else None) = None) as ->; [|done].
  case_decide; [|done]. destruct (getu4 a1 a2 a3 a4); [|done]. simpl. unfold surrogatePair. by rewrite decide_False by lia.
Qed.

Lemma scan_byte c s : 0 <= c < 128 -> scanString (escapeByte c ++ s) = prepend [c] (scanString s).
Proof.
  intros H. unfold escapeByte.
  repeat (case_decide; [first [subst; by cbn | destruct_or?; subst; by cbn | rewrite scan_u by lia; unfold EncodeRune; by rewrite decide_True by lia]|]).
  cbn [app scanString]. by rewrite !decide_False by lia.
Qed.
Lemma prepend_nil r : prepend [] r = r.
Proof. by destruct r as [[? ?]|]. Qed.
Lemma prepend_app p q r : prepend p (prepend q r) = prepend (p ++ q) r.
Proof. destruct r as [[? ?]|]; [|done]. unfold prepend. simpl. by rewrite app_assoc. Qed.
Lemma scan_plain p s : Forall (fun c => 128 <= c) p -> scanString (p ++ s) = prepend p (scanString s).
Proof.
  induction 1 as [|c p Hc Hp IH]; [cbn [app]; by rewrite prepend_nil|]. cbn [app scanString]. rewrite !decide_False by lia. by rewrite IH, prepend_app.
Qed.

(** Unescaping inverts escaping, up to the ill-formed bytes. *)
Lemma scan_escape s rest : bytes_ok s -> scanString (escapeString s ++ 34 :: rest) = Some (toValid s, rest).
Proof.
  induction s as [|s r w E IH] using slices_ind; intros Hb; [done|].
  rewrite (toValid_cons s r w E). unfold escapeString. rewrite (slices_cons s r w E). cbn [flat_map]. fold (escapeString (drop w s)). rewrite <- app_assoc.
  pose proof (IH (Forall_drop _ w s Hb)) as IH'. unfold escapeSlice. cbn [fst snd]. pose proof (slice_ill s r w E) as Hi.
  destruct (DecodeRune_cases s r w E) as [[Ht Hr]|[(Hr & Hw & He & Hbig)|(-> & -> & _)]].
  - assert (0 <= r < 128) by (apply (Forall_take _ w) in Hb; rewrite Ht in Hb; apply Forall_cons in Hb as [[??] _]; lia).
    rewrite decide_True, scan_byte, IH' by done. rewrite decide_False by (intros [-> _]; unfold RuneError in *; lia). by rewrite Ht.
  - rewrite decide_False by lia. rewrite (decide_False (P := ill_formed _)) by (rewrite Hi; naive_solver). rewrite (decide_False (P := _ /\ _)) by naive_solver.
    case_decide; [rewrite scan_u by lia; by rewrite IH', He|]. by rewrite scan_plain, IH'.
  - rewrite decide_False, decide_True by (rewrite ?Hi; done). rewrite decide_True by done. change (gs "\ufffd") with (escapeU RuneError).
    rewrite scan_u, IH' by (unfold RuneError; lia). done.
Qed.
Lemma stringLit_escape s rest : bytes_ok s -> stringLit (escapeString s ++ 34 :: rest) = Some (toValid s, rest).
Proof. intros Hb. unfold stringLit. rewrite scan_escape by done. simpl. by rewrite toValid_id by apply toValid_valid. Qed.

(** ** Number literals *)

(** What may follow a number. *)
Definition ends (s : bytes) : Prop := match s with c :: _ => is_digit c = false /\ c <> 46 /\ c <> 101 /\ c <> 69 | [] => True end.
(** A literal of the grammar. *)
Definition number_ok (x : gostring) : Prop := scanNumber x = Some (x, []).
#[export] Instance number_ok_dec x : Decision (number_ok x).
Proof. unfold number_ok. apply _. Defined.

Definition nodigit (s : bytes) : Prop := match s with c :: _ => is_digit c = false | [] => True end.
Lemma ends_nodigit s : ends s -> nodigit s.
Proof. destruct s; [done|]. by intros [? _]. Qed.
Lemma ends_head s : ends s -> head s <> Some 46.
Proof. destruct s; [done|]. intros (_ & ? & _). naive_solver. Qed.
#[local] Hint Resolve ends_nodigit ends_head : core.

Lemma takeDigits_app s ds r rest : takeDigits s = (ds, r) -> nodigit rest -> takeDigits (s ++ rest) = (ds, r ++ rest).
Proof.
  revert ds r. induction s as [|c s IH]; intros ds r H He; cbn [takeDigits app] in *.
  - simplify_eq. destruct rest as [|c rest]; [done|]. cbn [takeDigits]. cbn in He. by rewrite He.
  - destruct (is_digit c); [|by simplify_eq]. destruct (takeDigits s) as [ds' r']. simplify_eq. by rewrite (IH _ _ eq_refl).
Qed.
Lemma scanInt_app s x r rest : scanInt s = Some (x, r) -> nodigit rest -> scanInt (s ++ rest) = Some (x, r ++ rest).
Proof.
  destruct s as [|c s]; [done|]. cbn [scanInt app]. case_decide; [intros; by simplify_eq|]. destruct (is_digit c) eqn:E; [|done].
  intros [= Hx] He. by rewrite (takeDigits_app (c :: s) x r rest Hx He : takeDigits (c :: s ++ rest) = _).
Qed.
Lemma scanFrac_app s x r rest : scanFrac s = Some (x, r) -> nodigit rest -> head rest <> Some 46 -> scanFrac (s ++ rest) = Some (x, r ++ rest).
Proof.
  destruct s as [|c s]; cbn [scanFrac app].
  - intros [= <- <-] _ He. destruct rest as [|c rest]; [done|]. cbn [scanFrac]. rewrite decide_False by (by intros ->). done.
  - case_decide; [|intros; by simplify_eq]. destruct (takeDigits s) as [ds r'] eqn:E. case_decide; [done|]. intros [= <- <-] He _.
    rewrite (takeDigits_app s ds r' rest E He). by rewrite decide_False.
Qed.
Lemma scanExp_app s x r rest : scanExp s = Some (x, r) -> ends rest -> scanExp (s ++ rest) = Some (x, r ++ rest).
Proof.
  destruct s as [|c s]; cbn [scanExp app].
  - intros [= <- <-] He. destruct rest as [|c rest]; [done|]. cbn [scanExp]. rewrite decide_False by (intros [-> | ->]; by destruct He as (_ & _ & ? & ?)). done.
  - case_decide; [|intros; by simplify_eq]. intros Hx He. destruct s as [|c2 s]; [done|]. cbn [app].
    destruct (decide (c2 = 43 \/ c2 = 45)).
    + destruct (takeDigits s) as [ds r'] eqn:E. rewrite (takeDigits_app s ds r' rest E (ends_nodigit _ He)). case_decide; by simplify_eq.
    + destruct (takeDigits (c2 :: s)) as [ds r'] eqn:E.
      rewrite (takeDigits_app (c2 :: s) ds r' rest E (ends_nodigit _ He) : takeDigits (c2 :: s ++ rest) = _). case_decide; by simplify_eq.
Qed.
Lemma scanNumber_app s x r rest : scanNumber s = Some (x, r) -> ends rest -> scanNumber (s ++ rest) = Some (x, r ++ rest).
Proof.
  intros H He. unfold scanNumber in *. destruct s as [|c s]; [done|]. cbn [app].
  destruct (decide (c = 45)); cbv iota zeta in *.
  - destruct (scanInt s) as [[i s1]|] eqn:E1; [|done]. simpl in H. destruct (scanFrac s1) as [[f s2]|] eqn:E2; [|done]. simpl in H.
    destruct (scanExp s2) as [[ex s3]|] eqn:E3; [|done]. simpl in H. simplify_eq.
    rewrite (scanInt_app _ _ _ rest E1) by auto. simpl. rewrite (scanFrac_app _ _ _ rest E2) by auto. simpl. by rewrite (scanExp_app _ _ _ rest E3 He).
  - destruct (scanInt (c :: s)) as [[i s1]|] eqn:E1; [|done]. simpl in H. destruct (scanFrac s1) as [[f s2]|] eqn:E2; [|done]. simpl in H.
    destruct (scanExp s2) as [[ex s3]|] eqn:E3; [|done]. simpl in H. simplify_eq.
    rewrite (scanInt_app _ _ _ rest E1 (ends_nodigit _ He) : scanInt (c :: s ++ rest) = _). simpl. rewrite (scanFrac_app _ _ _ rest E2) by auto. simpl.
    by rewrite (scanExp_app _ _ _ rest E3 He).
Qed.
Lemma number_head x : number_ok x -> exists c s, x = c :: s /\ (is_digit c = true \/ c = 45).
Proof.
  unfold number_ok, scanNumber. destruct x as [|c x]; [done|]. intros H. exists c, x. split; [done|]. destruct (decide (c = 45)); [by right|]. left.
  cbn [scanInt] in H. destruct (decide (c = 48)) as [->|]; [done|]. by destruct (is_digit c).
Qed.

(** Decimal texts of integers. *)
Lemma takeDigits_all ds : Forall (fun c => 48 <= c <= 57) ds -> takeDigits ds = (ds, []).
Proof. induction 1 as [|c ds Hc Hd IH]; [done|]. cbn [takeDigits]. unfold is_digit. rewrite bool_decide_true by done. by rewrite IH. Qed.
Lemma itoa_fuel_head f n : 0 < n < 2 ^ Z.of_nat f -> exists c ds, itoa_fuel f n = c :: ds /\ c <> 48.
Proof.
  revert n. induction f as [|f IH]; intros n Hn; [change (2 ^ Z.of_nat 0) with 1 in Hn; lia|]. cbn [itoa_fuel]. rewrite Nat2Z.inj_succ, Z.pow_succ_r in Hn by lia.
  case_decide; [eexists _, _; split; [done|lia]|]. destruct (IH (n / 10)) as (c & ds & -> & Hc); [|by eexists c, _].
  split; [apply Z.div_str_pos; lia|apply Z.div_lt_upper_bound; lia].
Qed.
Lemma itoa_head n : 0 < n -> exists c ds, itoa n = c :: ds /\ c <> 48.
Proof.
  intros Hn. apply itoa_fuel_head. split; [done|]. rewrite Nat2Z.inj_succ, Z2Nat.id by apply Z.log2_nonneg. apply Z.log2_spec. lia.
Qed.

(** The digits of a natural number are one integer literal. *)
Lemma scanInt_itoa n : 0 <= n -> scanInt (itoa n) = Some (itoa n, []).
Proof.
  intros Hn. destruct (decide (n = 0)) as [->|]; [done|]. destruct (itoa_head n) as (c & ds & E & Hc); [lia|]. pose proof (itoa_digits n Hn) as Hd.
  rewrite E in Hd |- *. cbn [scanInt]. rewrite decide_False by done. rewrite (takeDigits_all _ Hd). apply Forall_cons in Hd as [Hc' _].
  unfold is_digit. by rewrite bool_decide_true.
Qed.
Lemma number_fmt_d n : number_ok (fmt_d n).
Proof.
  unfold number_ok, scanNumber, fmt_d. case_decide as Hn.
  - change (gs "-" ++ itoa (- n)) with (45 :: itoa (- n)). cbv iota zeta. rewrite decide_True by done. rewrite scanInt_itoa by lia. simpl. by rewrite app_nil_r.
  - pose proof (scanInt_itoa n ltac:(lia)) as H. pose proof (itoa_digits n ltac:(lia)) as Hd. destruct (itoa n) as [|c ds] eqn:E; [done|].
    apply Forall_cons in Hd as [Hc _]. rewrite decide_False by lia. rewrite H. simpl. by rewrite app_nil_r.
Qed.

(** ** Printable trees *)

Definition string_ok (s : gostring) : Prop := bytes_ok s /\ ValidString s = true.
#[export] Instance string_ok_dec s : Decision (string_ok s).
Proof. unfold string_ok. apply _. Defined.

(** Trees that can be printed: strings in UTF-8, literals of the grammar. *)
Fixpoint treeOk (t : tree) : bool :=
  match t with
  | TNum x => bool_decide (number_ok x)
  | TStr s => bool_decide (string_ok s)
  | TArr l => forallb treeOk l
  | TObj l => forallb (fun kv => bool_decide (string_ok kv.1) && treeOk kv.2) l
  | _ => true
  end.
Abbreviation tree_ok t := (treeOk t = true).

Lemma forallb_Forall_eq {A} (f : A -> bool) l : forallb f l = true <-> Forall (fun x => f x = true) l.
Proof. induction l as [|x l IH]; simpl; [split; [constructor|done]|]. by rewrite Forall_cons, andb_true_iff, IH. Qed.
Lemma arr_ok l : tree_ok (TArr l) <-> Forall (fun t => tree_ok t) l.
Proof. apply forallb_Forall_eq. Qed.
Lemma obj_ok l : tree_ok (TObj l) <-> Forall (fun kv => string_ok kv.1 /\ tree_ok kv.2) l.
Proof. cbn [treeOk]. rewrite forallb_Forall_eq. apply Forall_iff. intros kv. by rewrite andb_true_iff, bool_decide_eq_true. Qed.

(** Trees of any byte strings, and what is left of them after a round trip. *)
Fixpoint rawOk (t : tree) : bool :=
  match t with
  | TNum x => bool_decide (number_ok x)
  | TStr s => bool_decide (bytes_ok s)
  | TArr l => forallb rawOk l
  | TObj l => forallb (fun kv => bool_decide (bytes_ok kv.1) && rawOk kv.2) l
  | _ => true
  end.
Abbreviation raw_ok t := (rawOk t = true).
Fixpoint clean (t : tree) : tree :=
  match t with
  | TStr s => TStr (toValid s)
  | TArr l => TArr (map clean l)
  | TObj l => TObj (map (fun kv => (toValid kv.1, clean kv.2)) l)
  | _ => t
  end.

Lemma raw_arr l : raw_ok (TArr l) <-> Forall (fun t => raw_ok t) l.
Proof. apply forallb_Forall_eq. Qed.
Lemma raw_obj l : raw_ok (TObj l) <-> Forall (fun kv => bytes_ok kv.1 /\ raw_ok kv.2) l.
Proof. cbn [rawOk]. rewrite forallb_Forall_eq. apply Forall_iff. intros kv. by rewrite andb_true_iff, bool_decide_eq_true. Qed.
Lemma ok_raw t : tree_ok t -> raw_ok t /\ clean t = t.
Proof.
  induction t as [|b|x|s|l IH|l IH] using tree_induction; try done.
  - intros [Hb Hv]%bool_decide_eq_true. split; [by apply bool_decide_eq_true|]. cbn. by rewrite toValid_id.
  - rewrite arr_ok, raw_arr. cbn [clean]. intros H. induction H as [|t l Ht Hl IHl]; [done|]. apply Forall_cons in IH as [IHt IH]. destruct (IHt Ht) as [Hr Hc].
    destruct (IHl IH) as [Hrs [= Hcs]]. split; [by constructor|]. cbn [map]. by rewrite Hc, Hcs.
  - rewrite obj_ok, raw_obj. cbn [clean]. intros H. induction H as [|[k t] l [[Hk Hv] Ht] Hl IHl]; [done|]. apply Forall_cons in IH as [IHt IH]. destruct (IHt Ht) as [Hr Hc].
    destruct (IHl IH) as [Hrs [= Hcs]]. split; [by constructor|]. cbn [map fst snd] in *. by rewrite Hc, Hcs, toValid_id.
Qed.

Fixpoint depth (t : tree) : nat :=
  match t with
  | TArr l => S (foldr (fun t n => Nat.max (depth t) n) 0%nat l)
  | TObj l => S (foldr (fun kv n => Nat.max (depth kv.2) n) 0%nat l)
  | _ => O
  end.

Lemma depth_list {A} (f : A -> nat) l d : (foldr (fun x n => Nat.max (f x) n) 0 l <= d)%nat <-> Forall (fun x => (f x <= d)%nat) l.
Proof. induction l as [|x l IH]; simpl; [split; [constructor|lia]|]. rewrite Forall_cons, <- IH. lia. Qed.

Lemma skipWs_app ws s : Forall (fun c => is_ws c = true) ws -> skipWs (ws ++ s) = skipWs s.
Proof. induction 1 as [|c ws Hc Hw IH]; [done|]. cbn [app skipWs]. by rewrite Hc. Qed.
Lemma value_ws fuel d ws s : Forall (fun c => is_ws c = true) ws -> value fuel d (ws ++ s) = value fuel d s.
Proof. intros H. destruct fuel; [done|]. cbn [value]. by rewrite skipWs_app. Qed.
Lemma members_ws fuel d ws s : Forall (fun c => is_ws c = true) ws -> members fuel d (ws ++ s) = members fuel d s.
Proof. intros H. destruct fuel; [done|]. cbn [members]. by rewrite skipWs_app. Qed.
Lemma elements_ws fuel d ws s : Forall (fun c => is_ws c = true) ws -> elements fuel d (ws ++ s) = elements fuel d s.
Proof. intros H. destruct fuel; [done|]. cbn [elements]. by rewrite value_ws. Qed.
Lemma ends_ws ws c s : Forall (fun c => is_ws c = true) ws -> ends (c :: s) -> ends (ws ++ c :: s).
Proof.
  intros [|x ws' Hx _]; [done|]. intros _. cbn. apply bool_decide_eq_true in Hx. unfold is_digit. rewrite bool_decide_false by lia. lia.
Qed.

(** ** Reading back *)

Section RoundTrip.
Context (nl : nat -> bytes) (sp : bytes) (Hnl : forall d, Forall (fun c => is_ws c = true) (nl d)) (Hsp : Forall (fun c => is_ws c = true) sp).

(** The first character says which kind of value follows. *)
Lemma print_head d t : raw_ok t -> exists c s, print nl sp d t = c :: s /\ is_ws c = false /\ c <> 93 /\ c <> 125.
Proof.
  destruct t as [|b|x|s|l|l]; cbn [print]; intros Hx.
  - by eexists _, _.
  - destruct b; by eexists _, _.
  - apply bool_decide_eq_true in Hx. destruct (number_head x Hx) as (c & s & -> & Hc). exists c, s. split; [done|]. unfold is_digit in Hc.
    rewrite bool_decide_eq_true in Hc. unfold is_ws. rewrite bool_decide_false by lia. split; [done|lia].
  - by eexists _, _.
  - destruct l; by eexists _, _.
  - destruct l; by eexists _, _.
Qed.
Lemma skip_print d t s : raw_ok t -> skipWs (print nl sp d t ++ s) = print nl sp d t ++ s.
Proof. intros (c & s' & -> & Hc & _)%(print_head d). cbn [app skipWs]. by rewrite Hc. Qed.

(** Reading back one value, whatever follows it. *)
Definition reads_back (t : tree) : Prop :=
  forall dep d fuel rest, raw_ok t -> (depth t <= d)%nat -> ends rest -> (2 * length (print nl sp dep t ++ rest) + 1 <= fuel)%nat ->
    value fuel d (print nl sp dep t ++ rest) = Ret (Some (clean t, rest)).

Lemma scalar_back fuel d t dep rest :
  (forall l, t <> TArr l) -> (forall l, t <> TObj l) -> raw_ok t -> ends rest -> value (S fuel) d (print nl sp dep t ++ rest) = Ret (Some (clean t, rest)).
Proof.
  intros Ha Ho Ht He. cbn [value]. rewrite skip_print by done. destruct t as [|b|x|s|l|l]; cbn [print]; [done| | | |by destruct (Ha l)|by destruct (Ho l)].
  - by destruct b.
  - apply bool_decide_eq_true in Ht as Hx. pose proof (scanNumber_app x x [] rest Hx He) as Hn. destruct (number_head x Hx) as (c & s & -> & Hc). cbn [app] in *.
    unfold is_digit in Hc. rewrite bool_decide_eq_true in Hc. rewrite !decide_False by lia. cbn [scalar]. rewrite !decide_False by lia. by rewrite Hn.
  - apply bool_decide_eq_true in Ht as Hb. unfold quoteJson. rewrite <- !app_assoc. cbn [app]. rewrite !decide_False by lia. cbn [scalar].
    rewrite decide_True by done. by rewrite stringLit_escape.
Qed.

Lemma elements_back l : Forall reads_back l -> l <> [] -> forall dep e d fuel rest,
  Forall (fun t => raw_ok t) l -> Forall (fun t => (depth t <= d)%nat) l ->
  let text := Join (map (print nl sp dep) l) (44 :: nl dep) ++ nl e ++ 93 :: rest in
  (2 * length text + 2 <= fuel)%nat -> elements fuel d text = Ret (Some (map clean l, rest)).
Proof.
  induction 1 as [|t l Ht Hl IH]; [done|]. intros _ dep e d fuel rest [Hok Hoks]%Forall_cons [Hd Hds]%Forall_cons text Hf. subst text.
  destruct fuel as [|fuel]; [lia|]. cbn [elements]. destruct l as [|t2 l].
  - cbn [map Join] in *. rewrite Ht; [|done|done|by apply ends_ws|lia]. simpl. by rewrite skipWs_app.
  - cbn [map] in *. rewrite Join_cons2, <- !app_assoc in Hf |- *. rewrite Ht; [|done|done|done|lia]. cbn [andThen mbind go_bind app skipWs].
    change (is_ws 44) with false. cbv iota. rewrite decide_True by done. rewrite elements_ws by done. rewrite IH; [done..|].
    rewrite !length_app in Hf |- *. cbn [length] in *. rewrite !length_app in Hf. simpl in *. lia.
Qed.

Definition printMember (dep : nat) (kv : gostring * tree) : bytes := quoteJson kv.1 ++ [58] ++ sp ++ print nl sp dep kv.2.
Lemma members_back l : Forall (fun kv => reads_back kv.2) l -> l <> [] -> forall dep e d fuel rest,
  Forall (fun kv => bytes_ok kv.1 /\ raw_ok kv.2) l -> Forall (fun kv => (depth kv.2 <= d)%nat) l ->
  let text := Join (map (printMember dep) l) (44 :: nl dep) ++ nl e ++ 125 :: rest in
  (2 * length text + 2 <= fuel)%nat -> members fuel d text = Ret (Some (map (fun kv => (toValid kv.1, clean kv.2)) l, rest)).
Proof.
  induction 1 as [|[k t] l Ht Hl IH]; [done|]. intros _ dep e d fuel rest Hoks Hds text Hf. subst text.
  apply Forall_cons in Hoks as [[Hkb Hok] Hoks]. apply Forall_cons in Hds as [Hd Hds]. cbn [fst snd] in *. destruct fuel as [|fuel]; [lia|]. cbn [members].
  assert (exists more, Join (map (printMember dep) ((k, t) :: l)) (44 :: nl dep) ++ nl e ++ 125 :: rest =
    34 :: escapeString k ++ 34 :: 58 :: sp ++ print nl sp dep t ++ more /\
    more = match l with [] => nl e ++ 125 :: rest | _ => 44 :: nl dep ++ Join (map (printMember dep) l) (44 :: nl dep) ++ nl e ++ 125 :: rest end) as (more & E & Em).
  { destruct l as [|kv2 l]; cbn [map]; [|rewrite Join_cons2]; cbn [Join]; unfold printMember at 1, quoteJson; cbn [fst snd]; rewrite <- !app_assoc; by eexists. }
  rewrite E in Hf |- *. cbn [skipWs]. change (is_ws 34) with false. cbv iota. rewrite decide_True, stringLit_escape by done.
  cbn [skipWs]. change (is_ws 58) with false. cbv iota. rewrite decide_True, value_ws by done. cbn [length] in Hf. rewrite !length_app in Hf. cbn [length] in Hf. rewrite !length_app in Hf.
  rewrite Ht; [|done|done|subst more; destruct l; [by apply ends_ws|done]|rewrite length_app; lia]. cbn [andThen mbind go_bind].
  destruct l as [|kv2 l]; subst more; [by rewrite skipWs_app|]. cbn [skipWs]. change (is_ws 44) with false. cbv iota. rewrite decide_True by done.
  rewrite members_ws by done. rewrite IH; [done..|]. cbn [length] in Hf. rewrite length_app in Hf. lia.
Qed.

Lemma value_print t : reads_back t.
Proof.
  induction t as [|b|x|s|l IH|l IH] using tree_induction; intros dep d fuel rest Hok Hd He Hf;
    (destruct fuel as [|fuel]; [lia|]); try (by apply scalar_back).
  - destruct d as [|d]; [simpl in Hd; lia|]. cbn [depth] in Hd. apply le_S_n, depth_list in Hd. apply raw_arr in Hok.
    destruct l as [|t l]; [done|]. set (ts := t :: l) in *. cbn [value].
    assert (print nl sp dep (TArr ts) ++ rest = 91 :: nl (S dep) ++ Join (map (print nl sp (S dep)) ts) (44 :: nl (S dep)) ++ nl dep ++ 93 :: rest) as E
      by (unfold ts; cbn [print]; cbn [app]; by rewrite <- !app_assoc).
    rewrite E in Hf |- *. cbn [skipWs]. change (is_ws 91) with false. cbv iota. rewrite decide_False, decide_True by done. rewrite skipWs_app by done.
    destruct (print_head (S dep) t) as (c & s & Ec & Hc & Hc1 & _); [by apply Forall_cons in Hok as [? _]|].
    assert (exists s', Join (map (print nl sp (S dep)) ts) (44 :: nl (S dep)) ++ nl dep ++ 93 :: rest = c :: s') as [s' Es].
    { unfold ts. cbn [map]. destruct l; cbn [map]; [cbn [Join]|rewrite Join_cons2]; rewrite Ec; by eexists. }
    rewrite Es at 1. cbn [skipWs]. rewrite Hc, decide_False by done. rewrite elements_ws by done.
    rewrite (elements_back ts IH ltac:(done) (S dep) dep d fuel rest); [done..|]. cbn [length] in *. rewrite length_app in Hf. lia.
  - destruct d as [|d]; [simpl in Hd; lia|]. cbn [depth] in Hd. apply le_S_n, depth_list in Hd. apply raw_obj in Hok.
    destruct l as [|[k t] l]; [done|]. set (ts := (k, t) :: l) in *. cbn [value].
    assert (print nl sp dep (TObj ts) ++ rest = 123 :: nl (S dep) ++ Join (map (printMember (S dep)) ts) (44 :: nl (S dep)) ++ nl dep ++ 125 :: rest) as E
      by (unfold ts; cbn [print]; cbn [app]; by rewrite <- !app_assoc).
    rewrite E in Hf |- *. cbn [skipWs]. change (is_ws 123) with false. cbv iota. rewrite decide_True by done. rewrite skipWs_app by done.
    assert (exists s', Join (map (printMember (S dep)) ts) (44 :: nl (S dep)) ++ nl dep ++ 125 :: rest = 34 :: s') as [s' Es].
    { unfold ts. cbn [map]. destruct l; cbn [map]; [cbn [Join]|rewrite Join_cons2]; by eexists. }
    rewrite Es at 1. cbn [skipWs]. change (is_ws 34) with false. cbv iota. rewrite decide_False by done. rewrite members_ws by done.
    rewrite (members_back ts IH ltac:(done) (S dep) dep d fuel rest); [done..|]. cbn [length] in *. rewrite length_app in Hf. lia.
Qed.
End RoundTrip.

(** What is printed is read back, compact or indented, alone or before other text. *)
Lemma decode_print nl sp t rest :
  (forall d, Forall (fun c => is_ws c = true) (nl d)) -> Forall (fun c => is_ws c = true) sp -> raw_ok t -> (depth t <= maxNestingDepth)%nat -> ends rest ->
  decodeFirst (print nl sp 0 t ++ rest) = Ret (Some (clean t, rest)).
Proof. intros. unfold decodeFirst. by apply value_print. Qed.
Lemma parse_raw nl sp t ws :
  (forall d, Forall (fun c => is_ws c = true) (nl d)) -> Forall (fun c => is_ws c = true) sp -> Forall (fun c => is_ws c = true) ws ->
  raw_ok t -> (depth t <= maxNestingDepth)%nat -> parseText (print nl sp 0 t ++ ws) = Ret (Some (clean t)).
Proof.
  intros Hn Hs Hw Ht Hd. unfold parseText. rewrite decode_print; [|done..|].
  - simpl. rewrite <- (app_nil_r ws), skipWs_app by done. done.
  - destruct Hw as [|c ws Hc _]; [done|]. apply bool_decide_eq_true in Hc. cbn. unfold is_digit. rewrite bool_decide_false by lia. lia.
Qed.
Lemma parse_print nl sp t ws :
  (forall d, Forall (fun c => is_ws c = true) (nl d)) -> Forall (fun c => is_ws c = true) sp -> Forall (fun c => is_ws c = true) ws ->
  tree_ok t -> (depth t <= maxNestingDepth)%nat -> parseText (print nl sp 0 t ++ ws) = Ret (Some t).
Proof. intros Hn Hs Hw Ht Hd. destruct (ok_raw t Ht) as [Hr Hc]. rewrite <- Hc at 2. by apply parse_raw. Qed.
Lemma parse_compact t : tree_ok t -> (depth t <= maxNestingDepth)%nat -> parseText (compactText t) = Ret (Some t).
Proof. intros. rewrite <- (app_nil_r (compactText t)). by apply parse_print. Qed.
Lemma indent_ws d : Forall (fun c => is_ws c = true) (10 :: replicate (2 * d) 32).
Proof. constructor; [done|]. by apply Forall_replicate. Qed.
Lemma parse_indent t : tree_ok t -> (depth t <= maxNestingDepth)%nat -> parseText (indentText t) = Ret (Some t).
Proof. intros. rewrite <- (app_nil_r (indentText t)). apply parse_print; try done; [apply indent_ws|by repeat constructor]. Qed.
Lemma parse_encoder t : tree_ok t -> (depth t <= maxNestingDepth)%nat -> parseText (encoderText t) = Ret (Some t).
Proof. intros. apply parse_print; try done; [apply indent_ws|by repeat constructor..]. Qed.

(** ** What the parser returns *)

Lemma takeDigits_split s ds r : takeDigits s = (ds, r) -> s = ds ++ r /\ takeDigits ds = (ds, []) /\ nodigit r.
Proof.
  revert ds r. induction s as [|c s IH]; intros ds r H; cbn [takeDigits] in H; [by simplify_eq|]. destruct (is_digit c) eqn:E; [|by simplify_eq].
  destruct (takeDigits s) as [ds' r']. simplify_eq. destruct (IH _ _ eq_refl) as (-> & Hd & Hr). cbn [takeDigits app]. by rewrite E, Hd.
Qed.
Lemma scanInt_split s x r : scanInt s = Some (x, r) -> s = x ++ r /\ scanInt x = Some (x, []) /\ head x <> Some 45.
Proof.
  destruct s as [|c s]; [done|]. unfold scanInt. destruct (decide (c = 48)) as [->|Hc]; [intros; by simplify_eq|]. destruct (is_digit c) eqn:E; [|done].
  intros [= Hx]. change (takeDigits (c :: s) = (x, r)) in Hx. apply takeDigits_split in Hx as (Hs & Hd & Hr). split; [done|]. destruct x as [|c' x].
  - exfalso. cbn [app] in Hs. subst r. cbn in Hr. congruence.
  - injection Hs as <- _. rewrite decide_False, E by done. rewrite Hd. split; [done|]. intros [= ->]. done.
Qed.
Lemma scanFrac_split s x r : scanFrac s = Some (x, r) -> s = x ++ r /\ scanFrac x = Some (x, []) /\ nodigit x /\ (x = [] -> head r <> Some 46).
Proof.
  destruct s as [|c s]; cbn [scanFrac]; [intros; by simplify_eq|]. destruct (decide (c = 46)) as [->|Hc].
  - destruct (takeDigits s) as [ds r'] eqn:E. case_decide; [done|]. intros [= <- <-]. apply takeDigits_split in E as (-> & Hd & _).
    split; [done|]. cbn [scanFrac]. rewrite decide_True, Hd, decide_False by done. done.
  - intros [= <- <-]. repeat split; try done. intros _ [= ->]. done.
Qed.
Lemma scanExp_split s x r : scanExp s = Some (x, r) -> s = x ++ r /\ scanExp x = Some (x, []) /\ nodigit x /\ head x <> Some 46.
Proof.
  destruct s as [|c s]; cbn [scanExp]; [intros; by simplify_eq|]. destruct (decide (c = 101 \/ c = 69)) as [Hc|Hc]; [|intros; by simplify_eq].
  intros H. destruct s as [|c2 s]; [done|]. assert (nodigit (c :: x) /\ head (c :: x) <> Some 46) as [H1 H2] by (split; [by destruct Hc as [-> | ->]|intros [= ->]; lia]).
  destruct (decide (c2 = 43 \/ c2 = 45)) as [H3|H3].
  - destruct (takeDigits s) as [ds r'] eqn:E. case_decide; [done|]. simplify_eq. apply takeDigits_split in E as (-> & Hd & _).
    split; [done|]. split; [|by destruct Hc as [-> | ->]]. cbn [scanExp app]. rewrite decide_True by done. rewrite (decide_True (P := c2 = 43 \/ c2 = 45)) by done.
    rewrite Hd. by rewrite decide_False.
  - destruct (takeDigits (c2 :: s)) as [ds r'] eqn:E. case_decide as Hn; [done|]. simplify_eq. apply takeDigits_split in E as (Hs & Hd & _).
    split; [cbn [app]; by rewrite Hs|]. split; [|by destruct Hc as [-> | ->]]. cbn [scanExp app]. rewrite decide_True by done. destruct ds as [|c3 ds]; [done|].
    injection Hs as <- _. rewrite (decide_False (P := c2 = 43 \/ c2 = 45)) by done. by rewrite Hd.
Qed.

Lemma nodigit_app a b : nodigit a -> nodigit b -> nodigit (a ++ b).
Proof. by destruct a. Qed.
Lemma scanNumber_split s x r : scanNumber s = Some (x, r) -> s = x ++ r /\ number_ok x /\ x <> [].
Proof.
  unfold scanNumber at 1. set (p := match s with c :: s' => _ | [] => _ end). assert (s = p.1 ++ p.2 /\ (p.1 = [45] \/ p.1 = [])) as [Hs Hp].
  { subst p. destruct s as [|c s]; [by split; [|right]|]. case_decide; subst; simpl; auto. }
  destruct p as [sign s0]. cbn [fst snd] in *. intros H.
  destruct (scanInt s0) as [[i s1]|] eqn:E1; [|done]. simpl in H. destruct (scanFrac s1) as [[f s2]|] eqn:E2; [|done]. simpl in H.
  destruct (scanExp s2) as [[ex s3]|] eqn:E3; [|done]. simpl in H. simplify_eq.
  apply scanInt_split in E1 as (-> & Hi & Hi1). apply scanFrac_split in E2 as (-> & Hf & Hf1 & Hf2). apply scanExp_split in E3 as (-> & He & He1 & He2).
  split; [by rewrite <- !app_assoc|].
  assert (('(int, s) ← scanInt (i ++ f ++ ex); '(frac, s) ← scanFrac s; '(exp, s) ← scanExp s; Some (sign ++ int ++ frac ++ exp, s)) = Some (sign ++ i ++ f ++ ex, [])) as Hall.
  { rewrite (scanInt_app i i [] (f ++ ex) Hi) by (by apply nodigit_app). cbn [mbind option_bind app]. rewrite (scanFrac_app f f [] ex Hf) by done.
    cbn [mbind option_bind app]. rewrite He. done. }
  destruct i as [|c i]; [done|]. split; [|by destruct Hp as [-> | ->]]. unfold number_ok, scanNumber. destruct Hp as [-> | ->]; cbn [app] in *.
  - by rewrite decide_True by done.
  - rewrite decide_False by (intros ->; done). done.
Qed.

Lemma EncodeRune_bytes r : bytes_ok (EncodeRune r).
Proof. unfold EncodeRune. repeat case_decide; repeat constructor; unfold is_byte; Z.to_euclidean_division_equations; lia. Qed.
Lemma prepend_inv p o s rest : prepend p o = Some (s, rest) -> exists s', o = Some (s', rest) /\ s = p ++ s'.
Proof. destruct o as [[s' r]|]; [|done]. intros [= <- <-]. eauto. Qed.
Lemma simpleEscape_byte e b : simpleEscape e = Some b -> is_byte b.
Proof. unfold simpleEscape. intros H. unfold is_byte. repeat case_decide; simplify_eq; lia. Qed.

(** A literal gets shorter, and its text is made of bytes. *)
Lemma scanString_bounds n : forall s raw rest, (length s <= n)%nat -> scanString s = Some (raw, rest) ->
  (length rest < length s)%nat /\ (bytes_ok s -> bytes_ok raw /\ bytes_ok rest).
Proof.
  induction n as [|n IH]; intros s raw rest Hn H; [by destruct s; simpl in *; [|lia]|]. destruct s as [|c s]; [done|]. cbn [scanString length] in *.
  assert (forall p s', (length s' <= length s)%nat -> bytes_ok p -> prepend p (scanString s') = Some (raw, rest) -> (exists q, s = q ++ s') ->
    (length rest < S (length s))%nat /\ (bytes_ok (c :: s) -> bytes_ok raw /\ bytes_ok rest)) as Hstep.
  { intros p s' Hl Hp (raw' & Hs & ->)%prepend_inv [q Hq]. destruct (IH s' raw' rest ltac:(lia) Hs) as [H1 H2]. split; [lia|].
    intros [_ Hb]%Forall_cons. rewrite Hq in Hb. apply Forall_app in Hb as [_ Hb]. destruct (H2 Hb). split; [by apply Forall_app|done]. }
  case_decide; [simplify_eq; split; [lia|]; by intros [_ ?]%Forall_cons|]. case_decide.
  - destruct s as [|e s1]; [done|]. destruct (decide (e = 117)).
    + destruct s1 as [|a [|b [|x [|y s2]]]]; try done. destruct (getu4 a b x y) as [r|]; [|done].
      assert (prepend (EncodeRune r) (scanString s2) = Some (raw, rest) -> (length rest < S (length (e :: a :: b :: x :: y :: s2)))%nat /\
        (bytes_ok (c :: e :: a :: b :: x :: y :: s2) -> bytes_ok raw /\ bytes_ok rest)) as Hs2.
      { intros H'. apply (Hstep (EncodeRune r) s2); [simpl; lia|apply EncodeRune_bytes|done|by exists [e; a; b; x; y]]. }
      destruct s2 as [|b1 [|u1 [|a1 [|a2 [|a3 [|a4 s3]]]]]]; [by apply Hs2..|].
      destruct (if decide _ then _ else _) as [rr|]; [|by apply Hs2].
      apply (Hstep (EncodeRune rr) s3); [simpl; lia|apply EncodeRune_bytes|done|by exists [e; a; b; x; y; b1; u1; a1; a2; a3; a4]].
    + destruct (simpleEscape e) as [b|] eqn:Eb; [|done]. apply (Hstep [b] s1); [simpl; lia|constructor; [by eapply simpleEscape_byte|done]|done|by exists [e]].
  - case_decide; [done|]. apply prepend_inv in H as (raw' & Hs & ->). destruct (IH s raw' rest ltac:(lia) Hs) as [H1' H2']. split; [lia|].
    intros [Hc Hb]%Forall_cons. destruct (H2' Hb). split; [|done]. by constructor.
Qed.
Lemma stringLit_spec s x rest : stringLit s = Some (x, rest) -> (length rest < length s)%nat /\ (bytes_ok s -> string_ok x /\ bytes_ok rest).
Proof.
  unfold stringLit. destruct (scanString s) as [[raw r]|] eqn:E; [|done]. intros [= <- <-].
  destruct (scanString_bounds (length s) s raw r ltac:(lia) E) as [H1 H2]. split; [done|]. intros Hb. destruct (H2 Hb). split; [|done].
  split; [by apply Forall_toValid|apply toValid_valid].
Qed.

(** A result of the parser: the rest is shorter, and what was read can be printed. *)
Definition read_ok {A} (good : A -> Prop) (s : bytes) (m : parsed A) : Prop :=
  exists r, m = Ret r /\ forall a rest, r = Some (a, rest) -> (length rest < length s)%nat /\ (bytes_ok s -> good a /\ bytes_ok rest).

Lemma read_ok_none {A} (good : A -> Prop) s : read_ok good s (Ret None).
Proof. by eexists. Qed.
Lemma read_ok_some {A} (good : A -> Prop) s a rest : (length rest < length s)%nat -> (bytes_ok s -> good a /\ bytes_ok rest) -> read_ok good s (Ret (Some (a, rest))).
Proof. intros. eexists. split; [done|]. by intros ? ? [= <- <-]. Qed.
Lemma read_ok_then {A B} (good : A -> Prop) (good' : B -> Prop) s s' m k :
  read_ok good s' m -> (length s' <= length s)%nat -> (bytes_ok s -> bytes_ok s') ->
  (forall a rest, (length rest < length s')%nat -> (bytes_ok s -> good a /\ bytes_ok rest) -> read_ok good' s (k a rest)) -> read_ok good' s (andThen m k).
Proof.
  intros (r & -> & Hr) Hl Hb Hk. unfold andThen. cbn [mbind go_bind]. destruct r as [[a rest]|]; [|apply read_ok_none].
  destruct (Hr a rest eq_refl) as [H1 H2]. apply Hk; [lia|auto].
Qed.

Lemma skipWs_suffix s : exists ws, s = ws ++ skipWs s.
Proof. induction s as [|c s [ws IH]]; [by exists []|]. cbn [skipWs]. destruct (is_ws c); [|by exists []]. exists (c :: ws). simpl. by rewrite <- IH. Qed.
Lemma skipWs_head s c s' : skipWs s = c :: s' -> (length s' < length s)%nat /\ (bytes_ok s -> bytes_ok s').
Proof.
  intros E. destruct (skipWs_suffix s) as [ws H]. rewrite E in H. subst s. rewrite length_app. simpl. split; [lia|].
  intros [_ [_ ?]%Forall_cons]%Forall_app. done.
Qed.

Lemma literal_ok text t s : (0 < length text)%nat -> tree_ok t -> depth t = 0%nat -> read_ok (fun t => tree_ok t /\ depth t = 0%nat) s (Ret (literal text t s)).
Proof.
  intros Hl Ht Hd. unfold literal. destruct (HasPrefix s text) eqn:E; [|apply read_ok_none]. apply HasPrefix_true in E as [r ->].
  rewrite drop_app_length. apply read_ok_some; [rewrite length_app; lia|]. by intros [_ ?]%Forall_app.
Qed.
Lemma scalar_ok s : read_ok (fun t => tree_ok t /\ depth t = 0%nat) s (Ret (scalar s)).
Proof.
  unfold scalar. destruct s as [|c s]; [apply read_ok_none|]. case_decide.
  - destruct (stringLit s) as [[x rest]|] eqn:E; [|apply read_ok_none]. apply stringLit_spec in E as [H1 H2]. apply read_ok_some; [simpl; lia|].
    intros [_ Hb]%Forall_cons. destruct (H2 Hb). split; [|done]. split; [|done]. by apply bool_decide_eq_true.
  - repeat (case_decide; [by apply literal_ok; [simpl; lia|..]|]). destruct (scanNumber (c :: s)) as [[x rest]|] eqn:E; [|apply read_ok_none].
    apply scanNumber_split in E as (-> & Hx & Hn). apply read_ok_some; [rewrite length_app; destruct x; [done|simpl; lia]|].
    intros [_ Hb]%Forall_app. split; [|done]. split; [|done]. by apply bool_decide_eq_true.
Qed.

Definition good_tree (d : nat) (t : tree) : Prop := tree_ok t /\ (depth t <= d)%nat.
Definition good_member (d : nat) (kv : gostring * tree) : Prop := string_ok kv.1 /\ good_tree d kv.2.

Lemma good_arr d l : Forall (good_tree d) l -> good_tree (S d) (TArr l).
Proof. intros [H1 H2]%Forall_and. split; [by apply arr_ok|]. cbn [depth]. by apply le_n_S, depth_list. Qed.
Lemma good_obj d l : Forall (good_member d) l -> good_tree (S d) (TObj l).
Proof.
  intros H. split.
  - apply obj_ok. eapply Forall_impl; [exact H|]. intros kv (? & ? & ?). done.
  - cbn [depth]. apply le_n_S, depth_list. eapply Forall_impl; [exact H|]. intros kv (? & ? & ?). done.
Qed.

(** The parser returns on every input, never reads past it, and what it returns can be
    printed again. *)
Lemma parser_ok fuel :
  (forall d s, (2 * length s + 1 <= fuel)%nat -> read_ok (good_tree d) s (value fuel d s)) /\
  (forall d s, (2 * length s + 2 <= fuel)%nat -> read_ok (Forall (good_tree d)) s (elements fuel d s)) /\
  (forall d s, (2 * length s + 1 <= fuel)%nat -> read_ok (Forall (good_member d)) s (members fuel d s)).
Proof.
  induction fuel as [|fuel (IHv & IHe & IHm)]; [split_and!; intros; lia|]. split_and!; intros d s Hf.
  - cbn [value]. destruct (skipWs s) as [|c s'] eqn:E; [apply read_ok_none|]. destruct (skipWs_head _ _ _ E) as [Hl Hb]. destruct (decide (c = 123)).
    + destruct d as [|d]; [apply read_ok_none|]. destruct (skipWs s') as [|c1 s2] eqn:E2; [apply read_ok_none|]. destruct (skipWs_head _ _ _ E2) as [Hl2 Hb2].
      case_decide; [apply read_ok_some; [lia|]; intros; split; [by apply good_obj|auto]|].
      eapply read_ok_then; [apply IHm; lia|lia|done|]. intros l rest Hr Hg. apply read_ok_some; [lia|]. intros H'. destruct (Hg H'). split; [by apply good_obj|done].
    + destruct (decide (c = 91)).
      * destruct d as [|d]; [apply read_ok_none|]. destruct (skipWs s') as [|c1 s2] eqn:E2; [apply read_ok_none|]. destruct (skipWs_head _ _ _ E2) as [Hl2 Hb2].
        case_decide; [apply read_ok_some; [lia|]; intros; split; [by apply good_arr|auto]|].
        eapply read_ok_then; [apply IHe; lia|lia|done|]. intros l rest Hr Hg. apply read_ok_some; [lia|]. intros H'. destruct (Hg H'). split; [by apply good_arr|done].
      * destruct (scalar_ok (c :: s')) as (r & [= <-] & Hr). eexists. split; [done|]. intros t rest Ht. destruct (Hr t rest Ht) as [H1 H2].
        destruct (skipWs_suffix s) as [ws Hs]. rewrite E in Hs. split; [rewrite Hs, length_app; lia|].
        intros Hbs. rewrite Hs in Hbs. apply Forall_app in Hbs as [_ Hbs]. destruct (H2 Hbs) as [[? ?] ?]. split; [split; [done|lia]|done].
  - cbn [elements]. eapply read_ok_then; [apply (IHv d); lia|lia|done|]. intros t rest Hr Hg. destruct (skipWs rest) as [|c rest'] eqn:E; [apply read_ok_none|].
    destruct (skipWs_head _ _ _ E) as [Hl Hb]. case_decide.
    + eapply read_ok_then; [apply (IHe d); lia|lia|intros H'; apply Hb, Hg, H'|]. intros l rest2 Hr2 Hg2. apply read_ok_some; [lia|]. intros H'.
      destruct (Hg H') as [? _], (Hg2 H') as [? ?]. split; [by constructor|done].
    + case_decide; [|apply read_ok_none]. apply read_ok_some; [lia|]. intros H'. destruct (Hg H') as [? ?]. split; [by apply Forall_singleton|auto].
  - cbn [members]. destruct (skipWs s) as [|q s1] eqn:E1; [apply read_ok_none|]. destruct (skipWs_head _ _ _ E1) as [Hl1 Hb1]. case_decide; [|apply read_ok_none].
    destruct (stringLit s1) as [[k s2]|] eqn:E2; [|apply read_ok_none]. apply stringLit_spec in E2 as [Hl2 Hb2].
    destruct (skipWs s2) as [|c s3] eqn:E3; [apply read_ok_none|]. destruct (skipWs_head _ _ _ E3) as [Hl3 Hb3]. case_decide; [|apply read_ok_none].
    assert (bytes_ok s -> string_ok k /\ bytes_ok s3) as Hk by (intros H'; destruct (Hb2 (Hb1 H')); auto).
    eapply read_ok_then; [apply (IHv d); lia|lia|apply Hk|]. intros t rest Hr Hg. destruct (skipWs rest) as [|c2 rest'] eqn:E; [apply read_ok_none|].
    destruct (skipWs_head _ _ _ E) as [Hl Hb]. case_decide.
    + eapply read_ok_then; [apply (IHm d); lia|lia|intros H'; apply Hb, Hg, H'|]. intros l rest2 Hr2 Hg2. apply read_ok_some; [lia|]. intros H'.
      destruct (Hg H') as [? _], (Hg2 H') as [? ?], (Hk H') as [? _]. split; [by constructor; [split|]|done].
    + case_decide; [|apply read_ok_none]. apply read_ok_some; [lia|]. intros H'. destruct (Hg H') as [? ?], (Hk H') as [? _]. split; [by apply Forall_singleton; split|auto].
Qed.

Lemma decodeFirst_ok s : read_ok (good_tree maxNestingDepth) s (decodeFirst s).
Proof. apply parser_ok. lia. Qed.
Lemma parseText_ok s : exists r, parseText s = Ret r /\ forall t, r = Some t -> bytes_ok s -> good_tree maxNestingDepth t.
Proof.
  unfold parseText. destruct (decodeFirst_ok s) as (r & -> & Hr). eexists. split; [done|]. destruct r as [[t rest]|]; [|done]. destruct (skipWs rest); [|done].
  intros ? [= <-]. destruct (Hr t rest eq_refl) as [_ H]. intros Hb. apply H, Hb.
Qed.

(** The parser as a function of the text. *)
Definition parseJson (s : bytes) : option tree := match parseText s with Ret r => r | _ => None end.
Lemma parseText_parseJson s : parseText s = Ret (parseJson s).
Proof. unfold parseJson. by destruct (parseText_ok s) as (r & -> & _). Qed.
Lemma parseJson_ok s t : parseJson s = Some t -> bytes_ok s -> good_tree maxNestingDepth t.
Proof. intros H. destruct (parseText_ok s) as (r & E & Hr). apply Hr. rewrite parseText_parseJson in E. by simplify_eq. Qed.

Lemma parseJson_compact t : good_tree maxNestingDepth t -> parseJson (compactText t) = Some t.
Proof. intros [? ?]. unfold parseJson. by rewrite parse_compact. Qed.
Lemma parseJson_indent t : good_tree maxNestingDepth t -> parseJson (indentText t) = Some t.
Proof. intros [? ?]. unfold parseJson. by rewrite parse_indent. Qed.
Lemma parseJson_encoder t : good_tree maxNestingDepth t -> parseJson (encoderText t) = Some t.
Proof. intros [? ?]. unfold parseJson. by rewrite parse_encoder. Qed.

Lemma parseJson_raw t ws : raw_ok t -> (depth t <= maxNestingDepth)%nat -> Forall (fun c => is_ws c = true) ws -> parseJson (compactText t ++ ws) = Some (clean t).
Proof. intros. unfold parseJson, compactText. by rewrite parse_raw. Qed.

(** ** One line *)

Lemma escapeByte_plain c : 0 <= c -> Forall (fun c => 32 <= c) (escapeByte c).
Proof.
  intros H. assert (forall n, 0 <= n < 16 -> 32 <= hex_digit n) as Hx by (intros n Hn; destruct (hex_digit_range n Hn); lia).
  unfold escapeByte. case_decide; [repeat constructor; lia|]. do 5 (case_decide; [repeat constructor; vm_compute; congruence|]). case_decide; [|repeat constructor; lia].
  unfold escapeU. apply Forall_app_2; [repeat constructor; vm_compute; congruence|]. unfold hex4. repeat (apply Forall_cons_2; [apply Hx; Z.to_euclidean_division_equations; lia|]). constructor.
Qed.
Lemma quoteJson_plain s : bytes_ok s -> Forall (fun c => 32 <= c) (quoteJson s).
Proof.
  intros Hb. unfold quoteJson. apply Forall_app. split; [repeat constructor; lia|]. apply Forall_app. split; [|repeat constructor; lia].
  induction s as [|s r w E IH] using slices_ind; [constructor|]. unfold escapeString. rewrite (slices_cons s r w E). cbn [flat_map]. apply Forall_app.
  split; [|apply IH; by apply Forall_drop]. unfold escapeSlice. cbn [fst snd].
  destruct (DecodeRune_cases s r w E) as [[Ht Hr]|[(Hr & _ & _ & Hbig)|(-> & -> & Hbig)]].
  - rewrite decide_True by done. apply escapeByte_plain. apply (Forall_take _ w) in Hb. rewrite Ht in Hb. apply Forall_cons in Hb as [[??] _]. lia.
  - rewrite decide_False by lia. case_decide; [repeat constructor; vm_compute; congruence|]. case_decide as Hd.
    + destruct Hd as [-> | ->]; repeat constructor; vm_compute; congruence.
    + eapply Forall_impl; [exact Hbig|]. cbn; intros; lia.
  - rewrite decide_False by done. case_decide as Hi; [repeat constructor; vm_compute; congruence|]. destruct Hi. by apply (slice_ill s).
Qed.
Lemma takeDigits_plain s ds r : takeDigits s = (ds, r) -> Forall (fun c => 32 <= c) ds.
Proof.
  revert ds r. induction s as [|c s IH]; intros ds r H; cbn [takeDigits] in H; [by simplify_eq|]. destruct (is_digit c) eqn:E; [|by simplify_eq].
  destruct (takeDigits s) as [ds' r']. simplify_eq. apply bool_decide_eq_true in E. constructor; [lia|by eapply IH].
Qed.
Lemma number_plain x : number_ok x -> Forall (fun c => 32 <= c) x.
Proof.
  unfold number_ok, scanNumber. set (p := match x with c :: s' => _ | [] => _ end). assert (Forall (fun c => 32 <= c) p.1) as Hp.
  { subst p. destruct x as [|c x]; [done|]. case_decide; [repeat constructor; lia|done]. }
  destruct p as [sign s0]. cbn [fst] in Hp. intros H. destruct (scanInt s0) as [[i s1]|] eqn:E1; [|done]. simpl in H.
  destruct (scanFrac s1) as [[f s2]|] eqn:E2; [|done]. simpl in H. destruct (scanExp s2) as [[ex s3]|] eqn:E3; [|done]. simpl in H. simplify_eq.
  repeat apply Forall_app_2; [done| | |].
  - unfold scanInt in E1. destruct s0 as [|c s0]; [done|]. case_decide; [simplify_eq; repeat constructor; lia|]. destruct (is_digit c) eqn:Ed; [|done].
    injection E1 as E1. by eapply (takeDigits_plain (c :: s0)).
  - unfold scanFrac in E2. destruct s1 as [|c s1]; [by simplify_eq|]. case_decide; [|by simplify_eq]. destruct (takeDigits s1) as [ds r] eqn:Ed. case_decide; [done|].
    simplify_eq. constructor; [lia|by eapply takeDigits_plain].
  - unfold scanExp in E3. destruct s2 as [|c s2]; [by simplify_eq|]. case_decide as Hc; [|by simplify_eq].
    set (q := match s2 with c :: s3 => _ | [] => _ end) in E3. assert (Forall (fun c => 32 <= c) q.1) as Hq.
    { subst q. destruct s2 as [|c2 s2]; [done|]. case_decide; [repeat constructor; lia|done]. }
    destruct q as [sg s4]. destruct (takeDigits s4) as [ds r] eqn:Ed. case_decide; [done|]. simplify_eq. constructor; [lia|]. apply Forall_app. split; [done|].
    by eapply takeDigits_plain.
Qed.
Lemma Join_Forall (P : Z -> Prop) ls sep : Forall (Forall P) ls -> Forall P sep -> Forall P (Join ls sep).
Proof.
  intros H Hs. induction H as [|l ls Hl Hls IH]; [constructor|]. destruct ls as [|l2 ls]; [done|]. rewrite Join_cons2. by repeat apply Forall_app_2.
Qed.
(** A compact text has no control characters. *)
Lemma compact_plain t : raw_ok t -> forall d, Forall (fun c => 32 <= c) (print (fun _ => []) [] d t).
Proof.
  assert (forall c, 32 <= c -> Forall (fun c => 32 <= c) [c]) as H1 by (intros; by repeat constructor).
  induction t as [|b|x|s|l IH|l IH] using tree_induction; intros Ht d; cbn [print].
  - repeat constructor; vm_compute; congruence.
  - destruct b; repeat constructor; vm_compute; congruence.
  - apply bool_decide_eq_true in Ht. by apply number_plain.
  - apply bool_decide_eq_true in Ht. by apply quoteJson_plain.
  - apply raw_arr in Ht. destruct l as [|t l]; [repeat constructor; vm_compute; congruence|]. repeat apply Forall_app_2; [apply H1; lia|constructor| |constructor|apply H1; lia].
    apply Join_Forall; [|apply H1; lia]. apply Forall_map. rewrite Forall_forall in IH, Ht |- *. auto.
  - apply raw_obj in Ht. destruct l as [|t l]; [repeat constructor; vm_compute; congruence|]. repeat apply Forall_app_2; [apply H1; lia|constructor| |constructor|apply H1; lia].
    apply Join_Forall; [|apply H1; lia]. apply Forall_map. rewrite Forall_forall in IH, Ht |- *. intros kv Hkv. destruct (Ht kv Hkv).
    apply Forall_app_2; [by apply quoteJson_plain|]. apply Forall_app_2; [apply H1; lia|]. cbn [app]. auto.
Qed.

(** ** Examples *)

Definition demo_text : bytes := map (fun c => if decide (c = 39) then 34 else c) (gs "{'a' : [1, -2.5e+3, true,null ], 'b':{}, 'a':'x\u00e9\ud83d\ude00\n<'}").
Definition demo_tree : tree :=
  TObj [(gs "a", TArr [TNum (gs "1"); TNum (gs "-2.5e+3"); TBool true; TNull]); (gs "b", TObj []); (gs "a", TStr (gs "x" ++ [195; 169; 240; 159; 152; 128; 10; 60]))].
Example parse_demo : parseText demo_text = Ret (Some demo_tree).
Proof. vm_compute. reflexivity. Qed.
Example print_demo : compactText demo_tree = map (fun c => if decide (c = 39) then 34 else c) (gs "{'a':[1,-2.5e+3,true,null],'b':{},'a':'x") ++ [195; 169; 240; 159; 152; 128] ++ gs "\n\u003c" ++ [34; 125].
Proof. vm_compute. reflexivity. Qed.
Example parse_rejects : map parseJson [gs ""; gs "01"; gs "[1,]"; gs "{}x"; [34; 10; 34]; gs "1."; gs "nul"] = replicate 7 None.
Proof. vm_compute. reflexivity. Qed.
