(* ===== verification/GoText.v ===== *)
(** * Texts: [strconv.Atoi], [strconv.Quote], query strings and cleaned paths

    What the control plane and the command line use of [strconv], of the verb [%q] of
    [fmt], of [net/url] and of [path/filepath]. *)
From S2P Require Import Prelude GoStrings NetIP Platform JsonText.
#[local] Open Scope Z_scope.

(** ** Integers *)

Definition int_ok (n : Z) : Prop := - 2 ^ 63 <= n < 2 ^ 63.
#[export] Instance int_ok_dec n : Decision (int_ok n).
Proof. unfold int_ok. apply _. Defined.

(** [strconv.Atoi]: an optional sign and digits, within the range of [int]. *)
Definition Atoi (s : gostring) : option Z :=
  let '(neg, ds) := match s with
                    | c :: ds => if decide (c = 45) then (true, ds) else if decide (c = 43) then (false, ds) else (false, s)
                    | [] => (false, [])
                    end in
  if bool_decide (ds <> []) && forallb is_digit ds then
    let n := if neg : bool then - dec_val ds else dec_val ds in
    if decide (int_ok n) then Some n else None
  else None.

Lemma forallb_digits ds : Forall (fun c => 48 <= c <= 57) ds -> forallb is_digit ds = true.
Proof. intros H. apply forallb_forall. intros c Hc%list_elem_of_In. rewrite Forall_forall in H. apply bool_decide_eq_true. auto. Qed.

Lemma Atoi_fmt_d n : int_ok n -> Atoi (fmt_d n) = Some n.
Proof.
  intros Hn. unfold Atoi, fmt_d. case_decide as Hs.
  - change (gs "-" ++ itoa (- n)) with (45 :: itoa (- n)). cbv iota. rewrite decide_True by done. rewrite bool_decide_true by apply itoa_nonnil.
    rewrite forallb_digits by (apply itoa_digits; lia). cbn [andb]. rewrite itoa_val by lia. rewrite decide_True by (by rewrite Z.opp_involutive). f_equal. lia.
  - pose proof (itoa_digits n ltac:(lia)) as Hd. pose proof (itoa_nonnil n) as Hne. pose proof (itoa_val n ltac:(lia)) as Hv.
    destruct (itoa n) as [|c ds] eqn:E; [done|]. pose proof Hd as [Hc _]%Forall_cons. rewrite !decide_False by lia.
    rewrite bool_decide_true by done. rewrite forallb_digits by done. cbn [andb]. rewrite Hv. by rewrite decide_True.
Qed.
Lemma Atoi_itoa n : 0 <= n < 2 ^ 63 -> Atoi (itoa n) = Some n.
Proof. intros Hn. pose proof (Atoi_fmt_d n ltac:(unfold int_ok; lia)) as H. unfold fmt_d in H. by rewrite decide_False in H by lia. Qed.

(** ** [%q] *)

Section Quote.
Context {U : Unicode}.

Definition hex2 (n : Z) : gostring := [hex_digit (n / 16); hex_digit (n mod 16)].
(** [strconv.IsPrint] *)
Definition IsPrint (r : Z) : bool := if decide (r < 128) then bool_decide (32 <= r < 127) else unicode_IsPrint r.
Definition quoteRune (x : Z * bytes) : gostring :=
  let '(r, b) := x in
  if decide (ill_formed x) then gs "\x" ++ flat_map hex2 b
  else if decide (r = 34 \/ r = 92) then [92; r]
  else if IsPrint r then EncodeRune r
  else if decide (r = 7) then gs "\a"
  else if decide (r = 8) then gs "\b"
  else if decide (r = 12) then gs "\f"
  else if decide (r = 10) then gs "\n"
  else if decide (r = 13) then gs "\r"
  else if decide (r = 9) then gs "\t"
  else if decide (r = 11) then gs "\v"
  else if decide (r < 32 \/ r = 127) then gs "\x" ++ hex2 r
  else if decide (r < 65536) then gs "\u" ++ hex4 r
  else gs "\U" ++ hex4 (r / 65536) ++ hex4 (r mod 65536).
Definition Quote (s : gostring) : gostring := [34] ++ flat_map quoteRune (slices s) ++ [34].

(** On printable ASCII the result is a JSON string of the same text. *)
Definition ascii_print (c : Z) : Prop := 32 <= c < 127.

Lemma slices_ascii s : Forall ascii_print s -> slices s = map (fun c => (c, [c])) s.
Proof.
  induction 1 as [|c s Hc Hs IH]; [done|]. unfold ascii_print in Hc. assert (DecodeRune (c :: s) = Some (c, 1%nat)) as E.
  { unfold DecodeRune. by rewrite decide_True by lia. }
  rewrite (slices_cons _ _ _ E). cbn [firstn skipn map]. by rewrite <- IH.
Qed.
Lemma printable_valid s : Forall ascii_print s -> string_ok s.
Proof.
  intros H. split; [eapply Forall_impl; [exact H|]; unfold ascii_print, is_byte; lia|]. unfold ValidString. rewrite slices_ascii by done.
  apply forallb_Forall_eq, Forall_map. eapply Forall_impl; [exact H|]. unfold ascii_print. intros c Hc. apply bool_decide_eq_true. intros [Hi _].
  unfold RuneError in Hi. simpl in Hi. lia.
Qed.
Lemma scan_quote s rest : Forall ascii_print s -> scanString (flat_map quoteRune (slices s) ++ 34 :: rest) = Some (s, rest).
Proof.
  intros H. rewrite slices_ascii by done. induction H as [|c s Hc Hs IH]; [done|]. unfold ascii_print in Hc. cbn [map flat_map]. rewrite <- app_assoc.
  assert (quoteRune (c, [c]) = if decide (c = 34 \/ c = 92) then [92; c] else [c]) as ->.
  { unfold quoteRune. rewrite decide_False by (intros [Hi _]; unfold RuneError in Hi; simpl in Hi; lia). case_decide; [done|].
    unfold IsPrint. rewrite decide_True by lia. rewrite bool_decide_true by lia. unfold EncodeRune. by rewrite decide_True by lia. }
  case_decide as Hq.
  - cbn [app scanString]. rewrite decide_False, decide_True by done. rewrite (decide_False (P := c = 117)) by lia. unfold simpleEscape.
    rewrite decide_True by (destruct Hq; auto). by rewrite IH.
  - cbn [app scanString]. rewrite !decide_False by lia. by rewrite IH.
Qed.
Lemma Quote_json s rest : Forall ascii_print s -> stringLit (drop 1 (Quote s ++ rest)) = Some (s, rest).
Proof.
  intros H. unfold Quote, stringLit. rewrite <- !app_assoc. change (drop 1 ([34] ++ ?l)) with l. cbn [app]. rewrite scan_quote by done. simpl. by rewrite toValid_id by (by apply printable_valid).
Qed.
End Quote.

(** ** Query strings *)

(** [url.QueryUnescape]; [None] is an error. *)
Fixpoint QueryUnescape (s : gostring) : option gostring :=
  match s with
  | [] => Some []
  | c :: s1 =>
      if decide (c = 37) then
        match s1 with
        | a :: b :: s2 =>
            match from_hex_char a, from_hex_char b with
            | Some a, Some b => cons (a * 16 + b) <$> QueryUnescape s2
            | _, _ => None
            end
        | _ => None
        end
      else cons (if decide (c = 43) then 32 else c) <$> QueryUnescape s1
  end.
(** [strings.Cut] at a byte. *)
Definition CutByte (s : gostring) (c : Z) : gostring * gostring :=
  match IndexByte s c with Some i => (take (Z.to_nat i) s, drop (Z.to_nat i + 1) s) | None => (s, []) end.
Definition queryPair (piece : gostring) : option (gostring * gostring) :=
  if decide (59 ∈ piece \/ piece = []) then None
  else
    let '(key, value) := CutByte piece 61 in
    match QueryUnescape key, QueryUnescape value with
    | Some key, Some value => Some (key, value)
    | _, _ => None
    end.
(** [URL.Query] and [Values.Get]: the first value of a key, pairs with errors left out. *)
Definition Query (rawQuery : gostring) : list (gostring * gostring) := omap queryPair (Split rawQuery 38).
Definition queryGet (rawQuery key : gostring) : gostring :=
  match List.find (fun kv => bool_decide (kv.1 = key)) (Query rawQuery) with Some kv => kv.2 | None => [] end.

(** ** [filepath.Clean] *)

Definition slash : Z := 47.
(** The elements so far, the last one first. *)
Definition cleanStep (rooted : bool) (acc : list gostring) (e : gostring) : list gostring :=
  if decide (e = [] \/ e = gs ".") then acc
  else if decide (e = gs "..") then
    match acc with
    | [] => if rooted then [] else [e]
    | p :: acc' => if decide (p = gs "..") then e :: acc else acc'
    end
  else e :: acc.
Definition Clean (path : gostring) : gostring :=
  let rooted := HasPrefix path [slash] in
  let out := Join (reverse (foldl (cleanStep rooted) [] (Split path slash))) [slash] in
  if rooted then slash :: out else if decide (out = []) then gs "." else out.

Example Clean_ex :
  map Clean [gs ""; gs "/"; gs "a/../../b"; gs "/../a//b/./c/.."; gs "./x"] = [gs "."; gs "/"; gs "../b"; gs "/a/b"; gs "x"].
Proof. vm_compute. reflexivity. Qed.
Example queryGet_ex : queryGet (gs "a=1&payload_hash=x%2Fy+z&payload_hash=2") (gs "payload_hash") = gs "x/y z" /\ queryGet (gs "b=%zz&b=2") (gs "b") = gs "2".
Proof. vm_compute. done. Qed.
Example Quote_ex : Quote (U := ascii_unicode) ([65; 34; 0; 127; 255; 10; 195; 169]) = [34; 65; 92; 34] ++ gs "\x00\x7f\xff\n\u00e9" ++ [34].
Proof. vm_compute. reflexivity. Qed.

(** [filepath.Join] *)
Definition filepathJoin (elem : list gostring) : gostring :=
  match filter (fun e => e <> []) elem with [] => [] | elem => Clean (Join elem [slash]) end.
Example filepathJoin_ex : filepathJoin [gs "/tmp/"; gs "x.sock"] = gs "/tmp/x.sock" /\ filepathJoin [gs "."; gs ".ottergate"] = gs ".ottergate" /\ filepathJoin [[]; []] = [].
Proof. vm_compute. done. Qed.
