(* ===== verification/Config.v ===== *)
(** * Configuration data ([pkg/config/types.go]): the records of the
    configuration file and the DNS constants.  A nil pointer is [None]; a Go map
    is a finite map. *)
From S2P Require Import Prelude.

Record DnsRecord := {
  rec_Type : gostring;
  rec_Address : gostring;
  rec_Target : gostring;
  rec_Data : list gostring;
  rec_Priority : option Z;
  rec_Exchange : gostring;
  rec_Weight : option Z;
  rec_Port : option Z;
}.

Record TlsConfig := {
  tls_Cert : gostring;
  tls_Key : gostring;
  tls_Ca : gostring;
  tls_ServerName : gostring;
}.

Record HttpProxyConfig := {
  hp_Enabled : bool;
  hp_Upstream : gostring;
  hp_Headers : gmap gostring gostring;
  hp_ForwardRequestBody : bool;
  hp_MaxRequestBodyBytes : Z;
  hp_ClientTls : option TlsConfig;
}.

Record TlsProxyConfig := {
  tp_TargetPort : Z;
  tp_TargetIp : gostring;
}.

Record RedirectConfig := {
  rd_Enabled : bool;
  rd_Code : Z;
  rd_Target : gostring;
}.

Record HostConfig := {
  hc_Records : list DnsRecord;
  hc_HttpProxy : option HttpProxyConfig;
  hc_TlsProxy : option TlsProxyConfig;
  hc_Redirect : option RedirectConfig;
}.

Record FirewallConfig := {
  fw_DefaultPolicy : gostring;
  fw_AllowlistDomains : list gostring;
  fw_BlocklistDomains : list gostring;
  fw_AllowlistRanges : list gostring;
  fw_BlocklistRanges : list gostring;
  fw_AllowlistIps : list gostring;
  fw_BlocklistIps : list gostring;
}.

Record ControlPlaneConfig := {
  cp_Enabled : option bool;
  cp_Port : Z;
  cp_SocketPath : gostring;
  cp_ApiKey : gostring;
  cp_Tls : option TlsConfig;
}.

Record ServerConfig := {
  cfg_Port : Z;
  cfg_HttpPort : option Z;
  cfg_HttpsPort : option Z;
  cfg_Tls : option TlsConfig;
  cfg_DotPort : option Z;
  cfg_DohPort : option Z;
  cfg_FallbackDns : gostring;
  cfg_Firewall : option FirewallConfig;
  cfg_ControlPlane : option ControlPlaneConfig;
  cfg_DnsCacheMaxSize : Z;
  cfg_DnsCacheTtlMs : Z;
  cfg_MaxTcpConnections : Z;
  cfg_TcpIdleTimeoutMs : Z;
  cfg_RateLimitMaxRequests : Z;
  cfg_RateLimitWindowMs : Z;
  cfg_UpstreamHttpProxy : gostring;
  cfg_UpstreamHttpsProxy : gostring;
  cfg_UpstreamNoProxy : gostring;
  cfg_Hosts : gmap gostring HostConfig;
}.

Definition DnsClassIn : Z := 1.
Definition DnsTypeA : Z := 1.
Definition DnsTypeNS : Z := 2.
Definition DnsTypeCNAME : Z := 5.
Definition DnsTypePTR : Z := 12.
Definition DnsTypeMX : Z := 15.
Definition DnsTypeTXT : Z := 16.
Definition DnsTypeAAAA : Z := 28.
Definition DnsTypeSRV : Z := 33.
Definition DnsTypeOPT : Z := 41.
Definition DnsTypeRRSIG : Z := 46.
Definition DnsTypeDNSKEY : Z := 48.

Definition DnsRcodeNoError : Z := 0.
Definition DnsRcodeServFail : Z := 2.
Definition DnsRcodeNxDomain : Z := 3.
Definition DnsRcodeRefused : Z := 5.

Definition FlagQR : Z := 32768.
Definition FlagAA : Z := 1024.

(** The zero value [HostConfig{}]. *)
Definition empty_host : HostConfig :=
  {| hc_Records := []; hc_HttpProxy := None; hc_TlsProxy := None; hc_Redirect := None |}.
