(* ===== verification/Json.v ===== *)
(** * The JSON of the configuration ([encoding/json] with the tags of [pkg/config/types.go])

    The text of JSON is the subject of [JsonText]; here its trees become Go values.
    Decoding into the structs follows [json.Unmarshal]: a key selects the field with its
    name, or else the field whose name differs in letter case; unknown keys are ignored;
    [null] resets pointers, slices and maps and leaves the rest; a value of another type is
    an error.  Encoding follows [json.Marshal] with [omitempty].  A value of type
    [interface{}] is a [json]: its numbers are floating-point and its maps are written in
    the order of their keys, so that a configuration that passes through one keeps its
    meaning only if its integers are exact in 53 bits. *)
From S2P Require Import Prelude GoStrings NetIP Platform JsonText GoText Config.
From stdpp Require Import sorting.
#[local] Open Scope Z_scope.

(** A value of [interface{}] that [encoding/json] made, or that the program stored. *)
#[warnings="-register-all"]
Inductive json : Type :=
| JNull
| JBool (b : bool)
| JNum (n : Z)
| JOther (text : gostring)          (* any other number *)
| JStr (s : gostring)
| JArr (l : list json)
| JObj (m : gmap gostring json).

Abbreviation object := (gmap gostring json).
Abbreviation members := (list (gostring * tree)).

(** ** Maps *)

(** The entries of a map, in the order in which [json.Marshal] writes them. *)
Fixpoint key_le (a b : gostring) : bool :=
  match a, b with
  | [], _ => true
  | _, [] => false
  | x :: a, y :: b => if decide (x = y) then key_le a b else bool_decide (x < y)
  end.
Definition entry_le {A} (x y : gostring * A) : Prop := key_le x.1 y.1 = true.
#[export] Instance entry_le_dec {A} (x y : gostring * A) : Decision (entry_le x y).
Proof. unfold entry_le. apply _. Defined.
Definition entries {A} (m : gmap gostring A) : list (gostring * A) := merge_sort entry_le (map_to_list m).

(** The tree that [json.Marshal] writes for a value. *)
Fixpoint treeOf (j : json) : tree :=
  match j with
  | JNull => TNull
  | JBool b => TBool b
  | JNum n => TNum (fmt_d n)
  | JOther x => TNum x
  | JStr s => TStr s
  | JArr l => TArr (map treeOf l)
  | JObj m => TObj (entries (treeOf <$> m))
  end.

(** ** Numbers *)

(** What is left open of the library: [strconv.ParseFloat] of a literal followed by the
    text of the result in JSON ([None] if the literal is out of range), which is a literal
    that stands for the same number; and the wording of errors. *)
Class JsonLib := {
  ParseFloat : gostring -> option gostring;
  ParseFloat_literal x y : ParseFloat x = Some y -> number_ok y;
  ParseFloat_fixed x y : ParseFloat x = Some y -> ParseFloat y = Some y;
  syntaxError : bytes -> gostring;
  typeError : tree -> gostring;
}.

Definition exact (n : Z) : Prop := - 2 ^ 53 <= n <= 2 ^ 53.
#[export] Instance exact_dec n : Decision (exact n).
Proof. unfold exact. apply _. Defined.
(** An integer in its usual writing that a [float64] holds exactly. *)
Definition plainInt (x : gostring) : option Z := n ← Atoi x; if decide (fmt_d n = x /\ exact n) then Some n else None.
Definition numberOf (x : gostring) : json := match plainInt x with Some n => JNum n | None => JOther x end.

Section Interface.
Context {JL : JsonLib}.

(** A number of type [interface{}]; [nil] if it is out of range, which is an error. *)
Definition convertNumber (x : gostring) : option json := match plainInt x with Some n => Some (JNum n) | None => numberOf <$> ParseFloat x end.

(** What [json.Unmarshal] stores into an [interface{}]; the last of equal keys wins. *)
Fixpoint ofTree (t : tree) : json :=
  match t with
  | TNull => JNull
  | TBool b => JBool b
  | TNum x => default JNull (convertNumber x)
  | TStr s => JStr s
  | TArr l => JArr (map ofTree l)
  | TObj l => JObj (list_to_map (reverse (map (fun kv => (kv.1, ofTree kv.2)) l)))
  end.
(** Whether it reports no error. *)
Fixpoint numbersOk (t : tree) : bool :=
  match t with
  | TNum x => bool_decide (is_Some (convertNumber x))
  | TArr l => forallb numbersOk l
  | TObj l => forallb (fun kv => numbersOk kv.2) l
  | _ => true
  end.
End Interface.

(** ** Keys *)

(** The comparison of keys with field names: letters of either case, and the two other
    characters that fold to a letter of the ASCII range. *)
Definition foldRune (r : Z) : Z := if decide (r = 383) then 83 else if decide (r = 8490) then 75 else ascii_upper r.
Definition foldName (s : gostring) : list Z := map foldRune (runes s).

(** The values that go to a field, in order. *)
Definition fieldValues (m : members) (name : gostring) : list tree :=
  map snd (filter (fun kv => foldName kv.1 = foldName name) m).

(** ** Decoding *)

Fixpoint foldM {A B} (f : A -> B -> option A) (a : A) (l : list B) : option A :=
  match l with [] => Some a | b :: l => a ← f a b; foldM f a l end.

(** The decoder of a type: the present value and the tree. *)
Abbreviation decoder A := (A -> tree -> option A).

Definition decInt : decoder Z := fun cur t => match t with TNum x => Atoi x | TNull => Some cur | _ => None end.
Definition decStr : decoder gostring := fun cur t => match t with TStr s => Some s | TNull => Some cur | _ => None end.
Definition decBool : decoder bool := fun cur t => match t with TBool b => Some b | TNull => Some cur | _ => None end.
Definition decPtr {A} (zero : A) (d : decoder A) : decoder (option A) :=
  fun cur t => match t with TNull => Some None | _ => Some <$> d (default zero cur) t end.
(** An element is decoded over the one that the slice has in its place.  Go also finds
    again, between length and capacity, elements that a shorter repetition of the same key
    had cut off; a third repetition of a key starts from zero values here. *)
Fixpoint decElements {A} (zero : A) (d : decoder A) (cur : list A) (l : list tree) : option (list A) :=
  match l with
  | [] => Some []
  | t :: l => x ← d (default zero (head cur)) t; xs ← decElements zero d (tail cur) l; Some (x :: xs)
  end.
Definition decList {A} (zero : A) (d : decoder A) : decoder (list A) :=
  fun cur t => match t with TNull => Some [] | TArr l => decElements zero d cur l | _ => None end.
Definition decMap {A} (zero : A) (d : decoder A) : decoder (gmap gostring A) :=
  fun cur t => match t with
               | TNull => Some ∅
               | TObj l => foldM (fun acc kv => x ← d zero kv.2; Some (<[kv.1 := x]> acc)) cur l
               | _ => None
               end.
(** The fields of a struct. *)
Definition decStruct {A} (f : A -> members -> option A) : decoder A :=
  fun cur t => match t with TObj m => f cur m | TNull => Some cur | _ => None end.
Definition field {A} (d : decoder A) (m : members) (name : gostring) (cur : A) : option A := foldM d cur (fieldValues m name).

Definition zeroRecord : DnsRecord :=
  {| rec_Type := []; rec_Address := []; rec_Target := []; rec_Data := []; rec_Priority := None; rec_Exchange := []; rec_Weight := None; rec_Port := None |}.
Definition decodeRecord (c : DnsRecord) (m : members) : option DnsRecord :=
  type ← field decStr m (gs "type") (rec_Type c);
  address ← field decStr m (gs "address") (rec_Address c);
  target ← field decStr m (gs "target") (rec_Target c);
  data ← field (decList [] decStr) m (gs "data") (rec_Data c);
  priority ← field (decPtr 0 decInt) m (gs "priority") (rec_Priority c);
  exchange ← field decStr m (gs "exchange") (rec_Exchange c);
  weight ← field (decPtr 0 decInt) m (gs "weight") (rec_Weight c);
  port ← field (decPtr 0 decInt) m (gs "port") (rec_Port c);
  Some {| rec_Type := type; rec_Address := address; rec_Target := target; rec_Data := data; rec_Priority := priority; rec_Exchange := exchange;
          rec_Weight := weight; rec_Port := port |}.

Definition zeroTls : TlsConfig := {| tls_Cert := []; tls_Key := []; tls_Ca := []; tls_ServerName := [] |}.
Definition decodeTls (c : TlsConfig) (m : members) : option TlsConfig :=
  cert ← field decStr m (gs "cert") (tls_Cert c);
  key ← field decStr m (gs "key") (tls_Key c);
  ca ← field decStr m (gs "ca") (tls_Ca c);
  serverName ← field decStr m (gs "serverName") (tls_ServerName c);
  Some {| tls_Cert := cert; tls_Key := key; tls_Ca := ca; tls_ServerName := serverName |}.
Abbreviation decTls := (decPtr zeroTls (decStruct decodeTls)).

Definition zeroHttpProxy : HttpProxyConfig :=
  {| hp_Enabled := false; hp_Upstream := []; hp_Headers := ∅; hp_ForwardRequestBody := false; hp_MaxRequestBodyBytes := 0; hp_ClientTls := None |}.
Definition decodeHttpProxy (c : HttpProxyConfig) (m : members) : option HttpProxyConfig :=
  enabled ← field decBool m (gs "enabled") (hp_Enabled c);
  upstream ← field decStr m (gs "upstream") (hp_Upstream c);
  headers ← field (decMap [] decStr) m (gs "headers") (hp_Headers c);
  forward ← field decBool m (gs "forwardRequestBody") (hp_ForwardRequestBody c);
  max ← field decInt m (gs "maxRequestBodyBytes") (hp_MaxRequestBodyBytes c);
  clientTls ← field decTls m (gs "clientTls") (hp_ClientTls c);
  Some {| hp_Enabled := enabled; hp_Upstream := upstream; hp_Headers := headers; hp_ForwardRequestBody := forward; hp_MaxRequestBodyBytes := max;
          hp_ClientTls := clientTls |}.

Definition zeroTlsProxy : TlsProxyConfig := {| tp_TargetPort := 0; tp_TargetIp := [] |}.
Definition decodeTlsProxy (c : TlsProxyConfig) (m : members) : option TlsProxyConfig :=
  port ← field decInt m (gs "targetPort") (tp_TargetPort c);
  ip ← field decStr m (gs "targetIp") (tp_TargetIp c);
  Some {| tp_TargetPort := port; tp_TargetIp := ip |}.

Definition zeroRedirect : RedirectConfig := {| rd_Enabled := false; rd_Code := 0; rd_Target := [] |}.
Definition decodeRedirect (c : RedirectConfig) (m : members) : option RedirectConfig :=
  enabled ← field decBool m (gs "enabled") (rd_Enabled c);
  code ← field decInt m (gs "code") (rd_Code c);
  target ← field decStr m (gs "target") (rd_Target c);
  Some {| rd_Enabled := enabled; rd_Code := code; rd_Target := target |}.

Definition zeroHost : HostConfig := {| hc_Records := []; hc_HttpProxy := None; hc_TlsProxy := None; hc_Redirect := None |}.
Definition decodeHost (c : HostConfig) (m : members) : option HostConfig :=
  records ← field (decList zeroRecord (decStruct decodeRecord)) m (gs "records") (hc_Records c);
  httpProxy ← field (decPtr zeroHttpProxy (decStruct decodeHttpProxy)) m (gs "http_proxy") (hc_HttpProxy c);
  tlsProxy ← field (decPtr zeroTlsProxy (decStruct decodeTlsProxy)) m (gs "tls_proxy") (hc_TlsProxy c);
  redirect ← field (decPtr zeroRedirect (decStruct decodeRedirect)) m (gs "redirect") (hc_Redirect c);
  Some {| hc_Records := records; hc_HttpProxy := httpProxy; hc_TlsProxy := tlsProxy; hc_Redirect := redirect |}.

Definition zeroFirewall : FirewallConfig :=
  {| fw_DefaultPolicy := []; fw_AllowlistDomains := []; fw_BlocklistDomains := []; fw_AllowlistRanges := []; fw_BlocklistRanges := [];
     fw_AllowlistIps := []; fw_BlocklistIps := [] |}.
Abbreviation decStrs := (decList [] decStr).
Definition decodeFirewall (c : FirewallConfig) (m : members) : option FirewallConfig :=
  policy ← field decStr m (gs "defaultPolicy") (fw_DefaultPolicy c);
  allowDomains ← field decStrs m (gs "allowlist_domains") (fw_AllowlistDomains c);
  blockDomains ← field decStrs m (gs "blocklist_domains") (fw_BlocklistDomains c);
  allowRanges ← field decStrs m (gs "allowlist_ranges") (fw_AllowlistRanges c);
  blockRanges ← field decStrs m (gs "blocklist_ranges") (fw_BlocklistRanges c);
  allowIps ← field decStrs m (gs "allowlist_ips") (fw_AllowlistIps c);
  blockIps ← field decStrs m (gs "blocklist_ips") (fw_BlocklistIps c);
  Some {| fw_DefaultPolicy := policy; fw_AllowlistDomains := allowDomains; fw_BlocklistDomains := blockDomains; fw_AllowlistRanges := allowRanges;
          fw_BlocklistRanges := blockRanges; fw_AllowlistIps := allowIps; fw_BlocklistIps := blockIps |}.

Definition zeroControlPlane : ControlPlaneConfig := {| cp_Enabled := None; cp_Port := 0; cp_SocketPath := []; cp_ApiKey := []; cp_Tls := None |}.
Definition decodeControlPlane (c : ControlPlaneConfig) (m : members) : option ControlPlaneConfig :=
  enabled ← field (decPtr false decBool) m (gs "enabled") (cp_Enabled c);
  port ← field decInt m (gs "port") (cp_Port c);
  socketPath ← field decStr m (gs "socketPath") (cp_SocketPath c);
  apiKey ← field decStr m (gs "apiKey") (cp_ApiKey c);
  tls ← field decTls m (gs "tls") (cp_Tls c);
  Some {| cp_Enabled := enabled; cp_Port := port; cp_SocketPath := socketPath; cp_ApiKey := apiKey; cp_Tls := tls |}.

Definition zeroServerConfig : ServerConfig :=
  {| cfg_Port := 0; cfg_HttpPort := None; cfg_HttpsPort := None; cfg_Tls := None; cfg_DotPort := None; cfg_DohPort := None; cfg_FallbackDns := [];
     cfg_Firewall := None; cfg_ControlPlane := None; cfg_DnsCacheMaxSize := 0; cfg_DnsCacheTtlMs := 0; cfg_MaxTcpConnections := 0;
     cfg_TcpIdleTimeoutMs := 0; cfg_RateLimitMaxRequests := 0; cfg_RateLimitWindowMs := 0; cfg_UpstreamHttpProxy := []; cfg_UpstreamHttpsProxy := [];
     cfg_UpstreamNoProxy := []; cfg_Hosts := ∅ |}.
Abbreviation decIntPtr := (decPtr 0 decInt).
Definition decodeServerConfig (c : ServerConfig) (m : members) : option ServerConfig :=
  port ← field decInt m (gs "port") (cfg_Port c);
  httpPort ← field decIntPtr m (gs "httpPort") (cfg_HttpPort c);
  httpsPort ← field decIntPtr m (gs "httpsPort") (cfg_HttpsPort c);
  tls ← field decTls m (gs "tls") (cfg_Tls c);
  dotPort ← field decIntPtr m (gs "dotPort") (cfg_DotPort c);
  dohPort ← field decIntPtr m (gs "dohPort") (cfg_DohPort c);
  fallbackDns ← field decStr m (gs "fallbackDns") (cfg_FallbackDns c);
  firewall ← field (decPtr zeroFirewall (decStruct decodeFirewall)) m (gs "firewall") (cfg_Firewall c);
  controlPlane ← field (decPtr zeroControlPlane (decStruct decodeControlPlane)) m (gs "controlPlane") (cfg_ControlPlane c);
  cacheMax ← field decInt m (gs "dnsCacheMaxSize") (cfg_DnsCacheMaxSize c);
  cacheTtl ← field decInt m (gs "dnsCacheTtlMs") (cfg_DnsCacheTtlMs c);
  maxTcp ← field decInt m (gs "maxTcpConnections") (cfg_MaxTcpConnections c);
  idle ← field decInt m (gs "tcpIdleTimeoutMs") (cfg_TcpIdleTimeoutMs c);
  rlMax ← field decInt m (gs "rateLimitMaxRequests") (cfg_RateLimitMaxRequests c);
  rlWindow ← field decInt m (gs "rateLimitWindowMs") (cfg_RateLimitWindowMs c);
  upHttp ← field decStr m (gs "upstreamHttpProxy") (cfg_UpstreamHttpProxy c);
  upHttps ← field decStr m (gs "upstreamHttpsProxy") (cfg_UpstreamHttpsProxy c);
  upNo ← field decStr m (gs "upstreamNoProxy") (cfg_UpstreamNoProxy c);
  hosts ← field (decMap zeroHost (decStruct decodeHost)) m (gs "hosts") (cfg_Hosts c);
  Some {| cfg_Port := port; cfg_HttpPort := httpPort; cfg_HttpsPort := httpsPort; cfg_Tls := tls; cfg_DotPort := dotPort; cfg_DohPort := dohPort;
          cfg_FallbackDns := fallbackDns; cfg_Firewall := firewall; cfg_ControlPlane := controlPlane; cfg_DnsCacheMaxSize := cacheMax;
          cfg_DnsCacheTtlMs := cacheTtl; cfg_MaxTcpConnections := maxTcp; cfg_TcpIdleTimeoutMs := idle; cfg_RateLimitMaxRequests := rlMax;
          cfg_RateLimitWindowMs := rlWindow; cfg_UpstreamHttpProxy := upHttp; cfg_UpstreamHttpsProxy := upHttps; cfg_UpstreamNoProxy := upNo;
          cfg_Hosts := hosts |}.

(** [json.Unmarshal] into a fresh [ServerConfig]; [None] is an error. *)
Definition unmarshalTree (t : tree) : option ServerConfig := decStruct decodeServerConfig zeroServerConfig t.

Lemma fieldValues_single (l : members) name t :
  NoDup (map fst l) -> (name, t) ∈ l -> (forall k v, (k, v) ∈ l -> foldName k = foldName name -> k = name) -> fieldValues l name = [t].
Proof.
  unfold fieldValues. induction l as [|[k v] l IH]; [by intros ? ?%not_elem_of_nil|]. cbn [map fst]. intros [Hk Hnd]%NoDup_cons Hin Hu. rewrite filter_cons.
  assert (forall v', (k, v') ∉ l) as Hnot by (intros v' Hv'; apply Hk, list_elem_of_fmap; by exists (k, v')).
  apply elem_of_cons in Hin as [[= <- <-]|Hin].
  - rewrite decide_True by done. cbn [map snd]. f_equal. destruct (filter _ l) as [|[k' v'] r] eqn:Ef; [done|exfalso].
    assert ((k', v') ∈ filter (fun kv : gostring * tree => foldName kv.1 = foldName name) l) as [E Hin']%list_elem_of_filter by (rewrite Ef; apply list_elem_of_here). cbn in E.
    assert (k' = name) as -> by (eapply Hu; [by apply elem_of_cons; right|done]). by apply (Hnot v').
  - rewrite decide_False.
    + apply IH; [done|done|]. intros k' v' Hin'. apply Hu with v'. by apply elem_of_cons; right.
    + cbn. intros E. assert (k = name) as -> by (eapply Hu; [by apply elem_of_cons; left|done]). by apply (Hnot t).
Qed.

(** The same from the text. *)
Definition unmarshalServerConfig {JL : JsonLib} (data : bytes) : gostring + ServerConfig :=
  match parseJson data with
  | None => inl (syntaxError data)
  | Some t => match unmarshalTree t with Some c => inr c | None => inl (typeError t) end
  end.

(** ** Encoding *)

(** A struct: its keys with their values, [None] for a field that is left out. *)
Definition obj (l : list (gostring * option tree)) : members := omap (fun kv => pair kv.1 <$> kv.2) l.

(** Without and with [omitempty]. *)
Definition intTree (n : Z) : tree := TNum (fmt_d n).
Definition encStr (s : gostring) : option tree := Some (TStr s).
Definition encInt (n : Z) : option tree := Some (intTree n).
Definition omitStr (s : gostring) : option tree := if decide (s = []) then None else Some (TStr s).
Definition omitInt (n : Z) : option tree := if decide (n = 0) then None else encInt n.
Definition omitIntPtr (p : option Z) : option tree := intTree <$> p.
Definition omitList {A} (enc : A -> tree) (l : list A) : option tree := match l with [] => None | _ => Some (TArr (map enc l)) end.
Definition omitStrs : list gostring -> option tree := omitList TStr.

Definition encodeRecord (c : DnsRecord) : members :=
  obj [(gs "type", encStr (rec_Type c)); (gs "address", omitStr (rec_Address c)); (gs "target", omitStr (rec_Target c)); (gs "data", omitStrs (rec_Data c));
       (gs "priority", omitIntPtr (rec_Priority c)); (gs "exchange", omitStr (rec_Exchange c)); (gs "weight", omitIntPtr (rec_Weight c));
       (gs "port", omitIntPtr (rec_Port c))].
Definition encodeTls (c : TlsConfig) : members :=
  obj [(gs "cert", encStr (tls_Cert c)); (gs "key", encStr (tls_Key c)); (gs "ca", omitStr (tls_Ca c)); (gs "serverName", omitStr (tls_ServerName c))].
Definition omitTls (p : option TlsConfig) : option tree := (fun c => TObj (encodeTls c)) <$> p.
Definition omitHeaders (h : gmap gostring gostring) : option tree := if decide (h = ∅) then None else Some (TObj (entries (TStr <$> h))).
Definition encodeHttpProxy (c : HttpProxyConfig) : members :=
  obj [(gs "enabled", Some (TBool (hp_Enabled c))); (gs "upstream", omitStr (hp_Upstream c)); (gs "headers", omitHeaders (hp_Headers c));
       (gs "forwardRequestBody", Some (TBool (hp_ForwardRequestBody c))); (gs "maxRequestBodyBytes", omitInt (hp_MaxRequestBodyBytes c));
       (gs "clientTls", omitTls (hp_ClientTls c))].
Definition encodeTlsProxy (c : TlsProxyConfig) : members := obj [(gs "targetPort", omitInt (tp_TargetPort c)); (gs "targetIp", omitStr (tp_TargetIp c))].
Definition encodeRedirect (c : RedirectConfig) : members :=
  obj [(gs "enabled", Some (TBool (rd_Enabled c))); (gs "code", encInt (rd_Code c)); (gs "target", encStr (rd_Target c))].
Definition encodeHost (c : HostConfig) : members :=
  obj [(gs "records", omitList (fun r => TObj (encodeRecord r)) (hc_Records c)); (gs "http_proxy", (fun p => TObj (encodeHttpProxy p)) <$> hc_HttpProxy c);
       (gs "tls_proxy", (fun p => TObj (encodeTlsProxy p)) <$> hc_TlsProxy c); (gs "redirect", (fun p => TObj (encodeRedirect p)) <$> hc_Redirect c)].
Definition encodeFirewall (c : FirewallConfig) : members :=
  obj [(gs "defaultPolicy", encStr (fw_DefaultPolicy c)); (gs "allowlist_domains", omitStrs (fw_AllowlistDomains c));
       (gs "blocklist_domains", omitStrs (fw_BlocklistDomains c)); (gs "allowlist_ranges", omitStrs (fw_AllowlistRanges c));
       (gs "blocklist_ranges", omitStrs (fw_BlocklistRanges c)); (gs "allowlist_ips", omitStrs (fw_AllowlistIps c)); (gs "blocklist_ips", omitStrs (fw_BlocklistIps c))].
Definition encodeControlPlane (c : ControlPlaneConfig) : members :=
  obj [(gs "enabled", TBool <$> cp_Enabled c); (gs "port", omitInt (cp_Port c)); (gs "socketPath", omitStr (cp_SocketPath c)); (gs "apiKey", omitStr (cp_ApiKey c));
       (gs "tls", omitTls (cp_Tls c))].
(** A nil map of hosts, which exists before validation only, is written as an empty one. *)
Definition encodeServerConfig (c : ServerConfig) : members :=
  obj [(gs "port", encInt (cfg_Port c)); (gs "httpPort", omitIntPtr (cfg_HttpPort c)); (gs "httpsPort", omitIntPtr (cfg_HttpsPort c)); (gs "tls", omitTls (cfg_Tls c));
       (gs "dotPort", omitIntPtr (cfg_DotPort c)); (gs "dohPort", omitIntPtr (cfg_DohPort c)); (gs "fallbackDns", omitStr (cfg_FallbackDns c));
       (gs "firewall", (fun p => TObj (encodeFirewall p)) <$> cfg_Firewall c); (gs "controlPlane", (fun p => TObj (encodeControlPlane p)) <$> cfg_ControlPlane c);
       (gs "dnsCacheMaxSize", omitInt (cfg_DnsCacheMaxSize c)); (gs "dnsCacheTtlMs", omitInt (cfg_DnsCacheTtlMs c));
       (gs "maxTcpConnections", omitInt (cfg_MaxTcpConnections c)); (gs "tcpIdleTimeoutMs", omitInt (cfg_TcpIdleTimeoutMs c));
       (gs "rateLimitMaxRequests", omitInt (cfg_RateLimitMaxRequests c)); (gs "rateLimitWindowMs", omitInt (cfg_RateLimitWindowMs c));
       (gs "upstreamHttpProxy", omitStr (cfg_UpstreamHttpProxy c)); (gs "upstreamHttpsProxy", omitStr (cfg_UpstreamHttpsProxy c));
       (gs "upstreamNoProxy", omitStr (cfg_UpstreamNoProxy c)); (gs "hosts", Some (TObj (entries ((fun h => TObj (encodeHost h)) <$> cfg_Hosts c))))].


(** The text of a configuration: in an answer, and in its file. *)
Definition marshalConfig (c : ServerConfig) : bytes := compactText (TObj (encodeServerConfig c)).
Definition encodeConfig (c : ServerConfig) : bytes := encoderText (TObj (encodeServerConfig c)).

(** ** Entries *)

Lemma entries_perm {A} (m : gmap gostring A) : entries m ≡ₚ map_to_list m.
Proof. apply merge_sort_Permutation. Qed.
Lemma elem_of_entries {A} (m : gmap gostring A) k v : (k, v) ∈ entries m <-> m !! k = Some v.
Proof. rewrite entries_perm. apply elem_of_map_to_list. Qed.
Lemma entries_NoDup {A} (m : gmap gostring A) : NoDup (map fst (entries m)).
Proof. rewrite entries_perm. apply NoDup_fst_map_to_list. Qed.
Lemma entries_list_to_map {A} (l : list (gostring * A)) : NoDup (map fst l) -> entries (list_to_map (reverse l) : gmap gostring A) ≡ₚ l.
Proof. intros H. rewrite entries_perm, map_to_list_to_map by (rewrite fmap_reverse, reverse_Permutation; exact H). apply reverse_Permutation. Qed.
Lemma list_to_map_entries {A} (m : gmap gostring A) : list_to_map (reverse (entries m)) = m.
Proof.
  rewrite <- (list_to_map_to_list m) at 2. apply list_to_map_proper; [rewrite fmap_reverse, reverse_Permutation; apply entries_NoDup|].
  by rewrite reverse_Permutation, entries_perm.
Qed.

(** ** Values of [interface{}] *)

Section Canonical.
Context {JL : JsonLib}.

Lemma plainInt_exact n : exact n -> plainInt (fmt_d n) = Some n.
Proof. intros H. unfold plainInt. rewrite Atoi_fmt_d by (unfold exact, int_ok in *; lia). simpl. by rewrite decide_True. Qed.
Lemma plainInt_Some x n : plainInt x = Some n -> x = fmt_d n /\ exact n.
Proof. unfold plainInt. intros (m & _ & H)%bind_Some. case_decide as Hd; [|done]. simplify_eq. destruct Hd. done. Qed.

(** A value that survives being written and read. *)
Definition canonical (j : json) : Prop := ofTree (treeOf j) = j.

Lemma canonical_num n : exact n -> canonical (JNum n).
Proof. intros H. unfold canonical. cbn. unfold convertNumber. by rewrite plainInt_exact. Qed.
Lemma ofTree_treeOf_obj (m : object) : ofTree (treeOf (JObj m)) = JObj ((fun j => ofTree (treeOf j)) <$> m).
Proof.
  cbn [treeOf ofTree]. f_equal. set (g := fun j => ofTree (treeOf j)). apply map_eq. intros k. rewrite lookup_fmap.
  set (l := map (fun kv => (kv.1, ofTree kv.2)) (entries (treeOf <$> m))).
  assert (NoDup (map fst l)) as Hnd.
  { unfold l. rewrite map_map. exact (entries_NoDup (treeOf <$> m)). }
  assert (forall v, (k, v) ∈ l <-> exists j, m !! k = Some j /\ v = g j) as Hin.
  { intros v. unfold l. rewrite list_elem_of_fmap. split.
    - intros ([k' t] & [= -> ->] & H). apply elem_of_entries in H. rewrite lookup_fmap in H. destruct (m !! k') as [j|]; [|done]. injection H as <-. eauto.
    - intros (j & Hj & ->). exists (k, treeOf j). split; [done|]. apply elem_of_entries. by rewrite lookup_fmap, Hj. }
  destruct (m !! k) as [j|] eqn:E; simpl.
  - apply elem_of_list_to_map_1; [rewrite fmap_reverse, reverse_Permutation; exact Hnd|]. rewrite reverse_Permutation. apply Hin. eauto.
  - apply not_elem_of_list_to_map_1. intros H. rewrite fmap_reverse, reverse_Permutation in H. apply list_elem_of_fmap in H as ([k' v] & -> & H).
    apply Hin in H as (j & Hj & _). simpl in *. congruence.
Qed.
Lemma canonical_obj (m : object) : canonical (JObj m) <-> map_Forall (fun _ => canonical) m.
Proof.
  unfold canonical. rewrite ofTree_treeOf_obj. split.
  - intros [= H] k j Hj. pose proof (f_equal (lookup k) H) as E. rewrite lookup_fmap, Hj in E. by injection E.
  - intros H. f_equal. apply map_eq. intros k. rewrite lookup_fmap. destruct (m !! k) as [j|] eqn:E; [|done]. simpl. f_equal. by apply (H k).
Qed.

Lemma canonical_ofTree t : canonical (ofTree t).
Proof.
  induction t as [|b|x|s|l IH|l IH] using tree_induction; try done.
  - cbn [ofTree]. unfold convertNumber. destruct (plainInt x) as [n|] eqn:E; [apply canonical_num; by eapply plainInt_Some|].
    destruct (ParseFloat x) as [y|] eqn:Ey; [|done]. simpl. unfold numberOf. destruct (plainInt y) as [n|] eqn:En; [apply canonical_num; by eapply plainInt_Some|].
    unfold canonical. cbn. unfold convertNumber. rewrite En, (ParseFloat_fixed _ _ Ey). simpl. unfold numberOf. by rewrite En.
  - unfold canonical in *. cbn [ofTree treeOf]. f_equal. rewrite !map_map. induction IH as [|t l Ht Hl IHl]; [done|]. cbn [map]. by rewrite Ht, IHl.
  - cbn [ofTree]. apply canonical_obj. intros k j H. apply elem_of_list_to_map_2 in H. rewrite reverse_Permutation in H.
    apply list_elem_of_fmap in H as ([k' t] & [= -> ->] & Hin). rewrite Forall_forall in IH. by apply (IH (k', t)).
Qed.

(** What is read from a text can be written again. *)
Lemma good_mono d e t : good_tree d t -> (d <= e)%nat -> good_tree e t.
Proof. intros [? ?] ?. split; [done|lia]. Qed.
Lemma obj_inv d l : good_tree d (TObj l) -> exists e, d = S e /\ Forall (good_member e) l.
Proof.
  intros [Ho Hd]. cbn [depth] in Hd. destruct d as [|e]; [lia|]. exists e. split; [done|]. apply le_S_n, depth_list in Hd. apply obj_ok in Ho.
  apply Forall_forall. intros kv Hkv. rewrite Forall_forall in Ho, Hd. destruct (Ho kv Hkv). split; [done|]. split; [done|auto].
Qed.
Lemma arr_inv d l : good_tree d (TArr l) -> exists e, d = S e /\ Forall (good_tree e) l.
Proof.
  intros [Ho Hd]. cbn [depth] in Hd. destruct d as [|e]; [lia|]. exists e. split; [done|]. apply le_S_n, depth_list in Hd. apply arr_ok in Ho.
  by apply Forall_and.
Qed.
Lemma good_entries (d : nat) (m : object) : map_Forall (fun k (j : json) => string_ok k /\ good_tree d (treeOf j)) m <-> Forall (good_member d) (entries (treeOf <$> m)).
Proof.
  split.
  - intros H. apply Forall_forall. intros [k t] Hin. apply elem_of_entries in Hin. rewrite lookup_fmap in Hin. destruct (m !! k) as [j|] eqn:E; [|done].
    injection Hin as <-. destruct (H k j E). by split.
  - intros H k j Hj. rewrite Forall_forall in H. apply (H (k, treeOf j)). apply elem_of_entries. by rewrite lookup_fmap, Hj.
Qed.
Lemma good_num d x : good_tree d (treeOf (default JNull (convertNumber x))).
Proof.
  assert (forall y, number_ok y -> good_tree d (TNum y)) as Hnum by (intros y Hy; split; [by apply bool_decide_eq_true|simpl; lia]).
  unfold convertNumber. destruct (plainInt x) as [n|]; [apply Hnum, number_fmt_d|]. destruct (ParseFloat x) as [y|] eqn:E; [|split; [done|simpl; lia]].
  apply ParseFloat_literal in E. simpl. unfold numberOf. destruct (plainInt y); apply Hnum; [apply number_fmt_d|done].
Qed.
Lemma good_ofTree t : forall d, good_tree d t -> good_tree d (treeOf (ofTree t)).
Proof.
  induction t as [|b|x|s|l IH|l IH] using tree_induction; intros d Hg; try done.
  - apply good_num.
  - apply arr_inv in Hg as (e & -> & Hl). cbn [ofTree treeOf]. apply good_arr. rewrite map_map, Forall_map. rewrite Forall_forall in IH, Hl |- *. auto.
  - apply obj_inv in Hg as (e & -> & Hl). cbn [ofTree treeOf]. apply good_obj, good_entries. intros k j H. apply elem_of_list_to_map_2 in H.
    rewrite reverse_Permutation in H. apply list_elem_of_fmap in H as ([k' t] & [= -> ->] & Hin). rewrite Forall_forall in IH, Hl.
    destruct (Hl _ Hin) as [? ?]. split; [done|]. by apply (IH (k', t)).
Qed.

(** *** What can be stored *)

Lemma numbersOk_obj (m : object) : numbersOk (treeOf (JObj m)) = true <-> map_Forall (fun _ j => numbersOk (treeOf j) = true) m.
Proof.
  cbn [treeOf numbersOk]. rewrite forallb_Forall_eq. split.
  - intros H k j Hj. rewrite Forall_forall in H. apply (H (k, treeOf j)), elem_of_entries. by rewrite lookup_fmap, Hj.
  - intros H. apply Forall_forall. intros [k t] Hin. apply elem_of_entries in Hin. rewrite lookup_fmap in Hin. destruct (m !! k) as [j|] eqn:E; [|done].
    injection Hin as <-. by apply (H k).
Qed.
Lemma numbersOk_num x : canonical (default JNull (convertNumber x)) -> numbersOk (treeOf (default JNull (convertNumber x))) = true.
Proof.
  unfold canonical. destruct (convertNumber x) as [j|] eqn:E; [|done]. cbn [default]. intros Hc.
  assert ((exists n, j = JNum n) \/ exists y, j = JOther y) as [[n ->]|[y ->]].
  { unfold convertNumber in E. destruct (plainInt x); [left; simplify_eq; eauto|]. destruct (ParseFloat x); [|done]. injection E as <-. unfold numberOf. case_match; eauto. }
  all: cbn in Hc |- *; destruct (convertNumber _); [by apply bool_decide_eq_true|done].
Qed.
Lemma numbersOk_ofTree t : numbersOk (treeOf (ofTree t)) = true.
Proof.
  induction t as [|b|x|s|l IH|l IH] using tree_induction; try done.
  - apply numbersOk_num, (canonical_ofTree (TNum x)).
  - cbn [ofTree treeOf numbersOk]. apply forallb_Forall_eq. rewrite map_map, Forall_map. exact IH.
  - cbn [ofTree]. apply numbersOk_obj. intros k j H. apply elem_of_list_to_map_2 in H. rewrite reverse_Permutation in H.
    apply list_elem_of_fmap in H as ([k' t] & [= -> ->] & Hin). rewrite Forall_forall in IH. by apply (IH (k', t)).
Qed.

(** A value that a file can hold, nested at most [d] deep: its text is read back as it. *)
Record storable (d : nat) (j : json) : Prop := { st_canonical : canonical j; st_numbers : numbersOk (treeOf j) = true; st_good : good_tree d (treeOf j) }.

Lemma storable_ofTree (d : nat) t : good_tree d t -> storable d (ofTree t).
Proof. intros H. split; [apply canonical_ofTree|apply numbersOk_ofTree|by apply good_ofTree]. Qed.
Lemma storable_obj (d : nat) (m : object) : storable (S d) (JObj m) <-> map_Forall (fun k (j : json) => string_ok k /\ storable d j) m.
Proof.
  split.
  - intros [Hc Hn Hg] k j Hj. apply canonical_obj in Hc. pose proof (proj1 (numbersOk_obj m) Hn) as Hn'. cbn [treeOf] in Hg. apply obj_inv in Hg as (e & [= <-] & Hl).
    apply good_entries in Hl. destruct (Hl k j Hj). split; [done|]. split; [by apply (Hc k)|by apply (Hn' k)|done].
  - intros H. split; [apply canonical_obj|apply numbersOk_obj|cbn [treeOf]; apply good_obj, good_entries]; intros k j Hj; destruct (H k j Hj) as [? []]; done.
Qed.
Lemma storable_insert (d : nat) (k : gostring) (j : json) (m : object) : storable (S d) (JObj m) -> string_ok k -> storable d j -> storable (S d) (JObj (<[k := j]> m)).
Proof. rewrite !storable_obj. intros. by apply map_Forall_insert_2. Qed.
Lemma storable_empty (d : nat) : storable (S d) (JObj ∅).
Proof. apply storable_obj. apply map_Forall_empty. Qed.
Lemma storable_bool (d : nat) b : storable d (JBool b).
Proof. split; [done|done|]. split; [done|simpl; lia]. Qed.
Lemma storable_str (d : nat) s : string_ok s -> storable d (JStr s).
Proof. intros H. split; [done|done|]. split; [by apply bool_decide_eq_true|simpl; lia]. Qed.
Lemma storable_num (d : nat) n : exact n -> storable d (JNum n).
Proof.
  intros H. split; [by apply canonical_num| |].
  - cbn. unfold convertNumber. rewrite plainInt_exact by done. by apply bool_decide_eq_true.
  - split; [apply bool_decide_eq_true, number_fmt_d|simpl; lia].
Qed.
Lemma storable_strs (d : nat) l : Forall string_ok l -> storable (S d) (JArr (map JStr l)).
Proof.
  intros H. assert (map treeOf (map JStr l) = map TStr l) as E by apply map_map. split.
  - unfold canonical. cbn [treeOf ofTree]. by rewrite E, map_map.
  - cbn [treeOf numbersOk]. rewrite E. apply forallb_Forall_eq, Forall_map. by apply Forall_true.
  - cbn [treeOf]. rewrite E. apply good_arr, Forall_map. eapply Forall_impl; [exact H|]. intros s Hs. exact (st_good _ _ (storable_str d s Hs)).
Qed.
End Canonical.

(** ** Round trips *)

(** What may happen to a tree between the encoder and the decoder: numbers of the given
    range and all other values stay, and the members of an object may be reordered. *)
Record Transport (T : tree -> tree) (fits : Z -> Prop) : Prop := {
  T_str s : T (TStr s) = TStr s;
  T_bool b : T (TBool b) = TBool b;
  T_int n : fits n -> T (intTree n) = intTree n /\ int_ok n;
  T_arr l : T (TArr l) = TArr (map T l);
  T_obj l : NoDup (map fst l) -> exists l', T (TObj l) = TObj l' /\ l' ≡ₚ map (fun kv => (kv.1, T kv.2)) l;
}.

(** Nothing at all, and the way through an [interface{}]. *)
Lemma transport_id : Transport id int_ok.
Proof. split; try done; [intros l; by rewrite (map_id l : map id l = l)|]. intros l _. exists l. split; [done|]. apply reflexive_eq. induction l as [|[k t] l IH]; [done|]. cbn. by f_equal. Qed.
Definition viaInterface {JL : JsonLib} (t : tree) : tree := treeOf (ofTree t).
Lemma transport_interface {JL : JsonLib} : Transport viaInterface exact.
Proof.
  split; try done.
  - intros n Hn. split; [|unfold exact, int_ok in *; lia]. unfold viaInterface, intTree. cbn [ofTree]. unfold convertNumber. by rewrite plainInt_exact.
  - intros l. unfold viaInterface. cbn [ofTree treeOf]. by rewrite map_map.
  - intros l Hnd. eexists. split; [done|]. rewrite entries_perm, map_to_list_fmap, map_to_list_to_map.
    + rewrite fmap_reverse, reverse_Permutation. apply reflexive_eq. apply map_map.
    + rewrite fmap_reverse, reverse_Permutation. rewrite <- list_fmap_compose. exact Hnd.
Qed.

Section RoundTrip.
Context {T : tree -> tree} {fits : Z -> Prop} (HT : Transport T fits).

(** A decoder reads back what was written for [v], if anything. *)
Definition reads {A} (d : decoder A) (zero : A) (o : option tree) (v : A) : Prop := foldM d zero (option_list (T <$> o)) = Some v.

Lemma obj_keys l : NoDup (map (fun kv => foldName kv.1) l) -> NoDup (map (fun kv => foldName kv.1) (obj l)).
Proof.
  induction l as [|[k o] l IH]; [done|]. cbn [map obj omap list_omap fst snd]. intros [Hn Hnd]%NoDup_cons. destruct o as [t|]; simpl; [|auto].
  apply NoDup_cons. split; [|by apply IH]. intros ([k' t'] & E & H)%list_elem_of_fmap. apply Hn. apply list_elem_of_omap in H as ([k2 o2] & Hin & E2).
  destruct o2; simpl in *; [|done]. simplify_eq. apply list_elem_of_fmap. exists (k', Some t'). by rewrite E.
Qed.
Lemma folded_NoDup {A} (l : list (gostring * A)) : NoDup (map (fun kv => foldName kv.1) l) -> NoDup (map fst l).
Proof. intros H. apply (NoDup_fmap_1 foldName). rewrite <- list_fmap_compose. exact H. Qed.

(** The keys of a struct differ in more than the letter case, so that the order of its
    members does not matter. *)
Lemma obj_field l l' name o :
  NoDup (map (fun kv => foldName kv.1) l) -> (name, o) ∈ l -> l' ≡ₚ map (fun kv => (kv.1, T kv.2)) (obj l) -> fieldValues l' name = option_list (T <$> o).
Proof.
  intros Hnd Hin Hp. unfold fieldValues. set (P := fun kv : gostring * tree => foldName kv.1 = foldName name).
  assert (filter P l' ≡ₚ filter P (map (fun kv => (kv.1, T kv.2)) (obj l))) as Hf by (by rewrite Hp).
  assert (filter P (map (fun kv => (kv.1, T kv.2)) (obj l)) = option_list ((fun t => (name, T t)) <$> o)) as E.
  { clear Hp Hf. induction l as [|[k o'] l IH]; [by apply not_elem_of_nil in Hin|]. cbn [map fst] in Hnd. apply NoDup_cons in Hnd as [Hn Hnd].
    apply elem_of_cons in Hin as [[= <- <-]|Hin].
    - assert (filter P (map (fun kv => (kv.1, T kv.2)) (obj l)) = []) as Hnil.
      { apply elem_of_nil_inv. intros [k t] [Hk H]%list_elem_of_filter. apply list_elem_of_fmap in H as ([k2 t2] & [= -> ->] & H).
        apply list_elem_of_omap in H as ([k3 o3] & H3 & E3). destruct o3; simpl in *; [|done]. simplify_eq. apply Hn, list_elem_of_fmap. eexists. split; [|exact H3]. done. }
      unfold obj in *. cbn [omap list_omap fst snd]. destruct o as [t|]; simpl; [|done]. rewrite filter_cons_True by done. by rewrite Hnil.
    - assert (foldName k <> foldName name) as Hne by (intros E; apply Hn, list_elem_of_fmap; by exists (name, o)).
      unfold obj in *. cbn [omap list_omap fst snd]. destruct o' as [t|]; simpl; [rewrite filter_cons_False by done|]; by apply IH. }
  rewrite E in Hf. destruct o as [t|]; simpl in *.
  - apply Permutation_singleton_r in Hf as ->. done.
  - by apply Permutation_nil_r in Hf as ->.
Qed.

Lemma field_reads {A} (d : decoder A) zero l l' name o v :
  NoDup (map (fun kv => foldName kv.1) l) -> l' ≡ₚ map (fun kv => (kv.1, T kv.2)) (obj l) -> (name, o) ∈ l -> reads d zero o v -> field d l' name zero = Some v.
Proof. intros Hnd Hp Hin Hr. unfold field. by rewrite (obj_field l l' name o). Qed.

Lemma reads_some {A} (d : decoder A) zero t v : d zero (T t) = Some v -> reads d zero (Some t) v.
Proof. unfold reads. simpl. by intros ->. Qed.

Lemma reads_encStr s : reads decStr [] (encStr s) s.
Proof. apply reads_some. by rewrite (T_str _ _ HT). Qed.
Lemma reads_omitStr s : reads decStr [] (omitStr s) s.
Proof. unfold omitStr. case_decide; subst; [done|apply reads_encStr]. Qed.
Lemma decInt_int n zero : fits n -> decInt zero (T (intTree n)) = Some n.
Proof. intros H. destruct (T_int _ _ HT n H) as [-> Hi]. by apply Atoi_fmt_d. Qed.
Lemma reads_encInt n : fits n -> reads decInt 0 (encInt n) n.
Proof. intros H. by apply reads_some, decInt_int. Qed.
Lemma reads_omitInt n : fits n -> reads decInt 0 (omitInt n) n.
Proof. unfold omitInt. case_decide; subst; [done|apply reads_encInt]. Qed.
Lemma reads_bool b : reads decBool false (Some (TBool b)) b.
Proof. apply reads_some. by rewrite (T_bool _ _ HT). Qed.

Lemma reads_ptr {A} (d : decoder A) zero (enc : A -> tree) p :
  (forall x, p = Some x -> T (enc x) <> TNull /\ d zero (T (enc x)) = Some x) -> reads (decPtr zero d) None (enc <$> p) p.
Proof.
  destruct p as [x|]; [|done]. intros H. destruct (H x eq_refl) as [Hn Hx]. apply reads_some. unfold decPtr. destruct (T (enc x)) eqn:E; try done;
    change (default zero None) with zero; by rewrite Hx.
Qed.
Lemma reads_intPtr p : (forall n, p = Some n -> fits n) -> reads (decPtr 0 decInt) None (omitIntPtr p) p.
Proof. intros H. apply (reads_ptr decInt 0 intTree). intros n Hn. specialize (H n Hn). split; [by destruct (T_int _ _ HT n H) as [-> _]|by apply decInt_int]. Qed.
Lemma reads_boolPtr p : reads (decPtr false decBool) None (TBool <$> p) p.
Proof. apply (reads_ptr decBool false TBool). intros b _. by rewrite (T_bool _ _ HT). Qed.

Lemma reads_list {A} (d : decoder A) zero (enc : A -> tree) l :
  Forall (fun x => d zero (T (enc x)) = Some x) l -> reads (decList zero d) [] (omitList enc l) l.
Proof.
  intros H. unfold omitList. destruct l as [|x l]; [done|]. apply reads_some. rewrite (T_arr _ _ HT). cbn [decList]. set (xs := x :: l) in *. clearbody xs.
  induction H as [|y ys Hy Hys IH]; [done|]. cbn [map decElements head tail]. change (default zero None) with zero. rewrite Hy. simpl. by rewrite IH.
Qed.
Lemma reads_omitStrs l : reads decStrs [] (omitStrs l) l.
Proof. apply (reads_list decStr []). apply Forall_true. intros s. by rewrite (T_str _ _ HT). Qed.

(** A map is rebuilt from its entries in any order. *)
Lemma foldM_entries {A} (d : decoder A) (zero : A) (m : gmap gostring A) (es : members) :
  (forall k t, (k, t) ∈ es -> exists x, m !! k = Some x /\ d zero t = Some x) -> (forall k x, m !! k = Some x -> k ∈ map fst es) ->
  foldM (fun acc kv => x ← d zero kv.2; Some (<[kv.1 := x]> acc)) ∅ es = Some m.
Proof.
  intros Hd Hk.
  assert (forall es (acc : gmap gostring A), (forall k t, (k, t) ∈ es -> exists x, m !! k = Some x /\ d zero t = Some x) ->
    exists r, foldM (fun acc kv => x ← d zero kv.2; Some (<[kv.1 := x]> acc)) acc es = Some r /\
      forall k, r !! k = if decide (k ∈ map fst es) then m !! k else acc !! k) as Hf.
  { clear. induction es as [|[k t] es IH]; intros acc Hes; cbn [foldM map fst snd].
    - exists acc. split; [done|]. intros k. by rewrite decide_False by apply not_elem_of_nil.
    - destruct (Hes k t) as (x & Hx & Hdx); [left|]. rewrite Hdx. simpl. destruct (IH (<[k := x]> acc)) as (r & Hr & Hl); [intros; apply Hes; by right|].
      exists r. split; [done|]. intros k'. rewrite Hl. destruct (decide (k' = k)) as [->|Hne].
      + rewrite (decide_True (P := k ∈ k :: map fst es)) by left. case_decide; [done|]. by rewrite lookup_insert_eq.
      + rewrite lookup_insert_ne by done. repeat case_decide; try done; exfalso; set_solver. }
  destruct (Hf es ∅ Hd) as (r & -> & Hl). f_equal. apply map_eq. intros k. rewrite Hl. case_decide as Hin; [done|]. rewrite lookup_empty.
  destruct (m !! k) as [x|] eqn:E; [|done]. destruct Hin. eauto.
Qed.

Lemma reads_map {A} (d : decoder A) (zero : A) (enc : A -> tree) (m : gmap gostring A) :
  (forall k x, m !! k = Some x -> d zero (T (enc x)) = Some x) -> reads (decMap zero d) ∅ (Some (TObj (entries (enc <$> m)))) m.
Proof.
  intros H. apply reads_some. destruct (T_obj _ _ HT (entries (enc <$> m)) (entries_NoDup _)) as (l' & -> & Hp). cbn [decMap].
  apply foldM_entries.
  - intros k t Hin. rewrite Hp in Hin. apply list_elem_of_fmap in Hin as ([k' t'] & [= -> ->] & Hin). apply elem_of_entries in Hin. rewrite lookup_fmap in Hin.
    destruct (m !! k') as [x|] eqn:E; [|done]. injection Hin as <-. exists x. split; [done|]. by apply (H k').
  - intros k x Hx. rewrite Hp, map_map. apply list_elem_of_fmap. exists (k, enc x). split; [done|]. apply elem_of_entries. by rewrite lookup_fmap, Hx.
Qed.
Lemma reads_headers h : reads (decMap [] decStr) ∅ (omitHeaders h) h.
Proof. unfold omitHeaders. case_decide; subst; [done|]. apply (reads_map decStr [] TStr). intros. by rewrite (T_str _ _ HT). Qed.

(** The integers of a value are in range. *)
Definition ptr_fits (p : option Z) : Prop := forall n, p = Some n -> fits n.
Definition record_fits (c : DnsRecord) : Prop := ptr_fits (rec_Priority c) /\ ptr_fits (rec_Weight c) /\ ptr_fits (rec_Port c).
Definition host_fits (c : HostConfig) : Prop :=
  Forall record_fits (hc_Records c) /\ (forall p, hc_HttpProxy c = Some p -> fits (hp_MaxRequestBodyBytes p)) /\
  (forall p, hc_TlsProxy c = Some p -> fits (tp_TargetPort p)) /\ (forall p, hc_Redirect c = Some p -> fits (rd_Code p)).
Definition ints_fit (c : ServerConfig) : Prop :=
  Forall fits [cfg_Port c; cfg_DnsCacheMaxSize c; cfg_DnsCacheTtlMs c; cfg_MaxTcpConnections c; cfg_TcpIdleTimeoutMs c; cfg_RateLimitMaxRequests c;
               cfg_RateLimitWindowMs c] /\
  Forall ptr_fits [cfg_HttpPort c; cfg_HttpsPort c; cfg_DotPort c; cfg_DohPort c] /\
  (forall p, cfg_ControlPlane c = Some p -> fits (cp_Port p)) /\ (forall k h, cfg_Hosts c !! k = Some h -> host_fits h).

Create HintDb json.
#[local] Hint Resolve reads_encStr reads_omitStr reads_encInt reads_omitInt reads_bool reads_intPtr reads_boolPtr reads_omitStrs reads_headers : json.

(** One struct: its members in some order, then one field after the other. *)
Ltac find_key := repeat first [apply list_elem_of_here | apply list_elem_of_further].
Ltac read_field Hnd Hp := erewrite (field_reads _ _ _ _ _ _ _ Hnd Hp); [|by find_key|by eauto with json]; cbn [mbind option_bind].
Ltac open_struct Hnd Hp :=
  match goal with |- context [obj ?l] =>
    assert (NoDup (map (fun kv : gostring * option tree => foldName kv.1) l)) as Hnd by (by apply (bool_decide_eq_true_1 _));
    let l' := fresh "l" in
    destruct (T_obj _ _ HT (obj l) (folded_NoDup _ (obj_keys l Hnd))) as (l' & -> & Hp); cbn [decStruct]
  end.

Lemma decodeTls_encode c : decStruct decodeTls zeroTls (T (TObj (encodeTls c))) = Some c.
Proof. unfold encodeTls. open_struct Hnd Hp. unfold decodeTls. cbn [zeroTls tls_Cert tls_Key tls_Ca tls_ServerName]. repeat read_field Hnd Hp. by destruct c. Qed.

Lemma struct_not_null (l : list (gostring * option tree)) : NoDup (map (fun kv => foldName kv.1) l) -> T (TObj (obj l)) <> TNull.
Proof. intros H. by destruct (T_obj _ _ HT (obj l) (folded_NoDup _ (obj_keys l H))) as (l' & -> & _). Qed.

Lemma reads_struct {A} (f : A -> members -> option A) (zero : A) (enc : A -> members) (p : option A) :
  (forall x, T (TObj (enc x)) <> TNull) -> (forall x, p = Some x -> decStruct f zero (T (TObj (enc x))) = Some x) ->
  reads (decPtr zero (decStruct f)) None ((fun c => TObj (enc c)) <$> p) p.
Proof. intros Hn H. apply (reads_ptr (decStruct f) zero (fun c => TObj (enc c))). intros x Hx. auto. Qed.
Ltac not_null := intros ?; apply struct_not_null; by apply (bool_decide_eq_true_1 _).

Lemma reads_omitTls p : reads decTls None (omitTls p) p.
Proof. apply (reads_struct decodeTls zeroTls encodeTls); [not_null|]. intros. apply decodeTls_encode. Qed.
#[local] Hint Resolve reads_omitTls : json.

Lemma decodeRecord_encode c : record_fits c -> decStruct decodeRecord zeroRecord (T (TObj (encodeRecord c))) = Some c.
Proof.
  intros (H1 & H2 & H3). unfold encodeRecord. open_struct Hnd Hp. unfold decodeRecord.
  cbn [zeroRecord rec_Type rec_Address rec_Target rec_Data rec_Priority rec_Exchange rec_Weight rec_Port]. repeat read_field Hnd Hp. by destruct c.
Qed.
Lemma decodeHttpProxy_encode c : fits (hp_MaxRequestBodyBytes c) -> decStruct decodeHttpProxy zeroHttpProxy (T (TObj (encodeHttpProxy c))) = Some c.
Proof.
  intros H. unfold encodeHttpProxy. open_struct Hnd Hp. unfold decodeHttpProxy.
  cbn [zeroHttpProxy hp_Enabled hp_Upstream hp_Headers hp_ForwardRequestBody hp_MaxRequestBodyBytes hp_ClientTls]. repeat read_field Hnd Hp. by destruct c.
Qed.
Lemma decodeTlsProxy_encode c : fits (tp_TargetPort c) -> decStruct decodeTlsProxy zeroTlsProxy (T (TObj (encodeTlsProxy c))) = Some c.
Proof. intros H. unfold encodeTlsProxy. open_struct Hnd Hp. unfold decodeTlsProxy. cbn [zeroTlsProxy tp_TargetPort tp_TargetIp]. repeat read_field Hnd Hp. by destruct c. Qed.
Lemma decodeRedirect_encode c : fits (rd_Code c) -> decStruct decodeRedirect zeroRedirect (T (TObj (encodeRedirect c))) = Some c.
Proof. intros H. unfold encodeRedirect. open_struct Hnd Hp. unfold decodeRedirect. cbn [zeroRedirect rd_Enabled rd_Code rd_Target]. repeat read_field Hnd Hp. by destruct c. Qed.

Lemma decodeHost_encode c : host_fits c -> decStruct decodeHost zeroHost (T (TObj (encodeHost c))) = Some c.
Proof.
  intros (H1 & H2 & H3 & H4).
  assert (reads (decList zeroRecord (decStruct decodeRecord)) [] (omitList (fun r => TObj (encodeRecord r)) (hc_Records c)) (hc_Records c)) as R1.
  { apply reads_list. eapply Forall_impl; [exact H1|]. intros r. apply decodeRecord_encode. }
  pose proof (reads_struct decodeHttpProxy zeroHttpProxy encodeHttpProxy (hc_HttpProxy c) ltac:(not_null) (fun p Hp => decodeHttpProxy_encode p (H2 p Hp))) as R2.
  pose proof (reads_struct decodeTlsProxy zeroTlsProxy encodeTlsProxy (hc_TlsProxy c) ltac:(not_null) (fun p Hp => decodeTlsProxy_encode p (H3 p Hp))) as R3.
  pose proof (reads_struct decodeRedirect zeroRedirect encodeRedirect (hc_Redirect c) ltac:(not_null) (fun p Hp => decodeRedirect_encode p (H4 p Hp))) as R4.
  unfold encodeHost. open_struct Hnd Hp. unfold decodeHost. cbn [zeroHost hc_Records hc_HttpProxy hc_TlsProxy hc_Redirect]. repeat read_field Hnd Hp. by destruct c.
Qed.

Lemma decodeFirewall_encode c : decStruct decodeFirewall zeroFirewall (T (TObj (encodeFirewall c))) = Some c.
Proof.
  unfold encodeFirewall. open_struct Hnd Hp. unfold decodeFirewall.
  cbn [zeroFirewall fw_DefaultPolicy fw_AllowlistDomains fw_BlocklistDomains fw_AllowlistRanges fw_BlocklistRanges fw_AllowlistIps fw_BlocklistIps].
  repeat read_field Hnd Hp. by destruct c.
Qed.
Lemma decodeControlPlane_encode c : fits (cp_Port c) -> decStruct decodeControlPlane zeroControlPlane (T (TObj (encodeControlPlane c))) = Some c.
Proof.
  intros H. unfold encodeControlPlane. open_struct Hnd Hp. unfold decodeControlPlane. cbn [zeroControlPlane cp_Enabled cp_Port cp_SocketPath cp_ApiKey cp_Tls].
  repeat read_field Hnd Hp. by destruct c.
Qed.

Lemma unmarshal_encoded c : ints_fit c -> unmarshalTree (T (TObj (encodeServerConfig c))) = Some c.
Proof.
  intros (Hi & Hq & Hc & Hh). rewrite !Forall_cons in Hi. rewrite !Forall_cons in Hq. destruct Hi as (I1 & I2 & I3 & I4 & I5 & I6 & I7 & _). destruct Hq as (P1 & P2 & P3 & P4 & _).
  pose proof (reads_struct decodeFirewall zeroFirewall encodeFirewall (cfg_Firewall c) ltac:(not_null) (fun p _ => decodeFirewall_encode p)) as R1.
  pose proof (reads_struct decodeControlPlane zeroControlPlane encodeControlPlane (cfg_ControlPlane c) ltac:(not_null) (fun p H => decodeControlPlane_encode p (Hc p H))) as R2.
  pose proof (reads_map (decStruct decodeHost) zeroHost (fun h => TObj (encodeHost h)) (cfg_Hosts c) (fun k h H => decodeHost_encode h (Hh k h H))) as R3.
  unfold unmarshalTree, encodeServerConfig. open_struct Hnd Hp. unfold decodeServerConfig.
  cbn [zeroServerConfig cfg_Port cfg_HttpPort cfg_HttpsPort cfg_Tls cfg_DotPort cfg_DohPort cfg_FallbackDns cfg_Firewall cfg_ControlPlane cfg_DnsCacheMaxSize
    cfg_DnsCacheTtlMs cfg_MaxTcpConnections cfg_TcpIdleTimeoutMs cfg_RateLimitMaxRequests cfg_RateLimitWindowMs cfg_UpstreamHttpProxy cfg_UpstreamHttpsProxy
    cfg_UpstreamNoProxy cfg_Hosts].
  repeat read_field Hnd Hp. by destruct c.
Qed.
End RoundTrip.

(** ** The text of a configuration *)

(** A configuration whose strings are UTF-8. *)
Definition utf8_config (c : ServerConfig) : Prop := tree_ok (TObj (encodeServerConfig c)).

Lemma depth_obj l d : Forall (fun kv => from_option depth O kv.2 <= d)%nat l -> (depth (TObj (obj l)) <= S d)%nat.
Proof.
  intros H. cbn [depth]. apply le_n_S, depth_list. apply Forall_forall. intros [k t] Hin. apply list_elem_of_omap in Hin as ([k' o] & Hin & E).
  destruct o as [t'|]; simpl in E; [|done]. simplify_eq. rewrite Forall_forall in H. exact (H (k, Some t) Hin).
Qed.
Lemma depth_entries {A} (enc : A -> tree) (m : gmap gostring A) d : (forall x, depth (enc x) <= d)%nat -> (depth (TObj (entries (enc <$> m))) <= S d)%nat.
Proof.
  intros H. cbn [depth]. apply le_n_S, depth_list. apply Forall_forall. intros [k t] Hin. apply elem_of_entries in Hin. rewrite lookup_fmap in Hin.
  destruct (m !! k); [|done]. injection Hin as <-. simpl. apply H.
Qed.
Lemma depth_arr {A} (enc : A -> tree) l d : (forall x, depth (enc x) <= d)%nat -> (from_option depth O (omitList enc l) <= S d)%nat.
Proof. intros H. unfold omitList. destruct l as [|x l]; [simpl; lia|]. cbn [from_option depth]. apply le_n_S, depth_list, Forall_map, Forall_true, H. Qed.
Lemma depth_opt {A} (enc : A -> tree) (p : option A) d : (forall x, depth (enc x) <= d)%nat -> (from_option depth O (enc <$> p) <= d)%nat.
Proof. intros H. destruct p; simpl; [apply H|lia]. Qed.
Create HintDb depth.
Lemma depth_encInt n d : (from_option depth O (encInt n) <= d)%nat.
Proof. simpl. lia. Qed.
Lemma depth_str (s : gostring) d : (from_option depth O (omitStr s) <= d)%nat.
Proof. unfold omitStr. case_decide; simpl; lia. Qed.
Lemma depth_int n d : (from_option depth O (omitInt n) <= d)%nat.
Proof. unfold omitInt. case_decide; simpl; lia. Qed.
Lemma depth_intPtr p d : (from_option depth O (omitIntPtr p) <= d)%nat.
Proof. apply depth_opt. intros. simpl. lia. Qed.
Lemma depth_strs l d : (1 <= d)%nat -> (from_option depth O (omitStrs l) <= d)%nat.
Proof. intros. destruct d; [lia|]. apply depth_arr. simpl. lia. Qed.
Lemma depth_scalar t d : depth t = 0%nat -> (from_option depth O (Some t) <= d)%nat.
Proof. simpl. lia. Qed.
#[local] Hint Resolve depth_encInt depth_str depth_int depth_intPtr depth_strs depth_scalar : depth.
Ltac depth_fields := apply depth_obj; repeat (apply Forall_cons; split; [cbn [snd]|]); [..|apply Forall_nil; exact I]; try (by eauto with depth lia).

Lemma depth_tls c : (depth (TObj (encodeTls c)) <= 1)%nat.
Proof. depth_fields. Qed.
Lemma depth_omitTls p d : (1 <= d)%nat -> (from_option depth O (omitTls p) <= d)%nat.
Proof. intros. apply depth_opt. intros. etrans; [apply depth_tls|lia]. Qed.
#[local] Hint Resolve depth_omitTls : depth.
Lemma depth_record c : (depth (TObj (encodeRecord c)) <= 2)%nat.
Proof. depth_fields. Qed.
Lemma depth_headers h : (from_option depth O (omitHeaders h) <= 1)%nat.
Proof. unfold omitHeaders. case_decide; [simpl; lia|]. apply (depth_entries TStr). done. Qed.
#[local] Hint Resolve depth_headers : depth.
Lemma depth_httpProxy c : (depth (TObj (encodeHttpProxy c)) <= 2)%nat.
Proof. depth_fields. Qed.
Lemma depth_tlsProxy c : (depth (TObj (encodeTlsProxy c)) <= 2)%nat.
Proof. depth_fields. Qed.
Lemma depth_redirect c : (depth (TObj (encodeRedirect c)) <= 2)%nat.
Proof. depth_fields. Qed.
Lemma depth_host c : (depth (TObj (encodeHost c)) <= 4)%nat.
Proof.
  depth_fields; [apply (depth_arr _ _ 2), depth_record|..]; apply depth_opt; intros p;
    [pose proof (depth_httpProxy p)|pose proof (depth_tlsProxy p)|pose proof (depth_redirect p)]; lia.
Qed.
Lemma depth_firewall c : (depth (TObj (encodeFirewall c)) <= 2)%nat.
Proof. depth_fields. Qed.
Lemma depth_controlPlane c : (depth (TObj (encodeControlPlane c)) <= 2)%nat.
Proof. depth_fields. apply depth_opt. simpl. lia. Qed.
Lemma depth_config c : (depth (TObj (encodeServerConfig c)) <= 6)%nat.
Proof.
  depth_fields; [apply depth_opt; intros p; pose proof (depth_firewall p); lia|apply depth_opt; intros p; pose proof (depth_controlPlane p); lia|].
  apply (depth_entries (fun h => TObj (encodeHost h)) _ 4), depth_host.
Qed.

Lemma max_depth : (6 <= maxNestingDepth)%nat.
Proof. apply Nat.leb_le. vm_compute. reflexivity. Qed.
Lemma config_good c : utf8_config c -> good_tree maxNestingDepth (TObj (encodeServerConfig c)).
Proof. intros H. split; [exact H|]. pose proof (depth_config c). pose proof max_depth. lia. Qed.

Section Texts.
Context {JL : JsonLib}.

(** A text of a configuration, in one line or indented, is read back as that
    configuration; so is the text of the map that [main.go] makes of it. *)
Lemma unmarshal_text (T : tree -> tree) fits c text :
  Transport T fits -> @ints_fit fits c -> parseJson text = Some (T (TObj (encodeServerConfig c))) -> unmarshalServerConfig text = inr c.
Proof. intros HT Hi Hp. unfold unmarshalServerConfig. rewrite Hp. by rewrite (unmarshal_encoded HT). Qed.
Lemma unmarshal_marshal c : @ints_fit int_ok c -> utf8_config c -> unmarshalServerConfig (marshalConfig c) = inr c.
Proof. intros Hi Hu. apply (unmarshal_text id int_ok); [apply transport_id|done|]. by apply parseJson_compact, config_good. Qed.
Lemma unmarshal_file c : @ints_fit int_ok c -> utf8_config c -> unmarshalServerConfig (encodeConfig c) = inr c.
Proof. intros Hi Hu. apply (unmarshal_text id int_ok); [apply transport_id|done|]. by apply parseJson_encoder, config_good. Qed.

(** The configuration survives its JSON, down to the bytes: reading the text that an
    answer or the stored file holds, with every empty field left out and every string
    escaped, gives back every section, record and header of the configuration. *)
Theorem config_json_roundtrip c :
  @ints_fit int_ok c -> utf8_config c -> unmarshalServerConfig (marshalConfig c) = inr c /\ unmarshalServerConfig (encodeConfig c) = inr c.
Proof. intros Hi Hu. split; [by apply unmarshal_marshal|by apply unmarshal_file]. Qed.
End Texts.

(** ** Demonstrations *)

(** A library without floating-point numbers. *)
Definition no_floats : JsonLib.
Proof. refine {| ParseFloat := fun _ => None; syntaxError := fun _ => gs "syntax"; typeError := fun _ => gs "type" |}; done. Defined.

Definition demo_json_config : ServerConfig :=
  {| cfg_Port := 53; cfg_HttpPort := Some 0; cfg_HttpsPort := None; cfg_Tls := Some zeroTls; cfg_DotPort := None; cfg_DohPort := None; cfg_FallbackDns := gs "1.1.1.1";
     cfg_Firewall := Some zeroFirewall; cfg_ControlPlane := None; cfg_DnsCacheMaxSize := 0; cfg_DnsCacheTtlMs := 5; cfg_MaxTcpConnections := 0;
     cfg_TcpIdleTimeoutMs := 0; cfg_RateLimitMaxRequests := 0; cfg_RateLimitWindowMs := 0; cfg_UpstreamHttpProxy := []; cfg_UpstreamHttpsProxy := [];
     cfg_UpstreamNoProxy := []; cfg_Hosts := {[ gs "a.test" := zeroHost ]} |}.
Lemma config_json_roundtrip_witness :
  unmarshalServerConfig (JL := no_floats) (marshalConfig demo_json_config) = inr demo_json_config /\
  unmarshalServerConfig (JL := no_floats) (encodeConfig demo_json_config) = inr demo_json_config.
Proof.
  apply (config_json_roundtrip (JL := no_floats) demo_json_config); [|vm_compute; reflexivity]. split; [repeat constructor; vm_compute; congruence|].
  split; [repeat (apply Forall_cons; split; [intros n [= <-]; split; vm_compute; congruence|]); constructor|]. split; [done|].
  intros k h Hk. cbn [cfg_Hosts demo_json_config] in Hk. apply lookup_singleton_Some in Hk as [_ <-]. split; [constructor|]. split; [done|]. split; done.
Defined.

Abbreviation demo_unmarshal text := (unmarshalServerConfig (JL := no_floats) (map (fun c => if decide (c = 39) then 34 else c) (gs text))).
(** Keys are compared without regard to letter case; the later key wins. *)
Example decode_folds_keys : match demo_unmarshal "{'port':1, 'PORT':2, 'x':null}" with inr c => cfg_Port c | inl _ => 0 end = 2.
Proof. vm_compute. reflexivity. Qed.
Example decode_type_error : demo_unmarshal "{'port':'53'}" = inl (gs "type") /\ demo_unmarshal "{'port':53.0}" = inl (gs "type") /\ demo_unmarshal "{'port':53,}" = inl (gs "syntax").
Proof. vm_compute. done. Qed.
