(* ===== verification/JsonValues.v ===== *)
(** * The values of a configuration

    A predicate on the strings and one on the integers of a configuration, wherever they
    stand.  What is decoded from a text has UTF-8 strings and 64-bit integers; what is
    encoded from such a configuration is a good tree. *)
From S2P Require Import Prelude GoStrings NetIP Platform JsonText GoText Config Json.
#[local] Open Scope Z_scope.

(** ** Strings and integers *)

Section Values.
Context (S : gostring -> Prop) (N : Z -> Prop).

Definition opt {A} (P : A -> Prop) (o : option A) : Prop := from_option P True o.
Definition record_vals (c : DnsRecord) : Prop :=
  Forall S [rec_Type c; rec_Address c; rec_Target c; rec_Exchange c] /\ Forall S (rec_Data c) /\ Forall (opt N) [rec_Priority c; rec_Weight c; rec_Port c].
Definition tls_vals (c : TlsConfig) : Prop := Forall S [tls_Cert c; tls_Key c; tls_Ca c; tls_ServerName c].
Definition httpProxy_vals (c : HttpProxyConfig) : Prop :=
  S (hp_Upstream c) /\ map_Forall (fun k v => S k /\ S v) (hp_Headers c) /\ N (hp_MaxRequestBodyBytes c) /\ opt tls_vals (hp_ClientTls c).
Definition tlsProxy_vals (c : TlsProxyConfig) : Prop := N (tp_TargetPort c) /\ S (tp_TargetIp c).
Definition redirect_vals (c : RedirectConfig) : Prop := N (rd_Code c) /\ S (rd_Target c).
Definition host_vals (c : HostConfig) : Prop :=
  Forall record_vals (hc_Records c) /\ opt httpProxy_vals (hc_HttpProxy c) /\ opt tlsProxy_vals (hc_TlsProxy c) /\ opt redirect_vals (hc_Redirect c).
Definition firewall_vals (c : FirewallConfig) : Prop :=
  S (fw_DefaultPolicy c) /\
  Forall (Forall S) [fw_AllowlistDomains c; fw_BlocklistDomains c; fw_AllowlistRanges c; fw_BlocklistRanges c; fw_AllowlistIps c; fw_BlocklistIps c].
Definition controlPlane_vals (c : ControlPlaneConfig) : Prop := N (cp_Port c) /\ Forall S [cp_SocketPath c; cp_ApiKey c] /\ opt tls_vals (cp_Tls c).
Definition config_vals (c : ServerConfig) : Prop :=
  Forall N [cfg_Port c; cfg_DnsCacheMaxSize c; cfg_DnsCacheTtlMs c; cfg_MaxTcpConnections c; cfg_TcpIdleTimeoutMs c; cfg_RateLimitMaxRequests c;
            cfg_RateLimitWindowMs c] /\
  Forall (opt N) [cfg_HttpPort c; cfg_HttpsPort c; cfg_DotPort c; cfg_DohPort c] /\
  Forall S [cfg_FallbackDns c; cfg_UpstreamHttpProxy c; cfg_UpstreamHttpsProxy c; cfg_UpstreamNoProxy c] /\
  opt tls_vals (cfg_Tls c) /\ opt firewall_vals (cfg_Firewall c) /\ opt controlPlane_vals (cfg_ControlPlane c) /\
  map_Forall (fun k h => S k /\ host_vals h) (cfg_Hosts c).

Lemma vals_fit c : config_vals c -> @ints_fit N c.
Proof.
  intros (H1 & H2 & _ & _ & _ & Hc & Hh). assert (forall A (P : A -> Prop) o x, opt P o -> o = Some x -> P x) as Hopt by (intros A P o x ? ->; done).
  split; [done|]. split; [eapply Forall_impl; [exact H2|]; intros p Hp n ->; done|]. split; [intros p Hp; by apply (Hopt _ _ _ _ Hc Hp)|].
  intros k h Hk. destruct (Hh k h Hk) as (_ & Hr & Hp & Ht & Hd). split; [|split; [|split]].
  - eapply Forall_impl; [exact Hr|]. intros r (_ & _ & Hn). rewrite !Forall_cons in Hn. destruct Hn as (N1 & N2 & N3 & _).
    split; [|split]; intros n E; [exact (Hopt _ _ _ _ N1 E)|exact (Hopt _ _ _ _ N2 E)|exact (Hopt _ _ _ _ N3 E)].
  - intros p E. by apply (Hopt _ _ _ _ Hp E).
  - intros p E. by apply (Hopt _ _ _ _ Ht E).
  - intros p E. by apply (Hopt _ _ _ _ Hd E).
Qed.

Lemma fit_vals c : (forall s, S s) -> @ints_fit N c -> config_vals c.
Proof.
  intros HS (H1 & H2 & Hc & Hh). assert (forall l, Forall S l) as HF by (intros; apply Forall_forall; auto).
  assert (forall A (P : A -> Prop) o, (forall x, o = Some x -> P x) -> opt P o) as Hopt by (intros A P [x|] H; [by apply H|done]).
  assert (forall p, opt tls_vals p) as Ht by (intros; apply Hopt; intros; apply HF). unfold config_vals.
  split; [done|]. split; [eapply Forall_impl; [exact H2|]; intros p Hp; by apply Hopt|]. split; [apply HF|]. split; [apply Ht|]. split; [|split].
  - apply Hopt. intros f _. split; [apply HS|]. repeat constructor; apply HF.
  - apply Hopt. intros p Hp. split; [by apply Hc|]. split; [apply HF|apply Ht].
  - intros k h Hk. destruct (Hh k h Hk) as (Hr & Hp & Htp & Hd). split; [apply HS|]. split; [|split; [|split]].
    + eapply Forall_impl; [exact Hr|]. intros r (R1 & R2 & R3). split; [apply HF|]. split; [apply HF|]. repeat constructor; by apply Hopt.
    + apply Hopt. intros p E. split; [apply HS|]. split; [intros ? ? ?; split; apply HS|]. split; [by apply Hp|apply Ht].
    + apply Hopt. intros p E. split; [by apply Htp|apply HS].
    + apply Hopt. intros p E. split; [by apply Hd|apply HS].
Qed.

(** ** Encoding *)

(** A predicate on trees that follows from its values; the keys of structs are
    printable. *)
Record TreePred (Q : tree -> Prop) : Prop := {
  q_key k : Forall ascii_print k -> S k;
  q_str s : S s -> Q (TStr s);
  q_bool b : Q (TBool b);
  q_int n : N n -> Q (intTree n);
  q_arr l : Forall Q l -> Q (TArr l);
  q_obj l : Forall (fun kv => S kv.1 /\ Q kv.2) l -> Q (TObj l);
}.

Context {Q : tree -> Prop} (HQ : TreePred Q).

Lemma q_fields l : forallb (fun kv : gostring * option tree => bool_decide (Forall ascii_print kv.1)) l = true -> Forall (fun kv => opt Q kv.2) l -> Q (TObj (obj l)).
Proof.
  intros Hk Hl. apply (q_obj _ HQ), Forall_forall. intros [k t] Hin. apply list_elem_of_omap in Hin as ([k' o] & Hin & E). destruct o as [t'|]; [|done]. simpl in E. simplify_eq.
  split; [|rewrite Forall_forall in Hl; exact (Hl _ Hin)]. apply (q_key _ HQ). rewrite forallb_forall in Hk. apply (bool_decide_eq_true_1 _), (Hk _ (proj1 (list_elem_of_In _ _) Hin)).
Qed.
Lemma q_entries {A} (enc : A -> tree) (m : gmap gostring A) : map_Forall (fun k x => S k /\ Q (enc x)) m -> Q (TObj (entries (enc <$> m))).
Proof.
  intros H. apply (q_obj _ HQ), Forall_forall. intros [k t] Hin. apply elem_of_entries in Hin. rewrite lookup_fmap in Hin. destruct (m !! k) as [x|] eqn:E; [|done].
  injection Hin as <-. by apply (H k).
Qed.
Lemma q_opt {A} (P : A -> Prop) (enc : A -> tree) (o : option A) : (forall x, P x -> Q (enc x)) -> opt P o -> opt Q (enc <$> o).
Proof. intros H. destruct o; [apply H|done]. Qed.
Lemma q_list {A} (P : A -> Prop) (enc : A -> tree) (l : list A) : (forall x, P x -> Q (enc x)) -> Forall P l -> opt Q (omitList enc l).
Proof. intros H Hl. unfold omitList. destruct l; [done|]. apply (q_arr _ HQ), Forall_map. by eapply Forall_impl. Qed.
Lemma q_encStr s : S s -> opt Q (encStr s).
Proof. apply (q_str _ HQ). Qed.
Lemma q_omitStr s : S s -> opt Q (omitStr s).
Proof. intros H. unfold omitStr. case_decide; [done|by apply (q_str _ HQ)]. Qed.
Lemma q_encInt n : N n -> opt Q (encInt n).
Proof. apply (q_int _ HQ). Qed.
Lemma q_omitInt n : N n -> opt Q (omitInt n).
Proof. intros H. unfold omitInt. case_decide; [done|by apply (q_int _ HQ)]. Qed.
Lemma q_omitIntPtr p : opt N p -> opt Q (omitIntPtr p).
Proof. apply q_opt, (q_int _ HQ). Qed.
Lemma q_omitStrs l : Forall S l -> opt Q (omitStrs l).
Proof. apply q_list, (q_str _ HQ). Qed.
Lemma q_flag b : opt Q (Some (TBool b)).
Proof. apply (q_bool _ HQ). Qed.
Create HintDb values.
#[local] Hint Resolve q_encStr q_omitStr q_encInt q_omitInt q_omitIntPtr q_omitStrs q_flag : values.
Ltac fields := apply q_fields; [vm_compute; reflexivity|]; repeat (apply Forall_cons; split; [cbn [snd]; eauto with values|]); [..|apply Forall_nil; exact I].
Ltac split_all := repeat match goal with
  | H : _ /\ _ |- _ => destruct H
  | H : Forall _ (_ :: _) |- _ => apply Forall_cons in H
  end.

Lemma q_tls c : tls_vals c -> Q (TObj (encodeTls c)).
Proof. intros H. unfold tls_vals in H. split_all. fields. Qed.
Lemma q_omitTls p : opt tls_vals p -> opt Q (omitTls p).
Proof. apply q_opt, q_tls. Qed.
#[local] Hint Resolve q_omitTls : values.
Lemma q_record c : record_vals c -> Q (TObj (encodeRecord c)).
Proof. intros H. unfold record_vals in H. split_all. fields. Qed.
Lemma q_headers (h : gmap gostring gostring) : map_Forall (fun k v => S k /\ S v) h -> opt Q (omitHeaders h).
Proof. intros H. unfold omitHeaders. case_decide; [done|]. apply q_entries. intros k v Hk. destruct (H k v Hk). split; [done|by apply (q_str _ HQ)]. Qed.
#[local] Hint Resolve q_headers : values.
Lemma q_httpProxy c : httpProxy_vals c -> Q (TObj (encodeHttpProxy c)).
Proof. intros H. unfold httpProxy_vals in H. split_all. fields. Qed.
Lemma q_tlsProxy c : tlsProxy_vals c -> Q (TObj (encodeTlsProxy c)).
Proof. intros H. unfold tlsProxy_vals in H. split_all. fields. Qed.
Lemma q_redirect c : redirect_vals c -> Q (TObj (encodeRedirect c)).
Proof. intros H. unfold redirect_vals in H. split_all. fields. Qed.
Lemma q_host c : host_vals c -> Q (TObj (encodeHost c)).
Proof. intros (H1 & H2 & H3 & H4). fields; [by eapply q_list, H1; apply q_record|by eapply q_opt, H2; apply q_httpProxy|by eapply q_opt, H3; apply q_tlsProxy|by eapply q_opt, H4; apply q_redirect]. Qed.
Lemma q_firewall c : firewall_vals c -> Q (TObj (encodeFirewall c)).
Proof. intros H. unfold firewall_vals in H. split_all. fields. Qed.
Lemma q_controlPlane c : controlPlane_vals c -> Q (TObj (encodeControlPlane c)).
Proof. intros H. unfold controlPlane_vals in H. split_all. fields. destruct (cp_Enabled c); [apply (q_bool _ HQ)|done]. Qed.
Lemma encoded_vals c : config_vals c -> Q (TObj (encodeServerConfig c)).
Proof.
  intros (H1 & H2 & H3 & H4 & H5 & H6 & H7). split_all. fields; [by eapply q_opt, H5; apply q_firewall|by eapply q_opt, H6; apply q_controlPlane|].
  apply (q_entries (fun h => TObj (encodeHost h))). intros k h Hk. destruct (H7 k h Hk). split; [done|by apply q_host].
Qed.
End Values.

(** ** Decoding *)

(** What a decoder returns on a tree of a text, over a good value, is good. *)
Definition sound {A} (d : decoder A) (P : A -> Prop) : Prop := forall cur t x, P cur -> tree_ok t -> d cur t = Some x -> P x.
Abbreviation members_ok := (Forall (fun kv : gostring * tree => string_ok kv.1 /\ tree_ok kv.2)).

Lemma foldM_sound {A B} (f : A -> B -> option A) (P : A -> Prop) (R : B -> Prop) l : (forall a b x, P a -> R b -> f a b = Some x -> P x) ->
  forall a x, P a -> Forall R l -> foldM f a l = Some x -> P x.
Proof.
  intros Hf. induction l as [|b l IH]; intros a x Ha Hl H; cbn [foldM] in H; [by simplify_eq|]. apply Forall_cons in Hl as [Hb Hl].
  apply bind_Some in H as (a' & Ha' & H). by eapply IH; [eapply Hf|..].
Qed.
Lemma field_sound {A} (d : decoder A) (P : A -> Prop) m name cur x : sound d P -> members_ok m -> P cur -> field d m name cur = Some x -> P x.
Proof.
  intros Hd Hm Hc H. eapply (foldM_sound d P (fun t => tree_ok t)); [intros; by eapply Hd|exact Hc| |exact H].
  unfold fieldValues. apply Forall_forall. intros t Ht. apply list_elem_of_fmap in Ht as (kv & -> & Hin). apply list_elem_of_filter in Hin as [_ Hin].
  rewrite Forall_forall in Hm. by apply Hm.
Qed.

Lemma Atoi_range x n : Atoi x = Some n -> int_ok n.
Proof. unfold Atoi. repeat case_match; intros [= <-]; done. Qed.
Lemma sound_int : sound decInt int_ok.
Proof. intros cur t x Hc _ H. destruct t; simpl in H; simplify_eq; [done|by eapply Atoi_range]. Qed.
Lemma sound_str : sound decStr string_ok.
Proof. intros cur t x Hc Ht H. destruct t; simpl in H; simplify_eq; [done|]. by apply bool_decide_eq_true in Ht. Qed.
Lemma sound_bool : sound decBool (fun _ => True).
Proof. done. Qed.
Lemma sound_ptr {A} (zero : A) d P : P zero -> sound d P -> sound (decPtr zero d) (opt P).
Proof.
  intros Hz Hd cur t x Hc Ht H. assert (P (default zero cur)) as Hc' by (destruct cur; [exact Hc|exact Hz]).
  destruct t; simpl in H; [by simplify_eq|..]; apply fmap_Some in H as (y & Hy & ->); by eapply Hd.
Qed.
Lemma sound_elements {A} (zero : A) d P l : P zero -> sound d P -> forall cur x, Forall P cur -> Forall (fun t => tree_ok t) l -> decElements zero d cur l = Some x -> Forall P x.
Proof.
  intros Hz Hd. induction l as [|t l IH]; intros cur x Hc Hl H; cbn [decElements] in H; [simplify_eq; constructor|]. apply Forall_cons in Hl as [Ht Hl].
  apply bind_Some in H as (y & Hy & H). apply bind_Some in H as (ys & Hys & [= <-]). apply Forall_cons. split.
  - eapply Hd; [|exact Ht|exact Hy]. destruct Hc; done.
  - eapply IH; [|exact Hl|exact Hys]. destruct Hc; [constructor|done].
Qed.
Lemma sound_list {A} (zero : A) d P : P zero -> sound d P -> sound (decList zero d) (Forall P).
Proof.
  intros Hz Hd cur t x Hc Ht H. destruct t; simpl in H; try done; [simplify_eq; constructor|]. apply arr_ok in Ht. by eapply sound_elements.
Qed.
Lemma sound_map {A} (zero : A) d P : P zero -> sound d P -> sound (decMap zero d) (map_Forall (fun k x => string_ok k /\ P x)).
Proof.
  intros Hz Hd cur t x Hc Ht H. destruct t; simpl in H; try done; [simplify_eq; apply map_Forall_empty|]. apply obj_ok in Ht.
  eapply (foldM_sound _ _ (fun kv => string_ok kv.1 /\ tree_ok kv.2)); [|exact Hc|exact Ht|exact H]. intros acc [k v] acc' Ha [Hk Hv] E.
  apply bind_Some in E as (y & Hy & [= <-]). apply map_Forall_insert_2; [|done]. split; [done|by eapply Hd].
Qed.
Lemma sound_struct {A} (f : A -> members -> option A) P : (forall c m x, P c -> members_ok m -> f c m = Some x -> P x) -> sound (decStruct f) P.
Proof. intros Hf cur t x Hc Ht H. destruct t; simpl in H; try done; [by simplify_eq|]. apply obj_ok in Ht. by eapply Hf. Qed.

Lemma nil_ok : string_ok [].
Proof. by apply (bool_decide_eq_true_1 _). Qed.
Lemma sound_strs : sound decStrs (Forall string_ok).
Proof. apply sound_list; [apply nil_ok|apply sound_str]. Qed.
Lemma zero_ok : int_ok 0.
Proof. unfold int_ok. lia. Qed.
Lemma sound_intPtr : sound decIntPtr (opt int_ok).
Proof. apply sound_ptr; [apply zero_ok|apply sound_int]. Qed.
Create HintDb sound.
#[local] Hint Resolve sound_int sound_str sound_strs sound_intPtr sound_bool : sound.

(** One field after the other. *)
Ltac next_field H := let x := fresh "x" in let E := fresh "E" in apply bind_Some in H as (x & E & H); cbn beta in E;
  first [eapply field_sound in E; [|solve [eauto with sound]|eassumption|first [eassumption|exact I]] | clear E].
Ltac split_vals := repeat match goal with
  | H : _ /\ _ |- _ => destruct H
  | H : Forall _ (_ :: _) |- _ => apply Forall_cons in H
  end.
Ltac join_vals := lazymatch goal with
  | |- _ /\ _ => split; join_vals
  | |- Forall _ (_ :: _) => apply Forall_cons; split; [done|join_vals]
  | |- _ => done
  end.
Tactic Notation "decoded" ident(H) reference(P) := unfold P in *; split_vals; repeat next_field H; injection H as <-; join_vals.

Abbreviation wf P := (P string_ok int_ok).
Lemma sound_tls : sound decTls (opt (tls_vals string_ok)).
Proof.
  apply sound_ptr; [repeat constructor; apply nil_ok|]. apply sound_struct. intros c m x Hc Hm H. unfold decodeTls in H. decoded H tls_vals.
Qed.
#[local] Hint Resolve sound_tls : sound.
Lemma sound_record : sound (decStruct decodeRecord) (wf record_vals).
Proof. apply sound_struct. intros c m x Hc Hm H. unfold decodeRecord in H. decoded H record_vals. Qed.
Lemma sound_records : sound (decList zeroRecord (decStruct decodeRecord)) (Forall (wf record_vals)).
Proof. apply sound_list; [|apply sound_record]. split; [repeat constructor; apply nil_ok|]. split; repeat constructor. Qed.
Lemma sound_headers : sound (decMap [] decStr) (map_Forall (fun k v => string_ok k /\ string_ok v)).
Proof. apply sound_map; [apply nil_ok|apply sound_str]. Qed.
#[local] Hint Resolve sound_records sound_headers : sound.
Lemma sound_httpProxy : sound (decPtr zeroHttpProxy (decStruct decodeHttpProxy)) (opt (wf httpProxy_vals)).
Proof.
  apply sound_ptr; [split; [apply nil_ok|]; split; [apply map_Forall_empty|]; split; [apply zero_ok|done]|].
  apply sound_struct. intros c m x Hc Hm H. unfold decodeHttpProxy in H. decoded H httpProxy_vals.
Qed.
Lemma sound_tlsProxy : sound (decPtr zeroTlsProxy (decStruct decodeTlsProxy)) (opt (wf tlsProxy_vals)).
Proof. apply sound_ptr; [split; [apply zero_ok|apply nil_ok]|]. apply sound_struct. intros c m x Hc Hm H. unfold decodeTlsProxy in H. decoded H tlsProxy_vals. Qed.
Lemma sound_redirect : sound (decPtr zeroRedirect (decStruct decodeRedirect)) (opt (wf redirect_vals)).
Proof. apply sound_ptr; [split; [apply zero_ok|apply nil_ok]|]. apply sound_struct. intros c m x Hc Hm H. unfold decodeRedirect in H. decoded H redirect_vals. Qed.
#[local] Hint Resolve sound_httpProxy sound_tlsProxy sound_redirect : sound.
Lemma sound_hosts : sound (decMap zeroHost (decStruct decodeHost)) (map_Forall (fun k h => string_ok k /\ wf host_vals h)).
Proof.
  apply sound_map; [repeat split; constructor|]. apply sound_struct. intros c m x Hc Hm H. unfold decodeHost in H. decoded H host_vals.
Qed.
Lemma sound_firewall : sound (decPtr zeroFirewall (decStruct decodeFirewall)) (opt (firewall_vals string_ok)).
Proof.
  apply sound_ptr; [split; [apply nil_ok|repeat constructor]|]. apply sound_struct. intros c m x Hc Hm H. unfold decodeFirewall in H. decoded H firewall_vals.
Qed.
Lemma sound_controlPlane : sound (decPtr zeroControlPlane (decStruct decodeControlPlane)) (opt (wf controlPlane_vals)).
Proof.
  apply sound_ptr; [split; [apply zero_ok|]; split; [repeat constructor; apply nil_ok|done]|]. apply sound_struct. intros c m x Hc Hm H.
  unfold decodeControlPlane in H. decoded H controlPlane_vals.
Qed.
#[local] Hint Resolve sound_hosts sound_firewall sound_controlPlane : sound.

(** A configuration whose strings are UTF-8 and whose integers have 64 bits. *)
Definition wf_config (c : ServerConfig) : Prop := wf config_vals c.

Lemma zero_wf : wf_config zeroServerConfig.
Proof.
  split; [repeat (apply Forall_cons; split; [apply zero_ok|]); constructor|]. split; [repeat constructor|].
  split; [repeat (apply Forall_cons; split; [apply nil_ok|]); constructor|]. do 3 (split; [done|]). apply map_Forall_empty.
Qed.
Lemma decode_wf t c : tree_ok t -> unmarshalTree t = Some c -> wf_config c.
Proof.
  intros Ht H. eapply (sound_struct decodeServerConfig wf_config); [|apply zero_wf|exact Ht|exact H].
  clear. intros c m x Hc Hm H. unfold wf_config in *. unfold decodeServerConfig in H. decoded H config_vals.
Qed.

(** ** Both directions *)

Lemma pred_tree_ok N : TreePred string_ok N (fun t => tree_ok t).
Proof.
  split; [apply printable_valid|intros s H; by apply bool_decide_eq_true|done|intros n _; apply bool_decide_eq_true, number_fmt_d|intros l; apply arr_ok|intros l; apply obj_ok].
Qed.
Lemma pred_numbersOk {JL : JsonLib} : TreePred (fun _ => True) exact (fun t => numbersOk t = true).
Proof.
  split; [done|done|done| |..].
  - intros n H. exact (st_numbers _ _ (storable_num 0 n H)).
  - intros l H. by apply forallb_Forall_eq.
  - intros l H. apply forallb_Forall_eq. eapply Forall_impl; [exact H|]. by intros kv [_ ?].
Qed.
(** Integers that a [float64] holds are read without an error. *)
Lemma exact_numbersOk {JL : JsonLib} c : @ints_fit exact c -> numbersOk (TObj (encodeServerConfig c)) = true.
Proof. intros H. exact (encoded_vals _ _ pred_numbersOk c (fit_vals _ _ c (fun _ => I) H)). Qed.
Lemma wf_utf8 c : wf_config c -> utf8_config c.
Proof. intros H. exact (encoded_vals string_ok int_ok (pred_tree_ok int_ok) c H). Qed.
Lemma wf_fits c : wf_config c -> @ints_fit int_ok c.
Proof. apply vals_fit. Qed.

Section Texts.
Context {JL : JsonLib}.

Lemma unmarshal_wf data c : bytes_ok data -> unmarshalServerConfig data = inr c -> wf_config c.
Proof.
  unfold unmarshalServerConfig. intros Hb H. destruct (parseJson data) as [t|] eqn:Ep; [|done]. destruct (unmarshalTree t) as [c'|] eqn:Ec; [|done]. injection H as <-.
  eapply decode_wf; [|exact Ec]. by apply (parseJson_ok _ _ Ep Hb).
Qed.

(** C36: Whatever text was accepted, the configuration read from it can be stored and sent:
    its strings are UTF-8 and its integers have 64 bits, and its own text is accepted and
    means the same configuration.  No text makes the decoder return a configuration that
    its encoder cannot write. *)
Theorem decoded_config_roundtrip data c :
  bytes_ok data -> unmarshalServerConfig data = inr c ->
  wf_config c /\ unmarshalServerConfig (marshalConfig c) = inr c /\ unmarshalServerConfig (encodeConfig c) = inr c.
Proof.
  intros Hb Hc. apply unmarshal_wf in Hc as Hw; [|done]. pose proof (wf_fits c Hw). pose proof (wf_utf8 c Hw).
  split; [done|]. split; [by apply unmarshal_marshal|by apply unmarshal_file].
Qed.
End Texts.

Lemma decoded_config_roundtrip_witness :
  exists c, unmarshalServerConfig (JL := no_floats) (marshalConfig demo_json_config ++ [10; 32]) = inr c /\ unmarshalServerConfig (JL := no_floats) (encodeConfig c) = inr c.
Proof.
  exists demo_json_config. split; [vm_compute; reflexivity|].
  apply (decoded_config_roundtrip (JL := no_floats) (marshalConfig demo_json_config ++ [10; 32]) demo_json_config); [by apply (bool_decide_eq_true_1 _)|vm_compute; reflexivity].
Defined.
