(* ===== verification/Wire.v ===== *)
(** * The DNS wire format ([pkg/dns/wire.go]): the growing write buffer, the
    bounds-checked readers, name compression, record encoders and the question
    parser.

    The state of the Go object is the record [DnsWireFormat]; every method maps
    a state to an outcome, so that an index out of range would show as [Panic].
    [WireSpec] is the promise of the writer to its clients: a written prefix. *)
From S2P Require Import Prelude GoStrings NetIP Config.

Record DnsWireFormat := { Buf : bytes; Offset : Z }.

(** [NewDnsWireFormat(nil)] allocates 4096 zero bytes. *)
Definition NewDnsWireFormat (buffer : option bytes) : DnsWireFormat :=
  {| Buf := default (replicate 4096 0) buffer; Offset := 0 |}.

(** ** Writing *)

Definition grow (dw : DnsWireFormat) (n : Z) : DnsWireFormat :=
  let newLen := len (Buf dw) * 2 in
  let newLen := if decide (newLen < Offset dw + n) then Offset dw + n + 1024 else newLen in
  {| Buf := take (Z.to_nat newLen) (Buf dw)
            ++ replicate (Z.to_nat newLen - length (Buf dw)) 0;
     Offset := Offset dw |}.

Definition ensure (dw : DnsWireFormat) (n : Z) : DnsWireFormat :=
  if decide (len (Buf dw) < Offset dw + n) then grow dw n else dw.

Definition WriteUint16 (dw : DnsWireFormat) (val : Z) : go DnsWireFormat :=
  let dw := ensure dw 2 in
  b ← put_uint16 (Buf dw) (Offset dw) val;
  Ret {| Buf := b; Offset := Offset dw + 2 |}.

Definition WriteUint8 (dw : DnsWireFormat) (val : Z) : go DnsWireFormat :=
  let dw := ensure dw 1 in
  if decide (0 <= Offset dw < len (Buf dw))
  then Ret {| Buf := <[Z.to_nat (Offset dw) := uint8 val]> (Buf dw); Offset := Offset dw + 1 |}
  else Panic.

Definition WriteBytes (dw : DnsWireFormat) (data : bytes) : go DnsWireFormat :=
  let dw := ensure dw (len data) in
  b ← copy_at (Buf dw) (Offset dw) data;
  Ret {| Buf := b; Offset := Offset dw + len data |}.

Definition WriteUint32 (dw : DnsWireFormat) (val : Z) : go DnsWireFormat :=
  let dw := ensure dw 4 in
  b ← put_uint32 (Buf dw) (Offset dw) val;
  Ret {| Buf := b; Offset := Offset dw + 4 |}.

Fixpoint WriteLabels (dw : DnsWireFormat) (labels : list gostring) : go DnsWireFormat :=
  match labels with
  | [] => Ret dw
  | label :: labels =>
      if decide (len label = 0) then WriteLabels dw labels
      else dw ← WriteUint8 dw (len label);
           dw ← WriteBytes dw label;
           WriteLabels dw labels
  end.

Definition WriteDomainName (dw : DnsWireFormat) (name : gostring) : go DnsWireFormat :=
  dw ← WriteLabels dw (Split name dot);
  WriteUint8 dw 0.

Definition Finish (dw : DnsWireFormat) : go bytes := slice (Buf dw) 0 (Offset dw).

(** ** Reading: a read past the end yields 0 and moves to the end *)

Definition ReadUint16 (dw : DnsWireFormat) : go (Z * DnsWireFormat) :=
  if decide (len (Buf dw) < Offset dw + 2)
  then Ret (0, {| Buf := Buf dw; Offset := len (Buf dw) |})
  else val ← get_uint16 (Buf dw) (Offset dw);
       Ret (val, {| Buf := Buf dw; Offset := Offset dw + 2 |}).

Definition ReadUint8 (dw : DnsWireFormat) : go (Z * DnsWireFormat) :=
  if decide (len (Buf dw) < Offset dw + 1)
  then Ret (0, {| Buf := Buf dw; Offset := len (Buf dw) |})
  else val ← index (Buf dw) (Offset dw);
       Ret (val, {| Buf := Buf dw; Offset := Offset dw + 1 |}).

Definition ReadUint32 (dw : DnsWireFormat) : go (Z * DnsWireFormat) :=
  if decide (len (Buf dw) < Offset dw + 4)
  then Ret (0, {| Buf := Buf dw; Offset := len (Buf dw) |})
  else val ← get_uint32 (Buf dw) (Offset dw);
       Ret (val, {| Buf := Buf dw; Offset := Offset dw + 4 |}).

Definition maxJumps : Z := 5.

(** The loop of [ReadDomainName]: labels, jumps, [currentOffset], [savedOffset]. *)
Fixpoint ReadDomainNameLoop (fuel : nat) (buf : bytes) (labels : list gostring)
    (jumps currentOffset savedOffset : Z) : go (list gostring * Z * Z) :=
  match fuel with
  | O => Hang
  | S fuel =>
      if decide (len buf <= currentOffset) then Ret (labels, currentOffset, savedOffset)
      else
        length ← index buf currentOffset;
        let currentOffset := currentOffset + 1 in
        if decide (length = 0) then Ret (labels, currentOffset, savedOffset)
        else if decide (Z.land length 192 = 192) then
          let jumps := jumps + 1 in
          if decide (maxJumps < jumps) then Ret (labels, currentOffset, savedOffset)
          else if decide (len buf <= currentOffset) then Ret (labels, currentOffset, savedOffset)
          else
            low ← index buf currentOffset;
            let ptr := Z.lor (Z.shiftl (Z.land length 63) 8) low in
            let currentOffset := currentOffset + 1 in
            let savedOffset := if decide (savedOffset = -1) then currentOffset else savedOffset in
            ReadDomainNameLoop fuel buf labels jumps ptr savedOffset
        else if decide (63 < length \/ len buf < currentOffset + length)
        then Ret (labels, currentOffset, savedOffset)
        else
          labelBytes ← slice buf currentOffset (currentOffset + length);
          ReadDomainNameLoop fuel buf (labels ++ [labelBytes]) jumps
            (currentOffset + length) savedOffset
  end.

(** At most [maxJumps + 1] sweeps over the buffer: enough fuel. *)
Definition name_fuel (buf : bytes) : nat := 7 * S (length buf).

Definition ReadDomainName (dw : DnsWireFormat) : go (gostring * DnsWireFormat) :=
  '(labels, currentOffset, savedOffset) ←
     ReadDomainNameLoop (name_fuel (Buf dw)) (Buf dw) [] 0 (Offset dw) (-1);
  Ret (Join labels [dot],
       {| Buf := Buf dw;
          Offset := if decide (savedOffset <> -1) then savedOffset else currentOffset |}).

(** ** Record data encoders *)

Definition EncodeARecord (address : gostring) : option bytes :=
  ip ← ParseIP address; To4 ip.

(** [ip.To16()] of a parsed address is the address. *)
Definition EncodeAAAARecord (address : gostring) : option bytes := ParseIP address.

Definition EncodeCNAME (target : gostring) : go bytes :=
  encoder ← WriteDomainName (NewDnsWireFormat None) target; Finish encoder.

Fixpoint WriteTxtChunks (encoder : DnsWireFormat) (data : list gostring) : go DnsWireFormat :=
  match data with
  | [] => Ret encoder
  | txt :: data =>
      let chunkLen := if decide (255 < len txt) then 255 else len txt in
      let bytes := if decide (255 < len txt) then take 255 txt else txt in
      encoder ← WriteUint8 encoder chunkLen;
      encoder ← WriteBytes encoder bytes;
      WriteTxtChunks encoder data
  end.

Definition EncodeTXT (data : list gostring) : go bytes :=
  encoder ← WriteTxtChunks (NewDnsWireFormat None) data; Finish encoder.

Definition EncodeMX (priority : Z) (exchange : gostring) : go bytes :=
  encoder ← WriteUint16 (NewDnsWireFormat None) priority;
  encoder ← WriteDomainName encoder exchange;
  Finish encoder.

Definition EncodeNS (target : gostring) : go bytes :=
  encoder ← WriteDomainName (NewDnsWireFormat None) target; Finish encoder.

Definition EncodeSRV (priority weight port : Z) (target : gostring) : go bytes :=
  encoder ← WriteUint16 (NewDnsWireFormat None) priority;
  encoder ← WriteUint16 encoder weight;
  encoder ← WriteUint16 encoder port;
  encoder ← WriteDomainName encoder target;
  Finish encoder.

Definition EncodePTR (target : gostring) : go bytes :=
  encoder ← WriteDomainName (NewDnsWireFormat None) target; Finish encoder.

(** ** Questions *)

Record ParsedQuestion := { q_Name : gostring; q_Type : Z; q_NextOffset : Z }.

(** [None] is the error result. *)
Definition parseQuestion (query : bytes) (baseOffset : Z) : go (option ParsedQuestion) :=
  let decoder := {| Buf := query; Offset := baseOffset |} in
  '(name, decoder) ← ReadDomainName decoder;
  if decide (len query - 4 < Offset decoder) then Ret None
  else
    '(qtype, decoder) ← ReadUint16 decoder;
    '(qclass, decoder) ← ReadUint16 decoder;
    if decide (qclass <> 1 /\ qclass <> 255) then Ret None
    else Ret (Some {| q_Name := name; q_Type := qtype; q_NextOffset := Offset decoder |}).

Fixpoint ExtractQuestionsLoop (n : nat) (query : bytes) (offset : Z) : go (list ParsedQuestion) :=
  match n with
  | O => Ret []
  | S n =>
      q ← parseQuestion query offset;
      match q with
      | None => Ret []
      | Some q => qs ← ExtractQuestionsLoop n query (q_NextOffset q); Ret (q :: qs)
      end
  end.

Definition ExtractQuestions (query : bytes) : go (list ParsedQuestion) :=
  if decide (len query < 12) then Ret []
  else qdcount ← get_uint16 query 4;
       ExtractQuestionsLoop (Z.to_nat qdcount) query 12.

(** ** The writer's contract

    A writer state stands for the bytes written so far.  [Appends f d] says that
    the write [f] succeeds on every well-formed state and appends exactly [d]:
    this is all that the clients of the encoder use. *)
Definition wf_writer (dw : DnsWireFormat) : Prop := 0 <= Offset dw <= len (Buf dw).
Definition written (dw : DnsWireFormat) : bytes := take (Z.to_nat (Offset dw)) (Buf dw).

Class Appends (f : DnsWireFormat -> go DnsWireFormat) (d : bytes) : Prop :=
  appends : forall dw, wf_writer dw ->
    exists dw', f dw = Ret dw' /\ wf_writer dw' /\ written dw' = written dw ++ d.

(** The encoding of a list of labels, of a name and of a question. *)
Definition enc_label (l : gostring) : bytes :=
  if decide (len l = 0) then [] else uint8 (len l) :: l.
Definition enc_labels (ls : list gostring) : bytes := flat_map enc_label ls.
Definition enc_name (name : gostring) : bytes := enc_labels (Split name dot) ++ [0].
Definition enc_txt (txt : gostring) : bytes := len (take 255 txt) :: take 255 txt.

(** Names whose labels have at most 63 bytes, as the protocol demands. *)
Definition short_labels (name : gostring) : Prop := Forall (fun l => len l <= 63) (Split name dot).

(** The name without its empty labels: a trailing dot disappears. *)
Definition canon_name (name : gostring) : gostring :=
  Join (filter (fun l => l <> []) (Split name dot)) [dot].

Lemma ensure_spec dw n :
  wf_writer dw -> 0 <= n ->
  Offset (ensure dw n) = Offset dw /\ wf_writer (ensure dw n) /\
  written (ensure dw n) = written dw /\ Offset dw + n <= len (Buf (ensure dw n)).
Proof.
  unfold wf_writer, written, ensure. intros Hwf Hn. case_decide; [|repeat split; lia].
  unfold grow. simpl. set (N := if decide _ then _ else _).
  assert (HN : Offset dw + n <= N /\ len (Buf dw) <= N) by (unfold N; case_decide; lia).
  assert (HL : len (take (Z.to_nat N) (Buf dw) ++ replicate (Z.to_nat N - length (Buf dw)) 0) = N)
    by len_solve.
  rewrite HL. split; [done|]. split; [lia|]. split; [|lia].
  rewrite (take_ge (Buf dw)) by len_solve. rewrite take_app_le by len_solve. done.
Qed.

Lemma overwrite_take o d b :
  (o + length d <= length b)%nat -> take (o + length d) (overwrite o d b) = take o b ++ d.
Proof.
  intros. unfold overwrite. rewrite (take_ge d) by lia. rewrite app_assoc.
  apply take_app_length'. autorewrite with lens. lia.
Qed.

Lemma insert_overwrite (o : nat) (v : Z) (b : bytes) :
  (o < length b)%nat -> <[o := v]> b = overwrite o [v] b.
Proof.
  intros. unfold overwrite. rewrite (insert_take_drop b o v) by done. rewrite (take_ge [v]) by (simpl; lia).
  simpl length. by rewrite Nat.add_1_r.
Qed.

Lemma written_overwrite b o d :
  0 <= o -> o + len d <= len b ->
  wf_writer {| Buf := overwrite (Z.to_nat o) d b; Offset := o + len d |} /\
  written {| Buf := overwrite (Z.to_nat o) d b; Offset := o + len d |} = take (Z.to_nat o) b ++ d.
Proof.
  intros Ho Hb. unfold wf_writer, written. simpl.
  destruct (overwrite_length (Z.to_nat o) d b) as [E|E]; [|len_solve]. split.
  - unfold len in *. rewrite E. lia.
  - replace (Z.to_nat (o + len d)) with (Z.to_nat o + length d)%nat by len_solve.
    apply overwrite_take. len_solve.
Qed.

#[export] Instance WriteUint8_appends v : Appends (fun dw => WriteUint8 dw v) [uint8 v].
Proof.
  intros dw Hwf. destruct (ensure_spec dw 1 Hwf ltac:(lia)) as (Ho & Hwf' & Hw & Hl).
  unfold WriteUint8. unfold wf_writer in Hwf, Hwf'. rewrite decide_True by lia.
  rewrite insert_overwrite by len_solve.
  destruct (written_overwrite (Buf (ensure dw 1)) (Offset (ensure dw 1)) [uint8 v]) as [H1 H2];
    [lia|rewrite Ho; done|].
  eexists. split; [done|]. split; [done|]. unfold written in H2 at 1. rewrite <- Hw. done.
Qed.

#[export] Instance WriteUint16_appends v : Appends (fun dw => WriteUint16 dw v) (be16 v).
Proof.
  intros dw Hwf. destruct (ensure_spec dw 2 Hwf ltac:(lia)) as (Ho & Hwf' & Hw & Hl).
  unfold WriteUint16, put_uint16. unfold wf_writer in Hwf, Hwf'. rewrite decide_True by lia. simpl.
  destruct (written_overwrite (Buf (ensure dw 2)) (Offset (ensure dw 2)) (be16 v)) as [H1 H2];
    [lia|rewrite Ho; done|].
  eexists. split; [done|]. split; [done|]. rewrite <- Hw. exact H2.
Qed.

#[export] Instance WriteUint32_appends v : Appends (fun dw => WriteUint32 dw v) (be32 v).
Proof.
  intros dw Hwf. destruct (ensure_spec dw 4 Hwf ltac:(lia)) as (Ho & Hwf' & Hw & Hl).
  unfold WriteUint32, put_uint32. unfold wf_writer in Hwf, Hwf'. rewrite decide_True by lia. simpl.
  destruct (written_overwrite (Buf (ensure dw 4)) (Offset (ensure dw 4)) (be32 v)) as [H1 H2];
    [lia|rewrite Ho; done|].
  eexists. split; [done|]. split; [done|]. rewrite <- Hw. exact H2.
Qed.

#[export] Instance WriteBytes_appends d : Appends (fun dw => WriteBytes dw d) d.
Proof.
  intros dw Hwf. destruct (ensure_spec dw (len d) Hwf (len_nonneg d)) as (Ho & Hwf' & Hw & Hl).
  unfold WriteBytes, copy_at. unfold wf_writer in Hwf, Hwf'. rewrite decide_True by lia. simpl.
  destruct (written_overwrite (Buf (ensure dw (len d))) (Offset (ensure dw (len d))) d) as [H1 H2];
    [lia|rewrite Ho; done|].
  eexists. split; [done|]. split; [done|]. rewrite <- Hw. exact H2.
Qed.

Lemma Ret_appends : Appends Ret [].
Proof. intros dw Hwf. exists dw. by rewrite app_nil_r. Qed.

Lemma bind_appends f g d e :
  Appends f d -> Appends g e -> Appends (fun dw => dw' ← f dw; g dw') (d ++ e).
Proof.
  intros Hf Hg dw Hwf. destruct (Hf dw Hwf) as (dw1 & -> & Hwf1 & Hw1).
  destruct (Hg dw1 Hwf1) as (dw2 & E & Hwf2 & Hw2). exists dw2. simpl. rewrite E. split; [done|].
  split; [done|]. by rewrite Hw2, Hw1, app_assoc.
Qed.

#[export] Instance WriteLabels_appends ls : Appends (fun dw => WriteLabels dw ls) (enc_labels ls).
Proof.
  induction ls as [|l ls IH]; [apply Ret_appends|]. simpl. unfold enc_label. case_decide.
  - exact IH.
  - apply (bind_appends (fun dw => WriteUint8 dw (len l)) _ [uint8 (len l)] (l ++ enc_labels ls)); [apply _|].
    apply (bind_appends (fun dw => WriteBytes dw l)); [apply _|exact IH].
Qed.

#[export] Instance WriteDomainName_appends name : Appends (fun dw => WriteDomainName dw name) (enc_name name).
Proof.
  apply (bind_appends (fun dw => WriteLabels dw (Split name dot)) (fun dw => WriteUint8 dw 0)); apply _.
Qed.

#[export] Instance WriteTxtChunks_appends data :
  Appends (fun dw => WriteTxtChunks dw data) (flat_map enc_txt data).
Proof.
  induction data as [|t data IH]; [apply Ret_appends|]. simpl.
  assert (E : uint8 (if decide (255 < len t) then 255 else len t) = len (take 255 t)).
  { rewrite uint8_id; [case_decide; len_solve|]. unfold is_byte. case_decide; len_solve. }
  unfold enc_txt at 1. rewrite <- E.
  apply (bind_appends (fun dw => WriteUint8 dw _) _ [_] (take 255 t ++ flat_map enc_txt data)); [apply _|].
  assert (E' : (if decide (255 < len t) then take 255 t else t) = take 255 t)
    by (case_decide; [done|rewrite take_ge by len_solve; done]).
  rewrite E'.
  apply (bind_appends (fun dw => WriteBytes dw _)); [apply _|exact IH].
Qed.

Lemma wf_fresh : wf_writer (NewDnsWireFormat None).
Proof. done. Qed.
Lemma written_fresh : written (NewDnsWireFormat None) = [].
Proof. done. Qed.

Lemma Finish_written dw : wf_writer dw -> Finish dw = Ret (written dw).
Proof.
  intros [H1 H2]. unfold Finish. rewrite slice_Ret by lia. unfold written. by rewrite Z.sub_0_r.
Qed.

(** Running a writer on a fresh buffer returns exactly what it appends. *)
Lemma run_appends f d :
  Appends f d -> (encoder ← f (NewDnsWireFormat None); Finish encoder) = Ret d.
Proof.
  intros Hf. destruct (Hf _ wf_fresh) as (dw & -> & Hwf & Hw). simpl.
  rewrite Finish_written by done. by rewrite Hw, written_fresh.
Qed.

Lemma EncodeMX_exact pri name : EncodeMX pri name = Ret (be16 pri ++ enc_name name).
Proof.
  rewrite <- (run_appends (fun dw => dw' ← WriteUint16 dw pri; WriteDomainName dw' name) _
    (bind_appends _ _ _ _ (WriteUint16_appends pri) (WriteDomainName_appends name))).
  unfold EncodeMX. by destruct (WriteUint16 _ _).
Qed.

Lemma EncodeSRV_exact pri weight port name :
  EncodeSRV pri weight port name = Ret (be16 pri ++ be16 weight ++ be16 port ++ enc_name name).
Proof.
  rewrite <- (run_appends (fun dw => dw' ← WriteUint16 dw pri; dw' ← WriteUint16 dw' weight;
      dw' ← WriteUint16 dw' port; WriteDomainName dw' name) _
    (bind_appends _ (fun dw' => dw' ← WriteUint16 dw' weight; dw' ← WriteUint16 dw' port; WriteDomainName dw' name) _ _
      (WriteUint16_appends pri)
      (bind_appends _ (fun dw' => dw' ← WriteUint16 dw' port; WriteDomainName dw' name) _ _ (WriteUint16_appends weight)
        (bind_appends _ _ _ _ (WriteUint16_appends port) (WriteDomainName_appends name))))).
  unfold EncodeSRV. destruct (WriteUint16 (NewDnsWireFormat None) pri) as [d| |]; try done. simpl.
  destruct (WriteUint16 d weight) as [d2| |]; try done. simpl. by destruct (WriteUint16 d2 port).
Qed.

(** ** The name reader: termination, bounds and safety *)

Lemma land_192 b : is_byte b -> (Z.land b 192 = 192 <-> 192 <= b).
Proof.
  intros Hb. enough (H : bool_decide (Z.land b 192 = 192) = bool_decide (192 <= b)).
  { split; intros Hp; [apply (bool_decide_eq_true_1 (192 <= b))|apply (bool_decide_eq_true_1 (Z.land b 192 = 192))];
      [rewrite <- H|rewrite H]; by apply bool_decide_eq_true_2. }
  apply (bool_decide_eq_true_1 (_ = _)).
  refine (byte_cases (fun b => bool_decide (bool_decide (Z.land b 192 = 192) = bool_decide (192 <= b))) _ b Hb).
  vm_compute. reflexivity.
Qed.

Lemma ptr_nonneg a b : is_byte a -> is_byte b -> 0 <= Z.lor (Z.shiftl (Z.land a 63) 8) b.
Proof.
  unfold is_byte. intros. apply Z.lor_nonneg. split; [|lia].
  apply Z.shiftl_nonneg, Z.land_nonneg. lia.
Qed.

(** Where a name that starts at [cur] is followed by the next field. *)
Definition next_ok (L cur next : Z) : Prop :=
  (cur < L -> cur < next <= L) /\ (L <= cur -> next = cur).

Definition label_ok (l : gostring) : Prop := 1 <= len l <= 63 /\ bytes_ok l.

(** From any position the loop ends within its fuel, reads only labels of 1 to 63
    bytes, and leaves the saved or current offset inside the buffer. *)
Lemma ReadDomainNameLoop_total fuel buf labels jumps cur saved :
  bytes_ok buf -> 0 <= cur -> 0 <= jumps <= maxJumps -> -1 <= saved ->
  (6 - jumps) * (len buf + 1) + Z.max 0 (len buf - cur) < Z.of_nat fuel ->
  exists ls c s, ReadDomainNameLoop fuel buf labels jumps cur saved = Ret (labels ++ ls, c, s) /\
    Forall label_ok ls /\ -1 <= s /\
    (saved <> -1 -> s = saved) /\
    (saved = -1 -> next_ok (len buf) cur (if decide (s <> -1) then s else c)) /\
    (len buf <= cur -> ls = []).
Proof.
  unfold maxJumps. intros Hb. pose proof (len_nonneg buf) as HL. revert labels jumps cur saved.
  induction fuel as [|fuel IH]; intros labels jumps cur saved Hc Hj Hs Hf; [nia|].
  assert (Hstop : forall c, next_ok (len buf) cur c -> exists ls c' s,
    Ret (labels, c, saved) = Ret (labels ++ ls, c', s) /\ Forall label_ok ls /\ -1 <= s /\
    (saved <> -1 -> s = saved) /\ (saved = -1 -> next_ok (len buf) cur (if decide (s <> -1) then s else c'))
    /\ (len buf <= cur -> ls = [])).
  { intros c Hn. exists [], c, saved. rewrite app_nil_r. split_and!; try done. intros ->.
    by rewrite decide_False by (intros Hx; by apply Hx). }
  cbn [ReadDomainNameLoop]. case_decide; [apply Hstop; unfold next_ok; lia|].
  rewrite (index_Ret buf cur) by lia. rewrite bind_Ret. unfold maxJumps.
  pose proof (nth_bytes_ok buf (Z.to_nat cur) Hb) as Hx. set (x := nth _ buf 0) in *.
  case_decide; [apply Hstop; unfold next_ok; lia|]. case_decide as H192.
  - (* a compression pointer *)
    case_decide; [apply Hstop; unfold next_ok; lia|].
    case_decide; [apply Hstop; unfold next_ok; lia|].
    rewrite index_Ret by lia. rewrite bind_Ret.
    pose proof (nth_bytes_ok buf (Z.to_nat (cur + 1)) Hb) as Hy. set (y := nth (Z.to_nat (cur + 1)) buf 0) in *.
    pose proof (ptr_nonneg x y Hx Hy) as Hp. set (p := Z.lor _ y) in *.
    edestruct (IH labels (jumps + 1) p (if decide (saved = -1) then cur + 1 + 1 else saved))
      as (ls & c & s & -> & Hls & Hs1 & Hs2 & _ & _); [done|lia|case_decide; lia|nia|].
    exists ls, c, s. split_and!; try done; intros.
    + revert Hs2. case_decide; [lia|]. intros Hs2. apply Hs2. done.
    + unfold next_ok. subst saved. rewrite decide_True in Hs2 by done. rewrite decide_True by lia.
      rewrite Hs2 by lia. lia.
  - (* a label *)
    case_decide; [apply Hstop; unfold next_ok; lia|]. rewrite land_192 in H192 by done.
    unfold is_byte in Hx. rewrite slice_Ret by lia. rewrite bind_Ret.
    set (l := take _ _). assert (Hll : len l = x) by (unfold l; len_solve).
    edestruct (IH (labels ++ [l]) jumps (cur + 1 + x) saved)
      as (ls & c & s & -> & Hls & Hs1 & Hs2 & Hs3 & _); [lia|done|done|nia|].
    exists (l :: ls), c, s. rewrite <- app_assoc. split_and!; try done; try lia.
    + constructor; [|done]. split; [lia|]. unfold l. by apply Forall_take, Forall_drop.
    + intros Hsv. specialize (Hs3 Hsv). unfold next_ok in *. lia.
Qed.

Lemma name_fuel_enough buf cur :
  0 <= cur -> (6 - 0) * (len buf + 1) + Z.max 0 (len buf - cur) < Z.of_nat (name_fuel buf).
Proof. unfold name_fuel. intros. len_solve. Qed.

Lemma Join_bytes_ok ls : Forall bytes_ok ls -> bytes_ok (Join ls [dot]).
Proof.
  induction 1 as [|l ls Hl Hls IH]; [constructor|]. destruct ls; [done|].
  rewrite Join_cons2. apply Forall_app. split; [done|]. constructor; [unfold is_byte; lia|done].
Qed.

(** C31: On every byte string and from every offset [ReadDomainName] terminates
    without a panic, whatever loops its compression pointers form.  It leaves the
    buffer alone, makes progress (the new offset is past the old one and inside
    the buffer), and the name it returns is made of labels of 1 to 63 bytes. *)
Theorem ReadDomainName_total dw :
  bytes_ok (Buf dw) -> 0 <= Offset dw ->
  exists ls next,
    ReadDomainName dw = Ret (Join ls [dot], {| Buf := Buf dw; Offset := next |}) /\
    Forall label_ok ls /\ next_ok (len (Buf dw)) (Offset dw) next.
Proof.
  intros Hb Ho. unfold ReadDomainName.
  edestruct (ReadDomainNameLoop_total (name_fuel (Buf dw)) (Buf dw) [] 0 (Offset dw) (-1))
    as (ls & c & s & -> & Hls & _ & _ & Hn & _);
    [done|done|done|done|by apply name_fuel_enough|].
  exists ls, (if decide (s <> -1) then s else c). simpl. auto.
Qed.

Lemma ReadDomainName_total_witness :
  exists ls next, ReadDomainName {| Buf := [3; 119; 119; 119; 192; 0]; Offset := 0 |} =
    Ret (Join ls [dot], {| Buf := [3; 119; 119; 119; 192; 0]; Offset := next |}) /\
    Forall label_ok ls /\ next_ok 6 0 next.
Proof.
  apply (ReadDomainName_total {| Buf := [3; 119; 119; 119; 192; 0]; Offset := 0 |}).
  - by apply (bool_decide_eq_true_1 _).
  - simpl. lia.
Defined.

(** The same fact in the form the other proofs use. *)
Lemma ReadDomainName_step buf off :
  bytes_ok buf -> 0 <= off ->
  exists ls next,
    ReadDomainName {| Buf := buf; Offset := off |} = Ret (Join ls [dot], {| Buf := buf; Offset := next |}) /\
    Forall label_ok ls /\ next_ok (len buf) off next.
Proof.
  intros Hb Ho. unfold ReadDomainName.
  edestruct (ReadDomainNameLoop_total (name_fuel buf) buf [] 0 off (-1))
    as (ls & c & s & E & Hls & _ & _ & Hn & _);
    [done|done|done|done|by apply name_fuel_enough|].
  exists ls, (if decide (s <> -1) then s else c). cbn [Buf Offset]. rewrite E. simpl. auto.
Qed.

(** The fuel is not part of the meaning: a finished run is not changed by more. *)
Lemma ReadDomainNameLoop_fuel f k buf labels jumps cur saved r :
  ReadDomainNameLoop f buf labels jumps cur saved = Ret r ->
  ReadDomainNameLoop (f + k) buf labels jumps cur saved = Ret r.
Proof.
  revert labels jumps cur saved. induction f as [|f IH]; intros labels jumps cur saved E; [done|].
  cbn [Nat.add ReadDomainNameLoop] in E |- *.
  case_decide; [done|]. destruct (index buf cur); try done. simpl in *.
  case_decide; [done|]. case_decide.
  - case_decide; [done|]. case_decide; [done|]. destruct (index buf (cur + 1)); try done. simpl in *. by apply IH.
  - case_decide; [done|]. destruct (slice _ _ _); try done. simpl in *. by apply IH.
Qed.

(** ** Round trip of names *)

Lemma ReadDomainNameLoop_labels ls : forall fuel pre post acc jumps saved,
  Forall (fun l => len l <= 63) ls -> (length (enc_labels ls) < fuel)%nat ->
  ReadDomainNameLoop fuel (pre ++ enc_labels ls ++ 0 :: post) acc jumps (len pre) saved =
  Ret (acc ++ filter (fun l => l <> []) ls, len pre + len (enc_labels ls) + 1, saved).
Proof.
  induction ls as [|l ls IH]; intros fuel pre post acc jumps saved Hls Hf.
  - destruct fuel as [|fuel]; [simpl in Hf; lia|]. cbn [enc_labels flat_map app ReadDomainNameLoop].
    rewrite decide_False by len_solve. rewrite index_app_mid, bind_Ret. simpl.
    rewrite app_nil_r. unfold len. simpl. do 3 f_equal. lia.
  - apply Forall_cons_1 in Hls as [Hl Hls].
    change (enc_labels (l :: ls)) with (enc_label l ++ enc_labels ls) in *. unfold enc_label in *.
    destruct (decide (len l = 0)) as [Hz|Hz].
    + assert (l = []) as -> by (destruct l; [done|len_solve]). by apply IH.
    + destruct fuel as [|fuel]; [lia|]. pose proof (len_nonneg l).
      rewrite uint8_id in * by (unfold is_byte; lia).
      cbn [ReadDomainNameLoop]. rewrite decide_False by len_solve.
      cbn [app]. rewrite index_app_mid, bind_Ret. rewrite (decide_False (P:=len l = 0)) by done.
      rewrite (decide_False (P:=Z.land _ _ = _)) by (rewrite land_192; unfold is_byte; lia).
      rewrite decide_False by len_solve.
      replace (pre ++ len l :: (l ++ enc_labels ls) ++ 0 :: post)
        with ((pre ++ [len l]) ++ l ++ enc_labels ls ++ 0 :: post) by by rewrite <- !app_assoc.
      replace (len pre + 1) with (len (pre ++ [len l])) by len_solve.
      rewrite slice_app_mid, bind_Ret.
      replace (len (pre ++ [len l]) + len l) with (len ((pre ++ [len l]) ++ l)) by len_solve.
      rewrite (app_assoc _ l), IH by (done || len_solve).
      rewrite filter_cons_True by (intros ->; done). rewrite <- app_assoc. do 3 f_equal. len_solve.
Qed.

(** Reading a written name, wherever it stands in a message. *)
Lemma ReadDomainName_enc pre name post :
  short_labels name ->
  ReadDomainName {| Buf := pre ++ enc_name name ++ post; Offset := len pre |} =
  Ret (canon_name name, {| Buf := pre ++ enc_name name ++ post; Offset := len pre + len (enc_name name) |}).
Proof.
  intros Hs. unfold ReadDomainName, enc_name. cbn [Buf Offset].
  rewrite <- (app_assoc (enc_labels _)). cbn [app].
  rewrite ReadDomainNameLoop_labels; [|done|unfold name_fuel; len_solve].
  rewrite bind_Ret, app_nil_l. rewrite decide_False by lia. unfold canon_name.
  do 3 f_equal. len_solve.
Qed.

(** Encoding a name with [WriteDomainName] and decoding it with
    [ReadDomainName] gives the name back without its empty labels (so without a
    trailing dot), provided that no label is longer than 63 bytes. *)
Theorem WriteDomainName_roundtrip name :
  short_labels name ->
  exists b, (dw ← WriteDomainName (NewDnsWireFormat None) name; Finish dw) = Ret b /\
    ReadDomainName (NewDnsWireFormat (Some b)) =
      Ret (canon_name name, {| Buf := b; Offset := len b |}).
Proof.
  intros Hs. exists (enc_name name). split.
  - apply (run_appends (fun dw => WriteDomainName dw name)), _.
  - pose proof (ReadDomainName_enc [] name [] Hs) as H. rewrite app_nil_l, app_nil_r in H. exact H.
Qed.

Lemma WriteDomainName_roundtrip_witness :
  exists b, (dw ← WriteDomainName (NewDnsWireFormat None) "www.test.local."; Finish dw) = Ret b /\
    ReadDomainName (NewDnsWireFormat (Some b)) = Ret (gs "www.test.local", {| Buf := b; Offset := len b |}).
Proof. apply (WriteDomainName_roundtrip "www.test.local."). by apply (bool_decide_eq_true_1 _). Defined.

(** ** Fixed-width readers *)

Lemma ReadUint16_app pre v post :
  ReadUint16 {| Buf := pre ++ be16 v ++ post; Offset := len pre |} =
  Ret (uint16 v, {| Buf := pre ++ be16 v ++ post; Offset := len pre + 2 |}).
Proof.
  unfold ReadUint16. cbn [Buf Offset]. rewrite decide_False by (unfold be16; len_solve).
  by rewrite get_uint16_app.
Qed.

Lemma ReadUint32_app pre v post :
  ReadUint32 {| Buf := pre ++ be32 v ++ post; Offset := len pre |} =
  Ret (uint32 v, {| Buf := pre ++ be32 v ++ post; Offset := len pre + 4 |}).
Proof.
  unfold ReadUint32. cbn [Buf Offset]. rewrite decide_False by (unfold be32; len_solve).
  by rewrite get_uint32_app.
Qed.

(** What the 16-bit reader returns, and where it stops, from any offset. *)
Lemma ReadUint16_total buf off :
  bytes_ok buf -> 0 <= off ->
  exists v off', ReadUint16 {| Buf := buf; Offset := off |} = Ret (v, {| Buf := buf; Offset := off' |}) /\
    0 <= v < 65536 /\ 0 <= off' /\ (off + 2 <= len buf -> off' = off + 2) /\ (off <= len buf -> off <= off' <= len buf).
Proof.
  intros Hb Ho. unfold ReadUint16. cbn [Buf Offset]. pose proof (len_nonneg buf). case_decide.
  - exists 0, (len buf). split_and!; [done|lia..].
  - unfold get_uint16. rewrite decide_True by lia.
    exists (of_be16 (nth (Z.to_nat off) buf 0) (nth (Z.to_nat (off + 1)) buf 0)), (off + 2). simpl.
    pose proof (of_be16_range (nth (Z.to_nat off) buf 0) (nth (Z.to_nat (off + 1)) buf 0)
      (nth_bytes_ok _ _ Hb) (nth_bytes_ok _ _ Hb)).
    split_and!; [done|lia..].
Qed.

Lemma ReadUint32_total buf off :
  bytes_ok buf -> 0 <= off ->
  exists v off', ReadUint32 {| Buf := buf; Offset := off |} = Ret (v, {| Buf := buf; Offset := off' |}) /\
    0 <= v < 2 ^ 32 /\ 0 <= off' /\ (off + 4 <= len buf -> off' = off + 4) /\ (off <= len buf -> off <= off' <= len buf).
Proof.
  intros Hb Ho. unfold ReadUint32. cbn [Buf Offset]. pose proof (len_nonneg buf). case_decide.
  - exists 0, (len buf). split_and!; [done|lia..].
  - unfold get_uint32. rewrite decide_True by lia.
    exists (of_be32 (nth (Z.to_nat off) buf 0) (nth (Z.to_nat (off + 1)) buf 0)
                    (nth (Z.to_nat (off + 2)) buf 0) (nth (Z.to_nat (off + 3)) buf 0)), (off + 4). simpl.
    pose proof (nth_bytes_ok buf (Z.to_nat off) Hb). pose proof (nth_bytes_ok buf (Z.to_nat (off + 1)) Hb).
    pose proof (nth_bytes_ok buf (Z.to_nat (off + 2)) Hb). pose proof (nth_bytes_ok buf (Z.to_nat (off + 3)) Hb).
    unfold is_byte, of_be32 in *. split_and!; [done|lia..].
Qed.

(** ** Names that were read can be written again *)

Lemma short_labels_Join ls : Forall label_ok ls -> short_labels (Join ls [dot]).
Proof.
  unfold short_labels. induction 1 as [|l ls [[_ Hl] _] Hls IH]; [by repeat constructor|].
  assert (Hp : Forall (fun x => len x <= 63) (Split l dot)).
  { eapply Forall_impl; [apply Split_piece_len|]. simpl. lia. }
  destruct ls as [|l2 ls]; [done|]. rewrite Join_cons2. cbn [app].
  rewrite Split_app_sep. apply Forall_app. done.
Qed.

Lemma label_list_bytes_ok ls : Forall label_ok ls -> bytes_ok (Join ls [dot]).
Proof. intros H. apply Join_bytes_ok. eapply Forall_impl; [exact H|]. by intros ? [_ ?]. Qed.

Lemma canon_short name : short_labels name -> short_labels (canon_name name).
Proof.
  intros Hs. unfold short_labels, canon_name in *.
  destruct (decide (filter (fun l => l <> []) (Split name dot) = [])) as [->|Hne]; [by repeat constructor|].
  rewrite Split_Join; [|done|].
  - by apply Forall_filter_1.
  - apply Forall_filter_1, Split_no_sep.
Qed.

(** ** Questions *)

Definition enc_question (name : gostring) (qtype qclass : Z) : bytes :=
  enc_name name ++ be16 qtype ++ be16 qclass.

(** The questions of a message whose question section holds [qs] from [off]. *)
Fixpoint located (off : Z) (qs : list (gostring * Z)) : list ParsedQuestion :=
  match qs with
  | [] => []
  | (name, qtype) :: qs =>
      let next := off + len (enc_question name qtype 1) in
      {| q_Name := canon_name name; q_Type := uint16 qtype; q_NextOffset := next |} :: located next qs
  end.

Definition enc_questions (qs : list (gostring * Z)) : bytes :=
  flat_map (fun q => enc_question q.1 q.2 DnsClassIn) qs.

Lemma parseQuestion_enc pre name qtype post :
  short_labels name ->
  parseQuestion (pre ++ enc_question name qtype DnsClassIn ++ post) (len pre) =
  Ret (Some {| q_Name := canon_name name; q_Type := uint16 qtype;
               q_NextOffset := len pre + len (enc_question name qtype 1) |}).
Proof.
  intros Hs. unfold parseQuestion, enc_question.
  assert (Hl : len (enc_name name ++ be16 qtype ++ be16 1) = len (enc_name name) + 4)
    by (unfold be16; len_solve).
  rewrite <- !app_assoc. rewrite ReadDomainName_enc by done. rewrite bind_Ret. cbn [Buf Offset].
  rewrite decide_False by (unfold be16; len_solve).
  rewrite (app_assoc pre). rewrite <- len_app. rewrite ReadUint16_app, bind_Ret.
  rewrite (app_assoc (pre ++ _)).
  replace (len (pre ++ enc_name name) + 2) with (len ((pre ++ enc_name name) ++ be16 qtype))
    by (unfold be16; len_solve).
  rewrite ReadUint16_app, bind_Ret. cbn [Offset]. rewrite decide_False by (intros [H _]; by apply H).
  do 3 f_equal. rewrite Hl. unfold be16. len_solve.
Qed.

Lemma ExtractQuestionsLoop_enc qs : forall pre post,
  Forall (fun q => short_labels q.1) qs ->
  ExtractQuestionsLoop (length qs) (pre ++ enc_questions qs ++ post) (len pre) = Ret (located (len pre) qs).
Proof.
  induction qs as [|[name qtype] qs IH]; intros pre post Hqs; [done|].
  apply Forall_cons_1 in Hqs as [Hq Hqs]. cbn [length ExtractQuestionsLoop].
  change (enc_questions ((name, qtype) :: qs)) with (enc_question name qtype DnsClassIn ++ enc_questions qs).
  rewrite <- app_assoc, parseQuestion_enc by done. rewrite bind_Ret. cbn [q_NextOffset].
  rewrite app_assoc, <- len_app. change DnsClassIn with 1. rewrite IH by done. rewrite bind_Ret.
  by rewrite len_app.
Qed.

Lemma ExtractQuestions_bounds query :
  bytes_ok query ->
  exists qs, ExtractQuestions query = Ret qs /\
    (qs <> [] -> len qs <= of_be16 (nth 4 query 0) (nth 5 query 0) /\ 12 + 5 * len qs <= len query) /\
    Forall (fun q => short_labels (q_Name q) /\ bytes_ok (q_Name q) /\ 0 <= q_Type q < 65536 /\
                     12 < q_NextOffset q <= len query) qs.
Proof.
  intros Hb. unfold ExtractQuestions. case_decide; [by exists []|].
  unfold get_uint16. rewrite decide_True by lia. rewrite bind_Ret.
  pose proof (of_be16_range (nth 4 query 0) (nth 5 query 0) (nth_bytes_ok _ _ Hb) (nth_bytes_ok _ _ Hb)) as Hr.
  change (Z.to_nat 4) with 4%nat. change (Z.to_nat (4 + 1)) with 5%nat.
  set (qd := of_be16 _ _) in *.
  assert (Hgen : forall n off, 12 <= off <= len query ->
    exists qs, ExtractQuestionsLoop n query off = Ret qs /\ (length qs <= n)%nat /\
      (off + 5 * len qs <= len query) /\
      Forall (fun q => short_labels (q_Name q) /\ bytes_ok (q_Name q) /\ 0 <= q_Type q < 65536 /\
                       12 < q_NextOffset q <= len query) qs).
  { induction n as [|n IH]; intros off Hoff; [exists []; simpl; split_and!; try done; len_solve|].
    cbn [ExtractQuestionsLoop]. unfold parseQuestion.
    destruct (ReadDomainName_step query off Hb ltac:(lia)) as (ls & next & -> & Hls & Hnext).
    rewrite bind_Ret. cbn [Buf Offset]. unfold next_ok in Hnext.
    case_decide; [exists []; simpl; split_and!; try done; len_solve|].
    destruct (ReadUint16_total query next Hb ltac:(lia)) as (v1 & o1 & -> & Hv1 & _ & Ho1 & _).
    rewrite bind_Ret. rewrite Ho1 by lia.
    destruct (ReadUint16_total query (next + 2) Hb ltac:(lia)) as (v2 & o2 & -> & Hv2 & _ & Ho2 & _).
    rewrite bind_Ret. rewrite Ho2 by lia.
    case_decide; [exists []; simpl; split_and!; try done; len_solve|].
    rewrite bind_Ret. cbn [q_NextOffset Offset].
    destruct (IH (next + 2 + 2) ltac:(lia)) as (qs & -> & Hq1 & Hq2 & Hq3).
    eexists. split; [done|]. split_and!; [simpl; lia|len_solve|].
    constructor; [|done]. cbn [q_Name q_Type q_NextOffset].
    split_and!; [by apply short_labels_Join|by apply label_list_bytes_ok|lia..]. }
  destruct (Hgen (Z.to_nat qd) 12 ltac:(lia)) as (qs & E & H1 & H2 & H3).
  exists qs. split; [done|]. split; [|done]. intros _. len_solve.
Qed.

(** Whatever bytes arrive, [ExtractQuestions] returns; it never yields more
    questions than the header announces, every question costs at least five bytes
    of the message (so their number is bounded by the message size), and every
    name can be encoded again. *)
Theorem ExtractQuestions_total query :
  bytes_ok query ->
  exists qs, ExtractQuestions query = Ret qs /\
    (qs <> [] -> len qs <= of_be16 (nth 4 query 0) (nth 5 query 0) /\ 12 + 5 * len qs <= len query) /\
    Forall (fun q => short_labels (q_Name q) /\ bytes_ok (q_Name q) /\ 0 <= q_Type q < 65536 /\
                     12 < q_NextOffset q <= len query) qs.
Proof. apply ExtractQuestions_bounds. Qed.

Lemma ExtractQuestions_total_witness :
  let query := [0; 1; 1; 0; 0; 1; 0; 0; 0; 0; 0; 0; 1; 97; 0; 0; 1; 0; 1] in
  exists qs, ExtractQuestions query = Ret qs /\
    (qs <> [] -> len qs <= 1 /\ 12 + 5 * len qs <= 19) /\
    Forall (fun q => short_labels (q_Name q) /\ bytes_ok (q_Name q) /\ 0 <= q_Type q < 65536 /\
                     12 < q_NextOffset q <= 19) qs.
Proof. apply ExtractQuestions_total. by apply (bool_decide_eq_true_1 _). Defined.

Lemma ExtractQuestions_enc hdr qs post :
  length hdr = 12%nat -> take 2 (drop 4 hdr) = be16 (len qs) -> len qs < 65536 ->
  Forall (fun q => short_labels q.1) qs ->
  ExtractQuestions (hdr ++ enc_questions qs ++ post) = Ret (located 12 qs).
Proof.
  intros Hh Hqd Hn Hqs. unfold ExtractQuestions. rewrite decide_False by len_solve.
  assert (E : hdr = take 4 hdr ++ be16 (len qs) ++ drop 6 hdr).
  { rewrite <- Hqd. change (drop 6 hdr) with (drop (4 + 2) hdr). rewrite <- drop_drop, take_drop. symmetry. apply take_drop. }
  rewrite E at 1. rewrite <- !app_assoc.
  replace 4 with (len (take 4 hdr)) at 1 by len_solve.
  rewrite get_uint16_app, bind_Ret. unfold uint16. rewrite Z.mod_small by (pose proof (len_nonneg qs); lia).
  unfold len at 1. rewrite Nat2Z.id. replace 12 with (len hdr) by len_solve.
  by apply ExtractQuestionsLoop_enc.
Qed.

(** A message whose question section encodes the list [qs] of names and types
    (class IN), under a header that announces their number, is parsed back to that
    list: same order, same types, names without empty labels, and the offset after
    each question. *)
Theorem ExtractQuestions_roundtrip hdr qs post :
  length hdr = 12%nat -> take 2 (drop 4 hdr) = be16 (len qs) -> len qs < 65536 ->
  Forall (fun q => short_labels q.1) qs ->
  ExtractQuestions (hdr ++ enc_questions qs ++ post) = Ret (located 12 qs).
Proof. apply ExtractQuestions_enc. Qed.

Lemma ExtractQuestions_roundtrip_witness :
  ExtractQuestions ([0; 7; 1; 0; 0; 2; 0; 0; 0; 0; 0; 0]
    ++ enc_questions [(gs "a.example", 1); (gs "b.example", 28)] ++ [])
  = Ret (located 12 [(gs "a.example", 1); (gs "b.example", 28)]).
Proof.
  apply ExtractQuestions_roundtrip; try reflexivity.
  by apply (bool_decide_eq_true_1 _).
Defined.

Lemma EncodeName_exact name :
  EncodeCNAME name = Ret (enc_name name) /\ EncodeNS name = Ret (enc_name name) /\ EncodePTR name = Ret (enc_name name).
Proof. split_and!; apply (run_appends (fun dw => WriteDomainName dw name)), _. Qed.

Lemma EncodeTXT_exact data : EncodeTXT data = Ret (flat_map enc_txt data).
Proof. apply (run_appends (fun dw => WriteTxtChunks dw data)), _. Qed.

(** The record data encoders write exactly the wire encoding of their
    arguments: names as length-prefixed labels with a final zero, TXT chunks cut to
    255 bytes behind their length, and 16-bit fields in network order. *)
Theorem Encode_exact name pri weight port data :
  EncodeCNAME name = Ret (enc_name name) /\
  EncodeNS name = Ret (enc_name name) /\
  EncodePTR name = Ret (enc_name name) /\
  EncodeTXT data = Ret (flat_map enc_txt data) /\
  EncodeMX pri name = Ret (be16 pri ++ enc_name name) /\
  EncodeSRV pri weight port name = Ret (be16 pri ++ be16 weight ++ be16 port ++ enc_name name).
Proof.
  destruct (EncodeName_exact name) as (? & ? & ?).
  split_and!; [done..|apply EncodeTXT_exact|apply EncodeMX_exact|apply EncodeSRV_exact].
Qed.
