(* ===== verification/Firewall.v ===== *)
(** * The firewall engine ([pkg/firewall/firewall.go]): domain patterns, address
    normalisation, the list of restricted outbound ranges and the three policy
    decisions, with their specification on addresses instead of texts. *)
From S2P Require Import Prelude GoStrings NetIP Config.

(** The results ["ALLOW"] and ["DENY"]. *)
Inductive verdict : Type := ALLOW | DENY.
#[export] Instance verdict_eq_dec : EqDecision verdict.
Proof. solve_decision. Defined.

Section Engine.
Context {U : Unicode}.

Definition MatchCidr (ipStr cidrStr : gostring) : bool :=
  match ParseIP ipStr with
  | None => false
  | Some ip =>
      match ParseCIDR cidrStr with
      | None => false
      | Some ipNet => Contains_ip ipNet ip
      end
  end.

Definition MatchDomain (domain pattern : gostring) : bool :=
  if decide (pattern = gs "*") then true
  else
    let normDomain := ToLower (TrimSuffix domain (gs ".")) in
    let normPattern := ToLower (TrimSuffix pattern (gs ".")) in
    if decide (normPattern = normDomain) then true
    else if HasPrefix normPattern (gs "*.") then
      let suffix := drop 2 normPattern in
      HasSuffix normDomain (gs "." ++ suffix)
    else false.

Definition NormalizeIp (ipStr : gostring) : gostring :=
  match ParseIP ipStr with
  | None => ipStr
  | Some ip => match To4 ip with
               | Some ip4 => IPString ip4
               | None => IPString ip
               end
  end.

Definition IsRestrictedOutbound (ipStr : gostring) : bool :=
  let normalized := NormalizeIp ipStr in
  match ParseIP normalized with
  | None => true
  | Some ip =>
      match To4 ip with
      | Some ip4 =>
          let b0 := nth 0 ip4 0 in
          let b1 := nth 1 ip4 0 in
          if decide (b0 = 0) then true
          else if decide (b0 = 10) then true
          else if decide (b0 = 127) then true
          else if decide (b0 = 100 /\ 64 <= b1 /\ b1 <= 127) then true
          else if decide (b0 = 169 /\ b1 = 254) then true
          else if decide (b0 = 172 /\ 16 <= b1 /\ b1 <= 31) then true
          else if decide (b0 = 192 /\ b1 = 168) then true
          else if decide (224 <= b0) then true
          else false
      | None =>
          if decide (length ip = 16%nat) then
            let normalizedIPv6 := ToLower (IPString ip) in
            if decide (normalizedIPv6 = gs "::1" \/ normalizedIPv6 = gs "::") then true
            else if decide (Z.land (nth 0 ip 0) 254 = 252) then true
            else if decide (nth 0 ip 0 = 254 /\ Z.land (nth 1 ip 0) 192 = 128) then true
            else false
          else false
      end
  end.

Definition matchAllowlistIps (normalized : gostring) (fw : option FirewallConfig) : bool :=
  match fw with
  | None => false
  | Some fw => existsb (fun ip => bool_decide (NormalizeIp ip = normalized)) (fw_AllowlistIps fw)
  end.

Definition matchAllowlistRanges (normalized : gostring) (fw : option FirewallConfig) : bool :=
  match fw with
  | None => false
  | Some fw => existsb (fun rangeStr => MatchCidr normalized rangeStr) (fw_AllowlistRanges fw)
  end.

Definition EvaluateOutbound (ipStr : gostring) (fw : option FirewallConfig) : verdict :=
  let normalized := NormalizeIp ipStr in
  if matchAllowlistIps normalized fw || matchAllowlistRanges normalized fw then ALLOW
  else if IsRestrictedOutbound normalized then DENY
  else ALLOW.

Definition EvaluateIp (ipStr : gostring) (fw : option FirewallConfig) : verdict :=
  match fw with
  | None => ALLOW
  | Some f =>
      let normalized := NormalizeIp ipStr in
      match ParseIP normalized with
      | None => DENY
      | Some _ =>
          if existsb (fun bip => bool_decide (NormalizeIp bip = normalized)) (fw_BlocklistIps f) then DENY
          else if matchAllowlistIps normalized fw then ALLOW
          else if existsb (fun rangeStr => MatchCidr normalized rangeStr) (fw_BlocklistRanges f) then DENY
          else if matchAllowlistRanges normalized fw then ALLOW
          else if decide (fw_DefaultPolicy f = gs "allow") then ALLOW
          else DENY
      end
  end.

Definition EvaluateDomain (domain : gostring) (fw : option FirewallConfig) : verdict :=
  match fw with
  | None => ALLOW
  | Some f =>
      if existsb (MatchDomain domain) (fw_BlocklistDomains f) then DENY
      else if existsb (MatchDomain domain) (fw_AllowlistDomains f) then ALLOW
      else if decide (fw_DefaultPolicy f = gs "allow") then ALLOW
      else DENY
  end.

(** ** Domain patterns *)

Definition normalizeName (d : gostring) : gostring := ToLower (TrimSuffix d (gs ".")).

(** The labels of [s] end the labels of [d], with at least one label before. *)
Definition proper_label_suffix (s d : gostring) : Prop :=
  exists ls, ls <> [] /\ Split d dot = ls ++ Split s dot.

Lemma dot_suffix_labels s d : (exists t, d = t ++ dot :: s) <-> proper_label_suffix s d.
Proof.
  unfold proper_label_suffix. split.
  - intros [t ->]. exists (Split t dot). split; [apply Split_nonnil|].
    apply Split_app_sep.
  - intros (ls & Hne & E). exists (Join ls [dot]).
    rewrite <- (Join_Split d dot), E. rewrite <- (Join_Split s dot) at 2.
    clear E. pose proof (Split_nonnil s dot) as Hs. induction ls as [|l ls IH]; [done|].
    destruct ls as [|l2 ls].
    + simpl. by destruct (Split s dot).
    + change ((l :: l2 :: ls) ++ Split s dot) with (l :: l2 :: (ls ++ Split s dot)).
      rewrite !Join_cons2. change (l2 :: ls ++ ?x) with ((l2 :: ls) ++ x). rewrite IH by done.
      by rewrite <- !app_assoc.
Qed.

(** A domain matches a pattern exactly when the pattern is ["*"], or both are
    the same name up to letter case and one trailing dot, or the pattern is
    ["*.S"] and the labels of [S] are a proper suffix of the labels of the domain:
    a wildcard matches neither [S] itself nor a look-alike such as [evilS]. *)
Theorem MatchDomain_spec domain pattern :
  MatchDomain domain pattern = true <->
  pattern = gs "*" \/
  normalizeName pattern = normalizeName domain \/
  exists s, normalizeName pattern = gs "*." ++ s /\ proper_label_suffix s (normalizeName domain).
Proof.
  unfold MatchDomain. fold (normalizeName domain) (normalizeName pattern).
  case_decide; [tauto|]. case_decide; [tauto|]. setoid_rewrite <- dot_suffix_labels.
  destruct (HasPrefix (normalizeName pattern) (gs "*.")) eqn:E.
  - apply HasPrefix_true in E as [s E]. rewrite E. change (drop 2 (gs "*." ++ s)) with s.
    rewrite HasSuffix_true. split; [intros [t Ht]; right; right; exists s; split; [done|by exists t]|].
    intros [?|[Hn|(s' & Hs & t & Ht)]]; [done|congruence|]. simplify_eq/=. by exists t.
  - split; [done|]. intros [?|[?|(s & Hs & _)]]; [done|done|].
    assert (HasPrefix (normalizeName pattern) (gs "*.") = true) by (apply HasPrefix_true; by exists s).
    congruence.
Qed.

(** The labels of a name, in lower case and without the trailing dot. *)
Definition name_labels (name : gostring) : list gostring := Split (normalizeName name) dot.
(** A pattern covers a name: everything, the same labels, or a star and labels that the
    name ends with after at least one more label. *)
Definition pattern_covers (pattern name : gostring) : Prop :=
  pattern = gs "*" \/ name_labels pattern = name_labels name \/
  exists s ls, s <> [] /\ name_labels pattern = gs "*" :: s /\ ls <> [] /\ name_labels name = ls ++ s.

Lemma MatchDomain_covers name pattern : MatchDomain name pattern = true <-> pattern_covers pattern name.
Proof.
  rewrite MatchDomain_spec. unfold pattern_covers, name_labels, proper_label_suffix. split.
  - intros [?|[->|(s & Hp & ls & Hne & E)]]; [auto|auto|]. right. right. exists (Split s dot), ls. split; [apply Split_nonnil|]. split; [|done].
    rewrite Hp. change (gs "*." ++ s) with (gs "*" ++ dot :: s). apply Split_app. vm_compute. set_solver.
  - intros [?|[E|(s & ls & Hs & Hp & Hne & E)]]; [auto| |].
    + right. left. by rewrite <- (Join_Split (normalizeName pattern) dot), E, Join_Split.
    + right. right. exists (Join s [dot]). assert (Split (Join s [dot]) dot = s) as Es.
      { apply Split_Join; [done|]. pose proof (Split_no_sep (normalizeName pattern) dot) as Hn. rewrite Hp in Hn. by apply Forall_cons in Hn as [_ Hn]. }
      split; [|exists ls; by rewrite Es]. rewrite <- (Join_Split (normalizeName pattern) dot), Hp. by destruct s.
Qed.

(** C19: A domain is denied exactly when a pattern of the blocklist covers it, or when no
    pattern of the allowlist covers it and the default policy is not ["allow"]; without a
    firewall section everything is allowed.  A pattern covers a name, label by label and in
    any letter case, if it is ["*"] or the same name, or a star followed by labels that the
    name ends with after at least one more: ["*.example.org"] covers ["a.example.org"], but
    neither ["example.org"] nor ["evilexample.org"]. *)
Theorem EvaluateDomain_spec domain fw :
  EvaluateDomain domain fw = DENY <->
  exists f, fw = Some f /\
    ((exists p, p ∈ fw_BlocklistDomains f /\ pattern_covers p domain) \/
     ((forall p, p ∈ fw_AllowlistDomains f -> ~ pattern_covers p domain) /\ fw_DefaultPolicy f <> gs "allow")).
Proof.
  setoid_rewrite <- MatchDomain_covers. setoid_rewrite not_true_iff_false. destruct fw as [f|]; simpl; [|split; [done|by intros (? & ? & ?)]].
  destruct (existsb _ (fw_BlocklistDomains f)) eqn:Eb.
  { apply existsb_true in Eb. split; [|done]. intros _. exists f. auto. }
  rewrite existsb_false in Eb. destruct (existsb _ (fw_AllowlistDomains f)) eqn:Ea.
  { apply existsb_true in Ea as (p & Hp & Hm).
    split; [done|]. intros (f' & ? & [(q & Hq & Hqm)|[Hall _]]); simplify_eq.
    - by rewrite Eb in Hqm.
    - by rewrite Hall in Hm. }
  rewrite existsb_false in Ea. case_decide as Hp; (split; [|try done]); [done|..].
  - intros (f' & ? & [(q & Hq & Hqm)|[_ ?]]); simplify_eq; by rewrite Eb in Hqm.
  - intros _. exists f. auto.
Qed.

(** ** Decisions on addresses *)

Lemma NormalizeIp_Some s a : ParseIP s = Some a -> NormalizeIp s = IPString a.
Proof.
  intros H. unfold NormalizeIp. rewrite H. destruct (To4 a) as [b|] eqn:E; [|done].
  unfold IPString. rewrite E. apply ParseIP_ok in H as [Hl _].
  apply To4_Some in E as [[? ?]|[_ ->]]; [lia|]. rewrite length_app in Hl. simpl in Hl.
  unfold To4. by rewrite decide_True by lia.
Qed.

Lemma NormalizeIp_None s : ParseIP s = None -> NormalizeIp s = s.
Proof. intros H. unfold NormalizeIp. by rewrite H. Qed.

Lemma ParseIP_NormalizeIp s : ParseIP (NormalizeIp s) = ParseIP s.
Proof.
  destruct (ParseIP s) as [a|] eqn:E.
  - rewrite (NormalizeIp_Some s a) by done. eauto with ottergate.
  - by rewrite NormalizeIp_None.
Qed.

Lemma NormalizeIp_idemp s : NormalizeIp (NormalizeIp s) = NormalizeIp s.
Proof.
  destruct (ParseIP s) as [a|] eqn:E.
  - rewrite (NormalizeIp_Some s a) by done. apply NormalizeIp_Some. eauto with ottergate.
  - by rewrite !(NormalizeIp_None s).
Qed.

(** Comparing normalised texts is comparing addresses. *)
Lemma NormalizeIp_eq s a e :
  ParseIP s = Some a -> (NormalizeIp e = IPString a <-> ParseIP e = Some a).
Proof.
  intros H. pose proof (ParseIP_ok _ _ H) as [Hl Hb]. split.
  - intros E. destruct (ParseIP e) as [b|] eqn:Eb.
    + rewrite (NormalizeIp_Some e b) in E by done. pose proof (ParseIP_ok _ _ Eb) as [Hl' Hb'].
      f_equal. by apply IPString_inj.
    + rewrite NormalizeIp_None in E by done. subst e. erewrite ParseIP_normal in Eb by done. done.
  - intros E. by apply NormalizeIp_Some.
Qed.

(** Address-level tests: membership in a list of texts and in a list of blocks. *)
Definition ip_listed (a : bytes) (l : list gostring) : bool :=
  existsb (fun e => bool_decide (ParseIP e = Some a)) l.
Definition in_ranges (a : bytes) (l : list gostring) : bool :=
  existsb (fun r => match ParseCIDR r with Some n => Contains_ip n a | None => false end) l.

(** The policy for an address. *)
Definition policy_ip (a : bytes) (f : FirewallConfig) : verdict :=
  if ip_listed a (fw_BlocklistIps f) then DENY
  else if ip_listed a (fw_AllowlistIps f) then ALLOW
  else if in_ranges a (fw_BlocklistRanges f) then DENY
  else if in_ranges a (fw_AllowlistRanges f) then ALLOW
  else if decide (fw_DefaultPolicy f = gs "allow") then ALLOW
  else DENY.

Definition allowlisted (a : bytes) (fw : option FirewallConfig) : bool :=
  match fw with
  | None => false
  | Some f => ip_listed a (fw_AllowlistIps f) || in_ranges a (fw_AllowlistRanges f)
  end.

Lemma ip_listed_eq s a l :
  ParseIP s = Some a ->
  existsb (fun e => bool_decide (NormalizeIp e = NormalizeIp s)) l = ip_listed a l.
Proof.
  intros H. unfold ip_listed. induction l as [|e l IH]; [done|]. simpl. rewrite IH. f_equal.
  apply bool_decide_ext. rewrite (NormalizeIp_Some s a) by done. by eapply NormalizeIp_eq.
Qed.

Lemma in_ranges_eq s a l :
  ParseIP s = Some a -> existsb (fun r => MatchCidr (NormalizeIp s) r) l = in_ranges a l.
Proof.
  intros H. unfold in_ranges. induction l as [|r l IH]; [done|]. simpl. rewrite IH. f_equal.
  unfold MatchCidr. by rewrite ParseIP_NormalizeIp, H.
Qed.

(** C17: [EvaluateIp] decides on the address that the text denotes, in whatever
    spelling (letter case, zero compression, IPv4-mapped form), with the priority
    blocked address, allowed address, blocked block, allowed block, default policy;
    a text that is not an address is denied. *)
Theorem EvaluateIp_refines s f :
  EvaluateIp s (Some f) =
  match ParseIP s with None => DENY | Some a => policy_ip a f end.
Proof.
  unfold EvaluateIp. rewrite ParseIP_NormalizeIp. destruct (ParseIP s) as [a|] eqn:E; [|done].
  unfold policy_ip, matchAllowlistIps, matchAllowlistRanges.
  by rewrite !(ip_listed_eq s a), !(in_ranges_eq s a).
Qed.

(** The blocks that are off limits by default. *)
Definition restricted_blocks : list gostring :=
  map gs ["0.0.0.0/8"; "10.0.0.0/8"; "127.0.0.0/8"; "100.64.0.0/10"; "169.254.0.0/16";
          "172.16.0.0/12"; "192.168.0.0/16"; "224.0.0.0/3";
          "::1/128"; "::/128"; "fc00::/7"; "fe80::/10"]%string.

Definition restricted_nets : list IPNet :=
  [ {| net_IP := [0; 0; 0; 0]; net_Mask := [255; 0; 0; 0] |};
    {| net_IP := [10; 0; 0; 0]; net_Mask := [255; 0; 0; 0] |};
    {| net_IP := [127; 0; 0; 0]; net_Mask := [255; 0; 0; 0] |};
    {| net_IP := [100; 64; 0; 0]; net_Mask := [255; 192; 0; 0] |};
    {| net_IP := [169; 254; 0; 0]; net_Mask := [255; 255; 0; 0] |};
    {| net_IP := [172; 16; 0; 0]; net_Mask := [255; 240; 0; 0] |};
    {| net_IP := [192; 168; 0; 0]; net_Mask := [255; 255; 0; 0] |};
    {| net_IP := [224; 0; 0; 0]; net_Mask := [224; 0; 0; 0] |};
    {| net_IP := replicate 15 0 ++ [1]; net_Mask := replicate 16 255 |};
    {| net_IP := replicate 16 0; net_Mask := replicate 16 255 |};
    {| net_IP := 252 :: replicate 15 0; net_Mask := 254 :: replicate 15 0 |};
    {| net_IP := 254 :: 128 :: replicate 14 0; net_Mask := 255 :: 192 :: replicate 14 0 |} ].

Lemma restricted_blocks_nets : map ParseCIDR restricted_blocks = map Some restricted_nets.
Proof. vm_compute. reflexivity. Qed.

Lemma in_restricted a : in_ranges a restricted_blocks = existsb (fun n => Contains_ip n a) restricted_nets.
Proof.
  unfold in_ranges. pose proof restricted_blocks_nets as H. revert H.
  generalize restricted_blocks, restricted_nets. intros l. induction l as [|r l IH]; intros [|n k] H; try done.
  simpl in *. injection H as -> H. by rewrite (IH k).
Qed.

(** The IPv4 tests of the code, on the first two bytes. *)
Definition restricted_v4 (b0 b1 : Z) : bool :=
  if decide (b0 = 0) then true
  else if decide (b0 = 10) then true
  else if decide (b0 = 127) then true
  else if decide (b0 = 100 /\ 64 <= b1 /\ b1 <= 127) then true
  else if decide (b0 = 169 /\ b1 = 254) then true
  else if decide (b0 = 172 /\ 16 <= b1 /\ b1 <= 31) then true
  else if decide (b0 = 192 /\ b1 = 168) then true
  else if decide (224 <= b0) then true
  else false.

Definition masked_v4 (x y : Z) (n : IPNet) : bool :=
  bool_decide (land_bytes (net_IP n) (net_Mask n) = land_bytes [x; y; 0; 0] (net_Mask n)).

Lemma restricted_v4_masks x y :
  is_byte x -> is_byte y -> restricted_v4 x y = existsb (masked_v4 x y) (take 8 restricted_nets).
Proof.
  intros Hx Hy. apply eqb_prop.
  apply (byte_cases (fun x => forallb (fun y => Bool.eqb (restricted_v4 x y)
    (existsb (masked_v4 x y) (take 8 restricted_nets))) (seqZ 0 256))) with (b := x) in Hx;
    [|vm_compute; reflexivity].
  rewrite List.forallb_forall in Hx. apply Hx, list_elem_of_In, elem_of_seqZ. unfold is_byte in Hy. lia.
Qed.

Lemma Contains_restricted_v4 b :
  length b = 4%nat -> bytes_ok b ->
  existsb (fun n => Contains_ip n (v4InV6Prefix ++ b)) restricted_nets = restricted_v4 (nth 0 b 0) (nth 1 b 0).
Proof.
  intros Hl Hok. destruct b as [|x [|y [|z [|w [|]]]]]; try done.
  apply Forall_cons_1 in Hok as [Hx Hok]. apply Forall_cons_1 in Hok as [Hy _].
  rewrite <- (take_drop 8 restricted_nets), existsb_app. cbn [nth]. rewrite restricted_v4_masks by done.
  replace (existsb _ (drop 8 restricted_nets)) with false.
  2:{ symmetry. unfold restricted_nets. cbn [drop skipn existsb].
      rewrite !Contains_ip_v4_in_v6 by reflexivity. done. }
  rewrite orb_false_r. unfold restricted_nets. cbn [take firstn existsb].
  rewrite !Contains_ip_v4 by reflexivity. unfold masked_v4, land_bytes. cbn [net_IP net_Mask zip_with].
  by rewrite !Z.land_0_r.
Qed.

Lemma land_bytes_host n a b :
  length a = n -> length b = n ->
  land_bytes a (replicate n 0) = land_bytes b (replicate n 0).
Proof.
  intros <-. revert b. unfold land_bytes. induction a as [|x a IH]; intros [|y b] H; try done.
  simpl in *. rewrite !Z.land_0_r. f_equal. apply IH. lia.
Qed.

Lemma masked_full (c a : bytes) :
  length c = 16%nat -> bytes_ok c -> length a = 16%nat -> bytes_ok a ->
  bool_decide (land_bytes c (replicate 16 255) = land_bytes a (replicate 16 255)) = bool_decide (a = c).
Proof.
  intros Hc Hcok Ha Haok. apply bool_decide_ext.
  rewrite <- Hc at 1. rewrite <- Ha. rewrite !land_bytes_full by done. naive_solver.
Qed.

Lemma Contains_restricted_v6 a :
  length a = 16%nat -> bytes_ok a -> To4 a = None ->
  existsb (fun n => Contains_ip n a) restricted_nets =
  bool_decide (a = replicate 15 0 ++ [1]) || (bool_decide (a = replicate 16 0)
  || (bool_decide (Z.land (nth 0 a 0) 254 = 252)
  || bool_decide (nth 0 a 0 = 254 /\ Z.land (nth 1 a 0) 192 = 128))).
Proof.
  intros Hl Hok H4. unfold restricted_nets. cbn [existsb].
  do 8 (rewrite Contains_ip_v6_in_v4 by done). do 4 (rewrite Contains_ip_v6 by done).
  cbn [orb net_IP net_Mask]. rewrite !masked_full by (done || by apply (bool_decide_unpack _)).
  rewrite orb_false_r. destruct a as [|x0 [|x1 a]]; [done|done|]. apply Forall_cons_1 in Hok as [Hx0 _].
  simpl in Hl. do 2 f_equal. cbn [nth]. f_equal; apply bool_decide_ext; unfold land_bytes; cbn [zip_with].
  - fold (land_bytes (replicate 15 0) (replicate 15 0)). fold (land_bytes (x1 :: a) (replicate 15 0)).
    rewrite (land_bytes_host 15 (replicate 15 0) (x1 :: a)) by (simpl; lia).
    change (Z.land 252 254) with 252. split; [by intros [= <-]|by intros ->].
  - replace (Z.land x0 255) with x0.
    2:{ change 255 with (Z.ones 8). rewrite Z.land_ones by lia. symmetry. by apply Z.mod_small. }
    change (Z.land 254 255) with 254. change (Z.land 128 192) with 128.
    fold (land_bytes (replicate 14 0) (replicate 14 0)). fold (land_bytes a (replicate 14 0)).
    rewrite (land_bytes_host 14 (replicate 14 0) a) by (simpl; lia).
    split; [by intros [= <- <-]|by intros [-> ->]].
Qed.

Lemma String6_is c a :
  length c = 16%nat -> bytes_ok c -> length a = 16%nat -> bytes_ok a -> To4 a = None ->
  ToLower (IPString a) = IPString c <-> a = c.
Proof.
  intros Hc Hcok Ha Haok H4. assert (ToLower (IPString a) = IPString a) as ->.
  { unfold IPString. rewrite H4. by apply ToLower_String6. }
  split; [by apply IPString_inj|by intros ->].
Qed.

Lemma IsRestrictedOutbound_ranges s :
  IsRestrictedOutbound s =
  match ParseIP s with None => true | Some a => in_ranges a restricted_blocks end.
Proof.
  unfold IsRestrictedOutbound. rewrite ParseIP_NormalizeIp. destruct (ParseIP s) as [a|] eqn:E; [|done].
  apply ParseIP_ok in E as [Hl Hok]. rewrite in_restricted. destruct (To4 a) as [b|] eqn:E4.
  - assert (a = v4InV6Prefix ++ b /\ length b = 4%nat) as [Ea Hb].
    { unfold To4 in E4. rewrite decide_False in E4 by (rewrite Hl; lia). case_decide as Hp; [|done]. simplify_eq.
      destruct Hp as [_ Hp]. rewrite <- Hp at 1. rewrite take_drop, length_drop, Hl. split; [done|lia]. }
    rewrite Ea, Contains_restricted_v4; [done..|]. subst a. by apply Forall_app in Hok as [_ Hok].
  - rewrite Contains_restricted_v6, decide_True by done.
    change (gs "::1") with (IPString (replicate 15 0 ++ [1])).
    change (gs "::") with (IPString (replicate 16 0)).
    assert (forall P Q R S `{Decision P, Decision Q, Decision R, Decision S},
      (if decide (P \/ Q) then true else if decide R then true else if decide S then true else false)
      = bool_decide P || (bool_decide Q || (bool_decide R || bool_decide S))) as Hif.
    { intros. repeat case_decide; repeat case_bool_decide; naive_solver. }
    rewrite Hif. f_equal; [|f_equal]; apply bool_decide_ext;
      by apply String6_is; try done; apply (bool_decide_unpack _).
Qed.

(** The outbound restriction, written with byte tests and texts, is exactly
    membership in the listed special-purpose blocks ([restricted_blocks], IPv4 and
    IPv6); a text that is not an address is restricted. *)
Theorem IsRestrictedOutbound_blocks s :
  IsRestrictedOutbound s =
  match ParseIP s with None => true | Some a => in_ranges a restricted_blocks end.
Proof. apply IsRestrictedOutbound_ranges. Qed.

(** C18: [EvaluateOutbound] on an address: an allow-listed address passes, otherwise
    an address of a restricted block is denied and every other one passes. *)
Theorem EvaluateOutbound_refines s a fw :
  ParseIP s = Some a ->
  EvaluateOutbound s fw =
  if allowlisted a fw then ALLOW
  else if in_ranges a restricted_blocks then DENY else ALLOW.
Proof.
  intros H. unfold EvaluateOutbound. rewrite IsRestrictedOutbound_ranges, ParseIP_NormalizeIp, H.
  destruct fw as [f|]; [|done]. unfold matchAllowlistIps, matchAllowlistRanges, allowlisted.
  by rewrite (ip_listed_eq s a), (in_ranges_eq s a).
Qed.

End Engine.

Lemma EvaluateOutbound_refines_witness :
  EvaluateOutbound (U := ascii_unicode) (gs "::ffff:10.1.2.3") None = DENY.
Proof.
  rewrite (EvaluateOutbound_refines (U := ascii_unicode) _ (v4InV6Prefix ++ [10; 1; 2; 3])) by reflexivity.
  reflexivity.
Defined.
