(* ===== verification/Circuit.v ===== *)
(** * The circuit breaker ([pkg/proxy/circuit.go])

    [Execute] holds the mutex in two separate sections, before and after the
    action, so the model has the two sections as functions ([Execute_enter],
    [Execute_leave]), their composition for one caller ([Execute]), and a step
    relation in which the sections of any number of concurrent callers
    interleave with the clock.  An action that panics leaves without running the
    second section: the deferred unlock is only registered after the action. *)
From S2P Require Import Prelude GoStrings.

Inductive CircuitState : Type := StateClosed | StateOpen | StateHalfOpen.
#[export] Instance CircuitState_eq_dec : EqDecision CircuitState.
Proof. solve_decision. Defined.

(** Times are in nanoseconds. *)
Record ProxyCircuitBreaker := {
  cb_state : CircuitState;
  cb_failures : Z;
  cb_lastFailureTime : Z;
  cb_threshold : Z;
  cb_resetTimeout : Z;
  cb_targetHost : gostring;
  cb_trialInFlight : bool;
}.

Definition second : Z := 1000000000.

Definition NewProxyCircuitBreaker (targetHost : gostring) : ProxyCircuitBreaker :=
  {| cb_state := StateClosed; cb_failures := 0; cb_lastFailureTime := 0; cb_threshold := 5;
     cb_resetTimeout := 10 * second; cb_targetHost := targetHost; cb_trialInFlight := false |}.

(** The errors of the breaker itself and those of the action. *)
Inductive exec_error : Type :=
| BreakerOpen
| BreakerTrialInFlight
| ActionError (msg : gostring).

Definition set_state st (cb : ProxyCircuitBreaker) : ProxyCircuitBreaker :=
  {| cb_state := st; cb_failures := cb_failures cb; cb_lastFailureTime := cb_lastFailureTime cb;
     cb_threshold := cb_threshold cb; cb_resetTimeout := cb_resetTimeout cb;
     cb_targetHost := cb_targetHost cb; cb_trialInFlight := cb_trialInFlight cb |}.
Definition set_trial b (cb : ProxyCircuitBreaker) : ProxyCircuitBreaker :=
  {| cb_state := cb_state cb; cb_failures := cb_failures cb; cb_lastFailureTime := cb_lastFailureTime cb;
     cb_threshold := cb_threshold cb; cb_resetTimeout := cb_resetTimeout cb;
     cb_targetHost := cb_targetHost cb; cb_trialInFlight := b |}.
Definition set_failures n t (cb : ProxyCircuitBreaker) : ProxyCircuitBreaker :=
  {| cb_state := cb_state cb; cb_failures := n; cb_lastFailureTime := t;
     cb_threshold := cb_threshold cb; cb_resetTimeout := cb_resetTimeout cb;
     cb_targetHost := cb_targetHost cb; cb_trialInFlight := cb_trialInFlight cb |}.

(** The lines given to [audit.Logger.System]. *)
Definition log_half_open cb := cb_targetHost cb ++ gs " Circuit Breaker transitioned to HALF_OPEN (Trial State Init)".
Definition log_open cb := cb_targetHost cb ++ gs " Circuit Breaker transitioned to OPEN".
Definition log_closed cb := cb_targetHost cb ++ gs " Circuit Breaker transitioned to CLOSED".

(** The section before the action: [Some e] is an early return. *)
Definition Execute_enter (cb : ProxyCircuitBreaker) (now : Z)
  : ProxyCircuitBreaker * list gostring * option exec_error :=
  match cb_state cb with
  | StateOpen =>
      if decide (now - cb_lastFailureTime cb > cb_resetTimeout cb)
      then (set_trial true (set_state StateHalfOpen cb), [log_half_open cb], None)
      else (cb, [], Some BreakerOpen)
  | StateHalfOpen =>
      if cb_trialInFlight cb then (cb, [], Some BreakerTrialInFlight)
      else (set_trial true cb, [], None)
  | StateClosed => (cb, [], None)
  end.

(** The section after the action, whose error is [err]. *)
Definition Execute_leave (cb : ProxyCircuitBreaker) (now : Z) (err : option gostring)
  : ProxyCircuitBreaker * list gostring * option exec_error :=
  match err with
  | Some msg =>
      let cb := set_trial false (set_failures (cb_failures cb + 1) now cb) in
      if decide (cb_state cb = StateHalfOpen \/ cb_failures cb >= cb_threshold cb)
      then (set_state StateOpen cb, [log_open cb], Some (ActionError msg))
      else (cb, [], Some (ActionError msg))
  | None =>
      if decide (cb_state cb = StateHalfOpen)
      then (set_trial false (set_failures 0 (cb_lastFailureTime cb) (set_state StateClosed cb)),
            [log_closed cb], None)
      else (cb, [], None)
  end.

(** One caller alone: [t1] and [t2] are the two clock readings. *)
Definition Execute (cb : ProxyCircuitBreaker) (t1 t2 : Z) (action : option gostring)
  : ProxyCircuitBreaker * list gostring * option exec_error :=
  match Execute_enter cb t1 with
  | (cb, l, Some e) => (cb, l, Some e)
  | (cb, l, None) =>
      let '(cb, l', r) := Execute_leave cb t2 action in (cb, l ++ l', r)
  end.

(** ** Concurrent callers *)

Record sys := { s_cb : ProxyCircuitBreaker; s_now : Z; s_running : list nat }.

Inductive event : Type :=
| Begin (id : nat) (t : Z)                        (* admitted: the action starts *)
| Reject (id : nat) (t : Z) (e : exec_error)      (* early return *)
| End_ (id : nat) (t : Z) (err : option gostring) (* the action returned *)
| Vanish (id : nat)                               (* the action panicked *)
| Tick (t : Z).

Inductive step : sys -> event -> sys -> Prop :=
| step_begin s id cb l :
    id ∉ s_running s -> Execute_enter (s_cb s) (s_now s) = (cb, l, None) ->
    step s (Begin id (s_now s)) {| s_cb := cb; s_now := s_now s; s_running := id :: s_running s |}
| step_reject s id cb l e :
    id ∉ s_running s -> Execute_enter (s_cb s) (s_now s) = (cb, l, Some e) ->
    step s (Reject id (s_now s) e) {| s_cb := cb; s_now := s_now s; s_running := s_running s |}
| step_end s id err cb l r l1 l2 :
    s_running s = l1 ++ id :: l2 -> Execute_leave (s_cb s) (s_now s) err = (cb, l, r) ->
    step s (End_ id (s_now s) err) {| s_cb := cb; s_now := s_now s; s_running := l1 ++ l2 |}
| step_vanish s id l1 l2 :
    s_running s = l1 ++ id :: l2 ->
    step s (Vanish id) {| s_cb := s_cb s; s_now := s_now s; s_running := l1 ++ l2 |}
| step_tick s t :
    s_now s <= t ->
    step s (Tick t) {| s_cb := s_cb s; s_now := t; s_running := s_running s |}.

Inductive steps : sys -> list event -> sys -> Prop :=
| steps_nil s : steps s [] s
| steps_cons s e s1 tr s2 : step s e s1 -> steps s1 tr s2 -> steps s (e :: tr) s2.

Definition init (host : gostring) (t : Z) : sys :=
  {| s_cb := NewProxyCircuitBreaker host; s_now := t; s_running := [] |}.

Definition is_begin (e : event) : bool := match e with Begin _ _ => true | _ => false end.
Definition is_reject (e : event) : bool := match e with Reject _ _ _ => true | _ => false end.
Definition is_end (e : event) : bool := match e with End_ _ _ _ => true | _ => false end.
Definition is_failed (e : event) : bool := match e with End_ _ _ (Some _) => true | _ => false end.
Definition event_time (e : event) : option Z :=
  match e with Begin _ t | Reject _ t _ | End_ _ t _ | Tick t => Some t | Vanish _ => None end.

(** Number of failed completions of a trace. *)
Fixpoint count_failed (tr : list event) : Z :=
  match tr with [] => 0 | e :: tr => (if is_failed e then 1 else 0) + count_failed tr end.

(** ** Invariant *)

Record breaker_inv (cb : ProxyCircuitBreaker) : Prop := {
  bi_trial : cb_trialInFlight cb = true <-> cb_state cb = StateHalfOpen;
  bi_closed : cb_state cb = StateClosed <-> cb_failures cb < cb_threshold cb;
  bi_count : 0 <= cb_failures cb;
  bi_thr : 0 < cb_threshold cb;
}.

Ltac breaker :=
  unfold Execute_enter, Execute_leave, set_trial, set_failures, set_state in *;
  repeat (simplify_eq/=; try case_decide; try case_match);
  simplify_eq/=.

Lemma enter_inv cb now cb' l r :
  Execute_enter cb now = (cb', l, r) -> breaker_inv cb -> breaker_inv cb'.
Proof.
  intros E [Ht Hc Hn Hp]. destruct cb as [st n t thr rt h tr]. simpl in *.
  destruct st; breaker; (split; simpl; try done); naive_solver lia.
Qed.

Lemma leave_inv cb now err cb' l r :
  Execute_leave cb now err = (cb', l, r) -> breaker_inv cb -> breaker_inv cb'.
Proof.
  intros E [Ht Hc Hn Hp]. destruct cb as [st n t thr rt h tr]. simpl in *.
  destruct err; breaker; (split; simpl; try done); destruct st; naive_solver lia.
Qed.

Lemma step_inv s e s' : step s e s' -> breaker_inv (s_cb s) -> breaker_inv (s_cb s').
Proof. destruct 1; simpl; eauto using enter_inv, leave_inv. Qed.

Lemma steps_inv s tr s' : steps s tr s' -> breaker_inv (s_cb s) -> breaker_inv (s_cb s').
Proof. induction 1; eauto using step_inv. Qed.

Lemma new_inv h : breaker_inv (NewProxyCircuitBreaker h).
Proof. split; simpl; naive_solver lia. Qed.

(** Whatever the interleaving of callers, clock, failing and panicking actions, in every
    reachable state the flag for a trial is set exactly when the breaker is half-open
    (the action of that trial may have panicked, or a call admitted earlier may still be
    running), and the breaker is closed exactly when fewer failures than the threshold
    are counted. *)
Theorem breaker_invariant h t tr s :
  steps (init h t) tr s ->
  (cb_trialInFlight (s_cb s) = true <-> cb_state (s_cb s) = StateHalfOpen) /\
  (cb_state (s_cb s) = StateClosed <-> cb_failures (s_cb s) < cb_threshold (s_cb s)).
Proof.
  intros H. apply steps_inv in H as [Ht Hc _ _]; [done|apply new_inv].
Qed.

(** ** Behaviour of the sections *)

Lemma enter_static cb now cb' l r :
  Execute_enter cb now = (cb', l, r) ->
  cb_failures cb' = cb_failures cb /\ cb_lastFailureTime cb' = cb_lastFailureTime cb /\
  cb_threshold cb' = cb_threshold cb /\ cb_resetTimeout cb' = cb_resetTimeout cb.
Proof. intros E. destruct cb as [[]]; breaker; done. Qed.

Lemma leave_static cb now err cb' l r :
  Execute_leave cb now err = (cb', l, r) ->
  cb_threshold cb' = cb_threshold cb /\ cb_resetTimeout cb' = cb_resetTimeout cb.
Proof. intros E. destruct cb as [[]], err; breaker; done. Qed.

Lemma leave_open cb now err cb' l r :
  cb_state cb = StateOpen -> breaker_inv cb -> cb_lastFailureTime cb <= now ->
  Execute_leave cb now err = (cb', l, r) ->
  cb_state cb' = StateOpen /\ cb_lastFailureTime cb <= cb_lastFailureTime cb' <= now.
Proof.
  intros Ho [_ Hc _ _] Ht E. destruct cb as [[]], err; breaker; naive_solver lia.
Qed.

Lemma enter_open cb now cb' l r :
  cb_state cb = StateOpen -> Execute_enter cb now = (cb', l, r) ->
  (now - cb_lastFailureTime cb > cb_resetTimeout cb /\ r = None /\ cb_state cb' = StateHalfOpen) \/
  (now - cb_lastFailureTime cb <= cb_resetTimeout cb /\ r = Some BreakerOpen /\ cb' = cb).
Proof. intros Ho E. destruct cb as [[]]; breaker; [left|right]; split_and!; by (done || lia). Qed.

(** The clock only moves forward, and so does the last failure. *)
Definition clock_inv (s : sys) : Prop :=
  cb_state (s_cb s) <> StateClosed -> cb_lastFailureTime (s_cb s) <= s_now s.

Lemma step_clock s e s' : step s e s' -> clock_inv s -> clock_inv s' /\ s_now s <= s_now s'.
Proof.
  unfold clock_inv. destruct 1; simpl; intros Hc; (split; [|lia]).
  1-2: destruct (s_cb s) as [[]]; breaker; naive_solver.
  - destruct (s_cb s) as [[]], err; breaker; naive_solver lia.
  - done.
  - intros Hn. specialize (Hc Hn). lia.
Qed.

Lemma steps_now s tr s' e t :
  steps s tr s' -> In e tr -> event_time e = Some t -> s_now s <= t.
Proof.
  induction 1 as [s|s e0 s1 tr s2 Hs _ IH]; [done|]. intros [->|Hin] Ht.
  - destruct Hs; simplify_eq/=; lia.
  - specialize (IH Hin Ht). assert (s_now s <= s_now s1) by (destruct Hs; simpl; lia). lia.
Qed.

Lemma open_no_begin s tr s' id t :
  steps s tr s' -> cb_state (s_cb s) = StateOpen -> breaker_inv (s_cb s) -> clock_inv s ->
  In (Begin id t) tr -> t > cb_lastFailureTime (s_cb s) + cb_resetTimeout (s_cb s).
Proof.
  intros H. induction H as [s|s e s1 tr s2 Hs Hr IH]; [done|]. intros Ho Hi Hk Hin.
  pose proof (step_inv _ _ _ Hs Hi) as Hi1. pose proof (step_clock _ _ _ Hs Hk) as [Hk1 _].
  assert (cb_lastFailureTime (s_cb s) <= s_now s) as Hl by (apply Hk; congruence).
  destruct Hs as [s id0 cb l Hf E|s id0 cb l e Hf E|s id0 err cb l r l1 l2 Hrun E|s id0 l1 l2 Hrun|s t0 Ht]; simpl in *.
  - apply (enter_open _ _ _ _ _ Ho) in E as [(Hlt & _)|(_ & ? & _)]; [|done].
    assert (s_now s <= t); [|lia]. destruct Hin as [[= _ <-]|Hin]; [lia|].
    by eapply (steps_now _ _ _ (Begin id t) t Hr).
  - destruct Hin as [?|Hin]; [done|]. apply (enter_open _ _ _ _ _ Ho) in E as [(_ & ? & _)|(_ & _ & ->)]; [done|].
    by apply IH.
  - destruct Hin as [?|Hin]; [done|]. pose proof (leave_static _ _ _ _ _ _ E) as [_ Hst].
    apply (leave_open _ _ _ _ _ _ Ho Hi Hl) in E as [Ho1 Hle]. specialize (IH Ho1 Hi1 Hk1 Hin). lia.
  - destruct Hin as [?|Hin]; [done|]. by apply IH.
  - destruct Hin as [?|Hin]; [done|]. by apply IH.
Qed.

(** C30: Fail fast: once the breaker is open, no caller's action is started before the
    reset timeout has passed since the last failure, in any interleaving that
    continues from there. *)
Theorem open_fails_fast h t0 tr0 s tr s' id t :
  steps (init h t0) tr0 s -> cb_state (s_cb s) = StateOpen ->
  steps s tr s' -> In (Begin id t) tr ->
  t > cb_lastFailureTime (s_cb s) + cb_resetTimeout (s_cb s).
Proof.
  intros H0 Ho H1 Hin. eapply open_no_begin; eauto.
  - eapply steps_inv; [done|apply new_inv].
  - assert (forall a tr b, steps a tr b -> clock_inv a -> clock_inv b) as Hc.
    { induction 1 as [|??? ?? Hs]; [done|]. intros Hk. apply step_clock in Hs as [Hk1 _]; eauto. }
    eapply Hc; [done|]. intros Hn. by destruct Hn.
Qed.

(** What others see while a trial is undecided: nobody is admitted, and a caller that is
    turned away is told that a trial is in flight. *)
Definition refused_meanwhile (e : event) : Prop :=
  match e with Begin _ _ => False | Reject _ _ err => err = BreakerTrialInFlight | _ => True end.

Lemma trial_holds s tr s' :
  steps s tr s' -> cb_state (s_cb s) = StateHalfOpen -> cb_trialInFlight (s_cb s) = true ->
  forallb (fun e => negb (is_end e)) tr = true -> Forall refused_meanwhile tr /\ s_cb s' = s_cb s.
Proof.
  induction 1 as [s|s e s1 tr s2 Hs Hr IH]; [done|]. intros Hh Ht Hne. simpl in Hne.
  apply andb_prop in Hne as [Hne Hne'].
  assert (refused_meanwhile e /\ s_cb s1 = s_cb s) as [He Es].
  { destruct Hs as [s id0 cb l Hf E|s id0 cb l e Hf E| | |]; simpl in *; try done;
      unfold Execute_enter in E; rewrite Hh, Ht in E; by simplify_eq. }
  rewrite Es in IH. destruct IH as [Hall Ec]; [done..|]. split; [by constructor|done].
Qed.

(** C29: One trial at a time, in every interleaving of callers, clock, failing and
    panicking actions: when a breaker that is not closed admits a caller, it becomes
    half-open, and until the action of some admitted call returns (the trial's, or that of
    a call admitted before the breaker opened) nobody else is admitted, every caller that
    is turned away is told that a trial is in flight, and the breaker does not change. *)
Theorem single_trial h t0 tr0 s id t s1 tr s2 :
  steps (init h t0) tr0 s -> cb_state (s_cb s) <> StateClosed -> step s (Begin id t) s1 ->
  steps s1 tr s2 -> forallb (fun e => negb (is_end e)) tr = true ->
  cb_state (s_cb s1) = StateHalfOpen /\ Forall refused_meanwhile tr /\ s_cb s2 = s_cb s1.
Proof.
  intros H0 Hc Hb H1 Hne. apply steps_inv in H0; [|apply new_inv].
  assert (cb_state (s_cb s1) = StateHalfOpen /\ cb_trialInFlight (s_cb s1) = true) as [Hh Ht].
  { inversion Hb as [? ? cb l Hf E| | | |]; subst. simpl. unfold Execute_enter in E.
    destruct (cb_state (s_cb s)) eqn:Es; [done| |].
    - case_decide; [|done]. by simplify_eq.
    - case_match; [done|]. by simplify_eq. }
  split; [done|]. by eapply trial_holds.
Qed.

(** No spurious outage: a breaker that is closed with [f] failures counted turns
    nobody away and stays closed as long as fewer than [threshold - f] further
    actions fail. *)
Theorem closed_below_threshold h t0 tr0 s tr s' :
  steps (init h t0) tr0 s -> cb_state (s_cb s) = StateClosed ->
  steps s tr s' -> cb_failures (s_cb s) + count_failed tr < cb_threshold (s_cb s) ->
  cb_state (s_cb s') = StateClosed /\
  cb_failures (s_cb s') = cb_failures (s_cb s) + count_failed tr /\
  forallb (fun e => negb (is_reject e)) tr = true.
Proof.
  intros _ Hc H. revert Hc. induction H as [s|s e s1 tr s2 Hs Hr IH]; [simpl; intros; split_and!; by (done || lia)|].
  intros Hc Hlt. assert (0 <= count_failed tr) as Hpos.
  { clear. induction tr as [|e tr IH]; simpl; [done|]. destruct (is_failed e); lia. }
  destruct Hs as [s id0 cb l Hf E|s id0 cb l e Hf E|s id0 err cb l r l1 l2 Hrun E|s id0 l1 l2 Hrun|s t1 Hle];
    simpl in *.
  1-2: unfold Execute_enter in E; rewrite Hc in E; simplify_eq; rewrite Z.add_0_l in *; by apply IH.
  - unfold Execute_leave in E. destruct err as [m|]; simpl in *.
    + rewrite decide_False in E by (rewrite Hc; intros [?|?]; [done|lia]). simplify_eq/=.
      destruct IH as (?&?&?); [done|lia|]. split_and!; [done|lia|done].
    + rewrite decide_False in E by (by rewrite Hc). simplify_eq. rewrite Z.add_0_l in *. by apply IH.
  - rewrite Z.add_0_l in *. by apply IH.
  - rewrite Z.add_0_l in *. by apply IH.
Qed.

(** Recovery, for a caller alone: an open breaker whose timeout has passed runs
    one trial; success closes it with the count reset, failure opens it again with
    the time of that failure. *)
Theorem Execute_recovery cb t1 t2 action :
  cb_state cb = StateOpen -> t1 - cb_lastFailureTime cb > cb_resetTimeout cb ->
  let '(cb', _, r) := Execute cb t1 t2 action in
  cb_trialInFlight cb' = false /\
  match action with
  | None => r = None /\ cb_state cb' = StateClosed /\ cb_failures cb' = 0
  | Some m => r = Some (ActionError m) /\ cb_state cb' = StateOpen /\
              cb_lastFailureTime cb' = t2 /\ cb_failures cb' = cb_failures cb + 1
  end.
Proof.
  intros Ho Ht. unfold Execute, Execute_enter. rewrite Ho, decide_True by done.
  destruct action; simpl; split_and!; done.
Qed.

(** A panicking trial is never forgotten: from a reachable half-open state with no
    action running, every later caller is turned away, for ever. *)
Theorem half_open_stuck h t0 tr0 s tr s' :
  steps (init h t0) tr0 s -> cb_state (s_cb s) = StateHalfOpen -> s_running s = [] ->
  steps s tr s' ->
  forallb (fun e => negb (is_begin e)) tr = true /\ cb_state (s_cb s') = StateHalfOpen /\ s_running s' = [].
Proof.
  intros H0 Hh Hrun H1. apply steps_inv in H0; [|apply new_inv]. revert Hh Hrun H0.
  induction H1 as [s|s e s1 tr s2 Hs Hr IH]; [done|]. intros Hh Hrun Hi.
  pose proof (step_inv _ _ _ Hs Hi) as Hi1. assert (cb_trialInFlight (s_cb s) = true) as Ht by by apply Hi.
  destruct Hs as [s id0 cb l Hf E|s id0 cb l e Hf E|s id0 err cb l r l1 l2 Hr1 E|s id0 l1 l2 Hr1|s t1 Hle];
    simpl in *.
  1-2: unfold Execute_enter in E; rewrite Hh, Ht in E; simplify_eq; by apply IH.
  1-2: rewrite Hrun in Hr1; by destruct l1.
  by apply IH.
Qed.

(** ** Running a schedule *)

Inductive command : Type := Enter (id : nat) | Leave (id : nat) (err : option gostring) | Crash (id : nat) | Clock (t : Z).

(** [take_out id l] splits [l] at the first [id]. *)
Fixpoint take_out (id : nat) (l : list nat) : option (list nat * list nat) :=
  match l with
  | [] => None
  | x :: l => if decide (x = id) then Some ([], l)
              else '(a, b) ← take_out id l; Some (x :: a, b)
  end.

Definition exec (s : sys) (c : command) : option (event * sys) :=
  match c with
  | Enter id =>
      if decide (id ∈ s_running s) then None else
      match Execute_enter (s_cb s) (s_now s) with
      | (cb, _, None) => Some (Begin id (s_now s), {| s_cb := cb; s_now := s_now s; s_running := id :: s_running s |})
      | (cb, _, Some e) => Some (Reject id (s_now s) e, {| s_cb := cb; s_now := s_now s; s_running := s_running s |})
      end
  | Leave id err =>
      '(a, b) ← take_out id (s_running s);
      let '(cb, _, _) := Execute_leave (s_cb s) (s_now s) err in
      Some (End_ id (s_now s) err, {| s_cb := cb; s_now := s_now s; s_running := a ++ b |})
  | Crash id =>
      '(a, b) ← take_out id (s_running s);
      Some (Vanish id, {| s_cb := s_cb s; s_now := s_now s; s_running := a ++ b |})
  | Clock t => if decide (s_now s <= t) then Some (Tick t, {| s_cb := s_cb s; s_now := t; s_running := s_running s |}) else None
  end.

Fixpoint run (s : sys) (cs : list command) : option (list event * sys) :=
  match cs with
  | [] => Some ([], s)
  | c :: cs => '(e, s1) ← exec s c; '(tr, s2) ← run s1 cs; Some (e :: tr, s2)
  end.

Lemma take_out_split id l a b : take_out id l = Some (a, b) -> l = a ++ id :: b.
Proof.
  revert a b. induction l as [|x l IH]; intros a b H; simpl in H; [done|]. case_decide; simplify_eq/=; [done|].
  destruct (take_out id l) as [[a' b']|] eqn:E; simplify_eq/=. f_equal. by apply IH.
Qed.

Lemma exec_step s c e s' : exec s c = Some (e, s') -> step s e s'.
Proof.
  destruct c as [id|id err|id|t]; simpl; intros H.
  - case_decide; [done|]. destruct (Execute_enter _ _) as [[cb l] [r|]] eqn:E; simplify_eq; by econstructor.
  - destruct (take_out id _) as [[a b]|] eqn:E1; simplify_eq/=.
    destruct (Execute_leave _ _ _) as [[cb l] r] eqn:E; simplify_eq. econstructor; [|done]. by apply take_out_split.
  - destruct (take_out id _) as [[a b]|] eqn:E1; simplify_eq/=. constructor. by apply take_out_split.
  - case_decide; simplify_eq. by constructor.
Qed.

Lemma run_steps s cs tr s' : run s cs = Some (tr, s') -> steps s tr s'.
Proof.
  revert s tr s'. induction cs as [|c cs IH]; intros s tr s' H; simpl in H; simplify_eq/=; [constructor|].
  destruct (exec s c) as [[e s1]|] eqn:E; simplify_eq/=.
  destruct (run s1 cs) as [[tr1 s2]|] eqn:E1; simplify_eq/=. econstructor; [by apply exec_step in E|]. by apply IH.
Qed.

Definition boom : option gostring := Some (gs "boom").
Definition five_failures : list command :=
  [Enter 1; Leave 1 boom; Enter 2; Leave 2 boom; Enter 3; Leave 3 boom; Enter 4; Leave 4 boom; Enter 5; Leave 5 boom].
Definition demo (cs : list command) : list event * sys :=
  default ([], init (gs "h") 7) (run (init (gs "h") 7) cs).
Definition demo2 (cs ds : list command) : list event * sys :=
  default ([], init (gs "h") 7) (run (demo cs).2 ds).

Lemma demo_steps cs : run (init (gs "h") 7) cs <> None -> steps (init (gs "h") 7) (demo cs).1 (demo cs).2.
Proof. unfold demo. destruct (run _ cs) as [[tr s]|] eqn:E; [|done]. intros _. by apply run_steps in E. Qed.

Lemma demo2_steps cs ds : run (demo cs).2 ds <> None -> steps (demo cs).2 (demo2 cs ds).1 (demo2 cs ds).2.
Proof. unfold demo2. destruct (run _ ds) as [[tr s]|] eqn:E; [|done]. intros _. by apply run_steps in E. Qed.

Ltac demo := (apply demo_steps || apply demo2_steps); vm_compute; discriminate.

Definition half_open : list command := five_failures ++ [Clock (7 + 11 * second); Enter 6].

Lemma breaker_invariant_witness : cb_trialInFlight (s_cb (demo half_open).2) = true.
Proof.
  apply (breaker_invariant (gs "h") 7 (demo half_open).1); [demo|vm_compute; reflexivity].
Defined.

Lemma open_fails_fast_witness : 7 + 11 * second > 7 + 10 * second.
Proof.
  apply (open_fails_fast (gs "h") 7 (demo five_failures).1 (demo five_failures).2
    (demo2 five_failures [Enter 9; Clock (7 + 11 * second); Enter 6]).1
    (demo2 five_failures [Enter 9; Clock (7 + 11 * second); Enter 6]).2 6).
  - demo.
  - vm_compute; reflexivity.
  - demo.
  - vm_compute. tauto.
Defined.

(** Five failures, a trial after the timeout, and two callers meanwhile, one of them
    much later. *)
Lemma single_trial_witness :
  s_cb (demo2 half_open [Enter 7; Clock (7 + 90 * second); Enter 8]).2 = s_cb (demo half_open).2 /\
  length (demo2 half_open [Enter 7; Clock (7 + 90 * second); Enter 8]).1 = 3%nat.
Proof.
  split; [|vm_compute; reflexivity].
  apply (single_trial (gs "h") 7 (demo (five_failures ++ [Clock (7 + 11 * second)])).1
    (demo (five_failures ++ [Clock (7 + 11 * second)])).2 6 (7 + 11 * second) (demo half_open).2
    (demo2 half_open [Enter 7; Clock (7 + 90 * second); Enter 8]).1).
  - demo.
  - vm_compute; discriminate.
  - apply (exec_step _ (Enter 6)). vm_compute; reflexivity.
  - demo.
  - vm_compute; reflexivity.
Defined.

Lemma closed_below_threshold_witness :
  cb_failures (s_cb (demo2 [Enter 1; Leave 1 boom] [Enter 2; Enter 3; Leave 2 boom; Leave 3 None]).2) = 2.
Proof.
  apply (closed_below_threshold (gs "h") 7 (demo [Enter 1; Leave 1 boom]).1 (demo [Enter 1; Leave 1 boom]).2
    (demo2 [Enter 1; Leave 1 boom] [Enter 2; Enter 3; Leave 2 boom; Leave 3 None]).1);
    [demo|vm_compute; reflexivity|demo|vm_compute; reflexivity].
Defined.

Lemma Execute_recovery_witness :
  cb_failures (Execute (s_cb (demo five_failures).2) (20 * second) (21 * second) None).1.1 = 0.
Proof.
  pose proof (Execute_recovery (s_cb (demo five_failures).2) (20 * second) (21 * second) None ltac:(vm_compute; reflexivity) ltac:(vm_compute; reflexivity)) as H.
  destruct (Execute _ _ _ _) as [[cb l] r]. apply H.
Defined.

Lemma half_open_stuck_witness :
  cb_state (s_cb (demo2 (half_open ++ [Crash 6]) [Clock (900 * second); Enter 7]).2) = StateHalfOpen.
Proof.
  apply (half_open_stuck (gs "h") 7 (demo (half_open ++ [Crash 6])).1 (demo (half_open ++ [Crash 6])).2
    (demo2 (half_open ++ [Crash 6]) [Clock (900 * second); Enter 7]).1);
    [demo|vm_compute; reflexivity|vm_compute; reflexivity|demo].
Defined.

(** A call that was admitted while the breaker was closed and returns late closes
    a half-open breaker although its own trial still runs: the second section does
    not check which call it belongs to. *)
Theorem stale_success_closes :
  exists tr s tr' s',
    steps (init (gs "h") 7) tr s /\ cb_state (s_cb s) = StateHalfOpen /\ s_running s = (6 :: 0 :: nil)%nat /\
    steps s tr' s' /\ cb_state (s_cb s') = StateClosed /\ s_running s' = (6 :: nil)%nat.
Proof.
  exists (demo (Enter 0 :: half_open)).1, (demo (Enter 0 :: half_open)).2.
  exists (demo2 (Enter 0 :: half_open) [Leave 0 None]).1, (demo2 (Enter 0 :: half_open) [Leave 0 None]).2.
  split_and!; try (vm_compute; reflexivity); [demo|demo].
Qed.
