(* ===== verification/RateLimiter.v ===== *)
(** * The per-client rate limiter ([pkg/dns/ratelimiter.go])

    The bucket table is a Go map: [None] is the nil map that [Destroy] leaves
    behind, and the order in which [range] visits the keys is an argument of the
    operations that iterate.  The specification is one fixed-window counter per
    client, with no bound on the number of clients. *)
From S2P Require Import Prelude.

(** [ResetTime] is in nanoseconds, as are the clock readings. *)
Record IpBucket := { Count : Z; ResetTime : Z }.

Record RateLimiter := {
  buckets : option (gmap gostring IpBucket);
  maxRequests : Z;
  window : Z;
  maxTrackedIps : Z;
  stopped : bool; (* [stopChan] is closed *)
}.

Definition millisecond : Z := 1000000.

Definition NewRateLimiter (maxRequests windowMs maxTrackedIps : Z) : RateLimiter :=
  let maxTrackedIps := if decide (maxTrackedIps <= 0) then 100000 else maxTrackedIps in
  {| buckets := Some ∅; maxRequests := maxRequests; window := windowMs * millisecond;
     maxTrackedIps := maxTrackedIps; stopped := false |}.

Definition with_buckets (rl : RateLimiter) (m : option (gmap gostring IpBucket)) : RateLimiter :=
  {| buckets := m; maxRequests := maxRequests rl; window := window rl;
     maxTrackedIps := maxTrackedIps rl; stopped := stopped rl |}.

(** [close] of a closed channel panics. *)
Definition Destroy (rl : RateLimiter) : go RateLimiter :=
  if stopped rl then Panic
  else Ret {| buckets := None; maxRequests := maxRequests rl; window := window rl;
              maxTrackedIps := maxTrackedIps rl; stopped := true |}.

Definition expired (now : Z) (b : IpBucket) : bool := bool_decide (now > ResetTime b).

(** The loop of [evictExpiredOrOldest] over the keys [order], and what follows it.
    A key that is not in the table is not visited. *)
Fixpoint evictLoop (now : Z) (m : gmap gostring IpBucket) (order : list gostring)
    (oldestKey : gostring) (oldestTime : Z) (first : bool) : gmap gostring IpBucket :=
  match order with
  | [] => if decide (oldestKey <> []) then delete oldestKey m else m
  | k :: order =>
      match m !! k with
      | None => evictLoop now m order oldestKey oldestTime first
      | Some bucket =>
          if expired now bucket then delete k m
          else if first || bool_decide (ResetTime bucket < oldestTime)
          then evictLoop now m order k (ResetTime bucket) false
          else evictLoop now m order oldestKey oldestTime first
      end
  end.

Definition evictExpiredOrOldest (now : Z) (order : list gostring) (m : gmap gostring IpBucket)
  : gmap gostring IpBucket := evictLoop now m order [] 0 true.

Definition Allow (rl : RateLimiter) (now : Z) (order : list gostring) (ip : gostring)
  : go (bool * RateLimiter) :=
  let m := default ∅ (buckets rl) in
  let fresh :=
    let m := if decide (Z.of_nat (size m) >= maxTrackedIps rl) then evictExpiredOrOldest now order m else m in
    match buckets rl with
    | None => Panic
    | Some _ => Ret (true, with_buckets rl (Some (<[ip := {| Count := 1; ResetTime := now + window rl |}]> m)))
    end in
  match m !! ip with
  | None => fresh
  | Some bucket =>
      if expired now bucket then fresh
      else if decide (Count bucket >= maxRequests rl) then Ret (false, rl)
      else Ret (true, with_buckets rl (Some (<[ip := {| Count := Count bucket + 1; ResetTime := ResetTime bucket |}]> m)))
  end.

Definition garbageCollect (rl : RateLimiter) (now : Z) : RateLimiter :=
  with_buckets rl (filter (fun kb => expired now kb.2 = false) <$> buckets rl).

(** ** Eviction *)

(** [covers order m]: the iteration visits every key. *)
Definition covers (order : list gostring) (m : gmap gostring IpBucket) : Prop :=
  forall k, k ∈ dom m -> k ∈ order.

(** What one eviction removes: an expired bucket if there is one, otherwise one
    that expires first. *)
Definition evictable (now : Z) (m : gmap gostring IpBucket) (k : gostring) : Prop :=
  exists b, m !! k = Some b /\
    (expired now b = true \/
     forall k' b', m !! k' = Some b' -> expired now b' = false /\ ResetTime b <= ResetTime b').

Lemma evictLoop_spec (now : Z) (m : gmap gostring IpBucket) (order : list gostring) (ok : gostring) (ot : Z) (first : bool) :
  m !! ([] : gostring) = None ->
  (if first then True else exists b, m !! ok = Some b /\ ResetTime b = ot) ->
  (forall k b, m !! k = Some b -> k ∈ order \/ (expired now b = false /\ first = false /\ ot <= ResetTime b)) ->
  (first = true -> m <> ∅) ->
  exists k, evictable now m k /\ evictLoop now m order ok ot first = delete k m.
Proof.
  intros He. revert ok ot first. induction order as [|k order IH]; intros ok ot first Hok Hcov Hne; simpl.
  - destruct first.
    { destruct (map_choose m) as (k & b & Hk); [by apply Hne|].
      destruct (Hcov k b Hk) as [Hin|(_ & ? & _)]; [by apply elem_of_nil in Hin|done]. }
    destruct Hok as (b & Hb & <-). exists ok. rewrite decide_True by congruence. split; [|done].
    exists b. split; [done|]. right. intros k' b' Hk'.
    destruct (Hcov k' b' Hk') as [Hin|(? & _ & ?)]; [by apply elem_of_nil in Hin|done].
  - destruct (m !! k) as [b|] eqn:Hk.
    2:{ apply IH; [done| |done]. intros k' b' Hk'. destruct (Hcov k' b' Hk') as [Hin|?]; [|by right].
        apply elem_of_cons in Hin as [->|]; [congruence|by left]. }
    destruct (expired now b) eqn:Hx.
    { exists k. split; [|done]. exists b. auto. }
    destruct (first || bool_decide (ResetTime b < ot)) eqn:Hc.
    + apply IH; [by exists b| |done]. intros k' b' Hk'.
      destruct (Hcov k' b' Hk') as [Hin|(? & -> & ?)].
      * apply elem_of_cons in Hin as [->|]; [right; simplify_eq; split_and!; by (done || lia)|by left].
      * right. apply orb_prop in Hc as [?|Hc]; [done|]. apply bool_decide_eq_true in Hc. split_and!; by (done || lia).
    + apply orb_false_elim in Hc as [-> Hc]. apply bool_decide_eq_false in Hc. apply IH; [done| |done].
      intros k' b' Hk'. destruct (Hcov k' b' Hk') as [Hin|?]; [|by right].
      apply elem_of_cons in Hin as [->|]; [right; simplify_eq; split_and!; by (done || lia)|by left].
Qed.

Lemma evict_spec (now : Z) (order : list gostring) (m : gmap gostring IpBucket) :
  covers order m -> m !! ([] : gostring) = None -> m <> ∅ ->
  exists k, evictable now m k /\ evictExpiredOrOldest now order m = delete k m.
Proof.
  intros Hc He Hne. apply evictLoop_spec; [done|done| |done]. intros k b Hk. left. apply Hc.
  by apply elem_of_dom_2 in Hk.
Qed.

(** A full table loses exactly one bucket, whatever the iteration order of the
    map: an expired one if there is one, otherwise one that expires first. *)
Theorem evictExpiredOrOldest_spec (now : Z) (order : list gostring) (m : gmap gostring IpBucket) :
  covers order m -> m !! ([] : gostring) = None -> m <> ∅ ->
  exists k, evictable now m k /\ evictExpiredOrOldest now order m = delete k m.
Proof. apply evict_spec. Qed.

Definition demo_table : gmap gostring IpBucket :=
  {[ gs "1.1.1.1" := {| Count := 3; ResetTime := 50 |}; gs "2.2.2.2" := {| Count := 1; ResetTime := 40 |} ]}.

Lemma evictExpiredOrOldest_spec_witness :
  exists k, evictable 30 demo_table k /\
    evictExpiredOrOldest 30 [gs "1.1.1.1"; gs "2.2.2.2"] demo_table = delete k demo_table.
Proof.
  apply (evictExpiredOrOldest_spec 30 [gs "1.1.1.1"; gs "2.2.2.2"] demo_table); [|reflexivity|done].
  intros k Hk. unfold demo_table in Hk. rewrite !dom_insert_L in Hk. set_solver.
Defined.

(** ** Bounded memory *)

Record limiter_ok (rl : RateLimiter) (m : gmap gostring IpBucket) : Prop := {
  lo_buckets : buckets rl = Some m;
  lo_max : 0 < maxTrackedIps rl;
  lo_size : Z.of_nat (size m) <= maxTrackedIps rl;
  lo_empty : m !! ([] : gostring) = None;
}.

Lemma size_insert_le (m : gmap gostring IpBucket) k b : Z.of_nat (size (<[k:=b]> m)) <= Z.of_nat (size m) + 1.
Proof. rewrite map_size_insert. destruct (m !! k); simpl; lia. Qed.

(** The table never holds more than [maxTrackedIps] clients, and [Allow] does not
    panic, for every client text other than the empty one and every iteration
    order. *)
Theorem Allow_bounded rl m now order ip :
  limiter_ok rl m -> covers order m -> ip <> [] ->
  exists r rl' m', Allow rl now order ip = Ret (r, rl') /\ limiter_ok rl' m'.
Proof.
  intros [Hb Hm Hs He] Hc Hip. unfold Allow. rewrite Hb. simpl.
  set (nb := {| Count := 1; ResetTime := now + window rl |}).
  assert (exists rl' m',
    (let m := if decide (Z.of_nat (size m) >= maxTrackedIps rl) then evictExpiredOrOldest now order m else m in
     @Ret (bool * RateLimiter) (true, with_buckets rl (Some (<[ip:=nb]> m)))) = Ret (true, rl') /\ limiter_ok rl' m') as Hfresh.
  { simpl. case_decide as Hfull.
    - destruct (evict_spec now order m) as (k & (b & Hk & _) & ->); [done|done| |].
      { intros ->. rewrite map_size_empty in Hfull. lia. }
      eexists _, (<[ip:=nb]> (delete k m)). split; [done|]. split; simpl; [done|done| |].
      + pose proof (size_insert_le (delete k m) ip nb) as Hle. rewrite map_size_delete_Some in Hle by (by eexists).
        assert (size m <> 0%nat) by (intros E%map_size_empty_inv; subst; done). lia.
      + by rewrite lookup_insert_ne, lookup_delete_None by done; right.
    - eexists _, (<[ip:=nb]> m). split; [done|]. split; simpl; [done|done| |].
      + pose proof (size_insert_le m ip nb). lia.
      + by rewrite lookup_insert_ne by done. }
  destruct Hfresh as (rl' & m' & Hf & Hok). destruct (m !! ip) as [b|] eqn:Hl; [|by eauto].
  destruct (expired now b); [by eauto|]. clear Hf Hok. case_decide; [exists false, rl, m; split; [done|by split]|].
  eexists _, _, _. split; [done|]. split; simpl; [done|done| |].
  - rewrite map_size_insert, Hl. done.
  - by rewrite lookup_insert_ne by done.
Qed.

Lemma Allow_bounded_witness :
  exists r rl' m',
    Allow (NewRateLimiter 2 1000 1) 5 [] (gs "1.1.1.1") = Ret (r, rl') /\ limiter_ok rl' m'.
Proof.
  apply (Allow_bounded (NewRateLimiter 2 1000 1) ∅ 5 [] (gs "1.1.1.1")); [by split|set_solver|done].
Defined.

(** ** The specification: a fixed window per client *)

(** One client: the decision and the next bucket. *)
Definition window_allow (max w now : Z) (st : option IpBucket) : bool * IpBucket :=
  match st with
  | None => (true, {| Count := 1; ResetTime := now + w |})
  | Some b =>
      if expired now b then (true, {| Count := 1; ResetTime := now + w |})
      else if decide (Count b >= max) then (false, b)
      else (true, {| Count := Count b + 1; ResetTime := ResetTime b |})
  end.

(** What happens to a limiter: requests, with the iteration order that an eviction
    would use, and runs of the garbage collector. *)
Inductive op : Type :=
| Request (now : Z) (order : list gostring) (ip : gostring)
| Collect (now : Z).
Definition op_time (o : op) : Z := match o with Request t _ _ | Collect t => t end.

Fixpoint run (rl : RateLimiter) (ops : list op) : go (list bool) :=
  match ops with
  | [] => Ret []
  | Request now order ip :: ops =>
      '(r, rl) ← Allow rl now order ip; rs ← run rl ops; Ret (r :: rs)
  | Collect now :: ops => run (garbageCollect rl now) ops
  end.

Fixpoint run_windows (max w : Z) (st : gmap gostring IpBucket) (ops : list op) : list bool :=
  match ops with
  | [] => []
  | Request now _ ip :: ops =>
      let '(r, b) := window_allow max w now (st !! ip) in r :: run_windows max w (<[ip := b]> st) ops
  | Collect _ :: ops => run_windows max w st ops
  end.

(** The clock does not go back. *)
Fixpoint ordered (t : Z) (ops : list op) : Prop :=
  match ops with [] => True | o :: ops => t <= op_time o /\ ordered (op_time o) ops end.

(** Every iteration order visits every client of [S], and requests come from [S]. *)
Definition within (S : gset gostring) (o : op) : Prop :=
  match o with Request _ order ip => ip ∈ S /\ forall k, k ∈ S -> k ∈ order | Collect _ => True end.

(** The table and the specification agree but for buckets that have expired. *)
Definition agrees (now : Z) (m st : gmap gostring IpBucket) : Prop :=
  forall k, m !! k = st !! k \/ (m !! k = None /\ exists b, st !! k = Some b /\ expired now b = true).

Lemma expired_later now now' b : now <= now' -> expired now b = true -> expired now' b = true.
Proof. unfold expired. rewrite !bool_decide_eq_true. lia. Qed.

Lemma agrees_later now now' m st : now <= now' -> agrees now m st -> agrees now' m st.
Proof. intros Hle H k. destruct (H k) as [?|(? & b & ? & ?)]; [by left|]. right. eauto using expired_later. Qed.

Lemma evictLoop_expired now m order ok ot first k b :
  k ∈ order -> m !! k = Some b -> expired now b = true ->
  exists k' b', evictLoop now m order ok ot first = delete k' m /\ m !! k' = Some b' /\ expired now b' = true.
Proof.
  revert ok ot first. induction order as [|x order IH]; intros ok ot first Hin Hk Hx; [by apply elem_of_nil in Hin|].
  simpl. apply elem_of_cons in Hin. destruct (m !! x) as [bx|] eqn:Ex.
  - destruct (expired now bx) eqn:E; [by eauto|].
    destruct Hin as [->|Hin]; [congruence|]. case_match; by apply IH.
  - destruct Hin as [->|Hin]; [congruence|]. by apply IH.
Qed.

Lemma agrees_insert now m st k b : agrees now m st -> agrees now (<[k:=b]> m) (<[k:=b]> st).
Proof.
  intros H x. destruct (decide (x = k)) as [->|Hne]; [left; by rewrite !lookup_insert_eq|].
  rewrite !lookup_insert_ne by done. apply H.
Qed.

Lemma agrees_delete now m st k b :
  agrees now m st -> m !! k = Some b -> expired now b = true -> agrees now (delete k m) st.
Proof.
  intros H Hk Hx x. destruct (decide (x = k)) as [->|Hne].
  - right. rewrite lookup_delete_eq. split; [done|]. destruct (H k) as [E|(? & _)]; [|congruence].
    exists b. by rewrite <- E.
  - rewrite lookup_delete_ne by done. apply H.
Qed.

Lemma agrees_collect now m st :
  agrees now m st -> agrees now (filter (fun kb => expired now kb.2 = false) m) st.
Proof.
  intros H x. destruct (m !! x) as [b|] eqn:E.
  - destruct (expired now b) eqn:Hx.
    + right. split; [apply map_lookup_filter_None; right; intros b' ? ?; simpl in *; congruence|].
      exists b. destruct (H x) as [E1|(? & _)]; [|congruence]. by rewrite <- E1.
    + left. destruct (H x) as [E1|(? & _)]; [|congruence]. rewrite <- E1, E. by apply map_lookup_filter_Some.
  - rewrite (proj2 (map_lookup_filter_None _ m x)) by auto. destruct (H x) as [E1|E1]; [|right; naive_solver].
    left. congruence.
Qed.

(** One request: same decision, and the agreement is kept. *)
Lemma Allow_agrees (S : gset gostring) rl m st now order ip :
  buckets rl = Some m -> dom m ⊆ S -> Z.of_nat (size S) <= maxTrackedIps rl ->
  ip ∈ S -> (forall k, k ∈ S -> k ∈ order) -> agrees now m st ->
  exists rl' m', Allow rl now order ip = Ret ((window_allow (maxRequests rl) (window rl) now (st !! ip)).1, rl') /\
    rl' = with_buckets rl (Some m') /\ dom m' ⊆ S /\
    agrees now m' (<[ip := (window_allow (maxRequests rl) (window rl) now (st !! ip)).2]> st).
Proof.
  intros Hb Hdom Hsz Hip Hord Hag. unfold Allow. rewrite Hb. simpl.
  set (nb := {| Count := 1; ResetTime := now + window rl |}).
  destruct (m !! ip) as [b|] eqn:E.
  - assert (st !! ip = Some b) as Est by (destruct (Hag ip) as [<-|(? & _)]; [done|congruence]).
    rewrite Est. simpl. destruct (expired now b) eqn:Hx; simpl.
    + case_decide as Hfull.
      * destruct (evictLoop_expired now m order [] 0 true ip b) as (k & bk & Ek & Hk & Hxk); [by auto..|].
        unfold evictExpiredOrOldest. rewrite Ek. eexists _, _. split; [done|]. split; [done|]. split.
        -- rewrite dom_insert, dom_delete. set_solver.
        -- apply agrees_insert. by eapply agrees_delete.
      * eexists _, _. split; [done|]. split; [done|]. split; [|by apply agrees_insert].
        rewrite dom_insert. set_solver.
    + case_decide; simpl.
      * exists rl, m. split; [done|]. split; [unfold with_buckets; destruct rl; simpl in *; congruence|]. split; [done|].
        by rewrite insert_id.
      * eexists _, _. split; [done|]. split; [done|]. split; [|by apply agrees_insert].
        rewrite dom_insert. set_solver.
  - assert (window_allow (maxRequests rl) (window rl) now (st !! ip) = (true, nb)) as ->.
    { destruct (Hag ip) as [<-|(_ & b & -> & Hx)]; simpl; [by rewrite E|by rewrite Hx]. }
    simpl. rewrite decide_False.
    2:{ assert (dom m ⊂ S) as Hlt%subset_size by (apply not_elem_of_dom in E; set_solver).
        rewrite size_dom in Hlt. lia. }
    eexists _, _. split; [done|]. split; [done|]. split; [|by apply agrees_insert]. rewrite dom_insert. set_solver.
Qed.

Lemma run_windows_ext (S : gset gostring) rl m st t ops :
  buckets rl = Some m -> dom m ⊆ S -> Z.of_nat (size S) <= maxTrackedIps rl ->
  Forall (within S) ops -> ordered t ops -> agrees t m st ->
  run rl ops = Ret (run_windows (maxRequests rl) (window rl) st ops).
Proof.
  revert rl m st t. induction ops as [|o ops IH]; intros rl m st t Hb Hdom Hsz Hw Ho Hag; [done|].
  apply Forall_cons_1 in Hw as [Hw Hws]. destruct Ho as [Hle Ho].
  apply (agrees_later _ _ _ _ Hle) in Hag. destruct o as [now order ip|now]; simpl in *.
  - destruct Hw as [Hip Hord].
    destruct (Allow_agrees S rl m st now order ip) as (rl' & m' & -> & -> & Hd & Ha); [done..|]. simpl.
    destruct (window_allow _ _ _ _) as [r b]. simpl in *.
    by rewrite (IH (with_buckets rl (Some m')) m' (<[ip:=b]> st) now).
  - unfold garbageCollect. rewrite Hb. simpl. eapply (IH (with_buckets rl (Some _)) _ st now); try done.
    + etrans; [apply dom_filter_subseteq|done].
    + by apply agrees_collect.
Qed.

(** ** The rate that the windows enforce *)

(** Number of requests of [ip] in the interval [[lo, hi]] that were allowed. *)
Fixpoint admitted (ip : gostring) (lo hi : Z) (ops : list op) (rs : list bool) : Z :=
  match ops, rs with
  | Collect _ :: ops, rs => admitted ip lo hi ops rs
  | Request now _ ip' :: ops, r :: rs =>
      (if r && bool_decide (ip' = ip /\ lo <= now <= hi) then 1 else 0) + admitted ip lo hi ops rs
  | _, _ => 0
  end.

Section Rate.
Context (max w : Z) (Hw : 0 <= w) (ip : gostring).

Let M := Z.max 1 max.
Definition live (b : IpBucket) : Prop := 1 <= Count b <= M.

Lemma window_allow_live now st r b :
  (forall b, st = Some b -> live b) -> window_allow max w now st = (r, b) ->
  live b /\
  ((r = false /\ st = Some b) \/
   (r = true /\ exists b0, st = Some b0 /\ ResetTime b = ResetTime b0 /\ Count b = Count b0 + 1 /\ now <= ResetTime b0) \/
   (r = true /\ b = {| Count := 1; ResetTime := now + w |} /\ forall b0, st = Some b0 -> ResetTime b0 < now)).
Proof.
  unfold live, M. intros Hl H. destruct st as [b0|]; simpl in H; [|simplify_eq/=; split; [lia|naive_solver]].
  specialize (Hl b0 eq_refl). unfold expired in H. case_bool_decide; [simplify_eq/=; split; [lia|right; right; naive_solver lia]|].
  case_decide; simplify_eq/=; [by split; [|naive_solver]|]. split; [lia|right; left; naive_solver lia].
Qed.

Lemma admitted_cons now order ip' ops r rs lo hi :
  admitted ip lo hi (Request now order ip' :: ops) (r :: rs) =
  (if r && bool_decide (ip' = ip /\ lo <= now <= hi) then 1 else 0) + admitted ip lo hi ops rs.
Proof. done. Qed.

Lemma admitted_after lo hi t ops rs : ordered t ops -> hi < t -> admitted ip lo hi ops rs = 0.
Proof.
  revert t rs. induction ops as [|[now order ip'|now] ops IH]; intros t rs Ho Hlt; [by destruct rs| |].
  - destruct rs as [|r rs]; [done|]. simpl in *. rewrite (IH now) by (lia || tauto).
    rewrite bool_decide_eq_false_2 by lia. by rewrite andb_false_r.
  - simpl in *. apply (IH now); [tauto|lia].
Qed.

(** What is left of the current window and of the next one, up to [hi]. *)
Definition budget (hi : Z) (b : IpBucket) : Z :=
  if decide (hi <= ResetTime b) then M - Count b else 2 * M - Count b.

Lemma admitted_budget lo hi st t ops b :
  ordered t ops -> st !! ip = Some b -> live b -> hi <= ResetTime b + w -> 
  admitted ip lo hi ops (run_windows max w st ops) <= budget hi b.
Proof.
  revert st t b. induction ops as [|o ops IH]; intros st t b Ho Hst Hb Hhi.
  { unfold budget, live in *. simpl. case_decide; lia. }
  destruct Ho as [Hle Ho]. destruct o as [now order ip'|now]; simpl in Ho; [|by eapply IH].
  cbn [run_windows]. destruct (window_allow max w now (st !! ip')) as [r b'] eqn:E. rewrite admitted_cons.
  destruct (decide (ip' = ip)) as [->|Hne].
  2:{ rewrite bool_decide_eq_false_2 by naive_solver. rewrite andb_false_r.
      eapply IH; [done|by rewrite lookup_insert_ne|done|done]. }
  rewrite Hst in E. apply window_allow_live in E as [Hb' E]; [|naive_solver].
  assert (hi <= ResetTime b' + w -> admitted ip lo hi ops (run_windows max w (<[ip:=b']> st) ops) <= budget hi b') as IH'.
  { intros. eapply IH; [done|by rewrite lookup_insert_eq|done|done]. }
  destruct E as [[-> [= ->]]|[(-> & b0 & [= <-] & Hr & Hc & Hn)|(-> & -> & Hx)]].
  - by apply IH'.
  - assert (budget hi b = budget hi b' + 1) by (unfold budget; rewrite Hr, Hc; case_decide; lia).
    specialize (IH' ltac:(lia)). case_match; lia.
  - specialize (Hx _ eq_refl). simpl in *. unfold budget, live in *. simpl in *.
    rewrite (decide_True (P := hi <= now + w)) in IH' by lia. specialize (IH' ltac:(lia)).
    case_bool_decide as Hin; simpl; case_decide; try lia.
    rewrite (admitted_after lo hi now) by (done || lia). lia.
Qed.

Lemma admitted_bound lo hi st t ops :
  ordered t ops -> (forall b, st !! ip = Some b -> live b) -> hi <= lo + w ->
  admitted ip lo hi ops (run_windows max w st ops) <= 2 * M.
Proof.
  revert st t. induction ops as [|o ops IH]; intros st t Ho Hl Hhi; [simpl; lia|].
  destruct Ho as [Hle Ho]. destruct o as [now order ip'|now]; simpl in Ho; [|by eapply IH].
  cbn [run_windows]. destruct (window_allow max w now (st !! ip')) as [r b'] eqn:E. rewrite admitted_cons.
  destruct (decide (ip' = ip)) as [->|Hne].
  2:{ rewrite bool_decide_eq_false_2 by naive_solver. rewrite andb_false_r.
      eapply IH; [done|by rewrite lookup_insert_ne|done]. }
  apply window_allow_live in E as [Hb' E]; [|done].
  assert (lo <= ResetTime b' -> admitted ip lo hi ops (run_windows max w (<[ip:=b']> st) ops) <= budget hi b') as HB.
  { intros. eapply admitted_budget; [done|by rewrite lookup_insert_eq|done|lia]. }
  assert (admitted ip lo hi ops (run_windows max w (<[ip:=b']> st) ops) <= 2 * M) as IH'.
  { eapply IH; [done| |done]. intros b. rewrite lookup_insert_eq. naive_solver. }
  case_match eqn:Eb; [|done]. apply andb_prop in Eb as [-> Hin%bool_decide_eq_true]. destruct Hin as [_ Hin].
  assert (lo <= ResetTime b') as Hlo by (destruct E as [[? _]|[(_ & b0 & ? & Hr & _ & ?)|(_ & -> & _)]]; simpl; naive_solver lia).
  specialize (HB Hlo). unfold budget, live in *. case_decide; lia.
Qed.

End Rate.

(** C27: As long as no more distinct clients than [maxTrackedIps] ask, the limiter
    answers every request like an independent fixed-window counter per client:
    neither eviction, nor the garbage collector, nor the requests of other clients
    change a decision. *)
Theorem run_refines_windows (S : gset gostring) maxReq windowMs maxIps t ops :
  Forall (within S) ops -> ordered t ops ->
  Z.of_nat (size S) <= maxTrackedIps (NewRateLimiter maxReq windowMs maxIps) ->
  run (NewRateLimiter maxReq windowMs maxIps) ops =
  Ret (run_windows maxReq (windowMs * millisecond) ∅ ops).
Proof.
  intros Hw Ho Hs.
  apply (run_windows_ext S (NewRateLimiter maxReq windowMs maxIps) ∅ ∅ t); try done. by left.
Qed.

Definition demo_ops : list op :=
  [Request 1 [gs "a"; gs "b"] (gs "a"); Request 2 [gs "a"; gs "b"] (gs "a"); Collect 3; Request 3 [gs "a"; gs "b"] (gs "b")].

Lemma demo_within : Forall (within {[gs "a"; gs "b"]}) demo_ops.
Proof. repeat apply Forall_cons_2; simpl; (split || done || set_solver); set_solver. Qed.

Lemma run_refines_windows_witness :
  run (NewRateLimiter 1 10 2) demo_ops = Ret [true; false; true].
Proof.
  rewrite (run_refines_windows {[gs "a"; gs "b"]} 1 10 2 0 demo_ops);
    [reflexivity|apply demo_within|simpl; lia|vm_compute; discriminate].
Defined.

(** C28: The rate enforced: as long as no more distinct clients appear than the limiter
    tracks (so that nothing is evicted) and the clock does not run backwards, every
    sequence of requests and collections is processed, and in any interval as long as
    the window a client gets at most twice the larger of one and [maxRequests] through: a
    window always admits its first request, and an interval can touch two windows. *)
Theorem rate_bound (S : gset gostring) maxReq windowMs maxIps t ops ip lo :
  Forall (within S) ops -> ordered t ops -> 0 <= windowMs ->
  Z.of_nat (size S) <= maxTrackedIps (NewRateLimiter maxReq windowMs maxIps) ->
  exists rs, run (NewRateLimiter maxReq windowMs maxIps) ops = Ret rs /\
    admitted ip lo (lo + windowMs * millisecond) ops rs <= 2 * Z.max 1 maxReq.
Proof.
  intros Hw Ho Hms Hs.
  rewrite (run_windows_ext S _ ∅ ∅ t); [|done|set_solver|done|done|done|by left].
  eexists. split; [done|]. assert (0 <= windowMs * millisecond) as Hms' by (unfold millisecond; lia).
  apply (admitted_bound maxReq (windowMs * millisecond) Hms' ip _ _ _ t); [done| |lia].
  intros b Hb. by rewrite lookup_empty in Hb.
Qed.

Lemma rate_bound_witness :
  exists rs, run (NewRateLimiter 1 10 2) demo_ops = Ret rs /\
    admitted (gs "a") 0 (0 + 10 * millisecond) demo_ops rs <= 2 * Z.max 1 1.
Proof.
  apply (rate_bound {[gs "a"; gs "b"]} 1 10 2 0 demo_ops);
    [apply demo_within|simpl; lia|lia|vm_compute; discriminate].
Defined.

(** After [Destroy] a request panics: it writes to the nil map. *)
Theorem Allow_after_Destroy rl rl' now order ip :
  Destroy rl = Ret rl' -> Allow rl' now order ip = Panic.
Proof. unfold Destroy. destruct (stopped rl); intros; by simplify_eq. Qed.

Lemma Allow_after_Destroy_witness :
  Allow (with_buckets {| buckets := None; maxRequests := 5; window := 1; maxTrackedIps := 3; stopped := true |} None)
    9 [] (gs "1.1.1.1") = Panic.
Proof.
  apply (Allow_after_Destroy {| buckets := Some ∅; maxRequests := 5; window := 1; maxTrackedIps := 3; stopped := false |}).
  reflexivity.
Defined.
