(* ===== verification/AuditLog.v ===== *)
(** * Audit log ([pkg/audit/buffer.go], [pkg/audit/audit.go])

    The ring of recent events shown by the dashboard, the text sanitiser, and the
    logging entry points with their counters.  What a call writes is returned as
    a list of [emitted] values: a text line, or the payload handed to
    [json.Marshal].  The wall clock texts and readings are arguments. *)
From S2P Require Import Prelude GoStrings.

(** ** The event buffer *)

Record LogEvent := {
  ev_Timestamp : Z;
  ev_Type : gostring;
  ev_ClientIP : gostring;
  ev_Details : gostring;
  ev_Status : gostring;
  ev_Target : gostring;
}.

Record LogBuffer := { lb_events : list LogEvent; lb_max : Z }.

Definition GlobalBuffer : LogBuffer := {| lb_events := []; lb_max := 1000 |}.

(** [b.events[1:]] of an empty slice panics. *)
Definition Add (b : LogBuffer) (e : LogEvent) : go LogBuffer :=
  events ← (if decide (len (lb_events b) >= lb_max b)
            then match lb_events b with [] => Panic | _ :: rest => Ret rest end
            else Ret (lb_events b));
  Ret {| lb_events := events ++ [e]; lb_max := lb_max b |}.

(** [res[i] = b.events[length-1-i]] for [i] from [0]. *)
Definition GetEvents (b : LogBuffer) : list LogEvent :=
  let length := length (lb_events b) in
  omap (fun i => lb_events b !! (length - 1 - i)%nat) (seq 0 length).

(** ** The logger *)

Record AuditLogger := {
  al_useJson : bool;
  al_isTestEnv : bool;
  al_dnsQueries : Z;
  al_dnsBlocked : Z;
  al_httpRequests : Z;
  al_httpBlocked : Z;
  al_firewallDrops : Z;
  al_systemEvents : Z;
  al_errors : Z;
  al_buffer : LogBuffer; (* [GlobalBuffer] *)
}.

(** Atomic 64-bit counters. *)
Definition uint64 (n : Z) : Z := n mod 2 ^ 64.
Definition AddUint64 (c d : Z) : Z := uint64 (c + d).

Inductive counter := dnsQueries | dnsBlocked | httpRequests | httpBlocked | firewallDrops | systemEvents | errors.
#[export] Instance counter_eq_dec : EqDecision counter.
Proof. solve_decision. Defined.

Definition bump (c : counter) (d : Z) (l : AuditLogger) : AuditLogger :=
  let f c' x := if decide (c = c') then AddUint64 x d else x in
  {| al_useJson := al_useJson l; al_isTestEnv := al_isTestEnv l;
     al_dnsQueries := f dnsQueries (al_dnsQueries l); al_dnsBlocked := f dnsBlocked (al_dnsBlocked l);
     al_httpRequests := f httpRequests (al_httpRequests l); al_httpBlocked := f httpBlocked (al_httpBlocked l);
     al_firewallDrops := f firewallDrops (al_firewallDrops l); al_systemEvents := f systemEvents (al_systemEvents l);
     al_errors := f errors (al_errors l); al_buffer := al_buffer l |}.

Definition with_buffer (l : AuditLogger) (b : LogBuffer) : AuditLogger :=
  {| al_useJson := al_useJson l; al_isTestEnv := al_isTestEnv l; al_dnsQueries := al_dnsQueries l;
     al_dnsBlocked := al_dnsBlocked l; al_httpRequests := al_httpRequests l; al_httpBlocked := al_httpBlocked l;
     al_firewallDrops := al_firewallDrops l; al_systemEvents := al_systemEvents l; al_errors := al_errors l;
     al_buffer := b |}.

Definition SetJsonMode (l : AuditLogger) (enable : bool) : AuditLogger :=
  {| al_useJson := enable; al_isTestEnv := al_isTestEnv l; al_dnsQueries := al_dnsQueries l;
     al_dnsBlocked := al_dnsBlocked l; al_httpRequests := al_httpRequests l; al_httpBlocked := al_httpBlocked l;
     al_firewallDrops := al_firewallDrops l; al_systemEvents := al_systemEvents l; al_errors := al_errors l;
     al_buffer := al_buffer l |}.

Definition buffer_add (e : LogEvent) (l : AuditLogger) : go AuditLogger :=
  b ← Add (al_buffer l) e; Ret (with_buffer l b).

(** [fmt.Sprintf("%02x", r)] *)
Fixpoint hex_fuel (f : nat) (n : Z) : gostring :=
  match f with
  | O => []
  | S f => if decide (n < 16) then [hex_digit n] else hex_fuel f (n / 16) ++ [hex_digit (n mod 16)]
  end.
Definition fmt_02x (r : Z) : gostring :=
  let h := hex_fuel 8 r in if decide (len h < 2) then gs "0" ++ h else h.

Definition sanitizeRune (r : Z) : gostring :=
  if decide (r = 13 \/ r = 10 \/ r = 9) then gs " "
  else if decide (r < 32 \/ r > 126) then gs "\x" ++ fmt_02x r
  else EncodeRune r.

Definition Sanitize (input : gostring) : gostring := flat_map sanitizeRune (runes input).

(** The ANSI colour [code] around [s]. *)
Definition esc : gostring := [27].
Definition ansi (code s : gostring) : gostring := esc ++ gs "[" ++ code ++ gs "m" ++ s ++ esc ++ gs "[0m".

(** What is written: text to stdout or stderr, or a payload for [json.Marshal].  Left out
    of the payloads: [Timestamp] (the formatted clock) and the fields that are the same
    constant in every payload of the kind. *)
Record dnsLogPayload := {
  dl_Component : gostring; dl_IP : gostring; dl_Container : gostring;
  dl_Questions : list (gostring * gostring); dl_Rcode : Z; dl_Cached : bool; dl_ResolvedIps : list gostring;
}.
Record firewallLogPayload := {
  fl_Level : gostring; fl_Action : gostring; fl_IP : gostring; fl_Container : gostring;
  fl_Target : gostring; fl_Detail : gostring;
}.
Record httpLogPayload := {
  hl_Level : gostring; hl_IP : gostring; hl_Container : gostring; hl_Method : gostring;
  hl_Host : gostring; hl_Path : gostring; hl_Status : Z; hl_Target : gostring;
}.
Record systemLogPayload := { sl_Level : gostring; sl_Message : gostring }.
Record commandLogPayload := {
  cl_Component : gostring; cl_IP : gostring; cl_Container : gostring; cl_Command : gostring;
}.
Inductive emitted : Type :=
| Text (line : gostring)
| ErrText (line : gostring)
| JsonDns (p : dnsLogPayload)
| JsonFirewall (p : firewallLogPayload)
| JsonHttp (p : httpLogPayload)
| JsonSystem (p : systemLogPayload)
| JsonError (p : systemLogPayload)
| JsonCommand (p : commandLogPayload).

Section Logger.
Context {U : Unicode}.
(** The hook [ResolveIP], which the container monitor sets. *)
Context (ResolveIP : option (gostring -> gostring)).

Definition formatIP (ip : gostring) : gostring :=
  match ResolveIP with
  | Some f => let name := f ip in
              if decide (name <> [] /\ name <> ip) then ip ++ gs " (" ++ name ++ gs ")" else ip
  | None => ip
  end.

Definition resolveContainer (ip : gostring) : gostring :=
  match ResolveIP with Some f => f ip | None => [] end.

Definition code_text (rcode : Z) : gostring :=
  if decide (rcode = 0) then gs "allowed"
  else if decide (rcode = 1) then gs "format error"
  else if decide (rcode = 2) then gs "server failure"
  else if decide (rcode = 3) then gs "domain not found"
  else if decide (rcode = 5) then gs "refused by firewall"
  else fmt_d rcode.

(** The loop over the questions, [now] giving the successive clock readings. *)
Fixpoint dnsLoop (l : AuditLogger) (clock : gostring) (now : nat -> Z) (i : nat) (ip : gostring)
    (questions : list (gostring * gostring)) (rcode : Z) (prefix resolvedSuffix logType : gostring)
  : go (AuditLogger * list emitted) :=
  match questions with
  | [] => Ret (l, [])
  | (name, type) :: rest =>
      let status := code_text rcode in
      let cLogType := if decide (logType = gs "localdns") then ansi (gs "1;36") (gs "localdns")
                      else ansi (gs "36") (gs "dns") in
      let cStatus := if decide (rcode = 0) then ansi (gs "32") status else ansi (gs "31") status in
      let line := gs "[" ++ clock ++ gs "] [" ++ cLogType ++ gs "] " ++ Sanitize (formatIP ip) ++ gs " requested "
        ++ prefix ++ ToUpper type ++ gs " record for " ++ Sanitize name ++ gs " -> " ++ cStatus ++ resolvedSuffix ++ [10] in
      l ← buffer_add {| ev_Timestamp := now i; ev_Type := logType; ev_ClientIP := Sanitize ip;
            ev_Details := gs "Requested " ++ prefix ++ ToUpper type ++ gs " record" ++ resolvedSuffix;
            ev_Status := if decide (rcode = 5 \/ rcode = 3) then gs "deny" else gs "allow";
            ev_Target := Sanitize name |} l;
      '(l, out) ← dnsLoop l clock now (S i) ip rest rcode prefix resolvedSuffix logType;
      Ret (l, Text line :: out)
  end.

Definition DNS (l : AuditLogger) (clock : gostring) (now : nat -> Z) (ip : gostring)
    (questions : list (gostring * gostring)) (rcode : Z) (cached : bool) (resolvedIps : list gostring)
    (isLocalDns : bool) : go (AuditLogger * list emitted) :=
  let l := bump dnsQueries (uint64 (len questions)) l in
  let l := if decide (rcode = 5 \/ rcode = 3) then bump dnsBlocked (uint64 (len questions)) l else l in
  if al_isTestEnv l then Ret (l, [])
  else
    let logType := if isLocalDns then gs "localdns" else gs "dns" in
    if al_useJson l then
      Ret (l, [JsonDns {| dl_Component := ToUpper logType; dl_IP := ip; dl_Container := resolveContainer ip;
                          dl_Questions := questions; dl_Rcode := rcode; dl_Cached := cached;
                          dl_ResolvedIps := resolvedIps |}])
    else
      let prefix := if cached then gs "cached " else [] in
      let resolvedSuffix := match resolvedIps with [] => [] | _ => gs " [" ++ Join resolvedIps (gs ", ") ++ gs "]" end in
      dnsLoop l clock now 0 ip questions rcode prefix resolvedSuffix logType.

Definition Firewall (l : AuditLogger) (clock : gostring) (now : Z) (ip target action detail : gostring)
  : go (AuditLogger * list emitted) :=
  let l := if decide (action = gs "DENY") then bump firewallDrops 1 l else l in
  if al_isTestEnv l then Ret (l, [])
  else if al_useJson l then
    Ret (l, [JsonFirewall {| fl_Level := if decide (action = gs "DENY") then gs "WARN" else gs "INFO";
                             fl_Action := action; fl_IP := ip; fl_Container := resolveContainer ip;
                             fl_Target := target; fl_Detail := detail |}])
  else
    let cStatus := if decide (action = gs "DENY") then ansi (gs "31") (gs "blocked") else ansi (gs "32") (gs "passed") in
    let extra := if decide (detail <> []) then gs " due to " ++ detail else [] in
    let line := gs "[" ++ clock ++ gs "] [" ++ ansi (gs "33") (gs "firewall") ++ gs "] connection from "
      ++ Sanitize (formatIP ip) ++ gs " targeting " ++ Sanitize target ++ gs " was " ++ cStatus ++ extra ++ [10] in
    l ← buffer_add {| ev_Timestamp := now; ev_Type := gs "firewall"; ev_ClientIP := Sanitize ip;
          ev_Details := Sanitize detail;
          ev_Status := if decide (action = gs "DENY") then gs "deny" else gs "allow";
          ev_Target := Sanitize target |} l;
    Ret (l, [Text line]).

Definition HTTP (l : AuditLogger) (clock : gostring) (now : Z) (ip method host path : gostring) (status : Z)
    (target : gostring) : go (AuditLogger * list emitted) :=
  let l := bump httpRequests 1 l in
  let l := if decide (status = 403 \/ status = 413 \/ status = 429) then bump httpBlocked 1 l else l in
  if al_isTestEnv l then Ret (l, [])
  else if al_useJson l then
    Ret (l, [JsonHttp {| hl_Level := if decide (status >= 400) then gs "WARN" else gs "INFO"; hl_IP := ip;
                         hl_Container := resolveContainer ip; hl_Method := method; hl_Host := host;
                         hl_Path := path; hl_Status := status; hl_Target := target |}])
  else
    let routeInfo :=
      if decide (target <> []) then
        let sanTarget := Sanitize target in
        if HasPrefix sanTarget (gs "Tunneled") || HasPrefix sanTarget (gs "Blocked") then sanTarget
        else gs "forwarded to " ++ sanTarget
      else gs "processed natively" in
    let cStatus := ansi (if decide (status >= 400) then gs "31" else gs "32") (fmt_d status) in
    let line := gs "[" ++ clock ++ gs "] [" ++ ansi (gs "35") (gs "http") ++ gs "] " ++ Sanitize (formatIP ip)
      ++ gs " | " ++ Sanitize method ++ gs " " ++ Sanitize host ++ Sanitize path ++ gs " status " ++ cStatus
      ++ gs " | " ++ routeInfo ++ [10] in
    let detailsStr :=
      (if decide (method = gs "TLS-SNI") then gs "TLS-SNI" else Sanitize method)
      ++ gs " " ++ Sanitize host ++ Sanitize path ++ gs " status " ++ fmt_d status in
    let detailsStr := if decide (routeInfo <> []) then detailsStr ++ gs " | " ++ routeInfo else detailsStr in
    l ← buffer_add {| ev_Timestamp := now; ev_Type := gs "http"; ev_ClientIP := Sanitize ip;
          ev_Details := detailsStr;
          ev_Status := if decide (status >= 400) then gs "deny" else gs "allow";
          ev_Target := Sanitize host |} l;
    Ret (l, [Text line]).

Definition System (l : AuditLogger) (clock : gostring) (now : Z) (msg : gostring) : go (AuditLogger * list emitted) :=
  let l := bump systemEvents 1 l in
  if al_isTestEnv l then Ret (l, [])
  else if al_useJson l then Ret (l, [JsonSystem {| sl_Level := gs "INFO"; sl_Message := msg |}])
  else
    let line := gs "[" ++ clock ++ gs "] [" ++ ansi (gs "1;37") (gs "system") ++ gs "] " ++ Sanitize msg ++ [10] in
    l ← buffer_add {| ev_Timestamp := now; ev_Type := gs "system"; ev_ClientIP := gs "localhost";
          ev_Details := Sanitize msg; ev_Status := gs "info"; ev_Target := gs "system" |} l;
    Ret (l, [Text line]).

Definition Error (l : AuditLogger) (clock : gostring) (now : Z) (msg : gostring) : go (AuditLogger * list emitted) :=
  let l := bump errors 1 l in
  if al_isTestEnv l then Ret (l, [])
  else if al_useJson l then Ret (l, [JsonError {| sl_Level := gs "ERROR"; sl_Message := msg |}])
  else
    let line := gs "[" ++ clock ++ gs "] [" ++ ansi (gs "1;31") (gs "error") ++ gs "] " ++ Sanitize msg ++ [10] in
    l ← buffer_add {| ev_Timestamp := now; ev_Type := gs "error"; ev_ClientIP := gs "localhost";
          ev_Details := Sanitize msg; ev_Status := gs "error"; ev_Target := gs "error" |} l;
    Ret (l, [ErrText line]).

Definition Command (l : AuditLogger) (clock : gostring) (now : Z) (ip command : gostring)
  : go (AuditLogger * list emitted) :=
  let l := bump systemEvents 1 l in
  if al_isTestEnv l then Ret (l, [])
  else if al_useJson l then
    Ret (l, [JsonCommand {| cl_Component := gs "EXEC"; cl_IP := ip; cl_Container := resolveContainer ip;
                            cl_Command := command |}])
  else
    let line := gs "[" ++ clock ++ gs "] [" ++ ansi (gs "34") (gs "execve") ++ gs "] " ++ Sanitize (formatIP ip)
      ++ gs " executed: " ++ Sanitize command ++ [10] in
    l ← buffer_add {| ev_Timestamp := now; ev_Type := gs "command"; ev_ClientIP := Sanitize ip;
          ev_Details := Sanitize command; ev_Status := gs "info"; ev_Target := gs "execve" |} l;
    Ret (l, [Text line]).

Definition ContainerOutput (l : AuditLogger) (clock : gostring) (now : Z) (ip log : gostring)
  : go (AuditLogger * list emitted) :=
  let l := bump systemEvents 1 l in
  if al_isTestEnv l then Ret (l, [])
  else if al_useJson l then
    Ret (l, [JsonCommand {| cl_Component := gs "STDOUT"; cl_IP := ip; cl_Container := resolveContainer ip;
                            cl_Command := log |}])
  else
    let line := gs "[" ++ clock ++ gs "] [" ++ ansi (gs "36") (gs "stdout") ++ gs "] " ++ Sanitize (formatIP ip)
      ++ gs " | " ++ Sanitize log ++ [10] in
    l ← buffer_add {| ev_Timestamp := now; ev_Type := gs "command"; ev_ClientIP := Sanitize ip;
          ev_Details := Sanitize log; ev_Status := gs "info"; ev_Target := gs "output" |} l;
    Ret (l, [Text line]).

End Logger.

Definition GetMetricsPrometheus (l : AuditLogger) : gostring :=
  Join
    [ gs "# HELP ottergate_dns_queries_total Total DNS queries processed";
      gs "# TYPE ottergate_dns_queries_total counter";
      gs "ottergate_dns_queries_total " ++ itoa (al_dnsQueries l);
      gs "# HELP ottergate_dns_blocked_total Total DNS queries blocked by policy";
      gs "# TYPE ottergate_dns_blocked_total counter";
      gs "ottergate_dns_blocked_total " ++ itoa (al_dnsBlocked l);
      gs "# HELP ottergate_http_requests_total Total HTTP requests routed";
      gs "# TYPE ottergate_http_requests_total counter";
      gs "ottergate_http_requests_total " ++ itoa (al_httpRequests l);
      gs "# HELP ottergate_http_blocked_total Total HTTP requests blocked";
      gs "# TYPE ottergate_http_blocked_total counter";
      gs "ottergate_http_blocked_total " ++ itoa (al_httpBlocked l);
      gs "# HELP ottergate_firewall_drops_total Total connection drops across L3/L4/L7";
      gs "# TYPE ottergate_firewall_drops_total counter";
      gs "ottergate_firewall_drops_total " ++ itoa (al_firewallDrops l);
      gs "# HELP ottergate_errors_total Total system errors encountered";
      gs "# TYPE ottergate_errors_total counter";
      gs "ottergate_errors_total " ++ itoa (al_errors l) ] [10] ++ [10].

(** ** The buffer keeps the most recent events *)

Fixpoint AddAll (b : LogBuffer) (es : list LogEvent) : go LogBuffer :=
  match es with [] => Ret b | e :: es => b ← Add b e; AddAll b es end.

(** The last [n] elements. *)
Definition last_n {A} (n : nat) (l : list A) : list A := drop (length l - n) l.

Lemma GetEvents_reverse b : GetEvents b = reverse (lb_events b).
Proof.
  unfold GetEvents. generalize (lb_events b). clear b. intros l. induction l as [|x l IH] using rev_ind; [done|].
  rewrite reverse_snoc, length_app. cbn [length]. rewrite Nat.add_1_r. cbn [seq omap list_omap].
  replace (S (length l) - 1 - 0)%nat with (length l) by lia. rewrite list_lookup_middle by done. simpl. f_equal.
  rewrite <- IH. apply list_omap_ext, Forall2_same_length_lookup_2.
  { by rewrite !length_seq. }
  intros i a b [-> Ha]%lookup_seq [-> Hb]%lookup_seq. rewrite lookup_app_l by lia. f_equal. lia.
Qed.

Lemma Add_last n b es e :
  (0 < n)%nat -> lb_max b = Z.of_nat n -> lb_events b = last_n n es ->
  exists b', Add b e = Ret b' /\ lb_max b' = Z.of_nat n /\ lb_events b' = last_n n (es ++ [e]).
Proof.
  intros Hn Hmax Hev. unfold Add. rewrite Hmax, Hev. unfold last_n, len.
  rewrite length_app, length_drop. simpl. case_decide as Hfull.
  - destruct (drop (length es - n) es) as [|x rest] eqn:E.
    { apply (f_equal length) in E. rewrite length_drop in E. simpl in E. lia. }
    simpl. eexists. split; [done|]. split; [done|]. simpl.
    replace (length es + 1 - n)%nat with (S (length es - n)) by lia.
    rewrite drop_app_le by lia. f_equal.
    replace (S (length es - n)) with (length es - n + 1)%nat by lia. by rewrite <- drop_drop, E.
  - simpl. eexists. split; [done|]. split; [done|]. simpl.
    replace (length es + 1 - n)%nat with 0%nat by lia. by replace (length es - n)%nat with 0%nat by lia.
Qed.

Lemma AddAll_last n b es0 es :
  (0 < n)%nat -> lb_max b = Z.of_nat n -> lb_events b = last_n n es0 ->
  exists b', AddAll b es = Ret b' /\ lb_max b' = Z.of_nat n /\ lb_events b' = last_n n (es0 ++ es).
Proof.
  intros Hn. revert b es0. induction es as [|e es IH]; intros b es0 Hm He; simpl.
  { rewrite app_nil_r. eauto. }
  destruct (Add_last n b es0 e Hn Hm He) as (b1 & -> & Hm1 & He1). simpl.
  destruct (IH b1 (es0 ++ [e]) Hm1 He1) as (b2 & ? & ? & ?). exists b2. by rewrite <- app_assoc in *.
Qed.

(** The global buffer never panics and shows, newest first, exactly the last 1000
    events added. *)
Theorem GetEvents_recent es :
  exists b, AddAll GlobalBuffer es = Ret b /\ GetEvents b = take 1000 (reverse es).
Proof.
  destruct (AddAll_last 1000 GlobalBuffer [] es) as (b & H & _ & He); [lia|done|done|].
  exists b. split; [done|]. rewrite GetEvents_reverse, He. simpl. unfold last_n.
  by rewrite take_reverse.
Qed.

(** ** The sanitiser *)

Definition printable (c : Z) : Prop := 32 <= c <= 126.

Lemma DecodeRune_range s r w : bytes_ok s -> DecodeRune s = Some (r, w) -> 0 <= r < 1114112.
Proof.
  intros Hok H. destruct s as [|b0 t]; [done|]. apply Forall_cons_1 in Hok as [H0 _]. unfold is_byte in H0.
  assert (forall b, is_cont b = true -> 128 <= b <= 191) as Hc by (intros b; apply bool_decide_eq_true).
  assert (0 <= RuneError < 1114112) as HE by (unfold RuneError; lia).
  simpl in H. case_decide; [simplify_eq; lia|]. case_decide.
  { destruct t as [|b1 t]; [by simplify_eq|]. destruct (is_cont b1) eqn:E1; [|by simplify_eq].
    apply Hc in E1. simplify_eq. lia. }
  case_decide.
  { destruct t as [|b1 [|b2 t]]; [by simplify_eq..|]. case_match eqn:E1; [|by simplify_eq].
    apply andb_prop in E1 as [E1%bool_decide_eq_true E2%Hc]. simplify_eq. repeat case_decide; lia. }
  case_decide; [|by simplify_eq].
  destruct t as [|b1 [|b2 [|b3 t]]]; [by simplify_eq..|]. case_match eqn:E1; [|by simplify_eq].
  apply andb_prop in E1 as [[E1%bool_decide_eq_true E2%Hc]%andb_prop E3%Hc]. simplify_eq. repeat case_decide; lia.
Qed.

Lemma runes_range s : bytes_ok s -> Forall (fun r => 0 <= r < 1114112) (runes s).
Proof.
  unfold runes. generalize (length s). intros n. revert s. induction n as [|n IH]; intros s Hok; simpl; [constructor|].
  destruct (DecodeRune s) as [[r w]|] eqn:E; [|constructor]. constructor; [by eapply DecodeRune_range|].
  apply IH. by apply Forall_drop.
Qed.

Lemma runes_ascii s : Forall (fun c => c < 128) s -> runes s = s.
Proof.
  unfold runes. induction 1 as [|c s Hc Hs IH]; [done|]. simpl. rewrite decide_True by done. simpl.
  by rewrite drop_0, IH.
Qed.

Lemma hex_fuel_printable f n : 0 <= n -> Forall printable (hex_fuel f n).
Proof.
  revert n. induction f as [|f IH]; intros n Hn; simpl; [constructor|]. unfold printable in *. case_decide.
  - constructor; [|constructor]. destruct (hex_digit_range n); lia.
  - apply Forall_app. split; [apply IH, Z.div_pos; lia|]. constructor; [|constructor].
    pose proof (Z.mod_pos_bound n 16 ltac:(lia)). destruct (hex_digit_range (n mod 16)); lia.
Qed.

Lemma Forall_printable_gs l : forallb (fun c => bool_decide (printable c)) l = true -> Forall printable l.
Proof. intros H. apply Forall_forall. intros c Hc. rewrite List.forallb_forall in H. by eapply bool_decide_eq_true_1, H, list_elem_of_In. Qed.

Lemma sanitizeRune_printable r : 0 <= r -> Forall printable (sanitizeRune r).
Proof.
  intros Hr. unfold sanitizeRune. case_decide; [by apply Forall_printable_gs|]. case_decide.
  - apply Forall_app. split; [by apply Forall_printable_gs|]. unfold fmt_02x.
    pose proof (hex_fuel_printable 8 r Hr). case_decide; [|done].
    apply Forall_app. split; [by apply Forall_printable_gs|done].
  - unfold EncodeRune. rewrite decide_True by lia. constructor; [unfold printable; lia|constructor].
Qed.

Lemma Forall_flat_map {A B} (P : B -> Prop) (f : A -> list B) l :
  Forall (fun x => Forall P (f x)) l -> Forall P (flat_map f l).
Proof. induction 1; simpl; [constructor|]. by apply Forall_app. Qed.

Lemma Sanitize_printable s : bytes_ok s -> Forall printable (Sanitize s).
Proof.
  intros Hok. apply Forall_flat_map. eapply Forall_impl; [by apply runes_range|]. intros r [Hr _].
  by apply sanitizeRune_printable.
Qed.

(** Whatever the bytes of its input, [Sanitize] returns printable ASCII only, so no
    line break, escape sequence or NUL passes, and it leaves a printable text as it
    is. *)
Theorem Sanitize_spec s :
  bytes_ok s -> Forall printable (Sanitize s) /\ (Forall printable s -> Sanitize s = s).
Proof.
  intros Hok. split; [by apply Sanitize_printable|]. intros Hp. unfold Sanitize.
  rewrite runes_ascii by (eapply Forall_impl; [done|]; unfold printable; simpl; lia). clear Hok.
  induction Hp as [|c s Hc Hs IH]; [done|]. simpl. rewrite IH. unfold sanitizeRune, printable, EncodeRune in *.
  by rewrite !decide_False, decide_True by lia.
Qed.

Lemma Sanitize_spec_witness : Forall printable (Sanitize (gs "a" ++ [13; 10; 27; 200; 0])).
Proof. apply (Sanitize_spec (gs "a" ++ [13; 10; 27; 200; 0])). by apply (bool_decide_eq_true_1 _). Defined.

(** ** No log injection *)

(** One call of the logger. *)
Inductive call : Type :=
| CallDNS (ip : gostring) (questions : list (gostring * gostring)) (rcode : Z) (cached : bool)
    (resolvedIps : list gostring) (isLocalDns : bool)
| CallFirewall (ip target action detail : gostring)
| CallHTTP (ip method host path : gostring) (status : Z) (target : gostring)
| CallSystem (msg : gostring)
| CallError (msg : gostring)
| CallCommand (ip command : gostring)
| CallContainerOutput (ip log : gostring).

Section Calls.
Context {U : Unicode} (ResolveIP : option (gostring -> gostring)).

Definition log_call (l : AuditLogger) (clock : gostring) (now : nat -> Z) (c : call) : go (AuditLogger * list emitted) :=
  match c with
  | CallDNS ip qs rcode cached ips loc => DNS ResolveIP l clock now ip qs rcode cached ips loc
  | CallFirewall ip target action detail => Firewall ResolveIP l clock (now 0%nat) ip target action detail
  | CallHTTP ip method host path status target => HTTP ResolveIP l clock (now 0%nat) ip method host path status target
  | CallSystem msg => System l clock (now 0%nat) msg
  | CallError msg => Error l clock (now 0%nat) msg
  | CallCommand ip command => Command ResolveIP l clock (now 0%nat) ip command
  | CallContainerOutput ip log => ContainerOutput ResolveIP l clock (now 0%nat) ip log
  end.

(** The arguments that the logger sanitises may be any bytes; the ones it prints as
    they are (the detail of a firewall line, record types and resolved addresses) are
    assumed to be without a line break. *)
Definition no_break (s : gostring) : Prop := 10 ∉ s.
Definition args_ok (c : call) : Prop :=
  match c with
  | CallDNS ip qs _ _ ips _ =>
      bytes_ok ip /\ Forall (fun q => bytes_ok q.1 /\ no_break (ToUpper q.2)) qs /\ Forall no_break ips
  | CallFirewall ip target _ detail => bytes_ok ip /\ bytes_ok target /\ no_break detail
  | CallHTTP ip method host path _ target =>
      bytes_ok ip /\ bytes_ok method /\ bytes_ok host /\ bytes_ok path /\ bytes_ok target
  | CallSystem msg | CallError msg => bytes_ok msg
  | CallCommand ip s | CallContainerOutput ip s => bytes_ok ip /\ bytes_ok s
  end.

Definition single_line (s : gostring) : Prop := exists body, s = body ++ [10] /\ no_break body.
Definition one_line (e : emitted) : Prop :=
  match e with Text s | ErrText s => single_line s | _ => True end.

Lemma no_break_app a b : no_break (a ++ b) <-> no_break a /\ no_break b.
Proof. unfold no_break. rewrite elem_of_app. tauto. Qed.
Lemma printable_no_break s : Forall printable s -> no_break s.
Proof. unfold no_break. intros H Hin. rewrite Forall_forall in H. specialize (H _ Hin). unfold printable in H. lia. Qed.
Lemma Sanitize_no_break s : bytes_ok s -> no_break (Sanitize s).
Proof. intros. by apply printable_no_break, Sanitize_printable. Qed.
Lemma fmt_d_no_break n : no_break (fmt_d n).
Proof.
  apply printable_no_break. assert (forall m, 0 <= m -> Forall printable (itoa m)) as Hi.
  { intros m Hm. eapply Forall_impl; [by apply itoa_digits|]. unfold printable. simpl. lia. }
  unfold fmt_d. case_decide; [|apply Hi; lia]. apply Forall_app. split; [by apply Forall_printable_gs|apply Hi; lia].
Qed.
Lemma gs_no_break s : bool_decide (no_break (gs s)) = true -> no_break (gs s).
Proof. apply bool_decide_eq_true_1. Qed.
Lemma Join_no_break ls : Forall no_break ls -> no_break (Join ls (gs ", ")).
Proof.
  induction 1 as [|x l Hx Hl IH]; [by apply not_elem_of_nil|]. destruct l; [done|].
  rewrite Join_cons2, !no_break_app. split_and!; [done|by apply gs_no_break|done].
Qed.
Lemma code_text_no_break rcode : no_break (code_text rcode).
Proof. unfold code_text. repeat case_decide; try by apply gs_no_break. apply fmt_d_no_break. Qed.

Hypothesis Hresolve : forall f ip, ResolveIP = Some f -> bytes_ok ip -> bytes_ok (f ip).

Lemma formatIP_no_break ip : bytes_ok ip -> no_break (Sanitize (formatIP ResolveIP ip)).
Proof.
  intros Hip. apply Sanitize_no_break. unfold formatIP. destruct ResolveIP as [f|] eqn:E; [|done].
  case_decide; [|done]. rewrite !Forall_app. specialize (Hresolve f ip eq_refl Hip).
  split_and!; by (done || apply gs_bytes_ok).
Qed.

(** Splits a text into its pieces and closes each. *)
Ltac unbroken :=
  rewrite ?no_break_app; split_and?;
  first [ by apply gs_no_break | by apply formatIP_no_break | by apply Sanitize_no_break
        | by apply code_text_no_break | by apply fmt_d_no_break | by apply Join_no_break | done
        | by apply (bool_decide_eq_true_1 (no_break _)) | idtac ].

Lemma ansi_no_break code s : no_break code -> no_break s -> no_break (ansi code s).
Proof. intros. unfold ansi. unbroken. Qed.

Lemma single_line_intro body : no_break body -> single_line (body ++ [10]).
Proof. intros. by exists body. Qed.

Lemma buffer_add_total e l :
  0 < lb_max (al_buffer l) -> exists l', buffer_add e l = Ret l' /\ lb_max (al_buffer l') = lb_max (al_buffer l).
Proof.
  intros Hm. unfold buffer_add, Add. case_decide as Hf; [|by eexists].
  destruct (lb_events (al_buffer l)) as [|x r]; [unfold len in Hf; simpl in Hf; lia|by eexists].
Qed.

(** A call that prints one line and adds one event. *)
Lemma text_call (e : LogEvent) (l : AuditLogger) (out : emitted) :
  0 < lb_max (al_buffer l) -> one_line out ->
  exists l' o, (l1 ← buffer_add e l; Ret (l1, [out])) = Ret (l', o) /\ Forall one_line o.
Proof.
  intros Hm Ho. destruct (buffer_add_total e l Hm) as (l' & -> & _). eexists _, _. split; [done|].
  by constructor.
Qed.

Lemma dnsLoop_lines l clock now i ip qs rcode prefix suffix logType :
  0 < lb_max (al_buffer l) -> no_break clock -> bytes_ok ip ->
  Forall (fun q => bytes_ok q.1 /\ no_break (ToUpper q.2)) qs -> no_break prefix -> no_break suffix ->
  exists l' o, dnsLoop ResolveIP l clock now i ip qs rcode prefix suffix logType = Ret (l', o) /\ Forall one_line o.
Proof.
  intros Hm Hc Hip Hqs Hp Hs. revert l i Hm. induction Hqs as [|[name type] qs [Hn Ht] Hqs IH]; intros l i Hm.
  { eexists _, _. split; [done|constructor]. }
  cbn [dnsLoop]. match goal with |- context [buffer_add ?e l] => destruct (buffer_add_total e l Hm) as (l1 & -> & Hm1) end.
  rewrite bind_Ret. destruct (IH l1 (S i)) as (l2 & o & -> & Ho); [by rewrite Hm1|]. rewrite bind_Ret.
  eexists _, _. split; [done|]. constructor; [|done]. unfold one_line. rewrite !app_assoc. apply single_line_intro.
  unbroken; case_decide; apply ansi_no_break; unbroken.
Qed.

Lemma bump_max c d l : lb_max (al_buffer (bump c d l)) = lb_max (al_buffer l).
Proof. done. Qed.

(** The three modes every entry point distinguishes. *)
Lemma gated_lines (l : AuditLogger) (j : emitted) (rest : go (AuditLogger * list emitted)) :
  one_line j -> (exists l' o, rest = Ret (l', o) /\ Forall one_line o) ->
  exists l' o, (if al_isTestEnv l then Ret (l, []) else if al_useJson l then Ret (l, [j]) else rest) = Ret (l', o)
    /\ Forall one_line o.
Proof.
  intros Hj Hr. destruct (al_isTestEnv l); [eexists _, _; split; [reflexivity|constructor]|].
  destruct (al_useJson l); [|done]. eexists _, _. split; [reflexivity|]. by constructor.
Qed.

Ltac one_text_line := apply gated_lines; [exact I|]; apply text_call; [done|]; unfold one_line;
  rewrite !app_assoc; apply single_line_intro; rewrite !no_break_app; split_and!.

Lemma DNS_lines l clock now ip qs rcode cached ips loc :
  0 < lb_max (al_buffer l) -> no_break clock -> bytes_ok ip ->
  Forall (fun q => bytes_ok q.1 /\ no_break (ToUpper q.2)) qs -> Forall no_break ips ->
  exists l' o, DNS ResolveIP l clock now ip qs rcode cached ips loc = Ret (l', o) /\ Forall one_line o.
Proof.
  intros Hm Hc Hip Hqs Hips. unfold DNS. apply gated_lines; [exact I|].
  apply dnsLoop_lines; [by case_decide|done..| |].
  - destruct cached; [by apply gs_no_break|apply not_elem_of_nil].
  - destruct ips as [|i ips]; [apply not_elem_of_nil|].
    rewrite !no_break_app. split_and!; [by apply gs_no_break|by apply Join_no_break|by apply gs_no_break].
Qed.

Lemma Firewall_lines l clock now ip target action detail :
  0 < lb_max (al_buffer l) -> no_break clock -> bytes_ok ip -> bytes_ok target -> no_break detail ->
  exists l' o, Firewall ResolveIP l clock now ip target action detail = Ret (l', o) /\ Forall one_line o.
Proof.
  intros Hm Hc Hip Ht Hd. unfold Firewall.
  assert (0 < lb_max (al_buffer (if decide (action = gs "DENY") then bump firewallDrops 1 l else l))) as Hm' by by case_decide.
  one_text_line; clear Hm'; unbroken.
  - case_decide; apply ansi_no_break; unbroken.
  - case_decide; unbroken.
Qed.

Lemma HTTP_lines l clock now ip method host path status target :
  0 < lb_max (al_buffer l) -> no_break clock -> bytes_ok ip -> bytes_ok method -> bytes_ok host -> bytes_ok path ->
  bytes_ok target ->
  exists l' o, HTTP ResolveIP l clock now ip method host path status target = Ret (l', o) /\ Forall one_line o.
Proof.
  intros Hm Hc Hip Hme Hh Hp Ht. unfold HTTP.
  assert (0 < lb_max (al_buffer (if decide (status = 403 \/ status = 413 \/ status = 429)
    then bump httpBlocked 1 (bump httpRequests 1 l) else bump httpRequests 1 l))) as Hm' by by case_decide.
  one_text_line; clear Hm'; unbroken.
  - apply ansi_no_break; [case_decide|]; unbroken.
  - case_decide; [|by apply gs_no_break]. cbv zeta. case_match; unbroken.
Qed.

Lemma log_call_lines l clock now c :
  0 < lb_max (al_buffer l) -> no_break clock -> args_ok c ->
  exists l' out, log_call l clock now c = Ret (l', out) /\ Forall one_line out.
Proof.
  intros Hm Hc Hok. destruct c; simpl in Hok; destruct_and?; unfold log_call.
  - by apply DNS_lines.
  - by apply Firewall_lines.
  - by apply HTTP_lines.
  - unfold System. one_text_line; unbroken.
  - unfold Error. one_text_line; unbroken.
  - unfold Command. one_text_line; unbroken.
  - unfold ContainerOutput. one_text_line; unbroken.
Qed.

(** No log injection: whatever bytes a client puts in addresses, names, methods,
    hosts, paths, commands and messages, every call of the logger returns, and every
    text line it writes has its only line break at its end. *)
Theorem log_single_lines l clock now c :
  0 < lb_max (al_buffer l) -> no_break clock -> args_ok c ->
  exists l' out, log_call l clock now c = Ret (l', out) /\ Forall one_line out.
Proof. apply log_call_lines. Qed.

End Calls.

Definition demo_logger : AuditLogger :=
  {| al_useJson := false; al_isTestEnv := false; al_dnsQueries := 0; al_dnsBlocked := 0; al_httpRequests := 0;
     al_httpBlocked := 0; al_firewallDrops := 0; al_systemEvents := 0; al_errors := 0; al_buffer := GlobalBuffer |}.

Lemma log_single_lines_witness :
  exists l' out,
    log_call (U := ascii_unicode) None demo_logger (gs "12:00") (fun _ => 0)
      (CallHTTP (gs "10.0.0.1") (gs "GET") (gs "h" ++ [10] ++ gs "[spoof]") (gs "/") 403 (gs "Blocked")) = Ret (l', out)
    /\ Forall one_line out.
Proof.
  apply (log_single_lines (U := ascii_unicode) None (fun _ _ (H : None = Some _) => match H with end) demo_logger (gs "12:00")
    (fun _ => 0) (CallHTTP (gs "10.0.0.1") (gs "GET") (gs "h" ++ [10] ++ gs "[spoof]") (gs "/") 403 (gs "Blocked")));
    [reflexivity|by apply gs_no_break|simpl; split_and!; by apply (bool_decide_eq_true_1 (bytes_ok _))].
Defined.
