(* ===== verification/AuditJson.v ===== *)
(** * The JSON of the audit log ([pkg/audit/audit.go], [pkg/audit/buffer.go])

    The bytes of a log line in JSON mode and of the list of events that the dashboard
    reads, by the tags of the payload structs.  The formatted clock is an argument. *)
From S2P Require Import Prelude GoStrings NetIP Platform JsonText GoText Config Json AuditLog.
#[local] Open Scope Z_scope.

(** ** Lines *)

(** Every payload begins with the time and the level. *)
Definition logHead (ts level component : gostring) : list (gostring * option tree) :=
  [(gs "timestamp", encStr ts); (gs "level", encStr level); (gs "component", encStr component)].
Definition encodeQuestion (q : gostring * gostring) : members := obj [(gs "name", encStr q.1); (gs "type", encStr q.2)].
Definition encodeDnsLog (ts : gostring) (p : dnsLogPayload) : members :=
  obj (logHead ts (gs "INFO") (dl_Component p) ++
       [(gs "ip", encStr (dl_IP p)); (gs "container", omitStr (dl_Container p));
        (gs "questions", Some (TArr (map (fun q => TObj (encodeQuestion q)) (dl_Questions p))));
        (gs "rcode", encInt (dl_Rcode p)); (gs "cached", Some (TBool (dl_Cached p))); (gs "resolved_ips", omitStrs (dl_ResolvedIps p))]).
Definition encodeFirewallLog (ts : gostring) (p : firewallLogPayload) : members :=
  obj (logHead ts (fl_Level p) (gs "FIREWALL") ++
       [(gs "action", encStr (fl_Action p)); (gs "ip", encStr (fl_IP p)); (gs "container", omitStr (fl_Container p));
        (gs "target", encStr (fl_Target p)); (gs "detail", encStr (fl_Detail p))]).
Definition encodeHttpLog (ts : gostring) (p : httpLogPayload) : members :=
  obj (logHead ts (hl_Level p) (gs "HTTP") ++
       [(gs "ip", encStr (hl_IP p)); (gs "container", omitStr (hl_Container p)); (gs "method", encStr (hl_Method p)); (gs "host", encStr (hl_Host p));
        (gs "path", encStr (hl_Path p)); (gs "status", encInt (hl_Status p)); (gs "target", encStr (hl_Target p))]).
Definition encodeSystemLog (ts : gostring) (p : systemLogPayload) : members :=
  obj (logHead ts (sl_Level p) (gs "SYSTEM") ++ [(gs "message", encStr (sl_Message p))]).
Definition encodeCommandLog (ts : gostring) (p : commandLogPayload) : members :=
  obj (logHead ts (gs "INFO") (cl_Component p) ++
       [(gs "ip", encStr (cl_IP p)); (gs "container", omitStr (cl_Container p)); (gs "command", encStr (cl_Command p))]).

Definition payloadTree (ts : gostring) (e : emitted) : option tree :=
  match e with
  | Text _ | ErrText _ => None
  | JsonDns p => Some (TObj (encodeDnsLog ts p))
  | JsonFirewall p => Some (TObj (encodeFirewallLog ts p))
  | JsonHttp p => Some (TObj (encodeHttpLog ts p))
  | JsonSystem p | JsonError p => Some (TObj (encodeSystemLog ts p))
  | JsonCommand p => Some (TObj (encodeCommandLog ts p))
  end.
(** What is written to the output; [fmt.Fprintln] ends a JSON line. *)
Definition emittedText (ts : gostring) (e : emitted) : bytes :=
  match e with
  | Text s | ErrText s => s
  | _ => from_option compactText [] (payloadTree ts e) ++ [10]
  end.

(** ** Events *)

(** [formatTime] is [time.Time.MarshalJSON]; a year beyond 9999 is an error. *)
Definition encodeEvent (ts : gostring) (e : LogEvent) : members :=
  obj [(gs "timestamp", encStr ts); (gs "type", encStr (ev_Type e)); (gs "client_ip", encStr (ev_ClientIP e)); (gs "details", encStr (ev_Details e));
       (gs "status", encStr (ev_Status e)); (gs "target", encStr (ev_Target e))].
Definition eventsTree (formatTime : Z -> option gostring) (events : list LogEvent) : option tree :=
  TArr <$> mapM (fun e => (fun ts => TObj (encodeEvent ts e)) <$> formatTime (ev_Timestamp e)) events.

(** ** Lines are lines *)

(** A tree of byte strings, of a small depth. *)
Definition line_ok (t : tree) : Prop := raw_ok t /\ (depth t <= 6)%nat.
Definition member_ok (kv : gostring * option tree) : Prop := bytes_ok kv.1 /\ forall t, kv.2 = Some t -> raw_ok t /\ (depth t <= 5)%nat.

Lemma obj_line_ok l : Forall member_ok l -> line_ok (TObj (obj l)).
Proof.
  intros H. rewrite Forall_forall in H. split.
  - apply raw_obj, Forall_forall. intros [k t] Hin. apply list_elem_of_omap in Hin as ([k' o] & Hin & E). destruct o as [t'|]; simpl in E; [|done]. simplify_eq.
    destruct (H _ Hin) as [Hk Ht]. split; [done|]. by apply Ht.
  - apply depth_obj, Forall_forall. intros [k o] Hin. destruct (H _ Hin) as [_ Ht]. cbn [snd] in *. destruct o as [t|]; simpl; [|lia]. by apply Ht.
Qed.
Lemma member_str k s : bytes_ok (gs k) -> bytes_ok s -> member_ok (gs k, encStr s).
Proof. intros Hk Hs. split; [done|]. intros t [= <-]. split; [by apply bool_decide_eq_true|simpl; lia]. Qed.
Lemma member_omit k s : bytes_ok (gs k) -> bytes_ok s -> member_ok (gs k, omitStr s).
Proof. intros Hk Hs. unfold omitStr. case_decide; [|by apply member_str]. split; [done|]. done. Qed.
Lemma member_int k n : bytes_ok (gs k) -> member_ok (gs k, encInt n).
Proof. intros Hk. split; [done|]. intros t [= <-]. split; [apply bool_decide_eq_true, number_fmt_d|simpl; lia]. Qed.
Lemma member_bool k b : bytes_ok (gs k) -> member_ok (gs k, Some (TBool b)).
Proof. intros Hk. split; [done|]. intros t [= <-]. split; [done|simpl; lia]. Qed.
Lemma member_strs k l : bytes_ok (gs k) -> Forall bytes_ok l -> member_ok (gs k, omitStrs l).
Proof.
  intros Hk Hl. split; [done|]. intros t Ht. cbn [snd] in Ht. assert (t = TArr (map TStr l)) as -> by (unfold omitStrs, omitList in Ht; destruct l; by simplify_eq). split.
  - apply raw_arr, Forall_map. eapply Forall_impl; [exact Hl|]. intros x Hx. by apply bool_decide_eq_true.
  - cbn [depth]. apply le_n_S, depth_list, Forall_map, Forall_true. simpl. lia.
Qed.
Lemma member_arr {A} k (enc : A -> tree) l :
  bytes_ok (gs k) -> Forall (fun x => raw_ok (enc x) /\ (depth (enc x) <= 4)%nat) l -> member_ok (gs k, Some (TArr (map enc l))).
Proof.
  intros Hk Hl. split; [done|]. intros t [= <-]. apply Forall_and in Hl as [H1 H2]. split; [by apply raw_arr, Forall_map|].
  cbn [depth]. by apply le_n_S, depth_list, Forall_map.
Qed.
Lemma question_ok q : bytes_ok q.1 -> bytes_ok q.2 -> raw_ok (TObj (encodeQuestion q)) /\ (depth (TObj (encodeQuestion q)) <= 4)%nat.
Proof.
  intros H1 H2. destruct (obj_line_ok [(gs "name", encStr q.1); (gs "type", encStr q.2)]) as [Hr _].
  - repeat (apply Forall_cons_2; [by apply member_str; [apply gs_bytes_ok|]|]). constructor.
  - split; [exact Hr|]. simpl. lia.
Qed.

Section Lines.
Context {U : Unicode} (ResolveIP : option (gostring -> gostring)).
Hypothesis Hresolve : forall f ip, ResolveIP = Some f -> bytes_ok ip -> bytes_ok (f ip).

(** Every argument is made of bytes. *)
Definition args_bytes (c : call) : Prop :=
  match c with
  | CallDNS ip qs _ _ ips _ => bytes_ok ip /\ Forall (fun q => bytes_ok q.1 /\ bytes_ok q.2) qs /\ Forall bytes_ok ips
  | CallFirewall ip target action detail => bytes_ok ip /\ bytes_ok target /\ bytes_ok action /\ bytes_ok detail
  | CallHTTP ip method host path _ target => bytes_ok ip /\ bytes_ok method /\ bytes_ok host /\ bytes_ok path /\ bytes_ok target
  | CallSystem msg | CallError msg => bytes_ok msg
  | CallCommand ip s | CallContainerOutput ip s => bytes_ok ip /\ bytes_ok s
  end.

Lemma resolveContainer_bytes ip : bytes_ok ip -> bytes_ok (resolveContainer ResolveIP ip).
Proof. intros H. unfold resolveContainer. destruct ResolveIP as [f|] eqn:E; [by apply (Hresolve f)|constructor]. Qed.

Definition payload_ok (ts : gostring) (e : emitted) : Prop := forall t, payloadTree ts e = Some t -> line_ok t.
Lemma text_ok ts s : payload_ok ts (Text s).
Proof. done. Qed.

Ltac payload_fields :=
  intros t [= <-]; apply obj_line_ok; unfold logHead; cbn [app];
  repeat (apply Forall_cons_2;
    [first [ apply member_str; [apply gs_bytes_ok|first [done | by apply (bool_decide_eq_true_1 (bytes_ok _)) | cbn; case_decide; by apply (bool_decide_eq_true_1 (bytes_ok _))]]
           | apply member_omit; [apply gs_bytes_ok|by apply resolveContainer_bytes]
           | apply member_int, gs_bytes_ok | apply member_bool, gs_bytes_ok | by apply member_strs; [apply gs_bytes_ok|] | idtac ]|]);
  try apply Forall_nil_2.

Lemma dnsLoop_text ts l clock now i ip qs rcode prefix suffix logType l' out :
  dnsLoop ResolveIP l clock now i ip qs rcode prefix suffix logType = Ret (l', out) -> Forall (payload_ok ts) out.
Proof.
  revert l i out. induction qs as [|[name type] qs IH]; intros l i out; cbn [dnsLoop]; [by intros [= <- <-]|].
  intros (l1 & _ & H)%bind_Ret_inv. apply bind_Ret_inv in H as ([l2 o2] & H2 & [= <- <-]). constructor; [apply text_ok|by eapply IH].
Qed.

(** The three ways of a call: silent, a JSON line, or a text line with an event. *)
Ltac json_branch :=
  destruct (al_isTestEnv _); [by intros [= <- <-]|]; destruct (al_useJson _);
  [intros [= <- <-]; apply Forall_singleton
  |let H := fresh in intros (? & _ & H)%bind_Ret_inv; injection H as <- <-; by apply Forall_singleton].

Lemma log_call_payload ts l clock now c l' out :
  bytes_ok ts -> args_bytes c -> log_call ResolveIP l clock now c = Ret (l', out) -> Forall (payload_ok ts) out.
Proof.
  intros Hts Hc. destruct c; simpl in Hc; destruct_and?; unfold log_call.
  - unfold DNS. destruct (al_isTestEnv _); [by intros [= <- <-]|]. destruct (al_useJson _); [|apply dnsLoop_text].
    intros [= <- <-]. apply Forall_singleton. payload_fields.
    + apply member_str; [apply gs_bytes_ok|]. destruct isLocalDns; by apply (bool_decide_eq_true_1 (bytes_ok _)).
    + apply member_arr; [apply gs_bytes_ok|]. eapply Forall_impl; [eassumption|]. intros q [? ?]. by apply question_ok.
  - unfold Firewall. json_branch. payload_fields.
  - unfold HTTP. json_branch. payload_fields.
  - unfold System. json_branch. payload_fields.
  - unfold Error. json_branch. payload_fields.
  - unfold Command. json_branch. payload_fields.
  - unfold ContainerOutput. json_branch. payload_fields.
Qed.

Lemma json_line t : line_ok t -> single_line (compactText t ++ [10]) /\ parseJson (compactText t ++ [10]) = Some (clean t).
Proof.
  intros [Hr Hd]. split.
  - exists (compactText t). split; [done|]. intros Hin. pose proof (compact_plain t Hr 0%nat) as Hp. rewrite Forall_forall in Hp. specialize (Hp _ Hin). lia.
  - apply parseJson_raw; [done| |by repeat constructor]. pose proof max_depth. lia.
Qed.
Lemma emitted_json ts e t : payloadTree ts e = Some t -> emittedText ts e = compactText t ++ [10].
Proof. destruct e; [done|done|intros [= <-]; done..]. Qed.
Lemma emitted_text ts e : payloadTree ts e = None -> one_line e -> single_line (emittedText ts e).
Proof. destruct e; try done. Qed.

(** C40: No log injection through the arguments that the logger sanitises (addresses,
    queried names, methods, hosts, paths, targets, commands and messages, of any bytes),
    in either mode: every call of the logger returns, what it writes is lines, each with
    its only line feed at its end, and a line of the JSON mode is read back as the payload
    of the call with ill-formed UTF-8 replaced.  The arguments that are printed as they
    are (the detail of a firewall line, record types in upper case, resolved addresses,
    the clock text) are assumed to have no line feed, the buffer to have room for an
    event, and a resolver of container names to return bytes. *)
Theorem log_lines_intact ts l clock now c :
  0 < lb_max (al_buffer l) -> no_break clock -> bytes_ok ts -> args_ok c -> args_bytes c ->
  exists l' out, log_call ResolveIP l clock now c = Ret (l', out) /\
    Forall (fun e => single_line (emittedText ts e) /\ forall t, payloadTree ts e = Some t -> parseJson (emittedText ts e) = Some (clean t)) out.
Proof.
  intros Hm Hc Hts Ha Hb. destruct (log_call_lines ResolveIP Hresolve l clock now c Hm Hc Ha) as (l' & out & E & Hl). exists l', out. split; [done|].
  pose proof (log_call_payload ts _ _ _ _ _ _ Hts Hb E) as Hp. rewrite Forall_forall in Hl, Hp |- *. intros e He.
  destruct (payloadTree ts e) as [t|] eqn:Et.
  - rewrite (emitted_json ts e t Et). destruct (json_line t (Hp e He t Et)). split; [done|]. by intros ? [= <-].
  - split; [|done]. by apply emitted_text; [|apply Hl].
Qed.
End Lines.

(** ** The list of events *)

Definition event_bytes (e : LogEvent) : Prop := bytes_ok (ev_Type e) /\ bytes_ok (ev_ClientIP e) /\ bytes_ok (ev_Details e) /\ bytes_ok (ev_Status e) /\ bytes_ok (ev_Target e).

Lemma event_ok ts e : bytes_ok ts -> event_bytes e -> raw_ok (TObj (encodeEvent ts e)) /\ depth (TObj (encodeEvent ts e)) = 1%nat.
Proof.
  intros Hts (H1 & H2 & H3 & H4 & H5). split; [|done]. unfold encodeEvent.
  match goal with |- raw_ok (TObj (obj ?l)) => destruct (obj_line_ok l) as [Hr _]; [|exact Hr] end.
  repeat (apply Forall_cons_2; [by apply member_str; [apply gs_bytes_ok|]|]). constructor.
Qed.
Lemma events_json formatTime events t :
  (forall n s, formatTime n = Some s -> bytes_ok s) -> Forall event_bytes events -> eventsTree formatTime events = Some t ->
  exists ts, parseJson (compactText t) = Some (clean (TArr (zip_with (fun s e => TObj (encodeEvent s e)) ts events))) /\ length ts = length events /\
    Forall2 (fun e s => formatTime (ev_Timestamp e) = Some s) events ts.
Proof.
  intros Hf He Ht. unfold eventsTree in Ht. destruct (mapM _ events) as [ls|] eqn:E; [|done]. injection Ht as <-. apply mapM_Some_1 in E.
  assert (exists ts, ls = zip_with (fun s e => TObj (encodeEvent s e)) ts events /\ Forall2 (fun e s => formatTime (ev_Timestamp e) = Some s) events ts) as (ts & -> & H2).
  { clear He. induction E as [|e t events ls Hx Hl IH]; [by exists []|]. destruct IH as (ts & -> & H2). destruct (formatTime (ev_Timestamp e)) as [s|] eqn:Es; [|done].
    injection Hx as <-. exists (s :: ts). split; [done|]. by constructor. }
  exists ts. split; [|split; [symmetry; by eapply Forall2_length|done]].
  assert (Forall (fun t => raw_ok t /\ (depth t <= 1)%nat) (zip_with (fun s e => TObj (encodeEvent s e)) ts events)) as Hall.
  { clear E. revert He. induction H2 as [|e s events ts Hs Hl IH]; intros He; [constructor|]. apply Forall_cons in He as [He1 He2]. constructor; [|auto].
    destruct (event_ok s e (Hf _ _ Hs) He1) as [? Hd]. split; [done|]. by rewrite Hd. }
  apply Forall_and in Hall as [H3 H4]. rewrite <- (app_nil_r (compactText _)). apply parseJson_raw; [by apply raw_arr| |constructor].
  pose proof max_depth. cbn [depth]. apply depth_list in H4. lia.
Qed.

(** ** Demonstrations *)

Definition demo_json_logger : AuditLogger := SetJsonMode demo_logger true.
Definition demo_call : call := CallHTTP (gs "10.0.0.1") (gs "GET") (gs "h" ++ [10] ++ gs "{}" ++ [255]) (gs "/") 403 (gs "Blocked").
Lemma log_lines_intact_witness :
  exists l' out, log_call (U := ascii_unicode) None demo_json_logger (gs "12:00") (fun _ => 0) demo_call = Ret (l', out) /\
    Forall (fun e => single_line (emittedText (gs "2024-01-01T00:00:00Z") e) /\
      forall t, payloadTree (gs "2024-01-01T00:00:00Z") e = Some t -> parseJson (emittedText (gs "2024-01-01T00:00:00Z") e) = Some (clean t)) out.
Proof.
  apply (log_lines_intact (U := ascii_unicode) None (fun _ _ (H : None = Some _) => match H with end) (gs "2024-01-01T00:00:00Z") demo_json_logger (gs "12:00") (fun _ => 0) demo_call);
    [reflexivity|by apply gs_no_break|apply gs_bytes_ok|simpl; split_and!; by apply (bool_decide_eq_true_1 (bytes_ok _))..].
Defined.

(** In JSON mode no event reaches the buffer that the dashboard shows. *)
Theorem json_mode_hides_events {U : Unicode} ResolveIP l clock now c l' out :
  al_useJson l = true -> log_call ResolveIP l clock now c = Ret (l', out) -> al_buffer l' = al_buffer l.
Proof.
  intros Hj. assert (forall c d l, al_useJson (bump c d l) = al_useJson l /\ al_buffer (bump c d l) = al_buffer l) as Hb by done.
  destruct c; unfold log_call, DNS, Firewall, HTTP, System, Error, Command, ContainerOutput;
    repeat match goal with |- context [if decide ?P then bump _ _ _ else _] => destruct (decide P) end;
    destruct (al_isTestEnv _); try (by intros [= <- <-]);
    match goal with |- context [if al_useJson ?x then _ else _] => assert (al_useJson x = true) as -> by done end; by intros [= <- <-].
Qed.
