(* ===== verification/Regex.v ===== *)
(** * Regular expressions ([regexp])

    The part of Go's [regexp] that the telemetry uses: character classes, greedy
    repetition of a class, sequences, alternatives and groups.  [runs] lists the matches
    at the start of a text in the order in which a backtracking search finds them; the
    package documents that it returns the match such a search would find first
    (leftmost-first).  [matches] is the language, and [runs] is proved to list exactly
    its words.  A text is a list of runes. *)
From S2P Require Import Prelude.

Inductive regex : Type :=
| Chr (p : Z -> bool)
| Rep (p : Z -> bool)
| Cat (r1 r2 : regex)
| Alt (r1 r2 : regex)
| Group (i : nat) (r : regex)
| Eps.

(** The text of each group. *)
Abbreviation captures := (list (nat * list Z)).

(** ** The language *)

Inductive matches : regex -> list Z -> captures -> Prop :=
| M_Chr p c : p c = true -> matches (Chr p) [c] []
| M_Rep p w : Forall (fun c => p c = true) w -> matches (Rep p) w []
| M_Cat r1 r2 w1 w2 c1 c2 : matches r1 w1 c1 -> matches r2 w2 c2 -> matches (Cat r1 r2) (w1 ++ w2) (c1 ++ c2)
| M_AltL r1 r2 w c : matches r1 w c -> matches (Alt r1 r2) w c
| M_AltR r1 r2 w c : matches r2 w c -> matches (Alt r1 r2) w c
| M_Group i r w c : matches r w c -> matches (Group i r) w ((i, w) :: c)
| M_Eps : matches Eps [] [].

(** ** The matcher *)

(** A match: the text, what follows it, and the groups. *)
Abbreviation result := (list Z * list Z * captures)%type.

(** Greedy: the longest repetition first. *)
Fixpoint reps (p : Z -> bool) (s : list Z) : list result :=
  match s with
  | c :: s' => if p c then map (fun '(w, rest, cs) => (c :: w, rest, cs)) (reps p s') ++ [([], s, [])] else [([], s, [])]
  | [] => [([], [], [])]
  end.

Definition joinResult (x y : result) : result := let '(w1, _, c1) := x in let '(w2, rest, c2) := y in (w1 ++ w2, rest, c1 ++ c2).

Fixpoint runs (r : regex) (s : list Z) : list result :=
  match r with
  | Chr p => match s with c :: s' => if p c then [([c], s', [])] else [] | [] => [] end
  | Rep p => reps p s
  | Cat r1 r2 => flat_map (fun x => map (joinResult x) (runs r2 x.1.2)) (runs r1 s)
  | Alt r1 r2 => runs r1 s ++ runs r2 s
  | Group i r => map (fun '(w, rest, cs) => (w, rest, (i, w) :: cs)) (runs r s)
  | Eps => [([], s, [])]
  end.

(** The leftmost match: what precedes it, and the match. *)
Fixpoint find (r : regex) (s : list Z) : option (list Z * result) :=
  match runs r s with
  | x :: _ => Some ([], x)
  | [] => match s with
          | [] => None
          | c :: s => (fun '(a, x) => (c :: a, x)) <$> find r s
          end
  end.

Definition MatchString (r : regex) (s : list Z) : bool := bool_decide (is_Some (find r s)).

(** The text of group [i]; a group that took no part is empty. *)
Definition group (cs : captures) (i : nat) : list Z :=
  match List.find (fun p => Nat.eqb p.1 i) cs with Some p => p.2 | None => [] end.

(** [FindStringSubmatch], for an expression with [n] groups: the match and its groups. *)
Definition FindStringSubmatch (n : nat) (r : regex) (s : list Z) : option (list (list Z)) :=
  (fun '(_, (w, _, cs)) => w :: map (group cs) (seq 1 n)) <$> find r s.

(** ** Building expressions *)

(** [x+] for a class, a literal, and a sequence. *)
Definition Plus (p : Z -> bool) : regex := Cat (Chr p) (Rep p).
Definition Lit (s : gostring) : regex := foldr (fun c r => Cat (Chr (fun x => bool_decide (x = c))) r) Eps s.
Definition Seq (rs : list regex) : regex := foldr Cat Eps rs.

(** [\s] and [\d]; a class given by its members, and its complement. *)
Definition cls_s (c : Z) : bool := bool_decide (c ∈ [9; 10; 12; 13; 32]).
Definition cls_d (c : Z) : bool := bool_decide (48 <= c <= 57).
Definition noneOf (ps : list (Z -> bool)) (c : Z) : bool := negb (existsb (fun p => p c) ps).
Definition just (c : Z) (x : Z) : bool := bool_decide (x = c).

(** ** The matcher finds the language *)

Lemma elem_of_reps p s w rest cs :
  (w, rest, cs) ∈ reps p s <-> s = w ++ rest /\ cs = [] /\ Forall (fun c => p c = true) w.
Proof.
  revert w. induction s as [|c s IH]; intros w; cbn [reps].
  { rewrite list_elem_of_singleton. split; [intros [= -> -> ->]; auto|]. intros (H & -> & _). symmetry in H. by apply app_eq_nil in H as [-> ->]. }
  assert ((w, rest, cs) = ([], c :: s, []) -> c :: s = w ++ rest /\ cs = [] /\ Forall (fun c => p c = true) w) as Hnil.
  { intros [= -> -> ->]. auto. }
  destruct (p c) eqn:Hp.
  - rewrite elem_of_app, list_elem_of_singleton, list_elem_of_fmap. split.
    + intros [([[w' rest'] cs'] & [= -> -> ->] & (-> & -> & Hw)%IH)|H]; [|auto]. auto.
    + destruct w as [|d w]; simpl; [intros (<- & -> & _); by right|]. intros ([= -> ->] & -> & [_ Hw]%Forall_cons).
      left. exists (w, rest, []). split; [done|]. by apply IH.
  - rewrite list_elem_of_singleton. split; [done|]. intros (H & -> & Hw). destruct w as [|d w]; simpl in H; [by subst|].
    apply Forall_cons in Hw as [Hd _]. injection H as -> _. congruence.
Qed.

Lemma elem_of_runs_Cat r1 r2 s w rest cs :
  (w, rest, cs) ∈ runs (Cat r1 r2) s <->
  exists w1 w2 mid c1 c2, w = w1 ++ w2 /\ cs = c1 ++ c2 /\ (w1, mid, c1) ∈ runs r1 s /\ (w2, rest, c2) ∈ runs r2 mid.
Proof.
  cbn [runs]. rewrite list_elem_of_In, in_flat_map. split.
  - intros ([[w1 mid] c1] & H1 & H2). apply list_elem_of_In in H1, H2. apply list_elem_of_fmap in H2 as ([[w2 rest2] c2] & [= -> -> ->] & H2).
    cbn in H2. eauto 10.
  - intros (w1 & w2 & mid & c1 & c2 & -> & -> & H1 & H2). exists (w1, mid, c1). split; [by apply list_elem_of_In|].
    apply list_elem_of_In, list_elem_of_fmap. by exists (w2, rest, c2).
Qed.

(** The matches that are listed are the prefixes that belong to the language. *)
Lemma runs_spec r : forall s w rest cs, (w, rest, cs) ∈ runs r s <-> s = w ++ rest /\ matches r w cs.
Proof.
  induction r as [p|p|r1 IH1 r2 IH2|r1 IH1 r2 IH2|i r IH|]; intros s w rest cs.
  - cbn [runs]. split.
    + destruct s as [|c s]; [by intros ?%not_elem_of_nil|]. destruct (p c) eqn:E; [|by intros ?%not_elem_of_nil].
      intros [= -> -> ->]%list_elem_of_singleton. split; [done|by constructor].
    + intros [-> Hm]. inversion Hm as [? c Hp| | | | | | ]; subst. simpl. rewrite Hp. by apply list_elem_of_singleton.
  - cbn [runs]. rewrite elem_of_reps. split; [intros (-> & -> & ?); split; [done|by constructor]|]. intros [-> Hm]. by inversion Hm.
  - rewrite elem_of_runs_Cat. split.
    + intros (w1 & w2 & mid & c1 & c2 & -> & -> & [-> H1]%IH1 & [-> H2]%IH2). split; [by rewrite app_assoc|by constructor].
    + intros [-> Hm]. inversion Hm; subst. eexists _, _, _, _, _. split; [done|]. split; [done|]. rewrite IH1, IH2, <- app_assoc. eauto.
  - cbn [runs]. rewrite elem_of_app, IH1, IH2. split; [intros [[-> ?]|[-> ?]]; (split; [done|by constructor])|].
    intros [-> Hm]. inversion Hm; subst; auto.
  - cbn [runs]. rewrite list_elem_of_fmap. split.
    + intros ([[w' rest'] cs'] & [= -> -> ->] & [-> H]%IH). split; [done|by constructor].
    + intros [-> Hm]. inversion Hm as [| | | | |? ? ? c H|]; subst. exists (w, rest, c). rewrite IH. auto.
  - cbn [runs]. rewrite list_elem_of_singleton. split; [intros [= -> -> ->]; split; [done|constructor]|]. intros [-> Hm]. by inversion Hm.
Qed.

(** A match somewhere in a text. *)
Definition occurs (r : regex) (s : list Z) : Prop := exists a w b cs, s = a ++ w ++ b /\ matches r w cs.

Lemma find_Some r s a w b cs : find r s = Some (a, (w, b, cs)) -> s = a ++ w ++ b /\ matches r w cs.
Proof.
  revert a. induction s as [|c s IH]; intros a; cbn [find].
  - destruct (runs r []) as [|x l] eqn:E; [done|]. intros [= <- ->].
    pose proof (runs_spec r [] w b cs) as [H _]. destruct H as [H1 H2]; [rewrite E; left|]. split; [exact H1|exact H2].
  - destruct (runs r (c :: s)) as [|x l] eqn:E.
    + destruct (find r s) as [[a' [[w' b'] cs']]|] eqn:Ef; [|done]. intros [= <- -> -> ->]. destruct (IH a' eq_refl) as [-> Hm]. done.
    + intros [= <- ->]. pose proof (runs_spec r (c :: s) w b cs) as [H _]. destruct H as [H1 H2]; [rewrite E; left|]. split; [exact H1|exact H2].
Qed.

Lemma find_None r s : find r s = None -> ~ occurs r s.
Proof.
  intros Hf (a & w & b & cs & -> & Hm). revert Hf. induction a as [|c a IH]; simpl app; intros Hf.
  - assert (runs r (w ++ b) <> []) as Hne.
    { intros E. pose proof (proj2 (runs_spec r (w ++ b) w b cs) (conj eq_refl Hm)) as H. rewrite E in H. by apply not_elem_of_nil in H. }
    destruct (w ++ b); simpl in Hf; by destruct (runs r _).
  - cbn [find] in Hf. destruct (runs r _); [|done]. destruct (find r (a ++ w ++ b)); [done|auto].
Qed.

(** A text is matched exactly if a word of the language occurs in it. *)
Lemma MatchString_spec r s : MatchString r s = true <-> occurs r s.
Proof.
  unfold MatchString. rewrite bool_decide_eq_true. split.
  - intros [[a [[w b] cs]] H]. apply find_Some in H as [-> H]. by exists a, w, b, cs.
  - intros H. destruct (find r s) eqn:E; [by eexists|]. by apply find_None in E.
Qed.

(** The leftmost match, when no match starts earlier and the words that match there have
    the same groups: no greediness can change the result. *)
Lemma find_unique r a s cs :
  (forall a1 c a2, a = a1 ++ c :: a2 -> forall w b cs', c :: a2 ++ s = w ++ b -> ~ matches r w cs') ->
  (exists w b, s = w ++ b /\ matches r w cs) ->
  (forall w b cs', s = w ++ b -> matches r w cs' -> cs' = cs) ->
  exists w b, find r (a ++ s) = Some (a, (w, b, cs)).
Proof.
  intros Hno (w0 & b0 & E0 & Hm0) Huniq.
  induction a as [|c a IH]; simpl app.
  - pose proof (proj2 (runs_spec r s w0 b0 cs) (conj E0 Hm0)) as Hin. destruct (runs r s) as [|[[w b] cs'] l] eqn:E; [by apply not_elem_of_nil in Hin|].
    exists w, b. pose proof (proj1 (runs_spec r s w b cs')) as H. destruct H as [Hs Hm]; [rewrite E; left|].
    rewrite (Huniq _ _ _ Hs Hm) in E. destruct s; cbn [find]; by rewrite E.
  - destruct IH as (w & b & Hf); [intros a1 d a2 ->; by apply (Hno (c :: a1))|].
    cbn [find]. destruct (runs r (c :: a ++ s)) as [|[[w' b'] cs'] l] eqn:E; [rewrite Hf; simpl; eauto|].
    exfalso. pose proof (proj1 (runs_spec r (c :: a ++ s) w' b' cs')) as H. destruct H as [Hs Hm]; [rewrite E; left|].
    by eapply (Hno [] c a eq_refl).
Qed.

(** ** Inversion *)

Lemma matches_Cat r1 r2 w cs :
  matches (Cat r1 r2) w cs <-> exists w1 w2 c1 c2, w = w1 ++ w2 /\ cs = c1 ++ c2 /\ matches r1 w1 c1 /\ matches r2 w2 c2.
Proof. split; [inversion 1; subst; eauto 10|]. intros (w1 & w2 & c1 & c2 & -> & -> & ? & ?). by constructor. Qed.

Lemma matches_Chr p w cs : matches (Chr p) w cs <-> exists c, w = [c] /\ cs = [] /\ p c = true.
Proof. split; [inversion 1; subst; eauto|]. intros (c & -> & -> & ?). by constructor. Qed.

Lemma matches_Rep p w cs : matches (Rep p) w cs <-> cs = [] /\ Forall (fun c => p c = true) w.
Proof. split; [by inversion 1|]. intros [-> ?]. by constructor. Qed.

Lemma matches_Plus p w cs : matches (Plus p) w cs <-> cs = [] /\ w <> [] /\ Forall (fun c => p c = true) w.
Proof.
  unfold Plus. rewrite matches_Cat. split.
  - intros (w1 & w2 & c1 & c2 & -> & -> & (c & -> & -> & Hc)%matches_Chr & [-> H]%matches_Rep). split; [done|]. split; [done|by constructor].
  - intros (-> & Hne & H). destruct w as [|c w]; [done|]. apply Forall_cons in H as [Hc H]. exists [c], w, [], [].
    split; [done|]. split; [done|]. split; [by constructor|by constructor].
Qed.

Lemma matches_Lit s w cs : matches (Lit s) w cs <-> w = s /\ cs = [].
Proof.
  unfold Lit. revert w cs. induction s as [|c s IH]; intros w cs; cbn [foldr].
  - split; [by inversion 1|]. intros [-> ->]. constructor.
  - rewrite matches_Cat. split.
    + intros (w1 & w2 & c1 & c2 & -> & -> & (d & -> & -> & Hd)%matches_Chr & [-> ->]%IH). by apply bool_decide_eq_true in Hd as ->.
    + intros [-> ->]. exists [c], s, [], []. split; [done|]. split; [done|]. split; [|by apply IH]. apply matches_Chr. exists c.
      split; [done|]. split; [done|]. by apply bool_decide_eq_true.
Qed.

Lemma matches_Group i r w cs : matches (Group i r) w cs <-> exists c, cs = (i, w) :: c /\ matches r w c.
Proof. split; [inversion 1; subst; eauto|]. intros (c & -> & ?). by constructor. Qed.

Lemma matches_Eps w cs : matches Eps w cs <-> w = [] /\ cs = [].
Proof. split; [by inversion 1|]. intros [-> ->]. constructor. Qed.

Lemma matches_Seq r rs w cs :
  matches (Seq (r :: rs)) w cs <-> exists w1 w2 c1 c2, w = w1 ++ w2 /\ cs = c1 ++ c2 /\ matches r w1 c1 /\ matches (Seq rs) w2 c2.
Proof. apply matches_Cat. Qed.

Lemma matches_Seq_nil w cs : matches (Seq []) w cs <-> w = [] /\ cs = [].
Proof. apply matches_Eps. Qed.

(** ** Matching item by item *)

(** A sequence matches at the start of [s] and leaves [rest]. *)
Definition accepts (rs : list regex) (s rest : list Z) (cs : captures) : Prop := exists w, s = w ++ rest /\ matches (Seq rs) w cs.

Lemma accepts_nil s rest cs : accepts [] s rest cs <-> s = rest /\ cs = [].
Proof.
  unfold accepts. setoid_rewrite matches_Seq_nil. split; [by intros (w & -> & -> & ->)|]. intros [-> ->]. by exists [].
Qed.

Lemma accepts_cons r rs s rest cs :
  accepts (r :: rs) s rest cs <-> exists w t c1 c2, s = w ++ t /\ cs = c1 ++ c2 /\ matches r w c1 /\ accepts rs t rest c2.
Proof.
  unfold accepts. split.
  - intros (w & -> & (w1 & w2 & c1 & c2 & -> & -> & H1 & H2)%matches_Seq). exists w1, (w2 ++ rest), c1, c2. rewrite <- app_assoc. eauto 10.
  - intros (w & t & c1 & c2 & -> & -> & H1 & w2 & -> & H2). exists (w ++ w2). rewrite <- app_assoc. split; [done|].
    apply matches_Seq. eauto 10.
Qed.

Lemma accepts_Lit l rs s rest cs : accepts (Lit l :: rs) s rest cs <-> exists t, s = l ++ t /\ accepts rs t rest cs.
Proof.
  rewrite accepts_cons. split.
  - intros (w & t & c1 & c2 & -> & -> & [-> ->]%matches_Lit & H). eauto.
  - intros (t & -> & H). exists l, t, [], cs. repeat split; [by apply matches_Lit|done].
Qed.

Lemma accepts_Rep p rs s rest cs :
  accepts (Rep p :: rs) s rest cs <-> exists a t, s = a ++ t /\ Forall (fun c => p c = true) a /\ accepts rs t rest cs.
Proof.
  rewrite accepts_cons. split.
  - intros (w & t & c1 & c2 & -> & -> & [-> Hw]%matches_Rep & H). eauto.
  - intros (a & t & -> & Ha & H). exists a, t, [], cs. repeat split; [by apply matches_Rep|done].
Qed.

Lemma accepts_Plus p rs s rest cs :
  accepts (Plus p :: rs) s rest cs <-> exists a t, s = a ++ t /\ a <> [] /\ Forall (fun c => p c = true) a /\ accepts rs t rest cs.
Proof.
  rewrite accepts_cons. split.
  - intros (w & t & c1 & c2 & -> & -> & (-> & Hn & Hw)%matches_Plus & H). eauto 10.
  - intros (a & t & -> & Hn & Ha & H). exists a, t, [], cs. repeat split; [by apply matches_Plus|done].
Qed.

Lemma accepts_Group i r rs s rest cs :
  accepts (Group i r :: rs) s rest cs <-> exists w t c1 c2, s = w ++ t /\ cs = (i, w) :: c1 ++ c2 /\ matches r w c1 /\ accepts rs t rest c2.
Proof.
  rewrite accepts_cons. split.
  - intros (w & t & c1 & c2 & -> & -> & (c & -> & H)%matches_Group & H2). eauto 10.
  - intros (w & t & c1 & c2 & -> & -> & H & H2). exists w, t, ((i, w) :: c1), c2. repeat split; [by apply matches_Group; eauto|done].
Qed.

(** *** Where the classes delimit the text, there is one way to match *)

(** [s] does not go on with a character of [p]; no match of [rs] begins with one. *)
Definition stops (p : Z -> bool) (s : list Z) : Prop := forall c t, s = c :: t -> p c = false.
Definition starts_off (p : Z -> bool) (rs : list regex) : Prop := forall s rest cs, accepts rs s rest cs -> stops p s.

Lemma span_unique p (a a' t t' : list Z) :
  a ++ t = a' ++ t' -> Forall (fun c => p c = true) a -> Forall (fun c => p c = true) a' -> stops p t -> stops p t' -> a = a' /\ t = t'.
Proof.
  intros E Ha Ha' Ht Ht'. revert a' E Ha'. induction Ha as [|c a Hc Ha IH]; intros [|c' a'] E Ha'; simpl in E.
  - done.
  - subst t. apply Forall_cons in Ha' as [Hc' _]. specialize (Ht c' (a' ++ t') eq_refl). congruence.
  - subst t'. specialize (Ht' c (a ++ t) eq_refl). congruence.
  - injection E as -> E. apply Forall_cons in Ha' as [_ Ha']. by destruct (IH a' E Ha') as [-> ->].
Qed.

Lemma stops_cons p c s : p c = false -> stops p (c :: s).
Proof. by intros H d t [= <- <-]. Qed.
Lemma stops_nil p : stops p [].
Proof. done. Qed.

Lemma starts_off_Lit p c l rs : p c = false -> starts_off p (Lit (c :: l) :: rs).
Proof. intros Hc s rest cs (t & -> & _)%accepts_Lit. by apply stops_cons. Qed.
Lemma starts_off_Plus p q rs : (forall c, q c = true -> p c = false) -> starts_off p (Plus q :: rs).
Proof.
  intros Hq s rest cs (a & t & -> & Hn & Ha & _)%accepts_Plus. destruct a as [|c a]; [done|]. apply Forall_cons in Ha as [Hc _].
  by apply stops_cons, Hq.
Qed.
Lemma starts_off_Group p i q rs : (forall c, q c = true -> p c = false) -> starts_off p (Group i (Plus q) :: rs).
Proof.
  intros Hq s rest cs (w & t & c1 & c2 & -> & -> & (_ & Hn & Hw)%matches_Plus & _)%accepts_Group. destruct w as [|c w]; [done|].
  apply Forall_cons in Hw as [Hc _]. by apply stops_cons, Hq.
Qed.

Section Step.
Context (p : Z -> bool) (rs : list regex) (x y rest : list Z) (cs : captures).
Hypothesis (Hx : Forall (fun c => p c = true) x) (Hy : stops p y) (Hrs : starts_off p rs).

Lemma step_Rep : accepts (Rep p :: rs) (x ++ y) rest cs <-> accepts rs y rest cs.
Proof.
  rewrite accepts_Rep. split; [|eauto]. intros (a & t & E & Ha & H). pose proof (Hrs _ _ _ H) as Ht.
  by destruct (span_unique p x a y t E Hx Ha Hy Ht) as [-> ->].
Qed.

Lemma step_Plus : x <> [] -> accepts (Plus p :: rs) (x ++ y) rest cs <-> accepts rs y rest cs.
Proof.
  intros Hn. rewrite accepts_Plus. split; [|eauto 10]. intros (a & t & E & _ & Ha & H). pose proof (Hrs _ _ _ H) as Ht.
  by destruct (span_unique p x a y t E Hx Ha Hy Ht) as [-> ->].
Qed.

Lemma step_Group i : x <> [] -> accepts (Group i (Plus p) :: rs) (x ++ y) rest cs <-> exists c, cs = (i, x) :: c /\ accepts rs y rest c.
Proof.
  intros Hn. rewrite accepts_Group. split.
  - intros (a & t & c1 & c2 & E & -> & (-> & Hna & Ha)%matches_Plus & H). pose proof (Hrs _ _ _ H) as Ht.
    destruct (span_unique p x a y t E Hx Ha Hy Ht) as [-> ->]. eauto.
  - intros (c & -> & H). exists x, y, [], c. repeat split; [by apply matches_Plus|done].
Qed.
End Step.

Lemma step_Lit l rs y rest cs : accepts (Lit l :: rs) (l ++ y) rest cs <-> accepts rs y rest cs.
Proof. rewrite accepts_Lit. split; [|eauto]. by intros (t & ->%app_inv_head & H). Qed.

(** A text in which no match starts before [s], where the groups are [cs]. *)
Lemma find_accepts rs a s cs :
  (forall a1 c a2, a = a1 ++ c :: a2 -> forall rest cs', ~ accepts rs (c :: a2 ++ s) rest cs') ->
  (exists rest, accepts rs s rest cs) -> (forall rest cs', accepts rs s rest cs' -> cs' = cs) ->
  exists w b, find (Seq rs) (a ++ s) = Some (a, (w, b, cs)).
Proof.
  intros H1 (b & w & E & Hm) H3. apply find_unique.
  - intros a1 c a2 -> w' b' cs' E' Hm'. eapply (H1 a1 c a2 eq_refl b' cs'). exists w'. done.
  - by exists w, b.
  - intros w' b' cs' E' Hm'. apply (H3 b'). by exists w'.
Qed.
