(* ===== verification/DockerLogs.v ===== *)
(** * The container telemetry ([pkg/controlplane/docker_logs.go])

    Discovery of containers and of sandbox directories, the table of streams, the
    framed log stream of the container engine, and the cleaning of log lines.  The
    engine's answers, the directory and the environment are arguments.  [Strace] has the
    rest of the file. *)
From S2P Require Import Prelude GoStrings NetIP Platform JsonText GoText Config Json RateLimiter AuditLog.

Definition MaxLogFrameSize : Z := 1048576.

(** [dc_Networks]: the address of each network. *)
Record DockerContainer := {
  dc_ID : gostring;
  dc_Names : list gostring;
  dc_State : gostring;
  dc_Image : gostring;
  dc_Networks : gmap gostring gostring;
}.

(** The engine's list of containers; [None] is an error.  What follows the first value of
    the answer is not read. *)
Definition decNetworkInfo : decoder gostring := decStruct (fun c m => field decStr m (gs "IPAddress") c).
Definition decNetworkSettings : decoder (gmap gostring gostring) := decStruct (fun c m => field (decMap [] decNetworkInfo) m (gs "Networks") c).
Definition zeroContainer : DockerContainer := {| dc_ID := []; dc_Names := []; dc_State := []; dc_Image := []; dc_Networks := ∅ |}.
Definition decodeContainer (c : DockerContainer) (m : members) : option DockerContainer :=
  id ← field decStr m (gs "Id") (dc_ID c);
  names ← field decStrs m (gs "Names") (dc_Names c);
  state ← field decStr m (gs "State") (dc_State c);
  image ← field decStr m (gs "Image") (dc_Image c);
  networks ← field decNetworkSettings m (gs "NetworkSettings") (dc_Networks c);
  Some {| dc_ID := id; dc_Names := names; dc_State := state; dc_Image := image; dc_Networks := networks |}.
Definition decodeAnswer {A} (d : decoder A) (zero : A) (body : bytes) : option A :=
  match decodeFirst body with Ret (Some (t, _)) => d zero t | _ => None end.
Definition decodeContainers : bytes -> option (list DockerContainer) := decodeAnswer (decList zeroContainer (decStruct decodeContainer)) [].

(** The name of an address, for the audit log; empty when unknown. *)
Abbreviation ContainerIpMap := (gmap gostring gostring).
Definition resolveIP (m : ContainerIpMap) (ip : gostring) : gostring := default [] (m !! ip).

(** What a discovery does besides updating the tables. *)
Inductive effect : Type :=
| StartStdout (id name ip : gostring)
| StartGvisor (id name ip : gostring)
| Cancel (id : gostring)
| Log (c : call).

Record Discovery := {
  dv_active : gset gostring;      (* the keys of [activeStreams] *)
  dv_running : gset gostring;     (* [runningIds] *)
  dv_names : ContainerIpMap;      (* [IPToName] *)
  dv_effects : list effect;
}.

Section Discover.
Context {MR : MapRange}.

(** The environment switches, [true] unless set to false. *)
Variables (streamStdout streamGvisor : bool).

(** [StopAll] and the loop that ends each discovery: cancel and delete every stream of
    [gone]; the order is the map's. *)
Definition cancelAll (order : list gostring) (gone active : gset gostring) : gset gostring * list effect :=
  (active ∖ gone, map Cancel (filter (fun id => id ∈ gone /\ id ∈ active) order)).
Definition StopAll (order : list gostring) (active : gset gostring) : gset gostring * list effect := cancelAll order active active.

(** One entry of the directory of sandboxes: its name and whether it is a directory. *)
Definition discoverDir (d : Discovery) (f : gostring * bool) : Discovery :=
  let '(id, isDir) := f in
  if negb isDir then d
  else if decide (len id < 8) then d
  else
    let name := if decide (len id > 12) then take 12 id else id in
    let ipAddress := name in
    {| dv_active := {[id]} ∪ dv_active d; dv_running := {[id]} ∪ dv_running d; dv_names := <[ipAddress := name]> (dv_names d);
       dv_effects := dv_effects d ++
         (if decide (id ∈ dv_active d) then []
          else if streamGvisor then
            [Log (CallSystem (gs "Discovered direct gVisor sandbox " ++ name ++ gs ". Starting gVisor strace stream..."));
             StartGvisor id name ipAddress]
          else []) |}.

(** The end of both discoveries: streams whose container is gone are cancelled. *)
Definition sweep (order : list gostring) (d : Discovery) : gset gostring * ContainerIpMap * list effect :=
  let '(active, effects) := cancelAll order (dv_active d ∖ dv_running d) (dv_active d) in
  (active, dv_names d, dv_effects d ++ effects).

(** [files]: [None] when the directory cannot be read. *)
Definition discoverAndStreamDirect (order : list gostring) (active : gset gostring) (names : ContainerIpMap) (files : option (list (gostring * bool)))
  : gset gostring * ContainerIpMap * list effect :=
  match files with
  | None => (active, names, [])
  | Some files =>
      sweep order (foldl discoverDir {| dv_active := active; dv_running := ∅; dv_names := names; dv_effects := [] |} files)
  end.

Definition containerName (c : DockerContainer) : gostring :=
  match dc_Names c with [] => [] | n :: _ => TrimPrefix n (gs "/") end.

(** The proxy's own container. *)
Definition isOttergate (myHostname : gostring) (c : DockerContainer) : bool :=
  let name := containerName c in
  (bool_decide (myHostname <> []) && HasPrefix (dc_ID c) myHostname) ||
  (Contains name (gs "ottergate") && negb (Contains name (gs "client")) && negb (Contains name (gs "backend"))).

(** The addresses of a container, in the order of the map. *)
Definition containerIps (c : DockerContainer) : list gostring := filter (fun ip => ip <> []) (map snd (range (dc_Networks c))).
Definition recordNames (names : ContainerIpMap) (c : DockerContainer) : ContainerIpMap * gostring :=
  let name := containerName c in
  match containerIps c with
  | [] => (<[name := name]> names, name)
  | ips => (foldl (fun m ip => <[ip := name]> m) names ips, List.last ips [])
  end.

Definition discoverContainer (myHostname : gostring) (d : Discovery) (c : DockerContainer) : go Discovery :=
  if isOttergate myHostname c then Ret d
  else
    let name := containerName c in
    let '(names, ipAddress) := recordNames (dv_names d) c in
    let id := dc_ID c in
    effects ← (if decide (id ∈ dv_active d) then Ret []
               else
                 let announce (on : bool) (tail : gostring) (start : effect) : go (list effect) :=
                   if on then
                     short ← slice id 0 12;
                     Ret [Log (CallSystem (gs "Discovered container " ++ name ++ gs " (" ++ short ++ gs ") IP " ++ ipAddress ++ tail)); start]
                   else Ret [] in
                 e1 ← announce streamStdout (gs ". Starting stdout stream...") (StartStdout id name ipAddress);
                 e2 ← announce streamGvisor (gs ". Starting gVisor strace stream...") (StartGvisor id name ipAddress);
                 Ret (e1 ++ e2));
    Ret {| dv_active := {[id]} ∪ dv_active d; dv_running := {[id]} ∪ dv_running d; dv_names := names; dv_effects := dv_effects d ++ effects |}.

Fixpoint discoverContainers (myHostname : gostring) (d : Discovery) (cs : list DockerContainer) : go Discovery :=
  match cs with
  | [] => Ret d
  | c :: cs => d ← discoverContainer myHostname d c; discoverContainers myHostname d cs
  end.

(** [answer]: the body of the engine's answer, if there is one. *)
Definition discoverAndStream (myHostname : gostring) (order : list gostring) (active : gset gostring) (names : ContainerIpMap)
    (answer : option bytes) : go (gset gostring * ContainerIpMap * list effect) :=
  match answer ≫= decodeContainers with
  | None => Ret (active, names, [])
  | Some cs =>
      d ← discoverContainers myHostname {| dv_active := active; dv_running := ∅; dv_names := names; dv_effects := [] |} cs;
      Ret (sweep order d)
  end.

(** The deferred deletion when a stdout stream ends: the table forgets the container,
    but its context is not cancelled. *)
Definition stdoutEnds (active : gset gostring) (id : gostring) : gset gostring := active ∖ {[id]}.

End Discover.

(** ** Log lines *)

(** The text after a match of [oscRegex] or [csiRegex] at the start, if there is one. *)
Fixpoint oscBody (s : bytes) : option bytes :=
  match s with
  | 7 :: s => Some s
  | 27 :: 92 :: s => Some s
  | c :: s => if decide (c = 27 \/ c = 92) then None else oscBody s
  | [] => None
  end.
Definition matchOsc (s : bytes) : option bytes := match s with 27 :: 93 :: s => oscBody s | _ => None end.
Fixpoint csiBody (s : bytes) : option bytes :=
  match s with
  | [] => None
  | c :: s => if decide (48 <= c <= 57 \/ c = 59 \/ c = 63) then csiBody s
              else if decide (65 <= c <= 90 \/ 97 <= c <= 122) then Some s else None
  end.
Definition matchCsi (s : bytes) : option bytes := match s with 27 :: 91 :: s => csiBody s | _ => None end.

(** [ReplaceAllString(s, ...)] with the empty string; the fuel is the length. *)
Fixpoint stripAll (m : bytes -> option bytes) (fuel : nat) (s : bytes) : bytes :=
  match fuel with
  | O => s
  | S fuel =>
      match m s with
      | Some rest => stripAll m fuel rest
      | None => match s with [] => [] | c :: s => c :: stripAll m fuel s end
      end
  end.
Definition ReplaceAll (m : bytes -> option bytes) (s : bytes) : bytes := stripAll m (length s) s.

Definition cleanRune (r : Z) : bytes :=
  if decide (32 <= r <= 126) then EncodeRune r else if decide (r = 9 \/ r = 10) then [32] else [].

Definition cleanLogLine (line : gostring) : gostring :=
  let line := ReplaceAll matchOsc line in
  let line := ReplaceAll matchCsi line in
  let line := match LastIndexByte line 13 with Some idx => drop (S idx) line | None => line end in
  TrimSpace (flat_map cleanRune (runes line)).

(** ** The framed stream *)

(** [logStdout]: OTTERGATE_LOG_CONTAINER_STDOUT is not false. *)
Definition processLine (logStdout : bool) (ipAddress line : gostring) : list call :=
  let line := cleanLogLine line in
  if decide (line = []) then []
  else if Contains line (gs "execve") || Contains line (gs "sys_enter_execve") then [CallCommand ipAddress line]
  else if logStdout then [CallContainerOutput ipAddress line]
  else [].

(** The inner loop on a chunk: the complete lines and the text kept in [lineBuf].  One
    round per line; the fuel is the length of the chunk. *)
Fixpoint chunkLoop (fuel : nat) (lineBuf chunk : gostring) : go (list gostring * gostring) :=
  match fuel with
  | O => Hang
  | S fuel =>
      match IndexByte chunk 10 with
      | None => Ret ([], if decide (len lineBuf + len chunk > 5242880) then [] else lineBuf ++ chunk)
      | Some idx =>
          before ← slice chunk 0 idx;
          after ← slice chunk (idx + 1) (len chunk);
          '(lines, rest) ← chunkLoop fuel [] after;
          Ret ((lineBuf ++ before) :: lines, rest)
      end
  end.
Definition feedChunk (lineBuf chunk : gostring) : go (list gostring * gostring) := chunkLoop (S (length chunk)) lineBuf chunk.

Definition binaryBigEndianUint32 (b : bytes) : go Z :=
  b3 ← index b 3; b2 ← index b 2; b1 ← index b 1; b0 ← index b 0;
  Ret (Z.lor (Z.lor (Z.lor b3 (Z.shiftl b2 8)) (Z.shiftl b1 16)) (Z.shiftl b0 24)).

(** The loop over the frames of a stream: the lines, in order, and [lineBuf] at its end.
    A short or overlong frame ends it; the fuel is the length of the stream. *)
Fixpoint frameLoop (fuel : nat) (stream lineBuf : bytes) : go (list gostring * gostring) :=
  match fuel with
  | O => Hang
  | S fuel =>
      if decide (len stream < 8) then Ret ([], lineBuf)
      else
        size ← binaryBigEndianUint32 (drop 4 (take 8 stream));
        let stream := drop 8 stream in
        if decide (size > MaxLogFrameSize) then Ret ([], lineBuf)
        else if decide (len stream < size) then Ret ([], lineBuf)
        else
          '(lines, lineBuf) ← feedChunk lineBuf (take (Z.to_nat size) stream);
          '(lines', lineBuf) ← frameLoop fuel (drop (Z.to_nat size) stream) lineBuf;
          Ret (lines ++ lines', lineBuf)
  end.
Definition readFrames (stream : bytes) : go (list gostring * gostring) := frameLoop (S (length stream)) stream [].

(** What a stream that is not a terminal's adds to the audit log. *)
Definition streamFrames (logStdout : bool) (ipAddress : gostring) (stream : bytes) : go (list call) :=
  '(lines, _) ← readFrames stream; Ret (flat_map (processLine logStdout ipAddress) lines).

(** ** Discovery *)

Section DiscoverFacts.
Context {MR : MapRange} (streamStdout streamGvisor : bool).

Abbreviation discover := (discoverAndStream streamStdout streamGvisor).

(** The containers that are watched. *)
Definition watched (myHostname : gostring) (cs : list DockerContainer) : gset gostring :=
  list_to_set (map dc_ID (filter (fun c => isOttergate myHostname c = false) cs)).

Definition started (e : effect) : option gostring := match e with StartGvisor id _ _ => Some id | _ => None end.
Definition cancelled (e : effect) : option gostring := match e with Cancel id => Some id | _ => None end.

Lemma discoverContainer_tables hn d c d' :
  discoverContainer streamStdout streamGvisor hn d c = Ret d' ->
  dv_running d' = watched hn [c] ∪ dv_running d /\ dv_active d' = watched hn [c] ∪ dv_active d.
Proof.
  unfold discoverContainer, watched. rewrite filter_cons, filter_nil. destruct (isOttergate hn c); simpl.
  - intros [= <-]. split; set_solver.
  - destruct (recordNames _ _) as [names ip]. intros (effs & _ & H)%bind_Ret_inv. simplify_eq. simpl. split; set_solver.
Qed.

Lemma watched_cons hn c cs : watched hn (c :: cs) = watched hn [c] ∪ watched hn cs.
Proof. unfold watched. rewrite !filter_cons, filter_nil. case_decide; simpl; set_solver. Qed.

Lemma discoverContainers_tables hn cs : forall d d',
  discoverContainers streamStdout streamGvisor hn d cs = Ret d' ->
  dv_running d' = watched hn cs ∪ dv_running d /\ dv_active d' = watched hn cs ∪ dv_active d.
Proof.
  induction cs as [|c cs IH]; intros d d'; simpl.
  - intros [= <-]. unfold watched. rewrite filter_nil. simpl. split; set_solver.
  - intros (d1 & H1 & H)%bind_Ret_inv. apply discoverContainer_tables in H1 as [R1 A1]. apply IH in H as [R2 A2].
    rewrite watched_cons, R2, A2, R1, A1. split; set_solver.
Qed.

Definition no_cancel (e : effect) : Prop := cancelled e = None.

Lemma discoverContainer_no_cancel hn d c d' :
  discoverContainer streamStdout streamGvisor hn d c = Ret d' -> Forall no_cancel (dv_effects d) -> Forall no_cancel (dv_effects d').
Proof.
  unfold discoverContainer. intros H Hf. destruct (isOttergate hn c); [by simplify_eq|]. destruct (recordNames _ _) as [n ip].
  apply bind_Ret_inv in H as (effs & He & H). simplify_eq. simpl. apply Forall_app. split; [done|].
  case_decide; [simplify_eq; constructor|]. apply bind_Ret_inv in He as (e1 & E1 & He). apply bind_Ret_inv in He as (e2 & E2 & He). simplify_eq.
  apply Forall_app. split.
  - destruct streamStdout; [|simplify_eq; constructor]. apply bind_Ret_inv in E1 as (? & _ & E1). simplify_eq. by repeat constructor.
  - destruct streamGvisor; [|simplify_eq; constructor]. apply bind_Ret_inv in E2 as (? & _ & E2). simplify_eq. by repeat constructor.
Qed.

Lemma discoverContainers_no_cancel hn cs : forall d d',
  discoverContainers streamStdout streamGvisor hn d cs = Ret d' -> Forall no_cancel (dv_effects d) -> Forall no_cancel (dv_effects d').
Proof.
  induction cs as [|c cs IH]; intros d d'; simpl; [by intros [= <-]|]. intros (d1 & H1 & H)%bind_Ret_inv Hf.
  eapply IH; [exact H|]. by eapply discoverContainer_no_cancel.
Qed.

Lemma elem_of_cancels (order : list gostring) (P : gostring -> Prop) `{!forall x, Decision (P x)} id :
  Cancel id ∈ map Cancel (filter P order) <-> P id /\ id ∈ order.
Proof.
  rewrite list_elem_of_fmap. split.
  - intros (x & [= <-] & Hx). by apply list_elem_of_filter in Hx.
  - intros Hid. exists id. split; [done|]. by apply list_elem_of_filter.
Qed.

(** After a discovery the table of streams holds exactly the containers that the
    engine lists, the proxy's own excepted, and the streams that were cancelled are
    exactly those of containers that are gone. *)
Theorem discover_exact hn order active names body cs active' names' effects :
  (forall id, id ∈ active -> id ∈ order) -> decodeContainers body = Some cs ->
  discover hn order active names (Some body) = Ret (active', names', effects) ->
  active' = watched hn cs /\ (forall id, Cancel id ∈ effects <-> id ∈ active /\ id ∉ watched hn cs).
Proof.
  intros Ho Hcs. unfold discoverAndStream. cbn [mbind option_bind]. rewrite Hcs. intros (d & Hd & H)%bind_Ret_inv.
  pose proof (discoverContainers_no_cancel _ _ _ _ Hd (List.Forall_nil _)) as Hnc.
  apply discoverContainers_tables in Hd as [Hr Ha]. cbn [dv_running dv_active] in Hr, Ha.
  unfold sweep, cancelAll in H. apply Ret_inj in H. rewrite Hr, Ha in H. remember (watched hn cs) as W eqn:HW. clear HW Hr Ha.
  apply pair_eq in H as [H He]. apply pair_eq in H as [H _]. split.
  { rewrite <- H. apply set_eq. intros x. rewrite !elem_of_difference, !elem_of_union. destruct (decide (x ∈ W)); set_solver. }
  intros id. rewrite <- He, elem_of_app, elem_of_cancels. rewrite Forall_forall in Hnc. split.
  - intros [Hin|[Hp _]]; [by specialize (Hnc _ Hin)|]. set_solver.
  - intros [H1 H2]. right. split; [set_solver|auto].
Qed.

End DiscoverFacts.

(** ** Frames *)

Lemma Index_byte_Some c : forall s i, IndexByte s c = Some i -> exists a b, s = a ++ c :: b /\ (c ∉ a) /\ i = len a.
Proof.
  unfold IndexByte. induction s as [|d s IH]; intros i; [done|]. cbn [Index].
  destruct (HasPrefix (d :: s) [c]) eqn:E.
  - apply HasPrefix_true in E as [t E]. simpl in E. injection E as -> ->. intros [= <-]. exists [], t. split; [done|]. split; [apply not_elem_of_nil|done].
  - destruct (Index s [c]) as [j|] eqn:Ej; [|done]. intros [= <-]. destruct (IH j eq_refl) as (a & b & -> & Ha & ->).
    exists (d :: a), b. split; [done|]. split; [|len_solve]. apply not_elem_of_cons. split; [|done].
    intros ->. apply not_true_iff_false in E. apply E, HasPrefix_true. by exists (a ++ d :: b).
Qed.

Lemma Index_byte_None c : forall s, IndexByte s c = None -> c ∉ s.
Proof.
  unfold IndexByte. induction s as [|d s IH]; intros H; [apply not_elem_of_nil|]. cbn [Index] in H.
  destruct (HasPrefix (d :: s) [c]) eqn:E; [done|]. destruct (Index s [c]); [done|]. apply not_elem_of_cons. split; [|auto].
  intros ->. apply not_true_iff_false in E. apply E, HasPrefix_true. by exists s.
Qed.

(** No line is longer than the buffer may grow. *)
Definition fits (s : gostring) : Prop := Forall (fun l => len l <= 5242880) (Split s 10).

Lemma chunkLoop_spec fuel : forall buf chunk,
  (length chunk < fuel)%nat -> 10 ∉ buf ->
  exists lines rest, chunkLoop fuel buf chunk = Ret (lines, rest) /\ len rest <= 5242880 /\ (10 ∉ rest) /\
    (fits (buf ++ chunk) -> Split (buf ++ chunk) 10 = lines ++ [rest]).
Proof.
  induction fuel as [|fuel IH]; intros buf chunk Hf Hb; [lia|]. cbn [chunkLoop]. destruct (IndexByte chunk 10) as [idx|] eqn:E.
  - apply Index_byte_Some in E as (a & b & -> & Ha & ->). rewrite length_app in Hf. simpl in Hf.
    rewrite slice_head, bind_Ret. replace (a ++ 10 :: b) with ((a ++ [10]) ++ b) by (by rewrite <- app_assoc).
    replace (len a + 1) with (len (a ++ [10])) by len_solve. rewrite slice_tail, bind_Ret.
    destruct (IH [] b) as (lines & rest & -> & Hl & Hr & Hs); [lia|apply not_elem_of_nil|]. rewrite bind_Ret.
    eexists _, _. split; [done|]. split; [done|]. split; [done|]. rewrite <- app_assoc. cbn [app]. rewrite app_assoc. unfold fits.
    rewrite Split_app by (apply not_elem_of_app; done). intros Hfit. apply Forall_cons in Hfit as [_ Hfit]. cbn [app] in Hs. by rewrite Hs.
  - apply Index_byte_None in E. eexists _, _. split; [done|]. case_decide as Hd.
    + split; [rewrite len_nil; lia|]. split; [apply not_elem_of_nil|]. unfold fits. rewrite Split_one by (by apply not_elem_of_app).
      intros Hfit. apply Forall_cons in Hfit as [Hfit _]. rewrite len_app in Hfit. lia.
    + split; [rewrite len_app; lia|]. split; [by apply not_elem_of_app|]. intros _. by rewrite Split_one by (by apply not_elem_of_app).
Qed.

(** The last piece of a text can be extended. *)
Lemma Split_extend s t ls b : Split s 10 = ls ++ [b] -> Split (s ++ t) 10 = ls ++ Split (b ++ t) 10.
Proof.
  revert s. induction ls as [|l ls IH]; intros s Hs.
  - assert (s = b) as ->; [|done]. pose proof (Join_Split s 10) as H. rewrite Hs in H. simpl in H. by rewrite <- H.
  - pose proof (Split_no_sep s 10) as Hn. rewrite Hs in Hn. apply Forall_cons in Hn as [Hl _].
    pose proof (Join_Split s 10) as Hj. rewrite Hs in Hj. cbn [app] in Hj.
    destruct (ls ++ [b]) as [|l2 rest] eqn:E; [destruct ls; discriminate|]. rewrite Join_cons2 in Hj. subst s.
    change ([10] ++ Join (l2 :: rest) [10]) with (10 :: Join (l2 :: rest) [10]) in *. rewrite Split_app in Hs by done. injection Hs as Hs.
    rewrite <- app_assoc. cbn [app]. rewrite Split_app by done. cbn [app]. f_equal. apply IH. etrans; [exact Hs|exact E].
Qed.

Lemma lor_shift a b n : 0 <= n -> 0 <= a < 2 ^ n -> Z.lor a (Z.shiftl b n) = a + b * 2 ^ n.
Proof.
  intros Hn Ha. rewrite <- Z.shiftl_mul_pow2 by done.
  assert (Z.land a (Z.shiftl b n) = 0) as Hl.
  { apply Z.bits_inj'. intros k Hk. rewrite Z.land_spec, Z.bits_0. apply andb_false_iff. destruct (decide (k < n)).
    - right. rewrite Z.shiftl_spec by done. apply Z.testbit_neg_r. lia.
    - left. rewrite <- (Z.mod_small a (2 ^ n)) by done. apply Z.mod_pow2_bits_high. lia. }
  rewrite <- Z.lxor_lor by done. symmetry. by apply Z.add_nocarry_lxor.
Qed.

Lemma BigEndianUint32_bytes a b c d :
  is_byte a -> is_byte b -> is_byte c -> is_byte d -> binaryBigEndianUint32 [a; b; c; d] = Ret (of_be32 a b c d).
Proof.
  unfold is_byte. intros Ha Hb Hc Hd. unfold binaryBigEndianUint32, of_be32.
  change (Ret (Z.lor (Z.lor (Z.lor d (Z.shiftl c 8)) (Z.shiftl b 16)) (Z.shiftl a 24)) = Ret (a * 16777216 + b * 65536 + c * 256 + d)).
  rewrite (lor_shift d c 8), (lor_shift _ b 16), (lor_shift _ a 24) by lia. f_equal. lia.
Qed.

Lemma Split_first (b t : gostring) : 10 ∉ b -> exists l rest, Split (b ++ t) 10 = (b ++ l) :: rest.
Proof.
  intros Hb. destruct (IndexByte t 10) as [i|] eqn:E.
  - apply Index_byte_Some in E as (x & y & -> & Hx & _). exists x, (Split y 10).
    rewrite app_assoc. apply Split_app. by apply not_elem_of_app.
  - apply Index_byte_None in E. exists t, []. apply Split_one. by apply not_elem_of_app.
Qed.

Lemma fits_prefix s t : fits (s ++ t) -> fits s.
Proof.
  unfold fits. intros H. destruct (exists_last (Split_nonnil s 10)) as (ls & b & E). pose proof (Split_no_sep s 10) as Hn.
  rewrite E in Hn |- *. rewrite (Split_extend _ _ _ _ E) in H. apply Forall_app in H as [H1 H2]. apply Forall_app in Hn as [_ Hn].
  apply Forall_cons in Hn as [Hn _]. apply Forall_app. split; [done|]. destruct (Split_first b t Hn) as (l & rest & El). rewrite El in H2.
  apply Forall_cons in H2 as [H2 _]. rewrite len_app in H2. pose proof (len_nonneg l). constructor; [lia|constructor].
Qed.

(** A frame: four bytes that name the stream, the length, the payload. *)
Definition enc_frame (f : bytes * bytes) : bytes := f.1 ++ be32 (len f.2) ++ f.2.
Definition frame_ok (f : bytes * bytes) : Prop := length f.1 = 4%nat /\ len f.2 <= MaxLogFrameSize.

(** One round of the loop on a whole frame. *)
Lemma frameLoop_frame fuel f rest buf :
  frame_ok f ->
  frameLoop (S fuel) (enc_frame f ++ rest) buf =
    '(lines, buf) ← feedChunk buf f.2; '(lines', buf) ← frameLoop fuel rest buf; Ret (lines ++ lines', buf).
Proof.
  intros [Hh Hl]. destruct f as [hd p]. cbn [fst snd] in *. unfold enc_frame. cbn [fst snd]. cbn [frameLoop].
  pose proof (len_nonneg p). unfold MaxLogFrameSize in *.
  assert ((hd ++ be32 (len p) ++ p) ++ rest = (hd ++ be32 (len p)) ++ p ++ rest) as -> by (by rewrite <- !app_assoc).
  assert (length (hd ++ be32 (len p)) = 8%nat) as H8 by (rewrite length_app, Hh; done).
  set (hp := hd ++ be32 (len p)) in *. assert (~ len (hp ++ p ++ rest) < 8) as Hn by (unfold len; rewrite length_app, H8; lia).
  rewrite decide_False by done. clear Hn.
  rewrite (take_app_length' _ _ 8), (drop_app_length' hp _ 8) by done.
  unfold hp. rewrite (drop_app_length' hd _ 4) by done.
  unfold be32 at 1. rewrite BigEndianUint32_bytes, bind_Ret, of_be32_be32 by apply uint8_byte. cbn zeta.
  unfold uint32. rewrite Z.mod_small by lia. rewrite decide_False by lia. rewrite decide_False by len_solve.
  unfold len at 1 2. by rewrite Nat2Z.id, take_app_length, drop_app_length.
Qed.

Lemma frameLoop_lines fs : forall fuel buf,
  Forall frame_ok fs -> (length fs < fuel)%nat -> (10 ∉ buf) -> fits (buf ++ concat (map snd fs)) ->
  exists lines rest, frameLoop fuel (concat (map enc_frame fs)) buf = Ret (lines, rest) /\ Split (buf ++ concat (map snd fs)) 10 = lines ++ [rest].
Proof.
  induction fs as [|f fs IH]; intros fuel buf Hok Hf Hb Hfit; (destruct fuel as [|fuel]; [simpl in Hf; lia|]).
  - simpl. eexists _, _. split; [done|]. by rewrite app_nil_r, Split_one.
  - apply Forall_cons in Hok as [Hok1 Hok]. cbn [map concat] in *. rewrite frameLoop_frame by done. unfold feedChunk.
    rewrite app_assoc in Hfit. 
    destruct (chunkLoop_spec (S (length f.2)) buf f.2) as (lines & rest & -> & _ & Hr & Hs); [lia|done|]. rewrite bind_Ret.
    assert (fits (buf ++ f.2)) as Hf2 by (by eapply fits_prefix). specialize (Hs Hf2). pose proof (Split_extend _ (concat (map snd fs)) _ _ Hs) as Hx.
    destruct (IH fuel rest) as (lines' & rest' & -> & Hs'); [done|simpl in Hf; lia|done| |].
    { unfold fits in *. rewrite Hx in Hfit. by apply Forall_app in Hfit as [_ ?]. }
    rewrite bind_Ret. eexists _, _. split; [done|]. by rewrite app_assoc, Hx, Hs', app_assoc.
Qed.

(** The frames of a log stream are transparent: if no line is longer than the buffer,
    the lines that are logged are exactly the complete lines of the payloads put
    together, wherever the frame boundaries fall. *)
Theorem readFrames_lines fs :
  Forall frame_ok fs -> fits (concat (map snd fs)) ->
  exists lines rest, readFrames (concat (map enc_frame fs)) = Ret (lines, rest) /\ Split (concat (map snd fs)) 10 = lines ++ [rest].
Proof.
  intros Hok Hfit. apply (frameLoop_lines fs _ []); [done| |apply not_elem_of_nil|done].
  clear Hfit. induction Hok as [|f fs Hf _ IH]; [simpl; lia|]. cbn [map concat length]. rewrite length_app. unfold enc_frame at 1.
  rewrite !length_app. destruct Hf as [-> _]. lia.
Qed.

Lemma feedChunk_returns buf chunk : 10 ∉ buf -> exists lines rest, feedChunk buf chunk = Ret (lines, rest) /\ len rest <= 5242880 /\ (10 ∉ rest).
Proof.
  intros Hb. destruct (chunkLoop_spec (S (length chunk)) buf chunk) as (lines & rest & E & H1 & H2 & _); [lia|done|]. eauto.
Qed.

(** The reader of a log stream returns on every sequence of bytes, and never keeps
    more than five megabytes of an unfinished line. *)
Theorem readFrames_total stream :
  bytes_ok stream -> exists lines rest, readFrames stream = Ret (lines, rest) /\ len rest <= 5242880.
Proof.
  intros Hs. unfold readFrames. assert (forall fuel stream buf, bytes_ok stream -> (length stream < fuel)%nat -> (10 ∉ buf) -> len buf <= 5242880 ->
    exists lines rest, frameLoop fuel stream buf = Ret (lines, rest) /\ len rest <= 5242880) as Hl.
  { clear. induction fuel as [|fuel IH]; intros s buf Hs Hf Hb Hlen; [lia|]. cbn [frameLoop].
    case_decide as H8; [by eexists _, _|]. destruct s as [|h0 [|h1 [|h2 [|h3 [|a [|b [|c [|d s]]]]]]]]; try (exfalso; apply H8; len_solve).
    rewrite !Forall_cons in Hs. cbn [take drop]. destruct Hs as (? & ? & ? & ? & Ha & Hb' & Hc & Hd & Hs).
    rewrite BigEndianUint32_bytes, bind_Ret by done. cbn zeta. cbn [drop]. rewrite !drop_0. do 2 (case_decide; [by eexists _, _|]).
    destruct (feedChunk_returns buf (take (Z.to_nat (of_be32 a b c d)) s) Hb) as (lines & rest & -> & Hr1 & Hr2). rewrite bind_Ret.
    destruct (IH (drop (Z.to_nat (of_be32 a b c d)) s) rest) as (lines' & rest' & -> & Hr); [by apply Forall_drop| |done..|].
    { rewrite length_drop. simpl in Hf. lia. }
    rewrite bind_Ret. by eexists _, _. }
  apply Hl; [done|lia|apply not_elem_of_nil|rewrite len_nil; lia].
Qed.

(** ** Clean lines *)

Definition printable (c : Z) : Prop := 32 <= c <= 126.

Lemma cleanRune_printable r : Forall printable (cleanRune r).
Proof.
  unfold cleanRune, printable. case_decide as H; [|case_decide; repeat constructor; lia].
  unfold EncodeRune. rewrite decide_True by lia. repeat constructor; lia.
Qed.

(** *** [TrimSpace] on printable text *)

Definition unit_slice (c : Z) : Z * bytes := (c, [c]).

Lemma rune_slices_printable s : Forall printable s -> rune_slices (length s) s = map unit_slice s.
Proof.
  induction 1 as [|c s Hc Hs IH]; [done|]. unfold printable in Hc. cbn [length rune_slices DecodeRune].
  rewrite decide_True by lia. cbn [take drop map]. rewrite drop_0, take_0. f_equal. exact IH.
Qed.

Lemma concat_unit_slices l : concat (map snd (map unit_slice l)) = l.
Proof. induction l as [|c l IH]; [done|]. simpl. by rewrite IH. Qed.

(** The end of a text without its leading blanks, and the trimming of both ends. *)
Fixpoint dropBlanks (s : gostring) : gostring := match s with c :: s' => if is_space c then dropBlanks s' else s | [] => [] end.
Definition trim (s : gostring) : gostring := reverse (dropBlanks (reverse (dropBlanks s))).

Lemma drop_spaces_units s : drop_spaces (map unit_slice s) = map unit_slice (dropBlanks s).
Proof. induction s as [|c s IH]; [done|]. simpl. by destruct (is_space c). Qed.

Lemma map_reverse {A B} (f : A -> B) l : reverse (map f l) = map f (reverse l).
Proof. unfold reverse. rewrite !rev_append_rev, !app_nil_r. symmetry. apply map_rev. Qed.

Lemma TrimSpace_printable s : Forall printable s -> TrimSpace s = trim s.
Proof.
  intros Hs. unfold TrimSpace. rewrite rune_slices_printable by done.
  by rewrite drop_spaces_units, map_reverse, drop_spaces_units, map_reverse, concat_unit_slices.
Qed.

Lemma dropBlanks_suffix s : dropBlanks s `suffix_of` s.
Proof. induction s as [|c s IH]; [done|]. simpl. destruct (is_space c); [by apply suffix_cons_r|done]. Qed.

(** The first and the last character are no blanks. *)
Definition starts_dark (s : gostring) : Prop := forall c t, s = c :: t -> is_space c = false.

Lemma dropBlanks_dark s : starts_dark (dropBlanks s).
Proof. induction s as [|c s IH]; [done|]. simpl. destruct (is_space c) eqn:E; [done|]. by intros d t [= -> ->]. Qed.
Lemma dark_dropBlanks s : starts_dark s -> dropBlanks s = s.
Proof. intros H. destruct s as [|c s]; [done|]. simpl. by rewrite (H c s). Qed.

Lemma trim_prefix s : trim s `prefix_of` dropBlanks s.
Proof.
  unfold trim. destruct (dropBlanks_suffix (reverse (dropBlanks s))) as [k Hk]. exists (reverse k).
  rewrite <- reverse_app, <- Hk. by rewrite reverse_involutive.
Qed.

Lemma trim_idemp s : trim (trim s) = trim s.
Proof.
  assert (starts_dark (trim s)) as H1.
  { intros c t E. destruct (trim_prefix s) as [k Hk]. rewrite E in Hk. by eapply (dropBlanks_dark s c). }
  unfold trim at 1. rewrite (dark_dropBlanks _ H1). unfold trim. rewrite reverse_involutive.
  by rewrite (dark_dropBlanks (dropBlanks _)) by apply dropBlanks_dark.
Qed.

Lemma trim_printable s : Forall printable s -> Forall printable (trim s).
Proof.
  intros Hs. destruct (trim_prefix s) as [k Hk]. destruct (dropBlanks_suffix s) as [j Hj]. rewrite Hj, Hk, !Forall_app in Hs. tauto.
Qed.

(** *** The fixed points *)

Lemma stripAll_id m fuel s : (forall t, t `suffix_of` s -> m t = None) -> (length s <= fuel)%nat -> stripAll m fuel s = s.
Proof.
  revert s. induction fuel as [|fuel IH]; intros s Hm Hf; [done|]. cbn [stripAll]. rewrite Hm by done.
  destruct s as [|c s]; [done|]. f_equal. apply IH; [|simpl in Hf; lia]. intros t Ht. apply Hm. by apply suffix_cons_r.
Qed.

Lemma printable_runes s : Forall printable s -> runes s = s.
Proof.
  unfold runes. induction 1 as [|c s Hc Hs IH]; [done|]. unfold printable in Hc. cbn [length runes_fuel DecodeRune].
  rewrite decide_True by lia. f_equal. exact IH.
Qed.

Lemma printable_cleanRunes s : Forall printable s -> flat_map cleanRune s = s.
Proof.
  induction 1 as [|c s Hc Hs IH]; [done|]. simpl. unfold cleanRune at 1. unfold printable in Hc. rewrite decide_True by lia.
  unfold EncodeRune. rewrite decide_True by lia. simpl. by rewrite IH.
Qed.

Lemma printable_no_escape (m : bytes -> option bytes) s t :
  (forall c t, c <> 27 -> m (c :: t) = None) -> m [] = None -> Forall printable s -> t `suffix_of` s -> m t = None.
Proof.
  intros Hm Hn Hs [k ->]. apply Forall_app in Hs as [_ Hs]. destruct t as [|c t]; [done|]. apply Forall_cons in Hs as [Hc _].
  apply Hm. unfold printable in Hc. lia.
Qed.

Lemma printable_no_cr s : Forall printable s -> LastIndexByte s 13 = None.
Proof.
  induction 1 as [|c s Hc Hs IH]; [done|]. simpl. rewrite IH. rewrite decide_False; [done|]. unfold printable in Hc. lia.
Qed.

Lemma cleanLogLine_printable s : Forall printable s -> cleanLogLine s = trim s.
Proof.
  intros Hs. unfold cleanLogLine, ReplaceAll. rewrite (stripAll_id matchOsc); [|intros t; apply printable_no_escape; try done|lia].
  2: { intros c t' Hc. unfold matchOsc. by repeat (case_match; try done). }
  rewrite (stripAll_id matchCsi); [|intros t; apply printable_no_escape; try done|lia].
  2: { intros c t' Hc. unfold matchCsi. by repeat (case_match; try done). }
  rewrite printable_no_cr, printable_runes, printable_cleanRunes by done. by apply TrimSpace_printable.
Qed.

Lemma cleaned_printable s : Forall printable (cleanLogLine s).
Proof.
  unfold cleanLogLine. rewrite TrimSpace_printable; [apply trim_printable|]; apply Forall_flat_map, Forall_true; apply cleanRune_printable.
Qed.

(** Whatever a container prints, what reaches the audit log from it is printable ASCII
    without blanks around it: no escape sequence, no line break that could forge an
    entry; and cleaning is final. *)
Theorem cleanLogLine_safe s :
  Forall printable (cleanLogLine s) /\ cleanLogLine (cleanLogLine s) = cleanLogLine s /\ starts_dark (cleanLogLine s) /\ starts_dark (reverse (cleanLogLine s)).
Proof.
  split; [apply cleaned_printable|]. unfold cleanLogLine at 2 3 4 5.
  set (t := flat_map cleanRune _). assert (Forall printable t) as Ht by (apply Forall_flat_map, Forall_true; apply cleanRune_printable).
  rewrite TrimSpace_printable by done. split; [rewrite cleanLogLine_printable by (by apply trim_printable); apply trim_idemp|].
  split; [|unfold trim; rewrite reverse_involutive; apply dropBlanks_dark].
  intros c u E. destruct (trim_prefix t) as [k Hk]. rewrite E in Hk. by eapply (dropBlanks_dark t c).
Qed.

(** ** Demonstrations *)

Definition demo_containers : bytes :=
  map (fun c => if decide (c = 39) then 34 else c)
    (gs "[{'Id':'0123456789abcdef','Names':['/app'],'State':'running','Ports':[],'NetworkSettings':{'Networks':{'bridge':{'IPAddress':'172.17.0.2','MacAddress':null}}}}] ").
Definition demo_container : DockerContainer :=
  {| dc_ID := gs "0123456789abcdef"; dc_Names := [gs "/app"]; dc_State := gs "running"; dc_Image := []; dc_Networks := {[ gs "bridge" := gs "172.17.0.2" ]} |}.
Example demo_containers_decoded : decodeContainers demo_containers = Some [demo_container].
Proof. vm_compute. reflexivity. Qed.

(** A container whose stdout stream ends while it is still listed is started again at
    the next discovery, although its strace stream was not cancelled: two streams then
    log the same events. *)
Theorem gvisor_stream_duplicated :
  let discover active := discoverAndStream (MR := list_range) true true [] [gs "0123456789abcdef"] active ∅ (Some demo_containers) in
  exists a1 n1 e1 a2 n2 e2, discover ∅ = Ret (a1, n1, e1) /\ discover (stdoutEnds a1 (dc_ID demo_container)) = Ret (a2, n2, e2) /\
    omap started (e1 ++ e2) = [dc_ID demo_container; dc_ID demo_container] /\ omap cancelled (e1 ++ e2) = [].
Proof. eexists _, _, _, _, _, _. split; [vm_compute; reflexivity|]. split; [vm_compute; reflexivity|]. split; vm_compute; reflexivity. Qed.

(** A container with a short identifier makes the discovery panic. *)
Lemma short_id_panics :
  discoverAndStream (MR := list_range) true true [] [] ∅ ∅
    (Some (map (fun c => if decide (c = 39) then 34 else c) (gs "[{'Id':'abc','Names':['/app']}]"))) = Panic.
Proof. vm_compute. reflexivity. Qed.

Example cleanLogLine_ex :
  cleanLogLine ([27] ++ gs "]0;title" ++ [7] ++ gs "old" ++ [13; 27] ++ gs "[1;32m ok" ++ [9] ++ gs "done" ++ [27] ++ gs "[0m" ++ [10]) = gs "ok done".
Proof. vm_compute. reflexivity. Qed.

Lemma discover_exact_witness :
  exists a n e, discoverAndStream (MR := list_range) true true [] [gs "old"] {[ gs "old" ]} ∅ (Some demo_containers) = Ret (a, n, e) /\
    a = watched [] [demo_container] /\ (Cancel (gs "old") ∈ e <-> gs "old" ∈ ({[ gs "old" ]} : gset gostring) /\ gs "old" ∉ watched [] [demo_container]).
Proof.
  eexists _, _, _. split; [vm_compute; reflexivity|].
  destruct (discover_exact (MR := list_range) true true [] [gs "old"] {[ gs "old" ]} ∅ demo_containers [demo_container] _ _ _ ltac:(set_solver)
    demo_containers_decoded ltac:(vm_compute; reflexivity)) as [H1 H2].
  split; [exact H1|exact (H2 (gs "old"))].
Defined.

Definition demo_frames : list (bytes * bytes) := [([1; 0; 0; 0], gs "hel"); ([1; 0; 0; 0], gs "lo" ++ [10] ++ gs "wor")].
Lemma readFrames_lines_witness :
  exists lines rest, readFrames (concat (map enc_frame demo_frames)) = Ret (lines, rest) /\ Split (concat (map snd demo_frames)) 10 = lines ++ [rest].
Proof.
  apply (readFrames_lines demo_frames); [repeat constructor; vm_compute; congruence|].
  unfold fits. by apply (bool_decide_eq_true_1 _).
Defined.

Lemma readFrames_total_witness : exists lines rest, readFrames (replicate 20 255) = Ret (lines, rest) /\ len rest <= 5242880.
Proof. apply (readFrames_total (replicate 20 255)). by apply (bool_decide_eq_true_1 _). Defined.
