(* ===== verification/Cache.v ===== *)
(** * The response cache ([pkg/dns/cache.go])

    The map and the recency list of the code, the eviction loop, the TTL rewriter
    and the cache key; the specification is a bounded list in recency order. *)
From S2P Require Import Prelude GoStrings Wire.

(** Times in nanoseconds. *)
Record CacheEntry := { Response : bytes; InsertedAt : Z; TtlMs : Z }.

Record DnsCache := {
  cacheMap : gmap gostring CacheEntry;
  keyList : list gostring;
  maxSize : Z;
  defaultTtl : Z; (* milliseconds *)
}.

Definition NewDnsCache (maxSize defaultTtlMs : Z) : DnsCache :=
  {| cacheMap := ∅; keyList := []; maxSize := if decide (maxSize <= 0) then 1024 else maxSize;
     defaultTtl := defaultTtlMs |}.

Definition with_entries (c : DnsCache) (m : gmap gostring CacheEntry) (ks : list gostring) : DnsCache :=
  {| cacheMap := m; keyList := ks; maxSize := maxSize c; defaultTtl := defaultTtl c |}.

(** ** The cache key; [sha256] is the hash function of [crypto/sha256]. *)
Definition rawPart (q : ParsedQuestion) : gostring := HexEncode (q_Name q) ++ gs ":" ++ itoa (q_Type q).
Definition rawKey (questions : list ParsedQuestion) : gostring := Join (map rawPart questions) (gs "|").
Definition GenerateCacheKey (sha256 : bytes -> bytes) (questions : list ParsedQuestion) : gostring :=
  HexEncode (sha256 (rawKey questions)).

(** ** Recency list *)

(** Removal of the first occurrence. *)
Fixpoint removeFirst (key : gostring) (ks : list gostring) : list gostring :=
  match ks with
  | [] => []
  | k :: ks => if decide (k = key) then ks else k :: removeFirst key ks
  end.

Definition touchKey (c : DnsCache) (key : gostring) : DnsCache :=
  with_entries c (cacheMap c) (removeFirst key (keyList c) ++ [key]).

Definition deleteKey (c : DnsCache) (key : gostring) : DnsCache :=
  with_entries c (delete key (cacheMap c)) (removeFirst key (keyList c)).

Definition evictOldest (c : DnsCache) : DnsCache :=
  match keyList c with
  | [] => c
  | oldest :: _ => deleteKey c oldest
  end.

(** [for len(c.cacheMap) >= c.maxSize { c.evictOldest() }] *)
Fixpoint evictLoop (fuel : nat) (c : DnsCache) : go DnsCache :=
  if decide (Z.of_nat (size (cacheMap c)) >= maxSize c) then
    match fuel with O => Hang | S fuel => evictLoop fuel (evictOldest c) end
  else Ret c.

(** ** The TTL rewriter *)

(** The loop over the labels: [Some offset] where it stops, [None] for [return saved]. *)
Fixpoint skipLoop (fuel : nat) (buffer : bytes) (offset : Z) : go (option Z) :=
  match fuel with
  | O => Hang
  | S fuel =>
      if decide (len buffer <= offset) then Ret (Some offset)
      else
        length ← index buffer offset;
        if decide (length = 0) then Ret (Some (offset + 1))
        else if decide (Z.land length 192 = 192) then
          if decide (len buffer <= offset + 1) then Ret None else Ret (Some (offset + 2))
        else if decide (len buffer < offset + 1 + length) then Ret None
        else skipLoop fuel buffer (offset + 1 + length)
  end.

Definition skipQuestionSection (buffer : bytes) (offset : Z) : go Z :=
  r ← skipLoop (S (length buffer)) buffer offset;
  match r with
  | None => Ret offset
  | Some o => if decide (len buffer < o + 4) then Ret offset else Ret (o + 4)
  end.

Fixpoint skipQuestions (n : nat) (response : bytes) (offset : Z) : go Z :=
  match n with
  | O => Ret offset
  | S n =>
      nextOffset ← skipQuestionSection response offset;
      if decide (nextOffset = offset) then Ret offset
      else skipQuestions n response nextOffset
  end.

Fixpoint rewriteAnswers (n : nat) (response result : bytes) (offset newTtl : Z) : go bytes :=
  match n with
  | O => Ret result
  | S n =>
      if decide (len response <= offset) then Ret result
      else
        ttlOffset ← skipQuestionSection response offset;
        if decide (ttlOffset = offset \/ len response < ttlOffset + 4) then Ret result
        else
          result ← put_uint32 result ttlOffset newTtl;
          let rdLengthOffset := ttlOffset + 4 in
          if decide (len response < rdLengthOffset + 2) then Ret result
          else
            rdlength ← get_uint16 response rdLengthOffset;
            rewriteAnswers n response result (rdLengthOffset + 2 + rdlength) newTtl
  end.

Definition rewriteResponseTtl (response : bytes) (newTtl : Z) : go bytes :=
  if decide (len response < 12) then Ret response
  else
    qdcount ← get_uint16 response 4;
    offset ← skipQuestions (Z.to_nat qdcount) response 12;
    ancount ← get_uint16 response 6;
    rewriteAnswers (Z.to_nat ancount) response response offset newTtl.

(** ** Get and Put *)

(** [int(time.Since(t).Milliseconds())] *)
Definition elapsedMs (now t : Z) : Z := Z.quot (now - t) 1000000.

Definition Get (c : DnsCache) (now : Z) (key : gostring) : go (option (bytes * Z) * DnsCache) :=
  if decide (defaultTtl c <= 0) then Ret (None, c)
  else
    match cacheMap c !! key with
    | None => Ret (None, c)
    | Some entry =>
        let elapsed := elapsedMs now (InsertedAt entry) in
        if decide (elapsed >= defaultTtl c) then Ret (None, deleteKey c key)
        else
          let c := touchKey c key in
          let remainingTtlMs := defaultTtl c - elapsed in
          let remainingSeconds := Z.quot remainingTtlMs 1000 in
          let remainingSeconds := if decide (remainingSeconds <= 0) then 1 else remainingSeconds in
          rewritten ← rewriteResponseTtl (Response entry) (uint32 remainingSeconds);
          Ret (Some (rewritten, remainingTtlMs), c)
    end.

Definition Put (c : DnsCache) (now : Z) (key : gostring) (response : bytes) : go DnsCache :=
  if decide (defaultTtl c <= 0 \/ len response < 12) then Ret c
  else
    match cacheMap c !! key with
    | Some _ =>
        let e := {| Response := response; InsertedAt := now; TtlMs := defaultTtl c |} in
        Ret (touchKey (with_entries c (<[key := e]> (cacheMap c)) (keyList c)) key)
    | None =>
        c ← evictLoop (S (size (cacheMap c))) c;
        let remainingSeconds := Z.quot (defaultTtl c) 1000 in
        let remainingSeconds := if decide (remainingSeconds <= 0) then 1 else remainingSeconds in
        modified ← rewriteResponseTtl response (uint32 remainingSeconds);
        let e := {| Response := modified; InsertedAt := now; TtlMs := defaultTtl c |} in
        Ret (with_entries c (<[key := e]> (cacheMap c)) (keyList c ++ [key]))
    end.

(** ** The rewriter is total and keeps the length *)

Lemma skipLoop_total fuel buf off :
  bytes_ok buf -> 0 <= off -> (Z.to_nat (len buf - off) < fuel)%nat ->
  exists r, skipLoop fuel buf off = Ret r /\ forall o, r = Some o -> off <= o.
Proof.
  intros Hb. revert off. induction fuel as [|fuel IH]; intros off Ho Hf; [lia|]. cbn [skipLoop].
  case_decide; [eexists; split; [done|]; naive_solver lia|]. rewrite index_Ret by lia. rewrite bind_Ret.
  pose proof (nth_bytes_ok buf (Z.to_nat off) Hb) as Hn. unfold is_byte in Hn.
  case_decide; [eexists; split; [done|]; naive_solver lia|].
  case_decide; [case_decide; eexists; (split; [done|]); naive_solver lia|].
  case_decide; [eexists; split; [done|]; done|].
  destruct (IH (off + 1 + nth (Z.to_nat off) buf 0)) as (r & -> & Hr); [lia|lia|].
  eexists. split; [done|]. intros o E. specialize (Hr o E). lia.
Qed.

Lemma skipQuestionSection_total buf off :
  bytes_ok buf -> 0 <= off ->
  exists o, skipQuestionSection buf off = Ret o /\ (o = off \/ off + 4 <= o <= len buf).
Proof.
  intros Hb Ho. unfold skipQuestionSection.
  destruct (skipLoop_total (S (length buf)) buf off Hb Ho) as (r & -> & Hr); [unfold len; lia|].
  rewrite bind_Ret. destruct r as [o|]; [|by eauto]. specialize (Hr o eq_refl).
  case_decide; eexists; (split; [done|]); [by left|right; lia].
Qed.

Lemma skipQuestions_total n buf off :
  bytes_ok buf -> 0 <= off -> exists o, skipQuestions n buf off = Ret o /\ off <= o.
Proof.
  intros Hb. revert off. induction n as [|n IH]; intros off Ho; simpl; [eexists; split; [done|lia]|].
  destruct (skipQuestionSection_total buf off Hb Ho) as (o & -> & Hr). rewrite bind_Ret.
  case_decide; [eexists; split; [done|lia]|]. destruct (IH o) as (o' & -> & ?); [lia|]. eexists. split; [done|lia].
Qed.

Lemma put_uint32_total b o v : 0 <= o -> o + 4 <= len b ->
  put_uint32 b o v = Ret (overwrite (Z.to_nat o) (be32 v) b) /\ length (overwrite (Z.to_nat o) (be32 v) b) = length b.
Proof.
  intros. unfold put_uint32. rewrite decide_True by done. split; [done|].
  destruct (overwrite_length (Z.to_nat o) (be32 v) b); [done|]. unfold len in *. lia.
Qed.

Lemma overwrite_take_before o d b : take o (overwrite o d b) = take o b.
Proof.
  unfold overwrite. destruct (decide (o <= length b)%nat).
  - rewrite take_app_le by (autorewrite with lens; lia). by rewrite take_take, Nat.min_id.
  - rewrite (take_ge b) by lia. replace (length b - o)%nat with 0%nat by lia.
    rewrite drop_ge by lia. rewrite app_nil_r. by rewrite take_ge by lia.
Qed.

Lemma rewriteAnswers_total n resp res off ttl k :
  bytes_ok resp -> length res = length resp -> 0 <= k <= off -> take (Z.to_nat k) res = take (Z.to_nat k) resp ->
  exists r, rewriteAnswers n resp res off ttl = Ret r /\ length r = length resp /\
    take (Z.to_nat k) r = take (Z.to_nat k) resp.
Proof.
  intros Hb. revert res off. induction n as [|n IH]; intros res off Hl Ho Ht; simpl; [eauto|].
  case_decide; [eauto|].
  destruct (skipQuestionSection_total resp off Hb ltac:(lia)) as (o & -> & Hr). rewrite bind_Ret.
  case_decide; [eauto|].
  destruct (put_uint32_total res o ttl) as [-> Hl1]; [lia|unfold len in *; lia|]. rewrite bind_Ret.
  assert (take (Z.to_nat k) (overwrite (Z.to_nat o) (be32 ttl) res) = take (Z.to_nat k) resp) as Ht1.
  { rewrite <- Ht. replace (Z.to_nat k) with (Z.to_nat k `min` Z.to_nat o)%nat by lia.
    by rewrite <- !take_take, overwrite_take_before. }
  rewrite Hl in Hl1. case_decide; [eauto|].
  destruct (get_uint16_total resp (o + 4)) as (v & -> & Hv); [done|lia|lia|]. rewrite bind_Ret. apply IH; [done|lia|done].
Qed.

Lemma rewriteResponseTtl_total resp ttl :
  bytes_ok resp ->
  exists r, rewriteResponseTtl resp ttl = Ret r /\ length r = length resp /\ take 12 r = take 12 resp.
Proof.
  intros Hb. unfold rewriteResponseTtl. case_decide; [eauto|].
  destruct (get_uint16_total resp 4 Hb) as (qd & -> & _); [lia|lia|]. rewrite bind_Ret.
  destruct (skipQuestions_total (Z.to_nat qd) resp 12 Hb) as (o & -> & Ho); [lia|]. rewrite bind_Ret.
  destruct (get_uint16_total resp 6 Hb) as (an & -> & _); [lia|lia|]. rewrite bind_Ret.
  by apply (rewriteAnswers_total _ _ _ _ _ 12); [| |lia|].
Qed.

(** ** The rewriter on well-formed responses *)

(** A name on the wire: labels, then the root or a compression pointer. *)
Record wire_name := { wn_labels : list bytes; wn_pointer : option (Z * Z) }.
Definition enc_wire_name (w : wire_name) : bytes :=
  flat_map (fun l => len l :: l) (wn_labels w) ++ match wn_pointer w with None => [0] | Some (a, b) => [a; b] end.
Definition wire_name_ok (w : wire_name) : Prop :=
  Forall (fun l => 1 <= len l <= 63) (wn_labels w) /\
  match wn_pointer w with None => True | Some (a, b) => 192 <= a < 256 end.

Record wire_question := { wq_name : wire_name; wq_type : Z; wq_class : Z }.
Record wire_rr := { wr_name : wire_name; wr_type : Z; wr_class : Z; wr_ttl : Z; wr_data : bytes }.
Definition enc_wire_question (q : wire_question) : bytes :=
  enc_wire_name (wq_name q) ++ be16 (wq_type q) ++ be16 (wq_class q).
Definition enc_wire_rr (r : wire_rr) : bytes :=
  enc_wire_name (wr_name r) ++ be16 (wr_type r) ++ be16 (wr_class r) ++ be32 (wr_ttl r)
  ++ be16 (len (wr_data r)) ++ wr_data r.
Definition set_ttl (ttl : Z) (r : wire_rr) : wire_rr :=
  {| wr_name := wr_name r; wr_type := wr_type r; wr_class := wr_class r; wr_ttl := ttl; wr_data := wr_data r |}.

(** A response: identifier and flags, counts, questions, answers and the rest. *)
Record wire_response := {
  wp_head : bytes; wp_counts : bytes; wp_questions : list wire_question; wp_answers : list wire_rr; wp_rest : bytes;
}.
Definition enc_wire_response (p : wire_response) : bytes :=
  wp_head p ++ be16 (len (wp_questions p)) ++ be16 (len (wp_answers p)) ++ wp_counts p
  ++ flat_map enc_wire_question (wp_questions p) ++ flat_map enc_wire_rr (wp_answers p) ++ wp_rest p.
Record wire_response_ok (p : wire_response) : Prop := {
  wp_head4 : length (wp_head p) = 4%nat;
  wp_counts4 : length (wp_counts p) = 4%nat;
  wp_qs : Forall (fun q => wire_name_ok (wq_name q)) (wp_questions p) /\ len (wp_questions p) < 65536;
  wp_ans : Forall (fun r => wire_name_ok (wr_name r) /\ len (wr_data r) < 65536) (wp_answers p) /\ len (wp_answers p) < 65536;
}.

Lemma land_small_label n : 0 <= n <= 63 -> Z.land n 192 <> 192.
Proof. intros H. rewrite land_192 by (unfold is_byte; lia). lia. Qed.

Lemma skipLoop_labels ls tail pre post fuel :
  Forall (fun l => 1 <= len l <= 63) ls ->
  (length (flat_map (fun l => len l :: l) ls) <= fuel)%nat ->
  exists fuel', (fuel <= fuel' + length (flat_map (fun l => len l :: l) ls))%nat /\
  skipLoop fuel (pre ++ flat_map (fun l => len l :: l) ls ++ tail ++ post) (len pre) =
  skipLoop fuel' ((pre ++ flat_map (fun l => len l :: l) ls) ++ tail ++ post) (len (pre ++ flat_map (fun l => len l :: l) ls)).
Proof.
  revert pre fuel. induction ls as [|l ls IH]; intros pre fuel Hok Hf.
  { exists fuel. simpl. rewrite app_nil_r. split; [lia|done]. }
  apply Forall_cons_1 in Hok as [Hl Hok]. destruct fuel as [|fuel]; [simpl in Hf; lia|].
  cbn [flat_map] in *. rewrite <- app_assoc. set (rest := flat_map _ ls) in *.
  change ((len l :: l) ++ rest ++ tail ++ post) with (len l :: (l ++ rest ++ tail ++ post)).
  cbn [skipLoop]. rewrite decide_False by len_solve.
  rewrite (index_app_mid pre), bind_Ret, decide_False by lia.
  rewrite decide_False by (apply land_small_label; lia).
  rewrite decide_False by len_solve.
  destruct (IH (pre ++ len l :: l) fuel Hok) as (f' & Hf' & E).
  { simpl in Hf. rewrite length_app in Hf. lia. }
  exists f'. split; [simpl; rewrite length_app; simpl in Hf; rewrite length_app in Hf; lia|].
  replace (len pre + 1 + len l) with (len (pre ++ len l :: l)) by len_solve.
  rewrite <- app_assoc in E. simpl in E. rewrite <- app_assoc in E. simpl in E.
  rewrite E. by rewrite <- !app_assoc.
Qed.

Lemma skipLoop_name w pre post :
  wire_name_ok w ->
  skipLoop (S (length (pre ++ enc_wire_name w ++ post))) (pre ++ enc_wire_name w ++ post) (len pre)
  = Ret (Some (len pre + len (enc_wire_name w))).
Proof.
  intros [Hl Hp]. unfold enc_wire_name. set (tail := match wn_pointer w with None => _ | Some _ => _ end).
  rewrite <- !app_assoc.
  destruct (skipLoop_labels (wn_labels w) tail pre post
    (S (length (pre ++ flat_map (fun l => len l :: l) (wn_labels w) ++ tail ++ post)))) as (f' & Hf & ->); [done| |].
  { rewrite !length_app. lia. }
  rewrite !length_app in Hf. set (q := pre ++ flat_map _ _).
  replace (len pre + len (_ ++ tail)) with (len q + len tail) by (unfold q; autorewrite with lens; lia).
  assert (0 < length tail)%nat by (subst tail; destruct (wn_pointer w) as [[]|]; simpl; lia).
  destruct f' as [|f']; [lia|]. clear Hf. clearbody q. subst tail.
  destruct (wn_pointer w) as [[a b]|]; cbn [app skipLoop].
  - rewrite decide_False by len_solve.
    rewrite index_app_mid, bind_Ret, decide_False by lia.
    rewrite decide_True by (apply land_192; [unfold is_byte; lia|lia]).
    rewrite decide_False by len_solve.
    do 2 f_equal; len_solve.
  - rewrite decide_False by len_solve.
    rewrite index_app_mid, bind_Ret, decide_True by done. do 2 f_equal; len_solve.
Qed.

Lemma skipQuestionSection_enc w (x post pre : bytes) :
  wire_name_ok w -> length x = 4%nat ->
  skipQuestionSection (pre ++ enc_wire_name w ++ x ++ post) (len pre) = Ret (len (pre ++ enc_wire_name w ++ x)).
Proof.
  intros Hw Hx. unfold skipQuestionSection. rewrite skipLoop_name by done. rewrite bind_Ret.
  rewrite decide_False by len_solve. f_equal. len_solve.
Qed.

Lemma skipQuestions_enc qs pre post :
  Forall (fun q => wire_name_ok (wq_name q)) qs ->
  skipQuestions (length qs) (pre ++ flat_map enc_wire_question qs ++ post) (len pre)
  = Ret (len (pre ++ flat_map enc_wire_question qs)).
Proof.
  intros H. revert pre. induction H as [|q qs Hq Hqs IH]; intros pre; [simpl; by rewrite app_nil_r|].
  cbn [length skipQuestions flat_map]. rewrite <- !app_assoc.
  pose proof (skipQuestionSection_enc (wq_name q) (be16 (wq_type q) ++ be16 (wq_class q))
    (flat_map enc_wire_question qs ++ post) pre Hq eq_refl) as E.
  unfold enc_wire_question at 1 3 5. rewrite <- !app_assoc in *. rewrite E, bind_Ret.
  rewrite decide_False by len_solve.
  specialize (IH (pre ++ enc_wire_name (wq_name q) ++ be16 (wq_type q) ++ be16 (wq_class q))).
  rewrite <- !app_assoc in *. exact IH.
Qed.

Lemma rewriteAnswers_enc ans pre pre' post ttl :
  Forall (fun r => wire_name_ok (wr_name r) /\ len (wr_data r) < 65536) ans -> length pre' = length pre ->
  rewriteAnswers (length ans) (pre ++ flat_map enc_wire_rr ans ++ post) (pre' ++ flat_map enc_wire_rr ans ++ post) (len pre) ttl
  = Ret (pre' ++ flat_map enc_wire_rr (map (set_ttl ttl) ans) ++ post).
Proof.
  intros H. revert pre pre'. induction H as [|r ans [Hr Hd] Hans IH]; intros pre pre' Hl; [done|].
  cbn [length rewriteAnswers flat_map map]. rewrite <- !app_assoc.
  set (tl := flat_map enc_wire_rr ans ++ post). 
  assert (forall z, enc_wire_rr r ++ z = enc_wire_name (wr_name r) ++ be16 (wr_type r) ++ be16 (wr_class r) ++ be32 (wr_ttl r)
    ++ be16 (len (wr_data r)) ++ wr_data r ++ z) as Er by (intros; unfold enc_wire_rr; by rewrite <- !app_assoc).
  rewrite !Er. clear Er.
  set (w := enc_wire_name (wr_name r)). set (x := be16 (wr_type r) ++ be16 (wr_class r)).
  assert (length x = 4%nat) as Hx by done.
  set (d := be16 (len (wr_data r)) ++ wr_data r ++ tl).
  change (be16 (wr_type r) ++ be16 (wr_class r) ++ be32 (wr_ttl r) ++ d) with (x ++ be32 (wr_ttl r) ++ d).
  rewrite decide_False by (subst x; unfold be16, be32; len_solve).
  unfold w. rewrite (skipQuestionSection_enc (wr_name r) x (be32 (wr_ttl r) ++ d) pre Hr Hx), bind_Ret. fold w.
  rewrite decide_False by (subst d; unfold be16, be32; len_solve).
  assert (put_uint32 (pre' ++ w ++ x ++ be32 (wr_ttl r) ++ d) (len (pre ++ w ++ x)) ttl
    = Ret (pre' ++ w ++ x ++ be32 ttl ++ d)) as Hput.
  { unfold put_uint32. rewrite decide_True by (unfold be32; len_solve). f_equal.
    replace (Z.to_nat (len (pre ++ w ++ x))) with (length (pre' ++ w ++ x)) by len_solve.
    replace (pre' ++ w ++ x ++ be32 (wr_ttl r) ++ d) with ((pre' ++ w ++ x) ++ be32 (wr_ttl r) ++ d) by (by rewrite <- !app_assoc).
    rewrite overwrite_mid by done. by rewrite <- !app_assoc. }
  rewrite Hput, bind_Ret. cbv zeta.
  rewrite decide_False by (subst d; unfold be16, be32; len_solve).
  assert (forall q, get_uint16 (q ++ d) (len q) = Ret (len (wr_data r))) as Hget.
  { intros q. unfold d. rewrite get_uint16_app. unfold uint16. rewrite Z.mod_small; [done|]. pose proof (len_nonneg (wr_data r)). lia. }
  specialize (Hget (pre ++ w ++ x ++ be32 (wr_ttl r))). rewrite <- !app_assoc in Hget.
  replace (len (pre ++ w ++ x) + 4) with (len (pre ++ w ++ x ++ be32 (wr_ttl r))) by (unfold be32; len_solve).
  rewrite Hget, bind_Ret.
  specialize (IH (pre ++ w ++ x ++ be32 (wr_ttl r) ++ be16 (len (wr_data r)) ++ wr_data r)
                 (pre' ++ w ++ x ++ be32 ttl ++ be16 (len (wr_data r)) ++ wr_data r)).
  rewrite <- !app_assoc in IH. fold tl in IH.
  replace (len (pre ++ w ++ x ++ be32 (wr_ttl r)) + 2 + len (wr_data r))
    with (len (pre ++ w ++ x ++ be32 (wr_ttl r) ++ be16 (len (wr_data r)) ++ wr_data r)) by (unfold be16, be32; len_solve).
  unfold d. rewrite IH by (unfold be32; len_solve). unfold enc_wire_rr, x, w, set_ttl. simpl. by rewrite <- !app_assoc.
Qed.

Lemma rewriteResponseTtl_enc p ttl :
  wire_response_ok p ->
  rewriteResponseTtl (enc_wire_response p) ttl =
  Ret (enc_wire_response {| wp_head := wp_head p; wp_counts := wp_counts p; wp_questions := wp_questions p;
                            wp_answers := map (set_ttl ttl) (wp_answers p); wp_rest := wp_rest p |}).
Proof.
  destruct p as [h c qs ans rest]. intros [Hh Hc [Hqs Hq] [Hans Ha]]. simpl in *.
  unfold rewriteResponseTtl, enc_wire_response. cbn [wp_head wp_counts wp_questions wp_answers wp_rest].
  set (tl := flat_map enc_wire_rr ans ++ rest).
  rewrite decide_False by (unfold be16; len_solve).
  assert (len h = 4) as Hh' by (unfold len; lia). rewrite <- Hh' at 1. rewrite get_uint16_app, bind_Ret.
  replace (Z.to_nat (uint16 (len qs))) with (length qs) by (unfold uint16, len in *; rewrite Z.mod_small; lia).
  pose proof (skipQuestions_enc qs (h ++ be16 (len qs) ++ be16 (len ans) ++ c) tl Hqs) as E.
  rewrite <- !app_assoc in E. replace (len (h ++ be16 (len qs) ++ be16 (len ans) ++ c)) with 12 in E by (unfold be16; len_solve).
  rewrite E, bind_Ret.
  pose proof (get_uint16_app (h ++ be16 (len qs)) (c ++ flat_map enc_wire_question qs ++ tl) (len ans)) as E2.
  rewrite <- !app_assoc in E2. replace (len (h ++ be16 (len qs))) with 6 in E2 by (unfold be16; len_solve).
  rewrite E2, bind_Ret.
  replace (Z.to_nat (uint16 (len ans))) with (length ans) by (unfold uint16, len in *; rewrite Z.mod_small; lia).
  pose proof (rewriteAnswers_enc ans (h ++ be16 (len qs) ++ be16 (len ans) ++ c ++ flat_map enc_wire_question qs)
    (h ++ be16 (len qs) ++ be16 (len ans) ++ c ++ flat_map enc_wire_question qs) rest ttl Hans eq_refl) as E3.
  rewrite <- !app_assoc in E3. unfold tl. rewrite E3. unfold len. by rewrite length_map.
Qed.

(** On every byte string the rewriter returns, without a read or write out of
    bounds, a text of the same length with the same header; on a well-formed response
    (names compressed or not) it changes the TTL of every answer and nothing else. *)
Theorem rewriteResponseTtl_spec resp ttl :
  bytes_ok resp ->
  (exists r, rewriteResponseTtl resp ttl = Ret r /\ length r = length resp /\ take 12 r = take 12 resp) /\
  (forall p, wire_response_ok p -> resp = enc_wire_response p ->
     rewriteResponseTtl resp ttl =
     Ret (enc_wire_response {| wp_head := wp_head p; wp_counts := wp_counts p; wp_questions := wp_questions p;
                               wp_answers := map (set_ttl ttl) (wp_answers p); wp_rest := wp_rest p |})).
Proof.
  intros Hb. split; [by apply rewriteResponseTtl_total|]. intros p Hp ->. by apply rewriteResponseTtl_enc.
Qed.

Definition demo_response : wire_response :=
  {| wp_head := [0; 1; 129; 128]; wp_counts := [0; 0; 0; 0];
     wp_questions := [{| wq_name := {| wn_labels := [gs "a"; gs "io"]; wn_pointer := None |}; wq_type := 1; wq_class := 1 |}];
     wp_answers := [{| wr_name := {| wn_labels := []; wn_pointer := Some (192, 12) |}; wr_type := 1; wr_class := 1;
                       wr_ttl := 300; wr_data := [1; 2; 3; 4] |}];
     wp_rest := [] |}.

Lemma rewriteResponseTtl_spec_witness :
  rewriteResponseTtl (enc_wire_response demo_response) 7 =
  Ret ([0; 1; 129; 128; 0; 1; 0; 1; 0; 0; 0; 0; 1; 97; 2; 105; 111; 0; 0; 1; 0; 1; 192; 12; 0; 1; 0; 1; 0; 0; 0; 7; 0; 4; 1; 2; 3; 4]).
Proof.
  refine (proj2 (rewriteResponseTtl_spec (enc_wire_response demo_response) 7 _) demo_response _ eq_refl).
  - by apply (bool_decide_eq_true_1 _).
  - split; [done|done| |]; (split; [repeat constructor|done]); done.
Defined.

Lemma overwrite_bytes_ok o d b : bytes_ok d -> bytes_ok b -> bytes_ok (overwrite o d b).
Proof. intros. unfold overwrite. rewrite !Forall_app. split_and!; auto using Forall_take, Forall_drop. Qed.

Lemma rewriteAnswers_ok n resp res off ttl r :
  bytes_ok res -> rewriteAnswers n resp res off ttl = Ret r -> bytes_ok r.
Proof.
  revert res off. induction n as [|n IH]; intros res off Hb H; simpl in H; [by simplify_eq|].
  case_decide; [by simplify_eq|]. apply bind_Ret_inv in H as (o & _ & H). case_decide; [by simplify_eq|].
  apply bind_Ret_inv in H as (res' & Hp & H). unfold put_uint32 in Hp. destruct (decide (0 <= o /\ o + 4 <= len res)); [|done]. injection Hp as <-.
  assert (bytes_ok (overwrite (Z.to_nat o) (be32 ttl) res)) by (apply overwrite_bytes_ok; [apply be32_ok|done]).
  case_decide; [by simplify_eq|]. apply bind_Ret_inv in H as (v & _ & H). by eapply IH.
Qed.

Lemma rewriteResponseTtl_ok resp ttl r : bytes_ok resp -> rewriteResponseTtl resp ttl = Ret r -> bytes_ok r.
Proof.
  intros Hb H. unfold rewriteResponseTtl in H. case_decide; [by simplify_eq|].
  apply bind_Ret_inv in H as (qd & _ & H). apply bind_Ret_inv in H as (o & _ & H).
  apply bind_Ret_inv in H as (an & _ & H). by eapply rewriteAnswers_ok.
Qed.

(** ** The specification: a bounded list in recency order, oldest first *)

Abbreviation lru := (list (gostring * CacheEntry)).
Definition lru_find (k : gostring) (l : lru) : option CacheEntry := list_to_map (M := gmap gostring CacheEntry) l !! k.
Definition lru_drop (k : gostring) (l : lru) : lru := filter (fun p => p.1 <> k) l.
Definition lru_touch (k : gostring) (e : CacheEntry) (l : lru) : lru := lru_drop k l ++ [(k, e)].
(** Room for one more: the oldest entries go. *)
Definition lru_room (max : Z) (l : lru) : lru := drop (length l + 1 - Z.to_nat max) l.

Definition ttl_seconds (ms : Z) : Z := if decide (Z.quot ms 1000 <= 0) then 1 else Z.quot ms 1000.

(** [lru_get]: the entry that answers, and the new list. *)
Definition lru_get (ttl now : Z) (k : gostring) (l : lru) : option (CacheEntry * Z) * lru :=
  match lru_find k l with
  | None => (None, l)
  | Some e =>
      let age := elapsedMs now (InsertedAt e) in
      if decide (age >= ttl) then (None, lru_drop k l)
      else (Some (e, ttl - age), lru_touch k e l)
  end.

Definition lru_put (max : Z) (k : gostring) (old new : CacheEntry) (l : lru) : lru :=
  match lru_find k l with
  | Some _ => lru_touch k old l
  | None => lru_room max l ++ [(k, new)]
  end.

(** The cache [c] stands for the list [l]. *)
Record represents (c : DnsCache) (l : lru) : Prop := {
  rp_keys : keyList c = l.*1;
  rp_map : cacheMap c = list_to_map l;
  rp_nodup : NoDup l.*1;
  rp_max : 0 < maxSize c;
  rp_size : len l <= maxSize c;
  rp_ok : Forall (fun p => bytes_ok (Response p.2) /\ 12 <= len (Response p.2)) l;
}.

Lemma lru_drop_cons k k' e (l : lru) :
  lru_drop k ((k', e) :: l) = if decide (k' = k) then lru_drop k l else (k', e) :: lru_drop k l.
Proof. unfold lru_drop. rewrite filter_cons. simpl. by repeat case_decide. Qed.

Lemma lru_drop_absent k (l : lru) : k ∉ l.*1 -> lru_drop k l = l.
Proof.
  induction l as [|[k' e] l IH]; [done|]. simpl. intros [Hne Hni]%not_elem_of_cons.
  rewrite lru_drop_cons, decide_False by done. by rewrite IH.
Qed.

Lemma removeFirst_drop k (l : lru) : NoDup l.*1 -> removeFirst k l.*1 = (lru_drop k l).*1.
Proof.
  induction l as [|[k' e] l IH]; [done|]. intros [Hni Hnd]%NoDup_cons. rewrite lru_drop_cons. csimpl.
  case_decide as Hk; [subst; by rewrite lru_drop_absent|]. csimpl. by rewrite IH.
Qed.

Lemma lru_drop_elem k x (l : lru) : x ∈ (lru_drop k l).*1 <-> x ∈ l.*1 /\ x <> k.
Proof.
  induction l as [|[k' e] l IH]; [set_solver|]. rewrite lru_drop_cons. csimpl.
  case_decide; csimpl; rewrite ?elem_of_cons, IH; naive_solver.
Qed.

Lemma lru_drop_nodup k (l : lru) : NoDup l.*1 -> NoDup (lru_drop k l).*1.
Proof.
  induction l as [|[k' e] l IH]; [done|]. intros [Hni Hnd]%NoDup_cons. rewrite lru_drop_cons.
  case_decide; [by apply IH|]. csimpl. apply NoDup_cons. split; [|by apply IH]. rewrite lru_drop_elem. tauto.
Qed.

Lemma lru_drop_map k (l : lru) :
  list_to_map (lru_drop k l) = delete k (list_to_map (M := gmap gostring CacheEntry) l).
Proof.
  induction l as [|[k' e] l IH]; [symmetry; apply delete_empty|]. rewrite lru_drop_cons. simpl. case_decide; subst.
  - by rewrite IH, delete_insert_eq.
  - simpl. rewrite IH. by rewrite delete_insert_ne by done.
Qed.

Lemma lru_drop_len k (l : lru) : (length (lru_drop k l) <= length l)%nat.
Proof. induction l as [|[k' e] l IH]; [done|]. rewrite lru_drop_cons. case_decide; simpl; lia. Qed.

Lemma lru_drop_ok k (l : lru) (P : gostring * CacheEntry -> Prop) : Forall P l -> Forall P (lru_drop k l).
Proof. apply Forall_filter_1. Qed.

Lemma lru_find_elem k (l : lru) : is_Some (lru_find k l) <-> k ∈ l.*1.
Proof.
  unfold lru_find. rewrite <- not_eq_None_Some, <- not_elem_of_list_to_map. destruct (decide (k ∈ l.*1)); naive_solver.
Qed.

Lemma lru_drop_len_lt k (l : lru) : k ∈ l.*1 -> (length (lru_drop k l) < length l)%nat.
Proof.
  induction l as [|[k' e] l IH]; [by intros ?%elem_of_nil|]. intros Hin. rewrite lru_drop_cons. simpl.
  pose proof (lru_drop_len k l). case_decide; [lia|]. simpl. apply elem_of_cons in Hin as [->|Hin]; [done|].
  specialize (IH Hin). lia.
Qed.

(** ** The operations implement the specification *)

Lemma represents_size c l : represents c l -> Z.of_nat (size (cacheMap c)) = len l.
Proof. intros H. rewrite (rp_map c l H), map_size_list_to_map by apply H. done. Qed.

Lemma represents_find c l k : represents c l -> cacheMap c !! k = lru_find k l.
Proof. intros H. by rewrite (rp_map c l H). Qed.

Lemma deleteKey_represents c l k : represents c l -> represents (deleteKey c k) (lru_drop k l).
Proof.
  intros [Hk Hm Hn Hmax Hs Hok]. split; simpl; auto using lru_drop_nodup, lru_drop_ok.
  - rewrite Hk. by apply removeFirst_drop.
  - by rewrite Hm, lru_drop_map.
  - pose proof (lru_drop_len k l). unfold len in *. lia.
Qed.

Lemma touch_represents c l k e :
  represents c l -> k ∈ l.*1 -> bytes_ok (Response e) /\ 12 <= len (Response e) ->
  represents (touchKey (with_entries c (<[k := e]> (cacheMap c)) (keyList c)) k) (lru_touch k e l).
Proof.
  intros [Hk Hm Hn Hmax Hs Hok] Hin He. unfold lru_touch.
  assert (k ∉ (lru_drop k l).*1) by (rewrite lru_drop_elem; tauto). split; simpl.
  - rewrite Hk, removeFirst_drop by done. by rewrite fmap_app.
  - rewrite list_to_map_snoc by done. by rewrite lru_drop_map, insert_delete_eq, Hm.
  - rewrite fmap_app. apply NoDup_app. split_and!; [by apply lru_drop_nodup| |apply NoDup_singleton].
    intros x Hx ->%list_elem_of_singleton. done.
  - done.
  - pose proof (lru_drop_len_lt k l Hin). unfold len in *. rewrite length_app. simpl. lia.
  - apply Forall_app. split; [by apply lru_drop_ok|]. by constructor.
Qed.

Lemma evictOldest_represents c p l : represents c (p :: l) -> represents (evictOldest c) l.
Proof.
  intros H. destruct p as [k e]. unfold evictOldest. rewrite (rp_keys _ _ H). simpl.
  apply (deleteKey_represents _ _ k) in H as H'. rewrite lru_drop_cons, decide_True in H' by done.
  pose proof (rp_nodup _ _ H) as Hn. simpl in Hn. apply NoDup_cons in Hn as [Hni _].
  by rewrite lru_drop_absent in H'.
Qed.

Lemma evictLoop_represents fuel c l :
  represents c l -> (length l < fuel)%nat ->
  exists c', evictLoop fuel c = Ret c' /\ represents c' (lru_room (maxSize c) l) /\
    maxSize c' = maxSize c /\ defaultTtl c' = defaultTtl c.
Proof.
  revert c l. induction fuel as [|fuel IH]; intros c l H Hf; [lia|].
  cbn [evictLoop]. rewrite (represents_size c l H). pose proof (rp_max _ _ H) as Hmax. pose proof (rp_size _ _ H) as Hsz.
  unfold lru_room, len in *. case_decide as Hfull.
  - destruct l as [|p l]; [simpl in *; lia|]. apply evictOldest_represents in H as H'. simpl in Hf.
    assert (maxSize (evictOldest c) = maxSize c /\ defaultTtl (evictOldest c) = defaultTtl c) as [Em Ed]
      by (unfold evictOldest; by case_match).
    destruct (IH (evictOldest c) l H') as (c' & -> & Hc' & E1 & E2); [lia|].
    exists c'. rewrite E1, E2, Em, Ed. split; [done|]. split; [|done].
    rewrite Em in Hc'. unfold lru_room in Hc'.
    replace (length (p :: l) + 1 - Z.to_nat (maxSize c))%nat with (S (length l + 1 - Z.to_nat (maxSize c))); [done|].
    simpl in *. lia.
  - exists c. split; [done|]. split; [|done]. by replace (length l + 1 - Z.to_nat (maxSize c))%nat with 0%nat by lia.
Qed.

Lemma lru_find_ok c l k e : represents c l -> lru_find k l = Some e -> bytes_ok (Response e) /\ 12 <= len (Response e).
Proof.
  intros H Hf. unfold lru_find in Hf. apply elem_of_list_to_map_2 in Hf. pose proof (rp_ok _ _ H) as Hok.
  rewrite Forall_forall in Hok. by apply (Hok (k, e)).
Qed.

Lemma Get_lru c l now k :
  represents c l -> 0 < defaultTtl c ->
  exists c', represents c' (lru_get (defaultTtl c) now k l).2 /\
    maxSize c' = maxSize c /\ defaultTtl c' = defaultTtl c /\
    match (lru_get (defaultTtl c) now k l).1 with
    | None => Get c now k = Ret (None, c')
    | Some (e, rem) => exists b, rewriteResponseTtl (Response e) (uint32 (ttl_seconds rem)) = Ret b /\
                          Get c now k = Ret (Some (b, rem), c')
    end.
Proof.
  intros H Httl. unfold Get, lru_get. rewrite decide_False by lia. rewrite (represents_find c l k H).
  destruct (lru_find k l) as [e|] eqn:Hf; [|by exists c].
  case_decide; simpl; [exists (deleteKey c k); split; [by apply deleteKey_represents|done]|].
  pose proof (lru_find_ok c l k e H Hf) as He.
  exists (touchKey c k). split; [|split; [done|split; [done|]]].
  - assert (k ∈ l.*1) as Hin by (apply lru_find_elem; by rewrite Hf).
    pose proof (touch_represents c l k e H Hin He) as Ht. rewrite insert_id in Ht; [by destruct c|].
    by rewrite (represents_find c l k H).
  - destruct (rewriteResponseTtl_total (Response e) (uint32 (ttl_seconds (defaultTtl c - elapsedMs now (InsertedAt e)))) (proj1 He))
      as (b & Hb & _). exists b. split; [done|]. unfold ttl_seconds in Hb. by rewrite Hb.
Qed.

Lemma Put_lru c l now k resp :
  represents c l -> 0 < defaultTtl c -> bytes_ok resp -> 12 <= len resp ->
  exists c' b, Put c now k resp = Ret c' /\ maxSize c' = maxSize c /\ defaultTtl c' = defaultTtl c /\
    rewriteResponseTtl resp (uint32 (ttl_seconds (defaultTtl c))) = Ret b /\
    represents c' (lru_put (maxSize c) k {| Response := resp; InsertedAt := now; TtlMs := defaultTtl c |}
                     {| Response := b; InsertedAt := now; TtlMs := defaultTtl c |} l).
Proof.
  intros H Httl Hok Hlen. unfold Put, lru_put. rewrite decide_False by lia. rewrite (represents_find c l k H).
  destruct (rewriteResponseTtl_total resp (uint32 (ttl_seconds (defaultTtl c))) Hok) as (b & Hb & Hbl & _).
  destruct (lru_find k l) as [e0|] eqn:Hf.
  - eexists _, b. split; [done|]. do 3 (split; [done|]). apply touch_represents; [done| |done].
    apply lru_find_elem. by rewrite Hf.
  - destruct (evictLoop_represents (S (size (cacheMap c))) c l H) as (c1 & -> & H1 & Em & Ed).
    { pose proof (represents_size c l H). unfold len in *. lia. }
    rewrite bind_Ret, Ed. cbv zeta. fold (ttl_seconds (defaultTtl c)). rewrite Hb, bind_Ret.
    eexists _, b. split; [done|]. do 3 (split; [done|]). pose proof H1 as [Hk Hm Hn Hmax Hs Hrok].
    assert (k ∉ (lru_room (maxSize c) l).*1) as Hni.
    { unfold lru_room. rewrite fmap_drop. intros Hin. assert (k ∈ l.*1) as Hin'.
      { rewrite <- (take_drop (length l + 1 - Z.to_nat (maxSize c)) l.*1), elem_of_app. by right. }
      apply lru_find_elem in Hin'. rewrite Hf in Hin'. by destruct Hin'. }
    split; simpl.
    + by rewrite Hk, fmap_app.
    + by rewrite list_to_map_snoc, Hm.
    + rewrite fmap_app. apply NoDup_app. split_and!; [done| |apply NoDup_singleton].
      intros x Hx ->%list_elem_of_singleton. done.
    + done.
    + pose proof (rp_max _ _ H). pose proof (rp_size _ _ H). unfold lru_room, len in *.
      rewrite length_app, length_drop. simpl. lia.
    + apply Forall_app. split; [done|]. constructor; [|constructor]. simpl.
      split; [by eapply rewriteResponseTtl_ok|]. unfold len in *. lia.
Qed.

(** The operations for any TTL, in the form the resolver uses: what they return is a
    stored entry, and they add no key but the one given. *)
Lemma lru_find_in k e (l : lru) : lru_find k l = Some e -> (k, e) ∈ l.
Proof. apply elem_of_list_to_map_2. Qed.

(** The entry that answers, in a cache that may be switched off. *)
Definition lru_hit (ttl now : Z) (k : gostring) (l : lru) : option (CacheEntry * Z) :=
  if decide (0 < ttl) then (lru_get ttl now k l).1 else None.

Lemma lru_hit_elem ttl now k l e rem : lru_hit ttl now k l = Some (e, rem) -> lru_find k l = Some e /\ k ∈ l.*1.
Proof.
  unfold lru_hit, lru_get. case_decide; [|done]. destruct (lru_find k l) as [e'|] eqn:E; [|done]. case_decide; [done|]. intros [= <- <-].
  split; [done|]. apply lru_find_elem. by rewrite E.
Qed.

Lemma Get_any c l now k :
  represents c l ->
  exists hit c' l', Get c now k = Ret (hit, c') /\ represents c' l' /\ (forall x, x ∈ l'.*1 -> x ∈ l.*1) /\
    maxSize c' = maxSize c /\ defaultTtl c' = defaultTtl c /\
    match lru_hit (defaultTtl c) now k l with
    | None => hit = None
    | Some (e, rem) => exists b, rewriteResponseTtl (Response e) (uint32 (ttl_seconds rem)) = Ret b /\ hit = Some (b, rem) /\ bytes_ok b /\ 12 <= len b
    end.
Proof.
  intros H. unfold lru_hit. destruct (decide (0 < defaultTtl c)) as [Ht|Ht].
  2:{ exists None, c, l. unfold Get. rewrite decide_True by lia. by split_and!. }
  destruct (Get_lru c l now k H Ht) as (c' & Hr & Em & Ed & Hm). unfold lru_get in *.
  destruct (lru_find k l) as [e|] eqn:Hf; [|by exists None, c', l].
  case_decide; simpl in *.
  - exists None, c', (lru_drop k l). split_and!; try done. intros x [? _]%lru_drop_elem. done.
  - destruct Hm as (b & Hb & Hg). eexists _, c', _. split; [done|]. split; [done|].
    assert (k ∈ l.*1) as Hin by (apply lru_find_elem; by rewrite Hf).
    destruct (lru_find_ok c l k e H Hf) as [Hok Hlen]. split; [|split; [done|split; [done|]]].
    + intros x. unfold lru_touch. rewrite fmap_app, elem_of_app, lru_drop_elem.
      intros [[? _]| ->%list_elem_of_singleton]; done.
    + exists b. split; [done|]. split; [done|]. split; [by eapply rewriteResponseTtl_ok|].
      edestruct (rewriteResponseTtl_total (Response e)) as (b2 & Hb2 & Hl2 & _); [done|]. rewrite Hb in Hb2. simplify_eq.
      unfold len in *. lia.
Qed.

Lemma Put_any c l now k resp :
  represents c l -> bytes_ok resp ->
  exists c' l', Put c now k resp = Ret c' /\ represents c' l' /\ (forall x, x ∈ l'.*1 -> x ∈ l.*1 \/ x = k) /\
    maxSize c' = maxSize c /\ defaultTtl c' = defaultTtl c.
Proof.
  intros H Hok. destruct (decide (defaultTtl c <= 0 \/ len resp < 12)) as [Hn|Hn].
  { exists c, l. unfold Put. rewrite decide_True by done. split_and!; auto. }
  destruct (Put_lru c l now k resp H) as (c' & b & Hp & Em & Ed & _ & Hr); [lia|done|lia|].
  eexists c', _. split; [done|]. split; [done|]. split; [|done]. unfold lru_put, lru_touch. intros x.
  destruct (lru_find k l); rewrite fmap_app, elem_of_app.
  - rewrite lru_drop_elem. intros [[? _]| ->%list_elem_of_singleton]; auto.
  - unfold lru_room. rewrite fmap_drop. intros [Hin| ->%list_elem_of_singleton]; [left|by right].
    rewrite <- (take_drop (length l + 1 - Z.to_nat (maxSize c)) l.*1), elem_of_app. by right.
Qed.

(** C25: [Get] implements the specification on every state the cache can be in: a hit
    is an entry younger than the TTL, answered with its remaining lifetime in every
    answer record and moved to the recent end; an expired entry is dropped. *)
Theorem Get_refines c l now k :
  represents c l -> 0 < defaultTtl c ->
  exists c', represents c' (lru_get (defaultTtl c) now k l).2 /\
    match (lru_get (defaultTtl c) now k l).1 with
    | None => Get c now k = Ret (None, c')
    | Some (e, rem) => exists b, rewriteResponseTtl (Response e) (uint32 (ttl_seconds rem)) = Ret b /\
                          Get c now k = Ret (Some (b, rem), c')
    end.
Proof.
  intros H Httl. destruct (Get_lru c l now k H Httl) as (c' & ? & _ & _ & ?). by exists c'.
Qed.

(** C26: [Put] implements the specification: it returns (the eviction loop terminates),
    a known key is refreshed, a new one is added after the oldest entries have made
    room, and the cache never holds more than [maxSize] entries. *)
Theorem Put_refines c l now k resp :
  represents c l -> 0 < defaultTtl c -> bytes_ok resp -> 12 <= len resp ->
  exists c' b l', Put c now k resp = Ret c' /\
    rewriteResponseTtl resp (uint32 (ttl_seconds (defaultTtl c))) = Ret b /\
    l' = lru_put (maxSize c) k {| Response := resp; InsertedAt := now; TtlMs := defaultTtl c |}
           {| Response := b; InsertedAt := now; TtlMs := defaultTtl c |} l /\
    represents c' l' /\ Z.of_nat (size (cacheMap c')) <= maxSize c.
Proof.
  intros H Httl Hok Hlen. destruct (Put_lru c l now k resp H Httl Hok Hlen) as (c' & b & Hp & Em & _ & Hb & Hr).
  eexists c', b, _. do 3 (split; [done|]). split; [done|].
  rewrite (represents_size c' _ Hr). pose proof (rp_size _ _ Hr) as Hs. by rewrite Em in Hs.
Qed.

Lemma new_represents max ttl : represents (NewDnsCache max ttl) [].
Proof. split; try done; simpl; [constructor| |]; case_decide; unfold len; simpl; lia. Qed.

Definition demo_packet : bytes := enc_wire_response demo_response.
Definition demo_cache : DnsCache :=
  match Put (NewDnsCache 2 60000) 0 (gs "k1") demo_packet with Ret c => c | _ => NewDnsCache 2 60000 end.

Lemma demo_cache_represents : exists l, represents demo_cache l.
Proof.
  destruct (Put_lru (NewDnsCache 2 60000) [] 0 (gs "k1") demo_packet) as (c' & b & Hp & _ & _ & _ & Hr);
    [apply new_represents|done|by apply (bool_decide_eq_true_1 _)|vm_compute; discriminate|].
  unfold demo_cache. rewrite Hp. by eexists.
Qed.

Lemma Get_refines_witness :
  exists l c', represents c' (lru_get 60000 (5 * 1000000000) (gs "k1") l).2.
Proof.
  destruct demo_cache_represents as [l Hl]. exists l.
  destruct (Get_refines demo_cache l (5 * 1000000000) (gs "k1") Hl ltac:(vm_compute; reflexivity)) as (c' & H & _).
  exists c'. replace 60000 with (defaultTtl demo_cache) by (vm_compute; reflexivity). exact H.
Defined.

Lemma Put_refines_witness : exists c', Put (NewDnsCache 2 60000) 0 (gs "k1") demo_packet = Ret c'.
Proof.
  destruct (Put_refines (NewDnsCache 2 60000) [] 0 (gs "k1") demo_packet) as (c' & b & l' & Hp & _);
    [apply new_represents|reflexivity|by apply (bool_decide_eq_true_1 _)|vm_compute; discriminate|by exists c'].
Defined.

(** ** The cache key *)

Lemma rawPart_chars q :
  bytes_ok (q_Name q) -> 0 <= q_Type q -> (124 ∉ rawPart q) /\ rawPart q <> [].
Proof.
  intros Hn Ht. split; [|unfold rawPart; by destruct (HexEncode _)]. unfold rawPart.
  rewrite !elem_of_app. intros [Hin|[Hin|Hin]].
  - pose proof (HexEncode_chars _ Hn) as H. rewrite Forall_forall in H. specialize (H _ Hin). simpl in H. lia.
  - by apply (bool_decide_eq_true_2 (124 ∈ gs ":")) in Hin.
  - pose proof (itoa_digits _ Ht) as H. rewrite Forall_forall in H. specialize (H _ Hin). simpl in H. lia.
Qed.

Lemma rawPart_inj p q :
  bytes_ok (q_Name p) -> 0 <= q_Type p -> bytes_ok (q_Name q) -> 0 <= q_Type q ->
  rawPart p = rawPart q -> q_Name p = q_Name q /\ q_Type p = q_Type q.
Proof.
  intros Hp Htp Hq Htq E. unfold rawPart in E.
  assert (forall n t, bytes_ok n -> 0 <= t -> Split (HexEncode n ++ gs ":" ++ itoa t) 58 = [HexEncode n; itoa t]) as HS.
  { intros n t Hn Ht. change (gs ":" ++ itoa t) with (58 :: itoa t). rewrite Split_app, Split_one; [done| |].
    - intros Hin. pose proof (itoa_digits _ Ht) as H. rewrite Forall_forall in H. specialize (H _ Hin). simpl in H. lia.
    - intros Hin. pose proof (HexEncode_chars _ Hn) as H. rewrite Forall_forall in H. specialize (H _ Hin). simpl in H. lia. }
  apply (f_equal (fun s => Split s 58)) in E. rewrite !HS in E by done.
  injection E as E1 E2. split; [by apply HexEncode_inj|by apply itoa_inj].
Qed.

Definition asked (q : ParsedQuestion) : gostring * Z := (q_Name q, q_Type q).
Definition question_ok (q : ParsedQuestion) : Prop := bytes_ok (q_Name q) /\ 0 <= q_Type q.

Lemma rawKey_inj ps qs :
  Forall question_ok ps -> Forall question_ok qs -> rawKey ps = rawKey qs -> map asked ps = map asked qs.
Proof.
  intros Hp Hq E. unfold rawKey in E.
  assert (map rawPart ps = map rawPart qs) as E'.
  { assert (forall l, Forall question_ok l -> l <> [] -> Split (Join (map rawPart l) (gs "|")) 124 = map rawPart l) as HS.
    { intros l Hl Hne. apply Split_Join; [by destruct l|]. apply List.Forall_map. eapply Forall_impl; [done|].
      intros q [H1 H2]. simpl. by apply rawPart_chars. }
    assert (forall l, Forall question_ok l -> l <> [] -> Join (map rawPart l) (gs "|") <> []) as Hnn.
    { intros [|q [|q2 l]] Hl Hne; [done| |].
      - apply Forall_cons_1 in Hl as [[H1 H2] _]. simpl. by apply rawPart_chars.
      - simpl. by destruct (rawPart q). }
    destruct ps as [|p ps], qs as [|q qs]; [done| | |].
    - exfalso. by eapply (Hnn (q :: qs)).
    - exfalso. by eapply (Hnn (p :: ps)).
    - rewrite <- (HS (p :: ps)), <- (HS (q :: qs)), E by done. done. }
  clear E. revert qs Hq E'. induction Hp as [|p ps [H1 H2] Hps IH]; intros [|q qs] Hq E; try done.
  apply Forall_cons_1 in Hq as [[H3 H4] Hq]. simpl in *. injection E as E1 E2.
  apply rawPart_inj in E1 as [E3 E4]; [|done..]. unfold asked at 1 3. rewrite E3, E4. f_equal. by apply IH.
Qed.

(** The cache key identifies what was asked: two lists of questions with the same
    key ask for the same names and types in the same order, unless they are a
    collision of the hash. *)
Theorem GenerateCacheKey_inj (sha256 : bytes -> bytes) ps qs :
  (forall b, bytes_ok (sha256 b)) -> Forall question_ok ps -> Forall question_ok qs ->
  GenerateCacheKey sha256 ps = GenerateCacheKey sha256 qs ->
  map asked ps = map asked qs \/ (rawKey ps <> rawKey qs /\ sha256 (rawKey ps) = sha256 (rawKey qs)).
Proof.
  intros Hs Hp Hq E. apply HexEncode_inj in E; [|done..].
  destruct (decide (rawKey ps = rawKey qs)) as [Er|Er]; [left; by apply rawKey_inj|by right].
Qed.

Lemma GenerateCacheKey_inj_witness :
  map asked [{| q_Name := gs "a.b"; q_Type := 1; q_NextOffset := 21 |}] =
  map asked [{| q_Name := gs "a.b"; q_Type := 1; q_NextOffset := 30 |}].
Proof.
  destruct (GenerateCacheKey_inj (fun b => map uint8 b)
    [{| q_Name := gs "a.b"; q_Type := 1; q_NextOffset := 21 |}]
    [{| q_Name := gs "a.b"; q_Type := 1; q_NextOffset := 30 |}]) as [H|[H _]].
  - intros b. apply List.Forall_map, Forall_true. intros. apply uint8_byte.
  - constructor; [split; [apply gs_bytes_ok|simpl; lia]|constructor].
  - constructor; [split; [apply gs_bytes_ok|simpl; lia]|constructor].
  - reflexivity.
  - exact H.
  - by destruct H.
Defined.
