(* ===== verification/Server.v ===== *)
(** * The local resolver ([pkg/dns/server.go])

    Host lookup with wildcards, answer and packet building, and [Resolve].  The
    object's state is its configuration and its cache; the calls of the audit
    logger are returned in order.  [ParseResolvedIpv4s] of [handler.go], which
    [Resolve] uses for its log lines, is here too. *)
From S2P Require Import Prelude GoStrings NetIP Config Wire Firewall AuditLog Cache.

Record DevDnsServer := { sv_cfg : ServerConfig; sv_cache : DnsCache }.

Definition NewDevDnsServer (cfg : ServerConfig) : DevDnsServer :=
  {| sv_cfg := cfg; sv_cache := NewDnsCache (cfg_DnsCacheMaxSize cfg) (cfg_DnsCacheTtlMs cfg) |}.

Definition UpdateConfig (s : DevDnsServer) (newCfg : ServerConfig) : DevDnsServer :=
  {| sv_cfg := newCfg; sv_cache := NewDnsCache (cfg_DnsCacheMaxSize newCfg) (cfg_DnsCacheTtlMs newCfg) |}.

(** ** Addresses in a response *)

(** [readUint16] of [handler.go] has the body of [ReadUint16]. *)
Definition readUint16 (dw : DnsWireFormat) : go (Z * DnsWireFormat) := ReadUint16 dw.

Definition skip (dw : DnsWireFormat) (n : Z) : DnsWireFormat := {| Buf := Buf dw; Offset := Offset dw + n |}.

Fixpoint skipNames (n : nat) (f : DnsWireFormat) : go DnsWireFormat :=
  match n with
  | O => Ret f
  | S n => '(_, f) ← ReadDomainName f; skipNames n (skip f 4)
  end.

Definition dotted (a b c d : Z) : gostring :=
  itoa a ++ gs "." ++ itoa b ++ gs "." ++ itoa c ++ gs "." ++ itoa d.

Fixpoint resolvedLoop (n : nat) (resp : bytes) (f : DnsWireFormat) : go (list gostring) :=
  match n with
  | O => Ret []
  | S n =>
      '(_, f) ← ReadDomainName f;
      '(qtype, f) ← readUint16 f;
      let f := skip f 6 in
      '(rdlen, f) ← readUint16 f;
      ips ← (if decide (qtype = DnsTypeA /\ rdlen = 4) then
               if decide (Offset f + 4 <= len resp) then
                 a ← index resp (Offset f); b ← index resp (Offset f + 1);
                 c ← index resp (Offset f + 2); d ← index resp (Offset f + 3);
                 Ret [dotted a b c d]
               else Ret []
             else if decide (qtype = DnsTypeAAAA /\ rdlen = 16) then
               if decide (Offset f + 16 <= len resp) then
                 ipBytes ← slice resp (Offset f) (Offset f + 16);
                 Ret [IPString ipBytes]
               else Ret []
             else Ret []);
      rest ← resolvedLoop n resp (skip f rdlen);
      Ret (ips ++ rest)
  end.

Definition resolvedIps (resp : bytes) : go (list gostring) :=
  let f := {| Buf := resp; Offset := 4 |} in
  '(qd, f) ← readUint16 f;
  '(an, f) ← readUint16 f;
  f ← skipNames (Z.to_nat qd) (skip f 4);
  resolvedLoop (Z.to_nat an) resp f.

(** A panic is recovered and yields no addresses. *)
Definition ParseResolvedIpv4s (resp : bytes) : go (list gostring) :=
  if decide (len resp < 12) then Ret []
  else match resolvedIps resp with Panic => Ret [] | r => r end.

(** ** Packets *)

Definition WriteQuestions_step (q : ParsedQuestion) (dw : DnsWireFormat) : go DnsWireFormat :=
  dw ← WriteDomainName dw (q_Name q);
  dw ← WriteUint16 dw (q_Type q);
  WriteUint16 dw DnsClassIn.

(** The question loop, with the tracked offsets. *)
Fixpoint writeQuestions (questions : list ParsedQuestion) (dw : DnsWireFormat) : go (DnsWireFormat * list Z) :=
  match questions with
  | [] => Ret (dw, [])
  | q :: questions =>
      let currentOffset := uint16 (Offset dw) in
      dw ← WriteQuestions_step q dw;
      '(dw, tracked) ← writeQuestions questions dw;
      Ret (dw, currentOffset :: tracked)
  end.

(** The owner pointer of the answer number [ancount]. *)
Definition answerPointer (nq : Z) (tracked : list Z) (ancount : Z) : Z :=
  let targetQuestionIndex := if decide (ancount >= nq) then nq - 1 else ancount in
  let matchedOffset :=
    if decide (0 <= targetQuestionIndex < len tracked) then nth (Z.to_nat targetQuestionIndex) tracked 0 else 12 in
  Z.lor 49152 matchedOffset.

Fixpoint writeAnswers (nq : Z) (tracked : list Z) (answers : list bytes) (ancount : Z) (dw : DnsWireFormat)
  : go (DnsWireFormat * Z) :=
  match answers with
  | [] => Ret (dw, ancount)
  | ans :: answers =>
      if decide (len ans < 10) then writeAnswers nq tracked answers ancount dw
      else
        dw ← WriteUint16 dw (answerPointer nq tracked ancount);
        dw ← WriteBytes dw ans;
        writeAnswers nq tracked answers (uint16 (ancount + 1)) dw
  end.

(** [(flags &^ 0x8000) | QR | AA | uint16(rcode)] *)
Definition combinedFlags (flags rcode : Z) : Z :=
  Z.lor (Z.lor (Z.lor (Z.land flags (Z.lxor 65535 32768)) FlagQR) FlagAA) (uint16 rcode).

Definition BuildResponsePacket (id flags rcode : Z) (questions : list ParsedQuestion) (answerBuffers : list bytes)
  : go bytes :=
  encoder ← WriteUint16 (NewDnsWireFormat None) id;
  encoder ← WriteUint16 encoder (combinedFlags flags rcode);
  encoder ← WriteUint16 encoder (uint16 (len questions));
  let answerCountOffset := Offset encoder in
  encoder ← WriteUint16 encoder 0;
  encoder ← WriteUint16 encoder 0;
  encoder ← WriteUint16 encoder 0;
  '(encoder, tracked) ← writeQuestions questions encoder;
  '(encoder, ancount) ← writeAnswers (len questions) tracked answerBuffers 0 encoder;
  b ← put_uint16 (Buf encoder) answerCountOffset ancount;
  Finish {| Buf := b; Offset := Offset encoder |}.

Definition BuildNoErrorResponse (id flags : Z) (questions : list ParsedQuestion) : go bytes :=
  BuildResponsePacket id flags DnsRcodeNoError questions [].

(** [None] is nil. *)
Definition GenerateErrorResponse (query : bytes) (rcode : Z) : go (option bytes) :=
  if decide (len query < 12) then Ret None
  else
    id ← get_uint16 query 0;
    flags ← get_uint16 query 2;
    questions ← ExtractQuestions query;
    b ← BuildResponsePacket id flags rcode questions [];
    Ret (Some b).

Definition toTypeString (t : Z) : gostring :=
  if decide (t = DnsTypeA) then gs "A"
  else if decide (t = DnsTypeAAAA) then gs "AAAA"
  else if decide (t = DnsTypeCNAME) then gs "CNAME"
  else if decide (t = DnsTypeTXT) then gs "TXT"
  else if decide (t = DnsTypeMX) then gs "MX"
  else if decide (t = DnsTypeNS) then gs "NS"
  else if decide (t = DnsTypeSRV) then gs "SRV"
  else if decide (t = DnsTypePTR) then gs "PTR"
  else gs "TYPE" ++ itoa t.

Section Resolver.
Context {U : Unicode}.
(** [sha256.Sum256] *)
Context (sha256 : bytes -> bytes).

Definition normalizeHost (name : gostring) : gostring := ToLower (TrimSuffix name (gs ".")).

Definition IsLocalHost (cfg : ServerConfig) (name : gostring) : bool :=
  let normalized := normalizeHost name in
  if decide (normalized = gs "*" \/ normalized = []) then false
  else bool_decide (is_Some (cfg_Hosts cfg !! normalized)).

(** The loop over [labels[i:]]. *)
Fixpoint findWildcard (hosts : gmap gostring HostConfig) (labels : list gostring) : option HostConfig :=
  match labels with
  | [] => None
  | _ :: rest =>
      match hosts !! (gs "*." ++ Join labels (gs ".")) with
      | Some val => Some val
      | None => findWildcard hosts rest
      end
  end.

Definition findHostConfig (cfg : ServerConfig) (normalizedName : gostring) : option HostConfig :=
  let wild :=
    match findWildcard (cfg_Hosts cfg) (Split normalizedName dot) with
    | Some val => Some val
    | None => cfg_Hosts cfg !! gs "*"
    end in
  if Contains normalizedName (gs "*") then wild
  else match cfg_Hosts cfg !! normalizedName with Some val => Some val | None => wild end.

Definition toTypeNumber (recordType : gostring) : Z :=
  let t := ToUpper recordType in
  if decide (t = gs "A") then DnsTypeA
  else if decide (t = gs "AAAA") then DnsTypeAAAA
  else if decide (t = gs "CNAME") then DnsTypeCNAME
  else if decide (t = gs "TXT") then DnsTypeTXT
  else if decide (t = gs "MX") then DnsTypeMX
  else if decide (t = gs "NS") then DnsTypeNS
  else if decide (t = gs "SRV") then DnsTypeSRV
  else if decide (t = gs "PTR") then DnsTypePTR
  else 0.

(** The [switch r.Type]: the record data, nil being empty. *)
Definition recordData (r : DnsRecord) : go bytes :=
  let t := rec_Type r in
  if decide (t = gs "A") then Ret (default [] (EncodeARecord (rec_Address r)))
  else if decide (t = gs "AAAA") then Ret (default [] (EncodeAAAARecord (rec_Address r)))
  else if decide (t = gs "CNAME") then EncodeCNAME (rec_Target r)
  else if decide (t = gs "TXT") then EncodeTXT (rec_Data r)
  else if decide (t = gs "MX") then EncodeMX (uint16 (default 0 (rec_Priority r))) (rec_Exchange r)
  else if decide (t = gs "NS") then EncodeNS (rec_Target r)
  else if decide (t = gs "SRV") then
    EncodeSRV (uint16 (default 0 (rec_Priority r))) (uint16 (default 0 (rec_Weight r)))
      (uint16 (default 0 (rec_Port r))) (rec_Target r)
  else if decide (t = gs "PTR") then EncodePTR (rec_Target r)
  else Ret [].

Definition buildSingleAnswer (r : DnsRecord) : go bytes :=
  rdata ← recordData r;
  let entry := replicate (10 + length rdata) 0 in
  entry ← put_uint16 entry 0 (toTypeNumber (rec_Type r));
  entry ← put_uint16 entry 2 DnsClassIn;
  entry ← put_uint32 entry 4 300;
  entry ← put_uint16 entry 8 (uint16 (len rdata));
  copy_at entry 10 rdata.

Fixpoint buildAnswersLoop (records : list DnsRecord) (recordType : Z) : go (list bytes) :=
  match records with
  | [] => Ret []
  | r :: records =>
      if decide (toTypeNumber (rec_Type r) = recordType) then
        a ← buildSingleAnswer r; rest ← buildAnswersLoop records recordType; Ret (a :: rest)
      else buildAnswersLoop records recordType
  end.

Definition buildAnswers (hostConfig : HostConfig) (recordType : Z) : go (list bytes) :=
  buildAnswersLoop (hc_Records hostConfig) recordType.

Definition HasRecord (cfg : ServerConfig) (name : gostring) (qtype : Z) : bool :=
  match findHostConfig cfg (normalizeHost name) with
  | None => false
  | Some hostConfig => existsb (fun r => bool_decide (toTypeNumber (rec_Type r) = qtype)) (hc_Records hostConfig)
  end.

(** The loop of [Resolve] over the questions: answers, [hasAnyMatch],
    [allQuestionsUnknown]. *)
Fixpoint matchQuestions (cfg : ServerConfig) (questions : list ParsedQuestion) (answers : list bytes)
    (hasAnyMatch allQuestionsUnknown : bool) : go (list bytes * bool * bool) :=
  match questions with
  | [] => Ret (answers, hasAnyMatch, allQuestionsUnknown)
  | q :: questions =>
      match findHostConfig cfg (normalizeHost (q_Name q)) with
      | None => matchQuestions cfg questions answers hasAnyMatch allQuestionsUnknown
      | Some hostConfig =>
          recordAnswers ← buildAnswers hostConfig (q_Type q);
          if decide (len recordAnswers > 0)
          then matchQuestions cfg questions (answers ++ recordAnswers) true false
          else matchQuestions cfg questions answers hasAnyMatch false
      end
  end.

Definition logged (questions : list ParsedQuestion) : list (gostring * gostring) :=
  map (fun q => (q_Name q, toTypeString (q_Type q))) questions.

Definition firstIsLocal (cfg : ServerConfig) (questions : list ParsedQuestion) : bool :=
  match questions with [] => false | q :: _ => IsLocalHost cfg (q_Name q) end.

(** [copy] and the two identifier bytes of the query. *)
Definition with_id (query response : bytes) : go bytes :=
  if decide (2 <= len query) then
    a ← index query 0; b ← index query 1;
    if decide (len response < 2) then Panic else Ret ([a; b] ++ drop 2 response)
  else Ret response.

(** [Resolve] after a miss in the cache; [t2] is the clock reading of [Put]. *)
Definition resolveMiss (s : DevDnsServer) (t2 : Z) (query : bytes) (sourceIp : gostring) (flags : Z)
    (questions : list ParsedQuestion) : go (option bytes * DevDnsServer * list call) :=
  let cfg := sv_cfg s in
  let logQuestions := logged questions in
  let cacheKey := GenerateCacheKey sha256 questions in
  let isLocal := firstIsLocal cfg questions in
  if decide (len questions = 0) then
    resp ← GenerateErrorResponse query DnsRcodeNxDomain; Ret (resp, s, [])
  else
    '(answers, hasAnyMatch, allQuestionsUnknown) ← matchQuestions cfg questions [] false true;
    let fw := cfg_Firewall cfg in
    if negb hasAnyMatch && allQuestionsUnknown then
      let allowed := negb (existsb (fun q => bool_decide (EvaluateDomain (q_Name q) fw = DENY)) questions) in
      if negb allowed then
        resp ← GenerateErrorResponse query DnsRcodeRefused;
        Ret (resp, s, [CallFirewall sourceIp (Join (map q_Name questions) (gs ", ")) (gs "DENY") (gs "Domain Blocked")])
      else if decide (cfg_FallbackDns cfg = []) then
        resp ← GenerateErrorResponse query DnsRcodeNxDomain;
        c ← Put (sv_cache s) t2 cacheKey (default [] resp);
        Ret (resp, {| sv_cfg := cfg; sv_cache := c |},
             [CallDNS sourceIp logQuestions DnsRcodeNxDomain false [] isLocal])
      else Ret (None, s, [])
    else
      id ← get_uint16 query 0;
      if decide (len answers > 0) then
        resp ← BuildResponsePacket id flags DnsRcodeNoError questions answers;
        c ← Put (sv_cache s) t2 cacheKey resp;
        ips ← ParseResolvedIpv4s resp;
        Ret (Some resp, {| sv_cfg := cfg; sv_cache := c |},
             [CallDNS sourceIp logQuestions DnsRcodeNoError false ips isLocal])
      else if negb allQuestionsUnknown then
        resp ← BuildNoErrorResponse id flags questions;
        c ← Put (sv_cache s) t2 cacheKey resp;
        Ret (Some resp, {| sv_cfg := cfg; sv_cache := c |},
             [CallDNS sourceIp logQuestions DnsRcodeNoError false [] isLocal])
      else Ret (None, s, []).

(** [t1] is the clock reading of [Get]. *)
Definition Resolve (s : DevDnsServer) (t1 t2 : Z) (query : bytes) (sourceIp : gostring)
  : go (option bytes * DevDnsServer * list call) :=
  let cfg := sv_cfg s in
  if decide (len query < 12) then Ret (None, s, [])
  else
    flags ← get_uint16 query 2;
    if decide (Z.land flags 32768 <> 0) then Ret (None, s, [])
    else if decide (Z.land flags 256 = 0) then Ret (None, s, [])
    else
      qdcount ← get_uint16 query 4;
      ancount ← get_uint16 query 6;
      nscount ← get_uint16 query 8;
      if decide (qdcount = 0 \/ ancount > 0 \/ nscount > 0) then Ret (None, s, [])
      else
        questions ← ExtractQuestions query;
        '(hit, c) ← Get (sv_cache s) t1 (GenerateCacheKey sha256 questions);
        let s := {| sv_cfg := cfg; sv_cache := c |} in
        match hit with
        | Some (cachedBytes, _) =>
            w ← get_uint16 cachedBytes 2;
            ips ← ParseResolvedIpv4s cachedBytes;
            responseCopy ← with_id query cachedBytes;
            Ret (Some responseCopy, s,
                 [CallDNS sourceIp (logged questions) (Z.land w 15) true ips (firstIsLocal cfg questions)])
        | None => resolveMiss s t2 query sourceIp flags questions
        end.

End Resolver.

(** ** What the packet builder writes *)

Fixpoint question_offsets (off : Z) (qs : list ParsedQuestion) : list Z :=
  match qs with
  | [] => []
  | q :: qs => uint16 off :: question_offsets (off + len (enc_question (q_Name q) (q_Type q) 1)) qs
  end.

(** The answers with at least their ten fixed bytes are written, each behind its
    owner pointer. *)
Fixpoint enc_answers (nq : Z) (tracked : list Z) (answers : list bytes) (ancount : Z) : bytes :=
  match answers with
  | [] => []
  | ans :: answers =>
      if decide (len ans < 10) then enc_answers nq tracked answers ancount
      else be16 (answerPointer nq tracked ancount) ++ ans ++ enc_answers nq tracked answers (uint16 (ancount + 1))
  end.

Fixpoint count_answers (answers : list bytes) (ancount : Z) : Z :=
  match answers with
  | [] => ancount
  | ans :: answers => if decide (len ans < 10) then count_answers answers ancount
                      else count_answers answers (uint16 (ancount + 1))
  end.

Lemma offset_written dw : wf_writer dw -> Offset dw = len (written dw).
Proof. intros [H1 H2]. unfold written. len_solve. Qed.

#[export] Instance WriteQuestions_step_appends q :
  Appends (WriteQuestions_step q) (enc_question (q_Name q) (q_Type q) 1).
Proof.
  unfold WriteQuestions_step, enc_question.
  apply (bind_appends _ (fun dw => dw ← WriteUint16 dw (q_Type q); WriteUint16 dw DnsClassIn) _ _ _).
  apply (bind_appends _ (fun dw => WriteUint16 dw DnsClassIn) _ _ _ _).
Qed.

Lemma writeQuestions_spec qs dw :
  wf_writer dw ->
  exists dw', writeQuestions qs dw = Ret (dw', question_offsets (len (written dw)) qs) /\ wf_writer dw' /\
    written dw' = written dw ++ enc_questions (map asked qs).
Proof.
  revert dw. induction qs as [|q qs IH]; intros dw Hwf; cbn [writeQuestions].
  { exists dw. simpl. by rewrite app_nil_r. }
  destruct (appends (f := WriteQuestions_step q) dw Hwf) as (dw1 & -> & Hwf1 & Hw1). rewrite bind_Ret.
  destruct (IH dw1 Hwf1) as (dw2 & -> & Hwf2 & Hw2). rewrite bind_Ret. exists dw2.
  rewrite Hw2, Hw1, len_app, (offset_written dw) by done. split; [done|]. split; [done|]. by rewrite <- app_assoc.
Qed.

Lemma writeAnswers_spec nq tracked answers n dw :
  wf_writer dw ->
  exists dw', writeAnswers nq tracked answers n dw = Ret (dw', count_answers answers n) /\ wf_writer dw' /\
    written dw' = written dw ++ enc_answers nq tracked answers n.
Proof.
  revert n dw. induction answers as [|a answers IH]; intros n dw Hwf; cbn [writeAnswers enc_answers count_answers].
  { exists dw. by rewrite app_nil_r. }
  case_decide; [by apply IH|].
  destruct (appends (f := fun dw => WriteUint16 dw (answerPointer nq tracked n)) dw Hwf) as (dw1 & E1 & Hwf1 & Hw1).
  rewrite E1, bind_Ret.
  destruct (appends (f := fun dw => WriteBytes dw a) dw1 Hwf1) as (dw2 & E2 & Hwf2 & Hw2). rewrite E2, bind_Ret.
  destruct (IH (uint16 (n + 1)) dw2 Hwf2) as (dw3 & -> & Hwf3 & Hw3). exists dw3. split; [done|]. split; [done|].
  rewrite Hw3, Hw2, Hw1. by rewrite <- !app_assoc.
Qed.

Lemma take_overwrite n o d (b : bytes) :
  (o + length d <= n <= length b)%nat -> take n (overwrite o d b) = overwrite o d (take n b).
Proof.
  intros H. unfold overwrite. rewrite length_take, Nat.min_l by lia.
  rewrite (take_ge d), (take_ge d) by lia. rewrite take_take, Nat.min_l by lia.
  rewrite take_app_ge by (autorewrite with lens; lia). f_equal. autorewrite with lens.
  rewrite take_app_ge by lia. f_equal. rewrite Nat.min_l by lia.
  rewrite skipn_firstn_comm. f_equal. lia.
Qed.

Definition response_header (id flags rcode qdcount ancount : Z) : bytes :=
  be16 id ++ be16 (combinedFlags flags rcode) ++ be16 qdcount ++ be16 ancount ++ be16 0 ++ be16 0.

Definition enc_response (id flags rcode : Z) (qs : list ParsedQuestion) (answers : list bytes) : bytes :=
  response_header id flags rcode (len qs) (count_answers answers 0)
  ++ enc_questions (map asked qs)
  ++ enc_answers (len qs) (question_offsets 12 qs) answers 0.

Lemma BuildResponsePacket_enc id flags rcode qs answers :
  BuildResponsePacket id flags rcode qs answers = Ret (enc_response id flags rcode qs answers).
Proof.
  unfold BuildResponsePacket.
  destruct (appends (f := fun dw => WriteUint16 dw id) _ wf_fresh) as (w1 & -> & Hf1 & Hw1). rewrite bind_Ret.
  destruct (appends (f := fun dw => WriteUint16 dw (combinedFlags flags rcode)) w1 Hf1) as (w2 & -> & Hf2 & Hw2). rewrite bind_Ret.
  destruct (appends (f := fun dw => WriteUint16 dw (uint16 (len qs))) w2 Hf2) as (w3 & -> & Hf3 & Hw3). rewrite bind_Ret. cbv zeta.
  destruct (appends (f := fun dw => WriteUint16 dw 0) w3 Hf3) as (w4 & -> & Hf4 & Hw4). rewrite bind_Ret.
  destruct (appends (f := fun dw => WriteUint16 dw 0) w4 Hf4) as (w5 & -> & Hf5 & Hw5). rewrite bind_Ret.
  destruct (appends (f := fun dw => WriteUint16 dw 0) w5 Hf5) as (w6 & -> & Hf6 & Hw6). rewrite bind_Ret.
  rewrite written_fresh in Hw1. rewrite Hw1 in Hw2. rewrite Hw2 in Hw3. rewrite Hw3 in Hw4. rewrite Hw4 in Hw5. rewrite Hw5 in Hw6.
  destruct (writeQuestions_spec qs w6 Hf6) as (w7 & -> & Hf7 & Hw7). rewrite bind_Ret.
  destruct (writeAnswers_spec (len qs) (question_offsets (len (written w6)) qs) answers 0 w7 Hf7) as (w8 & -> & Hf8 & Hw8).
  rewrite bind_Ret. rewrite (offset_written w3), Hw3 by done. rewrite be16_uint16 in *.
  rewrite Hw7 in Hw8. replace (len (written w6)) with 12 in * by (rewrite Hw6; done).
  rewrite Hw6 in Hw8. set (n := count_answers answers 0). set (ans := enc_answers _ _ _ _) in *.
  set (h := be16 id ++ be16 (combinedFlags flags rcode) ++ be16 (len qs)).
  assert (written w8 = h ++ be16 0 ++ (be16 0 ++ be16 0 ++ enc_questions (map asked qs) ++ ans)) as E8
    by (rewrite Hw8; unfold h; by rewrite <- !app_assoc).
  change (len (((([] ++ be16 id) ++ be16 (combinedFlags flags rcode)) ++ be16 (len qs)))) with 6.
  destruct Hf8 as [Ho1 Ho2]. pose proof (f_equal len E8) as El. unfold written in El.
  assert (8 <= Offset w8) as Ho3.
  { revert El. unfold h, be16. len_solve. }
  unfold put_uint16. rewrite decide_True by lia. rewrite bind_Ret.
  unfold Finish. cbn [Buf Offset]. rewrite slice_Ret by (destruct (overwrite_length (Z.to_nat 6) (be16 n) (Buf w8)); unfold len in *; lia).
  f_equal. rewrite Z.sub_0_r. change (Z.to_nat 0) with 0%nat. rewrite drop_0.
  rewrite take_overwrite by (simpl; unfold len in *; lia). fold (written w8). rewrite E8.
  change (Z.to_nat 6) with (length h). rewrite overwrite_mid by done.
  unfold enc_response, response_header, h. by rewrite <- !app_assoc.
Qed.

(** The answers that have their ten fixed bytes. *)
Definition complete (answers : list bytes) : list bytes := filter (fun a => 10 <= len a) answers.
(** The compression pointer to the name of question number [i], or of the last one. *)
Definition owner (qs : list ParsedQuestion) (i : nat) : Z :=
  Z.lor 49152 (uint16 (12 + len (enc_questions (take (Nat.min i (length qs - 1)) (map asked qs))))).

Lemma question_offsets_nth qs : forall off i, (i < length qs)%nat ->
  question_offsets off qs !! i = Some (uint16 (off + len (enc_questions (take i (map asked qs))))).
Proof.
  induction qs as [|q qs IH]; intros off i Hi; [simpl in Hi; lia|]. destruct i as [|i]; cbn [question_offsets map firstn].
  - simpl. by rewrite len_nil, Z.add_0_r.
  - simpl in Hi. cbn [lookup list_lookup]. rewrite IH by lia. do 2 f_equal. rewrite <- Z.add_assoc. f_equal. cbn [enc_questions flat_map]. by rewrite len_app.
Qed.
Lemma question_offsets_length qs : forall off, length (question_offsets off qs) = length qs.
Proof. induction qs; intros; simpl; auto. Qed.
Lemma answerPointer_owner qs (i : nat) : answerPointer (len qs) (question_offsets 12 qs) (Z.of_nat i) = owner qs i.
Proof.
  unfold answerPointer, owner, len. rewrite question_offsets_length. f_equal. destruct (decide (length qs = 0%nat)) as [E|E].
  - rewrite E. rewrite decide_False; [|destruct (decide _); lia]. by rewrite Nat.min_0_r.
  - assert ((if decide (Z.of_nat i >= Z.of_nat (length qs)) then Z.of_nat (length qs) - 1 else Z.of_nat i) = Z.of_nat (Nat.min i (length qs - 1))) as ->
      by (destruct (decide _); lia).
    rewrite decide_True by lia. rewrite Nat2Z.id. apply nth_lookup_Some, question_offsets_nth. lia.
Qed.
Lemma enc_answers_imap qs answers : forall n : nat, Z.of_nat n + len (complete answers) < 65536 ->
  enc_answers (len qs) (question_offsets 12 qs) answers (Z.of_nat n) = concat (imap (fun i a => be16 (owner qs (n + i)) ++ a) (complete answers)) /\
  count_answers answers (Z.of_nat n) = Z.of_nat n + len (complete answers).
Proof.
  unfold complete. induction answers as [|a answers IH]; intros n Hn; cbn [enc_answers count_answers].
  { split; [done|]. rewrite filter_nil, len_nil. lia. }
  rewrite filter_cons in Hn |- *. destruct (decide (10 <= len a)) as [Ha|Ha].
  - rewrite !(decide_False (P := len a < 10)) by lia. rewrite len_cons in Hn |- *. pose proof (len_nonneg (filter (fun a => 10 <= len a) answers)).
    assert (uint16 (Z.of_nat n + 1) = Z.of_nat (S n)) as -> by (unfold uint16; rewrite Z.mod_small; lia).
    destruct (IH (S n)) as [-> ->]; [lia|]. split; [|lia]. cbn [imap concat]. rewrite <- app_assoc, Nat.add_0_r, answerPointer_owner. do 3 f_equal.
    apply imap_ext. intros i x _. simpl. replace (S (n + i)) with (n + S i)%nat by lia. done.
  - rewrite !(decide_True (P := len a < 10)) by lia. by apply IH.
Qed.



(** ** Byte strings *)

Lemma enc_name_ok name : bytes_ok name -> bytes_ok (enc_name name).
Proof.
  intros Hn. unfold enc_name, enc_labels. apply Forall_app. split; [|repeat constructor; unfold is_byte; lia].
  apply Forall_flat_map. assert (Forall bytes_ok (Split name dot)) as Hs.
  { clear -Hn. induction Hn as [|c s Hc Hs IH]; [repeat constructor|]. simpl.
    case_decide; [by constructor|]. destruct (Split s dot) as [|l ls]; [by repeat apply Forall_cons_2|].
    apply Forall_cons_1 in IH as [? ?]. by repeat apply Forall_cons_2. }
  eapply Forall_impl; [done|]. intros l Hl. unfold enc_label. case_decide; [constructor|].
  constructor; [apply uint8_byte|done].
Qed.

Lemma enc_questions_ok qs : Forall (fun q => bytes_ok q.1) qs -> bytes_ok (enc_questions qs).
Proof.
  intros H. unfold enc_questions. apply Forall_flat_map. eapply Forall_impl; [done|]. intros [n t] Hn. simpl in *.
  unfold enc_question. rewrite !Forall_app. split_and!; [by apply enc_name_ok|apply be16_ok..].
Qed.

Lemma enc_answers_ok nq tr answers n : Forall bytes_ok answers -> bytes_ok (enc_answers nq tr answers n).
Proof.
  intros H. revert n. induction H as [|a l Ha Hl IH]; intros n; cbn [enc_answers]; [constructor|].
  case_decide; [apply IH|]. rewrite !Forall_app. split_and!; [apply (be16_ok _)|done|apply IH].
Qed.

Lemma enc_response_ok id flags rcode qs answers :
  Forall (fun q => bytes_ok (q_Name q)) qs -> Forall bytes_ok answers ->
  bytes_ok (enc_response id flags rcode qs answers).
Proof.
  intros Hq Ha. unfold enc_response, response_header. rewrite !Forall_app. split_and!; try apply be16_ok.
  - apply enc_questions_ok, List.Forall_map. eapply Forall_impl; [done|]. done.
  - by apply enc_answers_ok.
Qed.

Lemma enc_response_len id flags rcode qs answers : 12 <= len (enc_response id flags rcode qs answers).
Proof. unfold enc_response, response_header, be16. len_solve. Qed.

(** ** Answers *)

Section Answers.
Context {U : Unicode}.

(** The record data that the encoders of the record types give. *)
Definition rdata_of (r : DnsRecord) : bytes :=
  let t := rec_Type r in
  if decide (t = gs "A") then default [] (EncodeARecord (rec_Address r))
  else if decide (t = gs "AAAA") then default [] (EncodeAAAARecord (rec_Address r))
  else if decide (t = gs "CNAME" \/ t = gs "NS" \/ t = gs "PTR") then enc_name (rec_Target r)
  else if decide (t = gs "TXT") then flat_map enc_txt (rec_Data r)
  else if decide (t = gs "MX") then be16 (default 0 (rec_Priority r)) ++ enc_name (rec_Exchange r)
  else if decide (t = gs "SRV") then
    be16 (default 0 (rec_Priority r)) ++ be16 (default 0 (rec_Weight r)) ++ be16 (default 0 (rec_Port r))
    ++ enc_name (rec_Target r)
  else [].

Lemma recordData_of r : recordData r = Ret (rdata_of r).
Proof.
  unfold recordData, rdata_of. destruct (EncodeName_exact (rec_Target r)) as (HC & HN & HP).
  generalize (rec_Type r) as t. intros t.
  destruct (decide (t = gs "A")); [done|]. destruct (decide (t = gs "AAAA")); [done|].
  destruct (decide (t = gs "CNAME")) as [->|]; [by rewrite decide_True by auto|].
  destruct (decide (t = gs "TXT")) as [->|]; [by rewrite decide_False, EncodeTXT_exact by (by intros [?|[?|?]])|].
  destruct (decide (t = gs "MX")) as [->|].
  { by rewrite decide_False, EncodeMX_exact, be16_uint16 by (by intros [?|[?|?]]). }
  destruct (decide (t = gs "NS")) as [->|]; [by rewrite decide_True by auto|].
  destruct (decide (t = gs "SRV")) as [->|].
  { by rewrite decide_False, EncodeSRV_exact, !be16_uint16 by (by intros [?|[?|?]]). }
  destruct (decide (t = gs "PTR")) as [->|]; [by rewrite decide_True by auto|].
  by rewrite decide_False by (by intros [?|[?|?]]).
Qed.

Definition enc_single_answer (r : DnsRecord) : bytes :=
  be16 (toTypeNumber (rec_Type r)) ++ be16 1 ++ be32 300 ++ be16 (len (rdata_of r)) ++ rdata_of r.

Lemma buildSingleAnswer_enc r : buildSingleAnswer r = Ret (enc_single_answer r).
Proof.
  unfold buildSingleAnswer, enc_single_answer. rewrite recordData_of, bind_Ret. cbv zeta.
  set (d := rdata_of r). set (t := be16 (toTypeNumber (rec_Type r))).
  set (z := replicate (length d) 0).
  change (replicate (10 + length d) 0) with ([0; 0; 0; 0; 0; 0; 0; 0; 0; 0] ++ z).
  assert (put_uint16 ([0; 0; 0; 0; 0; 0; 0; 0; 0; 0] ++ z) 0 (toTypeNumber (rec_Type r)) = Ret (t ++ [0; 0; 0; 0; 0; 0; 0; 0] ++ z)) as ->
    by exact (put_uint16_app [] [0; 0] ([0; 0; 0; 0; 0; 0; 0; 0] ++ z) _ eq_refl).
  rewrite bind_Ret.
  assert (put_uint16 (t ++ [0; 0; 0; 0; 0; 0; 0; 0] ++ z) 2 DnsClassIn = Ret (t ++ be16 1 ++ [0; 0; 0; 0; 0; 0] ++ z)) as ->
    by exact (put_uint16_app t [0; 0] ([0; 0; 0; 0; 0; 0] ++ z) _ eq_refl).
  rewrite bind_Ret.
  assert (put_uint32 (t ++ be16 1 ++ [0; 0; 0; 0; 0; 0] ++ z) 4 300 = Ret (t ++ be16 1 ++ be32 300 ++ [0; 0] ++ z)) as ->
    by exact (put_uint32_app (t ++ be16 1) [0; 0; 0; 0] ([0; 0] ++ z) 300 eq_refl).
  rewrite bind_Ret.
  assert (put_uint16 (t ++ be16 1 ++ be32 300 ++ [0; 0] ++ z) 8 (uint16 (len d)) = Ret (t ++ be16 1 ++ be32 300 ++ be16 (uint16 (len d)) ++ z)) as ->
    by exact (put_uint16_app (t ++ be16 1 ++ be32 300) [0; 0] z _ eq_refl).
  rewrite bind_Ret, be16_uint16.
  exact (copy_at_app (t ++ be16 1 ++ be32 300 ++ be16 (len d)) z d (eq_sym (length_replicate _ _))).
Qed.

Lemma buildAnswers_enc h t :
  buildAnswers h t = Ret (map enc_single_answer (filter (fun r => toTypeNumber (rec_Type r) = t) (hc_Records h))).
Proof.
  unfold buildAnswers. induction (hc_Records h) as [|r l IH]; [done|]. cbn [buildAnswersLoop]. rewrite filter_cons.
  case_decide; [|done]. by rewrite buildSingleAnswer_enc, bind_Ret, IH, bind_Ret.
Qed.

(** C33: For a question of type [t] on a configured host the answers are, in the order
    of the configuration, one resource record per configured record of that type:
    type, class IN, TTL 300, the length of the record data and the record data. *)
Theorem buildAnswers_exact h t :
  buildAnswers h t = Ret (map enc_single_answer (filter (fun r => toTypeNumber (rec_Type r) = t) (hc_Records h))).
Proof. apply buildAnswers_enc. Qed.

(** The type of a configured record is matched in any letter case, but its data is
    built for the upper-case spelling only: a record of type ["a"] is answered with
    an A record of no data. *)
Theorem lower_case_record_empty addr :
  buildSingleAnswer {| rec_Type := gs "a"; rec_Address := addr; rec_Target := []; rec_Data := []; rec_Priority := None;
                       rec_Exchange := []; rec_Weight := None; rec_Port := None |}
  = Ret (be16 DnsTypeA ++ be16 DnsClassIn ++ be32 300 ++ be16 0).
Proof. by rewrite buildSingleAnswer_enc. Qed.

End Answers.

(** ** The addresses of a response *)

Abbreviation raw_labels ls := (flat_map (fun l => len l :: l) ls).

Lemma raw_labels_len ls : (length ls <= length (raw_labels ls))%nat.
Proof. induction ls as [|l ls IH]; simpl; [lia|]. rewrite length_app. lia. Qed.

Lemma ReadDomainNameLoop_raw ls : forall k pre tail acc,
  Forall (fun l => 1 <= len l <= 63) ls ->
  ReadDomainNameLoop (length ls + k) (pre ++ raw_labels ls ++ tail) acc 0 (len pre) (-1) =
  ReadDomainNameLoop k ((pre ++ raw_labels ls) ++ tail) (acc ++ ls) 0 (len (pre ++ raw_labels ls)) (-1).
Proof.
  induction ls as [|l ls IH]; intros k pre tail acc Hls; [simpl; by rewrite !app_nil_r|].
  apply Forall_cons_1 in Hls as [Hl Hls].
  cbn [flat_map length Nat.add ReadDomainNameLoop]. rewrite decide_False by len_solve.
  rewrite <- !app_assoc. cbn [app]. rewrite index_app_mid, bind_Ret. rewrite (decide_False (P:=len l = 0)) by lia.
  rewrite (decide_False (P:=Z.land _ _ = _)) by (apply land_small_label; lia).
  rewrite decide_False by len_solve.
  replace (pre ++ len l :: l ++ raw_labels ls ++ tail)
    with ((pre ++ [len l]) ++ l ++ raw_labels ls ++ tail) by by rewrite <- !app_assoc.
  replace (len pre + 1) with (len (pre ++ [len l])) by len_solve.
  rewrite slice_app_mid, bind_Ret.
  replace (len (pre ++ [len l]) + len l) with (len ((pre ++ [len l]) ++ l)) by len_solve.
  rewrite (app_assoc _ l), IH by done. by rewrite <- !app_assoc.
Qed.

(** A name on the wire, compressed or not, is read up to its end. *)
Lemma ReadDomainName_wire w pre post :
  wire_name_ok w -> bytes_ok (pre ++ enc_wire_name w ++ post) ->
  exists name, ReadDomainName {| Buf := pre ++ enc_wire_name w ++ post; Offset := len pre |} =
    Ret (name, {| Buf := pre ++ enc_wire_name w ++ post; Offset := len pre + len (enc_wire_name w) |}).
Proof.
  intros [Hl Hp] Hb. unfold ReadDomainName. cbn [Buf Offset].
  set (buf := pre ++ enc_wire_name w ++ post) in *.
  pose proof (raw_labels_len (wn_labels w)) as Hlen.
  assert (exists k, name_fuel buf = (length (wn_labels w) + S k)%nat /\ 5 * (len buf + 1) + len buf < Z.of_nat k) as (k & -> & Hk).
  { exists (name_fuel buf - length (wn_labels w) - 1)%nat. unfold name_fuel, buf, enc_wire_name. len_solve. }
  set (tail := match wn_pointer w with None => [0] | Some (a, b) => [a; b] end).
  assert (buf = pre ++ raw_labels (wn_labels w) ++ tail ++ post) as Eb.
  { unfold buf, enc_wire_name. by rewrite <- !app_assoc. }
  assert (len pre + len (enc_wire_name w) = len (pre ++ raw_labels (wn_labels w)) + len tail) as El.
  { unfold enc_wire_name. fold tail. autorewrite with lens. lia. }
  rewrite El, Eb. rewrite ReadDomainNameLoop_raw by done. rewrite !app_nil_l. clear Eb. 
  assert (buf = (pre ++ raw_labels (wn_labels w)) ++ tail ++ post) as Eb.
  { unfold buf, enc_wire_name. by rewrite <- !app_assoc. }
  rewrite Eb in Hb, Hk. set (q := pre ++ raw_labels (wn_labels w)) in *. clearbody q. subst tail.
  destruct (wn_pointer w) as [[a b]|]; cbn [app ReadDomainNameLoop].
  - cbn [app] in Hb, Hk. set (buf2 := q ++ a :: b :: post) in *. rewrite decide_False by (unfold buf2; len_solve).
    rewrite (index_app_mid q (b :: post) a : index buf2 (len q) = Ret a), bind_Ret, decide_False by lia.
    rewrite decide_True by (apply land_192; [unfold is_byte|]; lia).
    rewrite decide_False by (unfold maxJumps; lia). rewrite decide_False by (unfold buf2; len_solve).
    assert (is_byte b) as Hbb by (unfold buf2 in Hb; apply Forall_app in Hb as [_ Hb]; by apply Forall_cons_1 in Hb as [_ [Hb _]%Forall_cons_1]).
    assert (index buf2 (len q + 1) = Ret b) as ->.
    { unfold buf2. replace (q ++ a :: b :: post) with ((q ++ [a]) ++ b :: post) by (by rewrite <- app_assoc).
      replace (len q + 1) with (len (q ++ [a])) by len_solve. apply index_app_mid. }
    rewrite bind_Ret, decide_True by done.
    assert (0 <= Z.lor (Z.shiftl (Z.land a 63) 8) b) as Hptr by (apply ptr_nonneg; [unfold is_byte; lia|done]).
    destruct (ReadDomainNameLoop_total k buf2 (wn_labels w) (0 + 1) (Z.lor (Z.shiftl (Z.land a 63) 8) b) (len q + 1 + 1))
      as (ls & c & s & -> & _ & _ & Hs & _); [done|done|unfold maxJumps; lia|pose proof (len_nonneg q); lia|pose proof (len_nonneg buf2); lia|].
    rewrite bind_Ret. eexists. rewrite Hs by (pose proof (len_nonneg q); lia).
    rewrite decide_True by (pose proof (len_nonneg q); lia). do 3 f_equal; len_solve.
  - rewrite decide_False by len_solve. rewrite index_app_mid, bind_Ret, decide_True by done. rewrite bind_Ret.
    eexists. rewrite decide_False by lia. do 3 f_equal; len_solve.
Qed.

Lemma skipNames_enc qs pre post :
  Forall (fun q => wire_name_ok (wq_name q)) qs -> bytes_ok (pre ++ flat_map enc_wire_question qs ++ post) ->
  skipNames (length qs) {| Buf := pre ++ flat_map enc_wire_question qs ++ post; Offset := len pre |} =
  Ret {| Buf := pre ++ flat_map enc_wire_question qs ++ post; Offset := len (pre ++ flat_map enc_wire_question qs) |}.
Proof.
  intros H. revert pre. induction H as [|q qs Hq Hqs IH]; intros pre Hb; [simpl; by rewrite app_nil_r|].
  cbn [length skipNames flat_map] in *. set (x := be16 (wq_type q) ++ be16 (wq_class q)).
  assert (forall z, (enc_wire_question q ++ flat_map enc_wire_question qs) ++ z =
    enc_wire_name (wq_name q) ++ x ++ flat_map enc_wire_question qs ++ z) as Eq.
  { intros. unfold enc_wire_question, x. by rewrite <- !app_assoc. }
  rewrite Eq in *. destruct (ReadDomainName_wire (wq_name q) pre _ Hq Hb) as (nm & ->). rewrite bind_Ret.
  unfold skip. cbn [Buf Offset].
  specialize (IH (pre ++ enc_wire_name (wq_name q) ++ x)). rewrite <- !app_assoc in IH. specialize (IH Hb).
  replace (len pre + len (enc_wire_name (wq_name q)) + 4) with (len (pre ++ enc_wire_name (wq_name q) ++ x))
    by (unfold x, be16; len_solve). rewrite IH. do 2 f_equal. unfold enc_wire_question. fold x. by rewrite <- !app_assoc.
Qed.

(** The addresses that the answers of a response carry. *)
Definition rr_addresses (r : wire_rr) : list gostring :=
  if decide (uint16 (wr_type r) = DnsTypeA /\ len (wr_data r) = 4) then [IPString (wr_data r)]
  else if decide (uint16 (wr_type r) = DnsTypeAAAA /\ len (wr_data r) = 16) then [IPString (wr_data r)]
  else [].

Lemma dotted_IPString a b c d : dotted a b c d = IPString [a; b; c; d].
Proof. unfold dotted, IPString, To4, String4. simpl. by rewrite <- ?app_assoc. Qed.

Lemma index_off (p d q : bytes) i :
  0 <= i < len d -> index (p ++ d ++ q) (len p + i) = Ret (nth (Z.to_nat i) d 0).
Proof.
  intros Hi. rewrite index_Ret by len_solve. f_equal. unfold len in *. rewrite app_nth2 by lia.
  rewrite app_nth1 by lia. f_equal. lia.
Qed.

Lemma resolvedLoop_enc ans pre post :
  Forall (fun r => wire_name_ok (wr_name r) /\ len (wr_data r) < 65536) ans ->
  bytes_ok (pre ++ flat_map enc_wire_rr ans ++ post) ->
  resolvedLoop (length ans) (pre ++ flat_map enc_wire_rr ans ++ post)
    {| Buf := pre ++ flat_map enc_wire_rr ans ++ post; Offset := len pre |} = Ret (flat_map rr_addresses ans).
Proof.
  intros H. revert pre. induction H as [|r ans [Hr Hd] Hans IH]; intros pre Hb; [done|].
  cbn [length resolvedLoop flat_map] in *. set (rest := flat_map enc_wire_rr ans) in *.
  set (w := enc_wire_name (wr_name r)) in *. set (d := wr_data r) in *.
  assert (forall z, (enc_wire_rr r ++ rest) ++ z =
    w ++ be16 (wr_type r) ++ (be16 (wr_class r) ++ be32 (wr_ttl r)) ++ be16 (len d) ++ d ++ rest ++ z) as Eq.
  { intros. unfold enc_wire_rr. by rewrite <- !app_assoc. }
  rewrite Eq in *. clear Eq. set (cl := be16 (wr_class r) ++ be32 (wr_ttl r)) in *.
  set (buf := pre ++ w ++ be16 (wr_type r) ++ cl ++ be16 (len d) ++ d ++ rest ++ post) in *.
  destruct (ReadDomainName_wire (wr_name r) pre (be16 (wr_type r) ++ cl ++ be16 (len d) ++ d ++ rest ++ post) Hr Hb) as (nm & E0).
  fold w in E0. fold buf in E0. rewrite E0, bind_Ret. clear E0. unfold readUint16.
  pose proof (ReadUint16_app (pre ++ w) (wr_type r) (cl ++ be16 (len d) ++ d ++ rest ++ post)) as E1.
  rewrite <- !app_assoc in E1. fold buf in E1. rewrite len_app in E1. rewrite E1, bind_Ret. clear E1. unfold skip. cbn [Buf Offset].
  pose proof (ReadUint16_app (pre ++ w ++ be16 (wr_type r) ++ cl) (len d) (d ++ rest ++ post)) as E2.
  rewrite <- !app_assoc in E2. fold buf in E2.
  replace (len pre + len w + 2 + 6) with (len (pre ++ w ++ be16 (wr_type r) ++ cl)) by (unfold cl, be16, be32; len_solve).
  rewrite E2, bind_Ret. clear E2. cbn [Buf Offset].
  replace (uint16 (len d)) with (len d) by (unfold uint16; rewrite Z.mod_small; [done|pose proof (len_nonneg d); lia]).
  set (p := pre ++ w ++ be16 (wr_type r) ++ cl ++ be16 (len d)).
  replace (len (pre ++ w ++ be16 (wr_type r) ++ cl) + 2) with (len p) by (unfold p, be16; len_solve).
  assert (buf = p ++ d ++ rest ++ post) as Eb by (unfold buf, p; by rewrite <- !app_assoc).
  assert (len p + len d <= len buf) as Hlb by (rewrite Eb; len_solve).
  specialize (IH (p ++ d)). rewrite <- !app_assoc in IH. fold rest in IH. rewrite <- Eb in IH. specialize (IH Hb).
  rewrite len_app in IH. rewrite IH. clear IH.
  assert (rr_addresses r = if decide (uint16 (wr_type r) = DnsTypeA /\ len d = 4) then [IPString d]
    else if decide (uint16 (wr_type r) = DnsTypeAAAA /\ len d = 16) then [IPString d] else []) as -> by done.
  case_decide as HA.
  - destruct HA as [_ H4]. rewrite decide_True by lia. rewrite Eb.
    rewrite <- (Z.add_0_r (len p)) at 1. rewrite !index_off by lia. rewrite !bind_Ret.
    rewrite dotted_IPString. f_equal. cbn [app]. f_equal. 
    destruct d as [|x0 [|x1 [|x2 [|x3 [|]]]]]; unfold len in H4; simpl in H4; try lia. reflexivity.
  - case_decide as HA6; [|by rewrite !bind_Ret].
    destruct HA6 as [_ H16]. rewrite decide_True by lia. rewrite Eb, <- H16, slice_app_mid, !bind_Ret. done.
Qed.

Lemma ParseResolvedIpv4s_enc p :
  wire_response_ok p -> bytes_ok (enc_wire_response p) ->
  ParseResolvedIpv4s (enc_wire_response p) = Ret (flat_map rr_addresses (wp_answers p)).
Proof.
  destruct p as [h c qs ans rest]. intros [Hh Hc [Hqs Hq] [Hans Ha]] Hb. unfold ParseResolvedIpv4s, resolvedIps, readUint16.
  unfold enc_wire_response in *. cbn [wp_head wp_counts wp_questions wp_answers wp_rest] in *.
  rewrite decide_False by (unfold be16; len_solve).
  set (buf := h ++ be16 (len qs) ++ be16 (len ans) ++ c ++ flat_map enc_wire_question qs ++ flat_map enc_wire_rr ans ++ rest) in *.
  assert (ReadUint16 {| Buf := buf; Offset := 4 |} = Ret (len qs, {| Buf := buf; Offset := 6 |})) as ->.
  { pose proof (ReadUint16_app h (len qs) (be16 (len ans) ++ c ++ flat_map enc_wire_question qs ++ flat_map enc_wire_rr ans ++ rest)) as E.
    fold buf in E. replace (len h) with 4 in E by len_solve. rewrite E. unfold uint16.
    rewrite Z.mod_small by (pose proof (len_nonneg qs); lia). done. }
  rewrite bind_Ret.
  assert (ReadUint16 {| Buf := buf; Offset := 6 |} = Ret (len ans, {| Buf := buf; Offset := 8 |})) as ->.
  { pose proof (ReadUint16_app (h ++ be16 (len qs)) (len ans) (c ++ flat_map enc_wire_question qs ++ flat_map enc_wire_rr ans ++ rest)) as E.
    rewrite <- !app_assoc in E. fold buf in E. replace (len (h ++ be16 (len qs))) with 6 in E by (unfold be16; len_solve). rewrite E. unfold uint16.
    rewrite Z.mod_small by (pose proof (len_nonneg ans); lia). done. }
  rewrite bind_Ret. unfold skip. cbn [Buf Offset]. change (8 + 4) with 12.
  set (p12 := h ++ be16 (len qs) ++ be16 (len ans) ++ c).
  assert (len p12 = 12) as E12 by (unfold p12, be16; len_solve).
  assert (buf = p12 ++ flat_map enc_wire_question qs ++ flat_map enc_wire_rr ans ++ rest) as Eb
    by (unfold buf, p12; by rewrite <- !app_assoc).
  pose proof (skipNames_enc qs p12 (flat_map enc_wire_rr ans ++ rest) Hqs) as Es. rewrite <- Eb, E12 in Es.
  replace (Z.to_nat (len qs)) with (length qs) by (unfold len; lia). rewrite Es by done. rewrite bind_Ret.
  pose proof (resolvedLoop_enc ans (p12 ++ flat_map enc_wire_question qs) rest Hans) as Er. rewrite <- !app_assoc in Er.
  rewrite <- Eb in Er. replace (Z.to_nat (len ans)) with (length ans) by (unfold len; lia). rewrite Er by done. done.
Qed.

Lemma skipNames_total n buf off :
  bytes_ok buf -> 0 <= off ->
  exists off', skipNames n {| Buf := buf; Offset := off |} = Ret {| Buf := buf; Offset := off' |} /\ 0 <= off'.
Proof.
  intros Hb. revert off. induction n as [|n IH]; intros off Ho; [by exists off|]. cbn [skipNames].
  destruct (ReadDomainName_step buf off Hb Ho) as (ls & next & -> & _ & Hn). rewrite bind_Ret. unfold skip. cbn [Buf Offset].
  apply IH. pose proof (len_nonneg buf). unfold next_ok in Hn. lia.
Qed.

Lemma resolvedLoop_total n resp off :
  bytes_ok resp -> 0 <= off -> exists ips, resolvedLoop n resp {| Buf := resp; Offset := off |} = Ret ips.
Proof.
  intros Hb. revert off. induction n as [|n IH]; intros off Ho; [by exists []|]. cbn [resolvedLoop].
  destruct (ReadDomainName_step resp off Hb Ho) as (ls & next & -> & _ & Hn). rewrite bind_Ret.
  assert (0 <= next) by (pose proof (len_nonneg resp); unfold next_ok in Hn; lia). unfold readUint16.
  destruct (ReadUint16_total resp next Hb ltac:(done)) as (v1 & o1 & -> & Hv1 & Ho1 & _). rewrite bind_Ret.
  unfold skip. cbn [Buf Offset].
  destruct (ReadUint16_total resp (o1 + 6) Hb ltac:(lia)) as (v2 & o2 & -> & Hv2 & Ho2 & _). rewrite bind_Ret. cbn [Buf Offset].
  destruct (IH (o2 + v2) ltac:(lia)) as (rest & Er). rewrite Er.
  case_decide; [|case_decide; [|by eexists]].
  - case_decide; [|by eexists]. rewrite !index_Ret by lia. by eexists.
  - case_decide; [|by eexists]. rewrite slice_Ret by lia. by eexists.
Qed.

Lemma ParseResolvedIpv4s_total resp : bytes_ok resp -> exists ips, ParseResolvedIpv4s resp = Ret ips.
Proof.
  intros Hb. unfold ParseResolvedIpv4s. case_decide; [by eexists|]. unfold resolvedIps, readUint16.
  destruct (ReadUint16_total resp 4 Hb ltac:(lia)) as (v1 & o1 & -> & Hv1 & Ho1 & _). rewrite bind_Ret.
  destruct (ReadUint16_total resp o1 Hb ltac:(lia)) as (v2 & o2 & -> & Hv2 & Ho2 & _). rewrite bind_Ret. unfold skip. cbn [Buf Offset].
  destruct (skipNames_total (Z.to_nat v1) resp (o2 + 4) Hb ltac:(lia)) as (o3 & -> & Ho3). rewrite bind_Ret.
  destruct (resolvedLoop_total (Z.to_nat v2) resp o3 Hb Ho3) as (ips & ->). by eexists.
Qed.

(** The scan for addresses returns on every byte string, and on a well-formed
    response (any compression) it yields exactly the addresses of the A and AAAA
    answers, in order, in their canonical text. *)
Theorem ParseResolvedIpv4s_spec resp :
  bytes_ok resp ->
  (exists ips, ParseResolvedIpv4s resp = Ret ips) /\
  (forall p, wire_response_ok p -> resp = enc_wire_response p ->
     ParseResolvedIpv4s resp = Ret (flat_map rr_addresses (wp_answers p))).
Proof.
  intros Hb. split; [by apply ParseResolvedIpv4s_total|]. intros p Hp ->. by apply ParseResolvedIpv4s_enc.
Qed.

Lemma ParseResolvedIpv4s_spec_witness :
  ParseResolvedIpv4s (enc_wire_response demo_response) = Ret [gs "1.2.3.4"].
Proof.
  refine (proj2 (ParseResolvedIpv4s_spec (enc_wire_response demo_response) _) demo_response _ eq_refl).
  - by apply (bool_decide_eq_true_1 _).
  - split; [done|done| |]; (split; [repeat constructor|done]); done.
Defined.

(** ** What [Resolve] decides *)

Section Decision.
Context {U : Unicode} (sha256 : bytes -> bytes).

(** The 16-bit word at position [i]. *)
Definition word (b : bytes) (i : nat) : Z := of_be16 (nth i b 0) (nth (S i) b 0).

(** A query with recursion desired, with questions and without answers or authority. *)
Definition standard_query (q : bytes) : bool :=
  bool_decide (12 <= len q /\ Z.land (word q 2) 32768 = 0 /\ Z.land (word q 2) 256 <> 0 /\
               word q 4 <> 0 /\ word q 6 <= 0 /\ word q 8 <= 0).

Definition known (cfg : ServerConfig) (q : ParsedQuestion) : bool :=
  bool_decide (is_Some (findHostConfig cfg (normalizeHost (q_Name q)))).
Definition denied (cfg : ServerConfig) (q : ParsedQuestion) : bool :=
  bool_decide (EvaluateDomain (q_Name q) (cfg_Firewall cfg) = DENY).
Definition local_answers (cfg : ServerConfig) (q : ParsedQuestion) : list bytes :=
  match findHostConfig cfg (normalizeHost (q_Name q)) with
  | None => []
  | Some h => map enc_single_answer (filter (fun r => toTypeNumber (rec_Type r) = q_Type q) (hc_Records h))
  end.

Inductive decision : Type := Answered (answers : list bytes) | NoData | Refused | NxDomain | Forwarded.

Definition decide_questions (cfg : ServerConfig) (qs : list ParsedQuestion) : decision :=
  if decide (qs = []) then NxDomain
  else if existsb (known cfg) qs then
    match flat_map (local_answers cfg) qs with [] => NoData | a => Answered a end
  else if existsb (denied cfg) qs then Refused
  else if decide (cfg_FallbackDns cfg = []) then NxDomain
  else Forwarded.

Definition reply (query : bytes) (qs : list ParsedQuestion) (d : decision) : option bytes :=
  let packet := enc_response (word query 0) (word query 2) in
  match d with
  | Answered a => Some (packet DnsRcodeNoError qs a)
  | NoData => Some (packet DnsRcodeNoError qs [])
  | Refused => Some (packet DnsRcodeRefused qs [])
  | NxDomain => Some (packet DnsRcodeNxDomain qs [])
  | Forwarded => None
  end.

Lemma get_uint16_word b o i : o = Z.of_nat i -> o + 2 <= len b -> get_uint16 b o = Ret (word b i).
Proof.
  intros -> H. unfold get_uint16, word. rewrite decide_True by lia. do 2 f_equal; f_equal; lia.
Qed.

Lemma matchQuestions_spec cfg qs answers hm au :
  matchQuestions cfg qs answers hm au =
  Ret (answers ++ flat_map (local_answers cfg) qs,
       hm || bool_decide (flat_map (local_answers cfg) qs <> []),
       au && negb (existsb (known cfg) qs)).
Proof.
  revert answers hm au. induction qs as [|q qs IH]; intros answers hm au; cbn [matchQuestions flat_map existsb].
  { by rewrite app_nil_r, orb_false_r, andb_true_r. }
  assert (known cfg q = bool_decide (is_Some (findHostConfig cfg (normalizeHost (q_Name q))))) as -> by done.
  assert (local_answers cfg q = match findHostConfig cfg (normalizeHost (q_Name q)) with None => []
    | Some h => map enc_single_answer (filter (fun r => toTypeNumber (rec_Type r) = q_Type q) (hc_Records h)) end) as -> by done.
  destruct (findHostConfig cfg (normalizeHost (q_Name q))) as [h|].
  - rewrite buildAnswers_enc, bind_Ret. rewrite (bool_decide_eq_true_2 (is_Some (Some h))) by done.
    cbn [orb negb]. rewrite andb_false_r.
    set (a := map enc_single_answer _). case_decide as Hl; rewrite IH.
    + rewrite <- app_assoc, orb_true_l. cbn [andb]. rewrite (bool_decide_eq_true_2 (a ++ _ <> [])); [by rewrite orb_true_r|].
      destruct a; [unfold len in Hl; simpl in Hl; lia|done].
    + assert (a = []) as -> by (destruct a; [done|unfold len in Hl; simpl in Hl; lia]). done.
  - rewrite IH. rewrite (bool_decide_eq_false_2 (is_Some None)) by (by intros [? ?]). done.
Qed.

Lemma local_answers_known cfg qs : flat_map (local_answers cfg) qs <> [] -> existsb (known cfg) qs = true.
Proof.
  induction qs as [|q qs IH]; [done|]. cbn [flat_map existsb]. unfold local_answers at 1, known at 1.
  destruct (findHostConfig cfg _); [by rewrite bool_decide_eq_true_2 by done|]. intros H. apply orb_true_iff. right. by apply IH.
Qed.

Lemma GenerateErrorResponse_enc query rcode qs :
  12 <= len query -> ExtractQuestions query = Ret qs ->
  GenerateErrorResponse query rcode = Ret (Some (enc_response (word query 0) (word query 2) rcode qs [])).
Proof.
  intros Hl Hq. unfold GenerateErrorResponse. rewrite decide_False by lia.
  rewrite (get_uint16_word query 0 0), bind_Ret by lia. rewrite (get_uint16_word query 2 2), bind_Ret by lia.
  by rewrite Hq, bind_Ret, BuildResponsePacket_enc, bind_Ret.
Qed.

Lemma toTypeNumber_range t : 0 <= toTypeNumber t < 65536.
Proof. unfold toTypeNumber. repeat case_decide; by vm_compute. Qed.

Lemma single_answer_ok r : bytes_ok (rdata_of r) -> bytes_ok (enc_single_answer r).
Proof. intros H. unfold enc_single_answer. rewrite !Forall_app. split_and!; try done; try apply be16_ok; apply be32_ok. Qed.

(** The configured texts are byte strings. *)
Definition config_ok (cfg : ServerConfig) : Prop :=
  forall k h, cfg_Hosts cfg !! k = Some h -> Forall (fun r => bytes_ok (rdata_of r)) (hc_Records h).

Lemma findHostConfig_in cfg n h : findHostConfig cfg n = Some h -> exists k, cfg_Hosts cfg !! k = Some h.
Proof.
  unfold findHostConfig. assert (forall ls h, findWildcard (cfg_Hosts cfg) ls = Some h -> exists k, cfg_Hosts cfg !! k = Some h) as Hw.
  { clear. induction ls as [|l ls IH]; intros h Hh; [done|]. cbn [findWildcard] in Hh.
    destruct (cfg_Hosts cfg !! _) eqn:E; [simplify_eq; by eexists|by apply IH]. }
  destruct (findWildcard _ _) as [v|] eqn:E; [apply Hw in E|]; repeat case_match; intros; simplify_eq; eauto.
Qed.

Lemma local_answers_ok cfg qs : config_ok cfg -> Forall bytes_ok (flat_map (local_answers cfg) qs).
Proof.
  intros Hc. apply Forall_flat_map, Forall_true. intros q. unfold local_answers.
  destruct (findHostConfig _ _) as [h|] eqn:E; [|constructor]. apply findHostConfig_in in E as [k Hk].
  apply List.Forall_map, Forall_filter_1. eapply Forall_impl; [by eapply Hc|]. apply single_answer_ok.
Qed.

(** The questions a cached answer stands for were answered locally or allowed. *)
Definition answerable (cfg : ServerConfig) (qs : list ParsedQuestion) : Prop :=
  existsb (known cfg) qs = true \/ existsb (denied cfg) qs = false.

Definition stores (d : decision) : bool := match d with Answered _ | NoData | NxDomain => true | _ => false end.

Lemma decision_answerable cfg qs : qs <> [] -> stores (decide_questions cfg qs) = true -> answerable cfg qs.
Proof.
  intros Hne. unfold decide_questions, answerable. rewrite decide_False by done.
  destruct (existsb (known cfg) qs); [by left|]. destruct (existsb (denied cfg) qs); [done|by right].
Qed.

Lemma with_id_total query b : 2 <= len query -> 12 <= len b -> bytes_ok query -> bytes_ok b ->
  with_id query b = Ret (take 2 query ++ drop 2 b) /\ bytes_ok (take 2 query ++ drop 2 b).
Proof.
  intros Hq Hb Hqo Hbo. unfold with_id. rewrite decide_True by lia. rewrite !index_Ret by lia. rewrite !bind_Ret.
  rewrite decide_False by lia. split; [|by apply Forall_app_2; [apply Forall_take|apply Forall_drop]].
  destruct query as [|x [|y query]]; [by unfold len in Hq; simpl in Hq; lia..|]. done.
Qed.

(** The answer from a cache entry: its response with the remaining lifetime as TTL and
    the identifier of the query. *)
Definition from_entry (query : bytes) (e : CacheEntry) (rem : Z) (r : option bytes) : Prop :=
  exists b, rewriteResponseTtl (Response e) (uint32 (ttl_seconds rem)) = Ret b /\ r = Some (take 2 query ++ drop 2 b).

(** What a run of [Resolve] for the questions [qs] returns, the cache being [l] and [hit]
    its entry for them. *)
Definition outcome_ok (cfg : ServerConfig) (l : lru) (hit : option (CacheEntry * Z)) (query : bytes) (qs : list ParsedQuestion)
    (m : go (option bytes * DevDnsServer * list call)) : Prop :=
  exists r s' calls l', m = Ret (r, s', calls) /\ sv_cfg s' = cfg /\ represents (sv_cache s') l' /\
    (forall x, x ∈ l'.*1 -> x ∈ l.*1 \/
       (x = GenerateCacheKey sha256 qs /\ qs <> [] /\ stores (decide_questions cfg qs) = true)) /\
    match hit with
    | Some (e, rem) => from_entry query e rem r /\ forall b, r = Some b -> bytes_ok b
    | None => r = reply query qs (decide_questions cfg qs)
    end.

Section Miss.
Context (cfg : ServerConfig) (c : DnsCache) (l l0 : lru) (query : bytes) (ip : gostring) (qs : list ParsedQuestion) (t2 : Z).
Hypothesis Hrep : represents c l.
Hypothesis Hsub : forall x, x ∈ l.*1 -> x ∈ l0.*1.
Let d := decide_questions cfg qs.

Lemma outcome_plain calls :
  outcome_ok cfg l0 None query qs (Ret (reply query qs d, {| sv_cfg := cfg; sv_cache := c |}, calls)).
Proof.
  eexists _, _, _, l. split; [done|]. split; [done|]. split; [done|]. split; [|done].
  intros x Hx. left. by apply Hsub.
Qed.

Lemma outcome_store resp f :
  qs <> [] -> stores d = true -> reply query qs d = Some resp -> bytes_ok resp ->
  outcome_ok cfg l0 None query qs
    (c2 ← Put c t2 (GenerateCacheKey sha256 qs) resp;
     Ret (Some resp, {| sv_cfg := cfg; sv_cache := c2 |}, f c2)).
Proof.
  intros Hne Hst Hr Hro.
  destruct (Put_any c l t2 (GenerateCacheKey sha256 qs) resp Hrep Hro) as (c2 & l2 & -> & Hrep2 & Hsub2 & _).
  rewrite bind_Ret. eexists _, _, _, l2. split; [done|]. split; [done|]. split; [done|]. split; [|by fold d].
  intros x Hx. destruct (Hsub2 x Hx) as [Hx1|Hx1]; [left; by apply Hsub|right; by split_and!].
Qed.

Lemma resolveMiss_ok :
  12 <= len query -> config_ok cfg -> ExtractQuestions query = Ret qs -> Forall (fun q => bytes_ok (q_Name q)) qs ->
  outcome_ok cfg l0 None query qs (resolveMiss sha256 {| sv_cfg := cfg; sv_cache := c |} t2 query ip (word query 2) qs).
Proof.
  intros Hl Hcfg Eqs Hnames. unfold resolveMiss. cbn [sv_cfg sv_cache]. cbv zeta.
  pose proof outcome_plain as Hplain. pose proof outcome_store as Hstore. unfold d, decide_questions in Hplain, Hstore.
  destruct (decide (qs = [])) as [->|Hne].
  { rewrite decide_True by done. rewrite (GenerateErrorResponse_enc query _ []), bind_Ret by done. apply Hplain. }
  rewrite decide_False by (destruct qs; [done|unfold len; simpl; lia]).
  rewrite matchQuestions_spec, bind_Ret. cbn [app orb andb].
  assert (forall rcode a, Forall bytes_ok a -> bytes_ok (enc_response (word query 0) (word query 2) rcode qs a)) as Hok
    by (intros; by apply enc_response_ok).
  pose proof (local_answers_ok cfg qs Hcfg) as Hans. pose proof (local_answers_known cfg qs) as Hkn.
  fold (denied cfg). destruct (existsb (known cfg) qs) eqn:Ek.
  - cbn [negb]. rewrite andb_false_r. rewrite (get_uint16_word query 0 0), bind_Ret by lia.
    destruct (flat_map (local_answers cfg) qs) as [|a0 answers] eqn:Ea.
    + rewrite decide_False by done. cbn [negb]. unfold BuildNoErrorResponse. rewrite BuildResponsePacket_enc, bind_Ret.
      by apply (Hstore _ (fun _ => _)); auto.
    + rewrite decide_True by (unfold len; simpl; lia). rewrite BuildResponsePacket_enc, bind_Ret.
      destruct (ParseResolvedIpv4s_total _ (Hok DnsRcodeNoError (a0 :: answers) Hans)) as (ips & Ei).
      rewrite Ei. by apply (Hstore _ (fun _ => _)); auto.
  - destruct (decide (flat_map (local_answers cfg) qs <> [])) as [Hx|Hx]; [by specialize (Hkn Hx)|].
    rewrite bool_decide_eq_false_2 by done. cbn [negb andb].
    destruct (existsb (denied cfg) qs) eqn:Ed; cbn [negb].
    + rewrite (GenerateErrorResponse_enc query _ qs), bind_Ret by done. apply Hplain.
    + destruct (decide (cfg_FallbackDns cfg = [])); [|apply Hplain].
      rewrite (GenerateErrorResponse_enc query _ qs), bind_Ret by done. cbn [default].
      by apply (Hstore _ (fun _ => _)); auto.
Qed.

End Miss.

Lemma Resolve_cases s l t1 t2 query ip :
  bytes_ok query -> config_ok (sv_cfg s) -> represents (sv_cache s) l ->
  if standard_query query then
    exists qs, ExtractQuestions query = Ret qs /\
      outcome_ok (sv_cfg s) l (lru_hit (defaultTtl (sv_cache s)) t1 (GenerateCacheKey sha256 qs) l) query qs (Resolve sha256 s t1 t2 query ip)
  else Resolve sha256 s t1 t2 query ip = Ret (None, s, []).
Proof.
  intros Hq Hcfg Hrep. unfold Resolve, standard_query. destruct s as [cfg c]. cbn [sv_cfg sv_cache] in *. cbv zeta.
  case_decide as H12; [by rewrite bool_decide_eq_false_2 by lia|].
  rewrite (get_uint16_word query 2 2), bind_Ret by lia.
  case_decide; [by rewrite bool_decide_eq_false_2 by tauto|].
  case_decide; [by rewrite bool_decide_eq_false_2 by tauto|].
  rewrite (get_uint16_word query 4 4), bind_Ret by lia. rewrite (get_uint16_word query 6 6), bind_Ret by lia.
  rewrite (get_uint16_word query 8 8), bind_Ret by lia.
  case_decide; [by rewrite bool_decide_eq_false_2 by lia|].
  rewrite bool_decide_eq_true_2 by (split_and!; lia).
  destruct (ExtractQuestions_bounds query Hq) as (qs & Eqs & Hqn & Hqs). exists qs. rewrite Eqs, bind_Ret. split; [done|].
  destruct (Get_any c l t1 (GenerateCacheKey sha256 qs) Hrep) as (hit & c1 & l1 & -> & Hrep1 & Hsub & _ & _ & Hhit).
  rewrite bind_Ret. destruct (lru_hit _ _ _ _) as [[e rem]|].
  - destruct Hhit as (b & Hb & -> & Hbo & Hbl). rewrite (get_uint16_word b 2 2), bind_Ret by lia.
    destruct (ParseResolvedIpv4s_total b Hbo) as (ips & ->). rewrite bind_Ret.
    destruct (with_id_total query b) as (-> & Hro); [lia|lia|done..|]. rewrite bind_Ret.
    eexists _, _, _, l1. split; [done|]. split; [done|]. split; [done|].
    split; [intros x Hx; left; by apply Hsub|]. split; [by exists b|]. by intros ? [= <-].
  - subst hit. apply (resolveMiss_ok cfg c1 l1 l); [done..|lia|done|done|]. eapply Forall_impl; [done|]. naive_solver.
Qed.

(** C2: [Resolve] on every query, whatever its bytes and the state of the cache: it
    returns without a panic.  A message that is not a standard query is left to the
    caller.  If the cache has a live entry for the questions, the result is the response
    of that entry, of the same length and with the same header, but with the identifier of
    this query; if it is a well-formed response, it is the same to the last byte but for the
    TTL of every answer, which is the remaining lifetime of the entry.  Otherwise it is what the configuration decides: the
    records of known hosts, an empty answer when a host is known without such a record,
    REFUSED when no host is known and the firewall denies a name, NXDOMAIN without an
    upstream, and nil (to be forwarded) with one. *)
Theorem Resolve_decides s l t1 t2 query ip :
  bytes_ok query -> config_ok (sv_cfg s) -> represents (sv_cache s) l ->
  exists r s' calls, Resolve sha256 s t1 t2 query ip = Ret (r, s', calls) /\ sv_cfg s' = sv_cfg s /\
    (exists l', represents (sv_cache s') l') /\
    if standard_query query then
      exists qs, ExtractQuestions query = Ret qs /\
        match lru_hit (defaultTtl (sv_cache s)) t1 (GenerateCacheKey sha256 qs) l with
        | None => r = reply query qs (decide_questions (sv_cfg s) qs)
        | Some (e, rem) =>
            exists b, r = Some (take 2 query ++ drop 2 b) /\ length b = length (Response e) /\ take 12 b = take 12 (Response e) /\
              forall p, wire_response_ok p -> Response e = enc_wire_response p ->
                b = enc_wire_response {| wp_head := wp_head p; wp_counts := wp_counts p; wp_questions := wp_questions p;
                                         wp_answers := map (set_ttl (uint32 (ttl_seconds rem))) (wp_answers p); wp_rest := wp_rest p |}
        end
    else r = None.
Proof.
  intros Hq Hcfg Hrep. pose proof (Resolve_cases s l t1 t2 query ip Hq Hcfg Hrep) as H.
  destruct (standard_query query).
  - destruct H as (qs & Eqs & r & s' & calls & l' & -> & Hc & Hr & _ & Hres). exists r, s', calls.
    split; [done|]. split; [done|]. split; [by eexists|]. exists qs. split; [done|].
    destruct (lru_hit _ _ _ _) as [[e rem]|] eqn:Eh; [|done]. destruct Hres as [(b & Hb & ->) _]. exists b. split; [done|].
    apply lru_hit_elem in Eh as [Ef _]. destruct (lru_find_ok _ _ _ _ Hrep Ef) as [Hok _].
    destruct (rewriteResponseTtl_total (Response e) (uint32 (ttl_seconds rem)) Hok) as (b' & Hb' & Hl & Ht). rewrite Hb in Hb'. simplify_eq.
    split; [done|]. split; [done|]. intros p Hp Ep. rewrite Ep, rewriteResponseTtl_enc in Hb by done. by simplify_eq.
  - rewrite H. eexists _, _, _. split; [done|]. split; [done|]. split; [by eexists|done].
Qed.

Lemma question_ok_extract query qs :
  bytes_ok query -> ExtractQuestions query = Ret qs -> Forall question_ok qs.
Proof.
  intros Hq E. destruct (ExtractQuestions_bounds query Hq) as (qs' & E' & _ & H). rewrite E in E'. simplify_eq.
  eapply Forall_impl; [done|]. intros q (_ & ? & [? _] & _). by split.
Qed.

Lemma asked_same cfg ps qs : map asked ps = map asked qs ->
  existsb (known cfg) ps = existsb (known cfg) qs /\ existsb (denied cfg) ps = existsb (denied cfg) qs.
Proof.
  revert qs. induction ps as [|p ps IH]; intros [|q qs] E; try done. simpl in *. injection E as E1 E2 E3.
  destruct (IH qs E3) as [-> ->]. unfold known, denied. by rewrite E1.
Qed.

(** A history of queries, with their clock readings and sources. *)
Record request := { rq_t1 : Z; rq_t2 : Z; rq_query : bytes; rq_ip : gostring }.
Fixpoint serve (s : DevDnsServer) (hist : list request) : go DevDnsServer :=
  match hist with
  | [] => Ret s
  | r :: hist => '(_, s, _) ← Resolve sha256 s (rq_t1 r) (rq_t2 r) (rq_query r) (rq_ip r); serve s hist
  end.

(** Every cached key stands for questions of an earlier query, which were known or
    allowed. *)
Definition cache_sound (cfg : ServerConfig) (hist : list request) (l : lru) : Prop :=
  forall x, x ∈ l.*1 -> exists r qs, r ∈ hist /\ ExtractQuestions (rq_query r) = Ret qs /\ x = GenerateCacheKey sha256 qs /\ Forall question_ok qs /\ answerable cfg qs.

Lemma Resolve_sound s l hist r :
  bytes_ok (rq_query r) -> config_ok (sv_cfg s) -> represents (sv_cache s) l -> cache_sound (sv_cfg s) hist l ->
  exists a s' calls l', Resolve sha256 s (rq_t1 r) (rq_t2 r) (rq_query r) (rq_ip r) = Ret (a, s', calls) /\ sv_cfg s' = sv_cfg s /\
    represents (sv_cache s') l' /\ cache_sound (sv_cfg s) (hist ++ [r]) l'.
Proof.
  intros Hq Hcfg Hrep Hsound. pose proof (Resolve_cases s l (rq_t1 r) (rq_t2 r) (rq_query r) (rq_ip r) Hq Hcfg Hrep) as H.
  assert (cache_sound (sv_cfg s) (hist ++ [r]) l) as Hmore.
  { intros x Hx. destruct (Hsound x Hx) as (r' & qs & Hin & ?). exists r', qs. split; [apply elem_of_app; by left|done]. }
  destruct (standard_query _); [|by eexists _, _, _, l].
  destruct H as (qs & E & a & s' & calls & l' & HR & Hc & Hr & Hkeys & _). exists a, s', calls, l'.
  split; [done|]. split; [done|]. split; [done|]. intros x Hx.
  destruct (Hkeys x Hx) as [Hx'|(-> & Hne & Hst)]; [by apply Hmore|].
  exists r, qs. split; [apply elem_of_app; right; apply list_elem_of_here|]. split; [done|]. split; [done|]. split; [by eapply question_ok_extract|by apply decision_answerable].
Qed.

Lemma serve_sound s l past hist :
  config_ok (sv_cfg s) -> represents (sv_cache s) l -> cache_sound (sv_cfg s) past l ->
  Forall (fun r => bytes_ok (rq_query r)) hist ->
  exists s' l', serve s hist = Ret s' /\ sv_cfg s' = sv_cfg s /\ represents (sv_cache s') l' /\ cache_sound (sv_cfg s) (past ++ hist) l'.
Proof.
  intros Hcfg Hrep Hsound Hh. revert s l past Hcfg Hrep Hsound. induction Hh as [|r hist Hr Hh IH]; intros s l past Hcfg Hrep Hsound.
  { exists s, l. by rewrite app_nil_r. }
  cbn [serve]. destruct (Resolve_sound s l past r Hr Hcfg Hrep Hsound) as (x & s1 & calls & l1 & -> & Hc & Hrep1 & Hs1). rewrite bind_Ret.
  rewrite <- Hc in Hcfg, Hs1. destruct (IH s1 l1 _ Hcfg Hrep1 Hs1) as (s2 & l2 & ? & ? & ? & Hs2). exists s2, l2.
  rewrite <- app_assoc in Hs2. rewrite <- Hc. split_and!; done.
Qed.

(** C4: A blocked name is never let through: after any history of queries to a fresh
    server, a standard query in which the firewall denies some name and no name is
    configured locally is answered REFUSED (neither forwarded nor served from the
    cache).  The only way out is that the text of this query's cache key and that of an
    earlier query of the history, different from it, have the same hash. *)
Theorem blocked_names_refused cfg hist s t1 t2 query ip qs :
  config_ok cfg -> (forall b, bytes_ok (sha256 b)) -> Forall (fun r => bytes_ok (rq_query r)) hist ->
  serve (NewDevDnsServer cfg) hist = Ret s ->
  bytes_ok query -> standard_query query = true -> ExtractQuestions query = Ret qs ->
  existsb (denied cfg) qs = true -> existsb (known cfg) qs = false ->
  (exists s' calls, Resolve sha256 s t1 t2 query ip =
     Ret (Some (enc_response (word query 0) (word query 2) DnsRcodeRefused qs []), s', calls)) \/
  (exists r ps, r ∈ hist /\ ExtractQuestions (rq_query r) = Ret ps /\ rawKey ps <> rawKey qs /\ sha256 (rawKey ps) = sha256 (rawKey qs)).
Proof.
  intros Hcfg Hsha Hhist Hserve Hq Hstd Eqs Hden Hkn.
  destruct (serve_sound (NewDevDnsServer cfg) [] [] hist) as (s0 & l & E & Hc & Hrep & Hsound);
    [done|apply new_represents|by intros x Hx%elem_of_nil|done|]. rewrite Hserve in E. simplify_eq.
  simpl in Hc, Hsound. rewrite <- Hc in Hcfg, Hden, Hkn.
  pose proof (Resolve_cases s0 l t1 t2 query ip Hq Hcfg Hrep) as H. rewrite Hstd in H.
  destruct H as (qs' & E & r & s' & calls & l' & HR & _ & _ & _ & Hres). rewrite Eqs in E. simplify_eq.
  assert (Hqo : Forall question_ok qs') by by eapply question_ok_extract.
  destruct (lru_hit _ _ _ _) as [[e rem]|] eqn:Eh.
  - apply lru_hit_elem in Eh as [_ Hin]. destruct (Hsound _ Hin) as (r0 & ps & Hr0 & Eps & Ek & Hps & Hans).
    apply HexEncode_inj in Ek; [|done..].
    destruct (decide (rawKey ps = rawKey qs')) as [Er|Er]; [|right; by exists r0, ps].
    apply rawKey_inj in Er; [|done..]. apply (asked_same (sv_cfg s0)) in Er as [E1 E2].
    destruct Hans; congruence.
  - left. exists s', calls. rewrite HR, Hres. do 4 f_equal.
    unfold decide_questions. rewrite decide_False by (by intros ->). by rewrite Hkn, Hden.
Qed.

End Decision.

Definition demo_firewall : FirewallConfig :=
  {| fw_DefaultPolicy := gs "allow"; fw_AllowlistDomains := []; fw_BlocklistDomains := [gs "*.bad"];
     fw_AllowlistRanges := []; fw_BlocklistRanges := []; fw_AllowlistIps := []; fw_BlocklistIps := [] |}.
Definition demo_record : DnsRecord :=
  {| rec_Type := gs "A"; rec_Address := gs "10.0.0.5"; rec_Target := []; rec_Data := []; rec_Priority := None;
     rec_Exchange := []; rec_Weight := None; rec_Port := None |}.
Definition demo_config : ServerConfig :=
  {| cfg_Port := 53; cfg_HttpPort := None; cfg_HttpsPort := None; cfg_Tls := None; cfg_DotPort := None;
     cfg_DohPort := None; cfg_FallbackDns := gs "9.9.9.9"; cfg_Firewall := Some demo_firewall;
     cfg_ControlPlane := None; cfg_DnsCacheMaxSize := 16; cfg_DnsCacheTtlMs := 60000; cfg_MaxTcpConnections := 0;
     cfg_TcpIdleTimeoutMs := 0; cfg_RateLimitMaxRequests := 0; cfg_RateLimitWindowMs := 0;
     cfg_UpstreamHttpProxy := []; cfg_UpstreamHttpsProxy := []; cfg_UpstreamNoProxy := [];
     cfg_Hosts := {[ gs "ok.test" := {| hc_Records := [demo_record]; hc_HttpProxy := None; hc_TlsProxy := None; hc_Redirect := None |} ]} |}.
Definition demo_query (name : gostring) : bytes := [0; 9; 1; 0; 0; 1; 0; 0; 0; 0; 0; 0] ++ enc_question name 1 1.

Lemma demo_config_ok : config_ok demo_config.
Proof.
  intros k h H. simpl in H. apply lookup_singleton_Some in H as [<- <-]. simpl.
  constructor; [|constructor]. by apply (bool_decide_eq_true_1 _).
Qed.

Definition demo_sha (b : bytes) : bytes := map uint8 b.
Lemma demo_sha_ok b : bytes_ok (demo_sha b).
Proof. apply List.Forall_map, Forall_true. intros. apply uint8_byte. Qed.

Lemma Resolve_decides_witness :
  exists r s' calls, Resolve (U := ascii_unicode) demo_sha (NewDevDnsServer demo_config) 1 2 (demo_query (gs "ok.test")) (gs "10.0.0.9")
    = Ret (r, s', calls).
Proof.
  destruct (Resolve_decides (U := ascii_unicode) demo_sha (NewDevDnsServer demo_config) [] 1 2 (demo_query (gs "ok.test")) (gs "10.0.0.9"))
    as (r & s' & calls & H & _).
  - by apply (bool_decide_eq_true_1 _).
  - apply demo_config_ok.
  - apply new_represents.
  - by exists r, s', calls.
Defined.

Lemma blocked_names_refused_witness :
  let query := demo_query (gs "x.bad") in
  (exists s' calls, Resolve (U := ascii_unicode) demo_sha (NewDevDnsServer demo_config) 1 2 query (gs "10.0.0.9") =
     Ret (Some (enc_response (word query 0) (word query 2) DnsRcodeRefused
            [{| q_Name := gs "x.bad"; q_Type := 1; q_NextOffset := 23 |}] []), s', calls)) \/
  (exists r ps, r ∈ ([] : list request) /\ ExtractQuestions (rq_query r) = Ret ps /\ rawKey ps <> rawKey [{| q_Name := gs "x.bad"; q_Type := 1; q_NextOffset := 23 |}] /\
     demo_sha (rawKey ps) = demo_sha (rawKey [{| q_Name := gs "x.bad"; q_Type := 1; q_NextOffset := 23 |}])).
Proof.
  apply (blocked_names_refused (U := ascii_unicode) demo_sha demo_config [] (NewDevDnsServer demo_config) 1 2 (demo_query (gs "x.bad")) (gs "10.0.0.9")
    [{| q_Name := gs "x.bad"; q_Type := 1; q_NextOffset := 23 |}]).
  - apply demo_config_ok.
  - apply demo_sha_ok.
  - constructor.
  - reflexivity.
  - by apply (bool_decide_eq_true_1 _).
  - vm_compute. reflexivity.
  - vm_compute. reflexivity.
  - vm_compute. reflexivity.
  - vm_compute. reflexivity.
Defined.
