(* ===== verification/Secrets.v ===== *)
(** * Stored secrets ([pkg/crypto/crypto.go])

    The [v1:nonce:tag:ciphertext] format, the choice of the master key, and key
    derivation.  AES-GCM, SHA-256 and HMAC are the class [Aead] with the laws of an
    authenticated cipher; randomness, the environment and the key file are
    arguments. *)
From S2P Require Import Prelude GoStrings.

Class Aead := {
  sha256 : bytes -> bytes;
  hmac : bytes -> bytes -> bytes;                      (* key, message *)
  Seal : bytes -> bytes -> bytes -> bytes;             (* key, nonce, plaintext *)
  Open : bytes -> bytes -> bytes -> option bytes;      (* key, nonce, sealed *)
  (* AES-256 in GCM: a key of 32 bytes and a nonce of 12 *)
  Seal_length : forall k n p, length k = 32%nat -> length n = 12%nat -> length (Seal k n p) = (length p + 16)%nat;
  Seal_bytes : forall k n p, length k = 32%nat -> length n = 12%nat -> bytes_ok p -> bytes_ok (Seal k n p);
  Open_Seal : forall k n p, length k = 32%nat -> length n = 12%nat -> Open k n (Seal k n p) = Some p;
  hmac_length : forall k m, length (hmac k m) = 32%nat;
}.

(** ** The master key *)

Record KeyEnv := {
  ke_env : gostring;              (* OTTERGATE_MASTER_KEY, empty when unset *)
  ke_file : option gostring;      (* the key file, trimmed; [None] when it cannot be read *)
  ke_generated : option bytes;    (* 32 random bytes; [None] when reading them fails *)
  ke_fallback : bytes;            (* what the second read of random bytes leaves *)
  ke_writable : bool;             (* the directory can be made and the file written *)
}.

Section Keys.
Context {AE : Aead}.

(** The key and what is written to the key file; [sync.Once] makes it the only call. *)
Definition getMasterKey (e : KeyEnv) : bytes * option gostring :=
  if decide (ke_env e <> []) then (sha256 (ke_env e), None)
  else
    let generate :=
      match ke_generated e with
      | None => (ke_fallback e, None)
      | Some generated =>
          let genHex := HexEncode generated in
          if ke_writable e then (sha256 genHex, Some genHex) else (ke_fallback e, None)
      end in
    match ke_file e with
    | Some trimmed => if decide (len trimmed >= 32) then (sha256 trimmed, None) else generate
    | None => generate
    end.

(** ** Encryption *)

Definition IsEncrypted (value : gostring) : bool :=
  match Split value colon with
  | [p0; p1; p2; _] => bool_decide (p0 = gs "v1") && bool_decide (len p1 = 24 /\ len p2 = 32)
  | _ => false
  end.

(** The form, written out. *)
Definition encrypted_form (value : gostring) : Prop :=
  exists a b c, value = gs "v1:" ++ a ++ gs ":" ++ b ++ gs ":" ++ c /\ len a = 24 /\ len b = 32 /\ (colon ∉ a) /\ (colon ∉ b) /\ (colon ∉ c).

(** [nonce]: twelve random bytes, or [None] when reading them fails. *)
Definition EncryptSecret (key : bytes) (nonce : option bytes) (plaintext : gostring) : option gostring :=
  if IsEncrypted plaintext then Some plaintext
  else
    nonce ← nonce;
    let sealed := Seal key nonce plaintext in
    let ciphertext := take (length sealed - 16) sealed in
    let tag := drop (length sealed - 16) sealed in
    Some (gs "v1:" ++ HexEncode nonce ++ gs ":" ++ HexEncode tag ++ gs ":" ++ HexEncode ciphertext).

(** [gcm.Open] panics on a nonce of the wrong size. *)
Definition gcmOpen (key nonce sealed : bytes) : go (option bytes) :=
  if decide (len nonce = 12) then Ret (Open key nonce sealed) else Panic.

(** [None] is the error result. *)
Definition DecryptSecret (key : bytes) (encrypted : gostring) : go (option gostring) :=
  if negb (IsEncrypted encrypted) then Ret (Some encrypted)
  else
    match Split encrypted colon with
    | [_; p1; p2; p3] =>
        match HexDecode p1, HexDecode p2, HexDecode p3 with
        | Some nonce, Some tag, Some ciphertext => gcmOpen key nonce (ciphertext ++ tag)
        | _, _, _ => Ret None
        end
    | _ => Panic
    end.

(** ** Key derivation *)

(** One round per step of the loop [for len(okm) < length]. *)
Fixpoint hkdfLoop (fuel : nat) (prk info t okm : bytes) (counter length : Z) : go bytes :=
  if decide (len okm < length) then
    match fuel with
    | O => Hang
    | S fuel =>
        let t := hmac prk (t ++ info ++ [counter]) in
        hkdfLoop fuel prk info t (okm ++ t) (uint8 (counter + 1)) length
    end
  else slice okm 0 length.

Definition HKDF (salt ikm info : bytes) (length : Z) : go bytes :=
  if decide (length < 0) then Panic
  else
    let salt := if decide (len salt = 0) then replicate 32 0 else salt in
    hkdfLoop (Z.to_nat length) (hmac salt ikm) info [] [] 1 length.

(** ** Lemmas *)

Lemma HexEncode_no_colon b : bytes_ok b -> colon ∉ HexEncode b.
Proof.
  intros Hb Hin. pose proof (HexEncode_chars b Hb) as H. rewrite Forall_forall in H. specialize (H colon Hin). lia.
Qed.

Lemma v1_parts (a b c : gostring) :
  colon ∉ a -> colon ∉ b -> colon ∉ c ->
  Split (gs "v1:" ++ a ++ gs ":" ++ b ++ gs ":" ++ c) colon = [gs "v1"; a; b; c].
Proof.
  intros Ha Hb Hc. change (gs "v1:") with (gs "v1" ++ [colon]). change (gs ":") with [colon]. rewrite <- app_assoc. cbn [app].
  rewrite Split_app by (by apply (bool_decide_eq_true_1 _)). rewrite Split_app by done. rewrite Split_app by done. by rewrite Split_one.
Qed.

Lemma IsEncrypted_form value : IsEncrypted value = true <-> encrypted_form value.
Proof.
  unfold IsEncrypted. split.
  - pose proof (Join_Split value colon) as Hj. pose proof (Split_no_sep value colon) as Hn. destruct (Split value colon) as [|p0 [|p1 [|p2 [|p3 [|]]]]]; try done.
    rewrite andb_true_iff, !bool_decide_eq_true. intros [-> [Ha Hb]]. exists p1, p2, p3. split; [by rewrite <- Hj|]. rewrite !Forall_cons in Hn. tauto.
  - intros (a & b & c & -> & Ha & Hb & H1 & H2 & H3). rewrite v1_parts by done. by rewrite !bool_decide_eq_true_2.
Qed.

Section Sealed.
Context (key nonce : bytes) (p : gostring).
Hypothesis Hk : length key = 32%nat.
Hypothesis Hn : bytes_ok nonce.
Hypothesis Hl : length nonce = 12%nat.
Hypothesis Hp : bytes_ok p.
Hypothesis Hnew : IsEncrypted p = false.
Let sealed := Seal key nonce p.
Let ciphertext := take (length sealed - 16) sealed.
Let tag := drop (length sealed - 16) sealed.
Let text := gs "v1:" ++ HexEncode nonce ++ gs ":" ++ HexEncode tag ++ gs ":" ++ HexEncode ciphertext.

Lemma sealed_ok : bytes_ok tag /\ bytes_ok ciphertext.
Proof. pose proof (Seal_bytes key nonce p Hk Hl Hp). split; [by apply Forall_drop|by apply Forall_take]. Qed.

Lemma text_parts : Split text colon = [gs "v1"; HexEncode nonce; HexEncode tag; HexEncode ciphertext].
Proof. destruct sealed_ok. apply v1_parts; by apply HexEncode_no_colon. Qed.

Lemma encrypt_text : EncryptSecret key (Some nonce) p = Some text.
Proof. unfold EncryptSecret. by rewrite Hnew. Qed.

Lemma text_encrypted : IsEncrypted text = true.
Proof.
  unfold IsEncrypted. rewrite text_parts. apply andb_true_iff. rewrite !bool_decide_eq_true. split; [done|].
  unfold len. rewrite !HexEncode_length, Hl. unfold tag. rewrite length_drop. unfold sealed. rewrite Seal_length by done. lia.
Qed.

Lemma decrypt_text : DecryptSecret key text = Ret (Some p).
Proof.
  destruct sealed_ok. unfold DecryptSecret. rewrite text_encrypted, text_parts. cbn [negb]. rewrite !HexDecode_Encode by done.
  unfold gcmOpen. rewrite decide_True by (unfold len; lia). unfold ciphertext, tag. rewrite take_drop. unfold sealed. by rewrite Open_Seal by done.
Qed.
End Sealed.

(** A secret survives storage: encrypted under a key and a fresh nonce it is
    recognised as encrypted, is decrypted under the same key to the original, and is
    not encrypted a second time.  (A text that already has the encrypted form is
    excluded.) *)
Theorem EncryptSecret_roundtrip key nonce p :
  length key = 32%nat -> bytes_ok nonce -> length nonce = 12%nat -> bytes_ok p -> IsEncrypted p = false ->
  exists e, EncryptSecret key (Some nonce) p = Some e /\ IsEncrypted e = true /\ DecryptSecret key e = Ret (Some p) /\
    forall key' nonce', EncryptSecret key' nonce' e = Some e.
Proof.
  intros Hk Hn Hl Hp Hnew. eexists. split; [by apply encrypt_text|]. split; [by apply text_encrypted|]. split; [by apply decrypt_text|].
  intros. unfold EncryptSecret at 1. by rewrite text_encrypted.
Qed.

Lemma HexDecode_length : forall s b, HexDecode s = Some b -> length s = (2 * length b)%nat.
Proof.
  fix IH 1. intros [|x [|y s]] b H; cbn [HexDecode] in H; [by simplify_eq|done|].
  destruct (from_hex_char x); [|done]. destruct (from_hex_char y); [|done]. simpl in H.
  destruct (HexDecode s) as [r|] eqn:E; simpl in H; [|done]. injection H as <-. cbn [length]. pose proof (IH s r E). lia.
Qed.

(** Decryption never panics, whatever the stored text: a text without the encrypted
    form is returned as it is, and with that form the nonce has the size the cipher
    demands, so that the result is a plaintext or an error. *)
Theorem DecryptSecret_total key s :
  exists r, DecryptSecret key s = Ret r /\ (IsEncrypted s = false -> r = Some s).
Proof.
  unfold DecryptSecret. destruct (IsEncrypted s) eqn:E; cbn [negb]; [|by eexists].
  unfold IsEncrypted in E. destruct (Split s colon) as [|p0 [|p1 [|p2 [|p3 [|]]]]]; try done.
  apply andb_true_iff in E as [_ [H1 _]%bool_decide_eq_true].
  destruct (HexDecode p1) as [nonce|] eqn:En; [|by eexists]. destruct (HexDecode p2); [|by eexists]. destruct (HexDecode p3); [|by eexists].
  apply HexDecode_length in En. unfold gcmOpen. rewrite decide_True by (unfold len in *; lia). by eexists.
Qed.

(** RFC 5869, section 2.3: [T(i) = HMAC(PRK, T(i-1) | info | i)]. *)
Fixpoint hkdf_blocks (prk info t : bytes) (i : Z) (n : nat) : bytes :=
  match n with
  | O => []
  | S n => let t := hmac prk (t ++ info ++ [i]) in t ++ hkdf_blocks prk info t (i + 1) n
  end.

Lemma hkdf_blocks_length prk info n : forall t i, length (hkdf_blocks prk info t i n) = (32 * n)%nat.
Proof. induction n as [|n IH]; intros t i; cbn [hkdf_blocks]; [done|]. rewrite length_app, hmac_length, IH. lia. Qed.

Lemma hkdfLoop_blocks prk info L n : forall fuel t okm i,
  (n <= fuel)%nat -> L <= len okm + 32 * Z.of_nat n -> (n <> 0%nat -> len okm + 32 * (Z.of_nat n - 1) < L) ->
  1 <= i -> i + Z.of_nat n <= 256 -> 0 <= L ->
  hkdfLoop fuel prk info t okm i L = slice (okm ++ hkdf_blocks prk info t i n) 0 L.
Proof.
  induction n as [|n IH]; intros fuel t okm i Hf Hu Hlo Hi Hw HL.
  - rewrite app_nil_r. destruct fuel; cbn [hkdfLoop]; by rewrite decide_False by lia.
  - destruct fuel as [|fuel]; [lia|]. cbn [hkdfLoop hkdf_blocks]. rewrite decide_True by lia. cbv zeta.
    destruct (decide (n = 0%nat)) as [->|Hn0].
    + destruct fuel; cbn [hkdfLoop hkdf_blocks]; rewrite app_nil_r, decide_False by (rewrite len_app; unfold len; rewrite hmac_length; unfold len in *; lia); done.
    + unfold uint8. rewrite Z.mod_small by lia. rewrite IH by (try lia; rewrite len_app; unfold len at 2; rewrite hmac_length; lia).
      by rewrite <- app_assoc.
Qed.

(** Key derivation terminates and is HKDF as RFC 5869 defines it, for every length
    that the standard allows (255 blocks of 32 bytes): the first [length] bytes of the
    blocks [T(1), T(2), ...] under the extracted key. *)
Theorem HKDF_rfc5869 salt ikm info L :
  0 <= L <= 8160 ->
  let prk := hmac (if decide (len salt = 0) then replicate 32 0 else salt) ikm in
  exists okm, HKDF salt ikm info L = Ret okm /\ len okm = L /\
    okm = take (Z.to_nat L) (hkdf_blocks prk info [] 1 (Z.to_nat ((L + 31) / 32))).
Proof.
  intros HL prk. set (n := Z.to_nat ((L + 31) / 32)). unfold HKDF. rewrite decide_False by lia. cbv zeta. fold prk.
  assert (32 * (Z.of_nat n - 1) < L <= 32 * Z.of_nat n /\ (n <= Z.to_nat L)%nat /\ Z.of_nat n <= 255) as (Hn & Hf & H255) by (unfold n; Z.div_mod_to_equations; lia).
  rewrite (hkdfLoop_blocks prk info L n) by (try done; try lia; vm_compute (len []); lia). cbn [app].
  rewrite slice_Ret by (unfold len; rewrite ?hkdf_blocks_length; lia). rewrite drop_0, Z.sub_0_r. eexists. split; [done|]. split; [|done].
  unfold len. rewrite length_take, hkdf_blocks_length. lia.
Qed.

End Keys.

(** ** A toy instance for the demonstrations *)

(** The plaintext followed by sixteen zero bytes. *)
Definition toy_aead : Aead.
Proof.
  refine {| sha256 := fun b => b; hmac := fun k m => replicate 32 (uint8 (len m)); Seal := fun k n p => p ++ replicate 16 0;
            Open := fun k n c => Some (take (length c - 16) c) |}.
  - intros. by rewrite length_app, length_replicate.
  - intros k n p _ _ Hp. apply Forall_app. split; [done|]. by apply Forall_replicate.
  - intros k n p _ _. rewrite length_app, length_replicate. f_equal. rewrite Nat.add_sub. apply take_app_length.
  - intros. apply length_replicate.
Defined.

Definition demo_key : bytes := replicate 32 7.

Lemma EncryptSecret_roundtrip_witness :
  exists e, EncryptSecret (AE := toy_aead) demo_key (Some (replicate 12 3)) (gs "hello") = Some e /\
    DecryptSecret (AE := toy_aead) demo_key e = Ret (Some (gs "hello")).
Proof.
  destruct (EncryptSecret_roundtrip (AE := toy_aead) demo_key (replicate 12 3) (gs "hello")) as (e & H1 & _ & H2 & _);
    [reflexivity|by apply (bool_decide_eq_true_1 _)|reflexivity|by apply (bool_decide_eq_true_1 _)|vm_compute; reflexivity|].
  exists e. split; [exact H1|exact H2].
Defined.

Lemma HKDF_rfc5869_witness :
  exists okm, HKDF (AE := toy_aead) [1] [2] [3] 42 = Ret okm /\ len okm = 42.
Proof.
  destruct (HKDF_rfc5869 (AE := toy_aead) [1] [2] [3] 42) as (okm & H1 & H2 & _); [lia|]. exists okm. split; [exact H1|exact H2].
Defined.

(** A plaintext that happens to have the encrypted form is stored as it is, in the
    clear, and is lost: decryption returns an error. *)
Theorem lookalike_not_encrypted :
  let p := gs "v1:aaaaaaaaaaaaaaaaaaaaaaaa:bbbbbbbbbbbbbbbbbbbbbbbbbbbbbbbb:password!" in
  forall (AE : Aead) key nonce, EncryptSecret key nonce p = Some p /\ DecryptSecret key p = Ret None.
Proof. intros p AE key nonce. split; vm_compute; reflexivity. Qed.
