(* ===== verification/HttpProxy.v ===== *)
(** * The HTTP proxy ([pkg/proxy/http.go])

    Routing, the outbound policy, header filtering, loop tokens, the upstream proxy
    choice, the body limit and the mapping of errors to statuses.  The network is a
    set of functions ([Net]): name look-up, dialling, and the exchange of a request;
    the response writer is a value: what the handler hands to [net/http], which adds
    framing headers of its own ([Transfer-Encoding], [Connection], [Date]).  A panic,
    which [net/http] recovers, is the outcome [Panic], without the state it leaves.
    Listening and TLS hand-shakes are not modelled. *)
From S2P Require Import Prelude GoStrings NetIP Platform Config Firewall Circuit RateLimiter AuditLog Secrets.

(** ** Headers and the response writer *)

Abbreviation header := (gmap gostring (list gostring)).

(** A byte of an HTTP token. *)
Definition is_token (c : Z) : bool :=
  bool_decide (48 <= c <= 57 \/ 65 <= c <= 90 \/ 97 <= c <= 122 \/ c ∈ [33; 35; 36; 37; 38; 39; 42; 43; 45; 46; 94; 95; 96; 124; 126]).

Fixpoint canonicalLoop (upper : bool) (s : gostring) : gostring :=
  match s with
  | [] => []
  | c :: s => (if upper then ascii_upper c else ascii_lower c) :: canonicalLoop (bool_decide (c = 45)) s
  end.
(** [textproto.CanonicalMIMEHeaderKey] *)
Definition CanonicalKey (s : gostring) : gostring := if forallb is_token s then canonicalLoop true s else s.

Definition HeaderSet (k v : gostring) (h : header) : header := <[CanonicalKey k := [v]]> h.
Definition HeaderGet (k : gostring) (h : header) : gostring :=
  match h !! CanonicalKey k with Some (v :: _) => v | _ => [] end.

(** [w_Sent]: status and headers on the wire, fixed by the first [WriteHeader]. *)
Record Writer := { w_Header : header; w_Sent : option (Z * header); w_Body : bytes }.
Definition new_writer : Writer := {| w_Header := ∅; w_Sent := None; w_Body := [] |}.
Definition setHeader (k v : gostring) (w : Writer) : Writer :=
  {| w_Header := HeaderSet k v (w_Header w); w_Sent := w_Sent w; w_Body := w_Body w |}.
Definition WriteHeader (code : Z) (w : Writer) : Writer :=
  {| w_Header := w_Header w; w_Sent := match w_Sent w with Some x => Some x | None => Some (code, w_Header w) end; w_Body := w_Body w |}.
(** With a status that is no literal, before any other: [WriteHeader] panics outside 100
    to 999. *)
Definition writeStatus (code : Z) (w : Writer) : go Writer := if decide (100 <= code <= 999) then Ret (WriteHeader code w) else Panic.
Definition Write (b : bytes) (w : Writer) : Writer :=
  let w := WriteHeader 200 w in {| w_Header := w_Header w; w_Sent := w_Sent w; w_Body := w_Body w ++ b |}.

Definition hopByHopHeaders : list gostring :=
  [gs "connection"; gs "keep-alive"; gs "proxy-authenticate"; gs "proxy-authorization"; gs "te"; gs "trailer";
   gs "transfer-encoding"; gs "upgrade"].
Definition fingerprintHeadersToScrub : list gostring :=
  [gs "server"; gs "via"; gs "x-source"; gs "x-powered-by"; gs "x-generator"; gs "cf-ray"; gs "cf-cache-status"; gs "x-cache";
   gs "x-cache-lookup"; gs "x-drupal-cache"; gs "x-varnish"; gs "x-nextjs-cache"; gs "x-fastly-request-id"; gs "x-runtime";
   gs "x-version"; gs "x-impl"; gs "x-aspnet-version"; gs "x-aspnetmvc-version"; gs "microsoftofficewebserver";
   gs "x-powered-by-plesk"; gs "x-pingback"; gs "wp-super-cache"; gs "x-ghost-version"].

(** ** State *)

(** A buffered channel of connections. *)
Record VirtualListener := { vl_conns : list nat; vl_closed : bool }.
Definition NewVirtualListener : VirtualListener := {| vl_conns := []; vl_closed := false |}.
(** [None] while the channel is empty and open: the caller waits. *)
Definition vlAccept (v : VirtualListener) : option (option nat * VirtualListener) :=
  match vl_conns v with
  | c :: cs => Some (Some c, {| vl_conns := cs; vl_closed := vl_closed v |})
  | [] => if vl_closed v then Some (None, v) else None
  end.
Definition vlClose (v : VirtualListener) : VirtualListener := {| vl_conns := vl_conns v; vl_closed := true |}.
(** A send on a closed channel panics; [None] when the buffer of 1024 is full. *)
Definition vlSend (v : VirtualListener) (c : nat) : go (option VirtualListener) :=
  if vl_closed v then Panic
  else if decide (len (vl_conns v) >= 1024) then Ret None
  else Ret (Some {| vl_conns := vl_conns v ++ [c]; vl_closed := vl_closed v |}).

Record HttpHandler := {
  hh_cfg : ServerConfig;
  hh_port : Z;
  hh_idleTimeout : Z;
  hh_VirtualListener : VirtualListener;
  hh_circuitBreakers : gmap gostring ProxyCircuitBreaker;
  hh_activeConns : gset nat;
  hh_loopSecret : gostring;
  hh_stopped : bool;
}.

Definition NewHttpHandler (cfg : ServerConfig) (secretBytes : bytes) : HttpHandler :=
  {| hh_cfg := cfg; hh_port := default 80 (cfg_HttpPort cfg);
     hh_idleTimeout := if decide (cfg_TcpIdleTimeoutMs cfg > 0) then cfg_TcpIdleTimeoutMs cfg * millisecond else 30 * second;
     hh_VirtualListener := NewVirtualListener; hh_circuitBreakers := ∅; hh_activeConns := ∅;
     hh_loopSecret := HexEncode secretBytes; hh_stopped := false |}.

Definition httpUpdateConfig (h : HttpHandler) (newCfg : ServerConfig) : HttpHandler :=
  {| hh_cfg := newCfg; hh_port := default (hh_port h) (cfg_HttpPort newCfg);
     hh_idleTimeout := if decide (cfg_TcpIdleTimeoutMs newCfg > 0) then cfg_TcpIdleTimeoutMs newCfg * millisecond else hh_idleTimeout h;
     hh_VirtualListener := hh_VirtualListener h; hh_circuitBreakers := hh_circuitBreakers h; hh_activeConns := hh_activeConns h;
     hh_loopSecret := hh_loopSecret h; hh_stopped := hh_stopped h |}.

(** The sockets apart. *)
Definition httpStop (h : HttpHandler) : go HttpHandler :=
  if hh_stopped h then Panic
  else Ret {| hh_cfg := hh_cfg h; hh_port := hh_port h; hh_idleTimeout := hh_idleTimeout h;
              hh_VirtualListener := vlClose (hh_VirtualListener h); hh_circuitBreakers := hh_circuitBreakers h;
              hh_activeConns := hh_activeConns h; hh_loopSecret := hh_loopSecret h; hh_stopped := true |}.

(** The [ConnState] hook: [true] for [StateNew], [false] for [StateClosed]. *)
Definition connState (h : HttpHandler) (conn : nat) (new : bool) : HttpHandler :=
  {| hh_cfg := hh_cfg h; hh_port := hh_port h; hh_idleTimeout := hh_idleTimeout h; hh_VirtualListener := hh_VirtualListener h;
     hh_circuitBreakers := hh_circuitBreakers h;
     hh_activeConns := if new then {[conn]} ∪ hh_activeConns h else hh_activeConns h ∖ {[conn]};
     hh_loopSecret := hh_loopSecret h; hh_stopped := hh_stopped h |}.

Definition with_breakers (h : HttpHandler) (m : gmap gostring ProxyCircuitBreaker) : HttpHandler :=
  {| hh_cfg := hh_cfg h; hh_port := hh_port h; hh_idleTimeout := hh_idleTimeout h; hh_VirtualListener := hh_VirtualListener h;
     hh_circuitBreakers := m; hh_activeConns := hh_activeConns h; hh_loopSecret := hh_loopSecret h; hh_stopped := hh_stopped h |}.

(** ** Requests *)

(** [rq_Body]: [None] is a nil body; reading it gives the bytes and then the error,
    if any. *)
Record HttpRequest := {
  rq_ClientIp : gostring;
  rq_Method : gostring;
  rq_RequestURI : gostring;
  rq_Host : gostring;
  rq_Path : gostring;
  rq_RawQuery : gostring;
  rq_Header : header;
  rq_Body : option (bytes * option gostring);
  rq_ContentLength : Z;
}.

(** What is sent upstream, and through which connection. *)
Record UpRequest := {
  ur_Method : gostring;
  ur_Url : gostring;
  ur_Host : gostring;
  ur_Header : header;
  ur_Body : option bytes;
  ur_Proxy : option URL;
  ur_DialAddr : gostring;
  ur_ServerName : option gostring;
}.
(** [up_ReadErr]: the error other than EOF that ends the body. *)
Record UpResponse := { up_Status : Z; up_Header : header; up_Body : bytes; up_ReadErr : option gostring }.

Class Net := {
  LookupHost : gostring -> gostring + list gostring;
  ProxyFromEnvironment : URL -> gostring + option URL;
  readFile : gostring -> gostring + bytes;
  X509KeyPair : bytes -> bytes -> option gostring;           (* the error *)
  AppendCertsFromPEM : bytes -> bool;
  newRequestError : gostring -> gostring -> option gostring; (* method, URL text *)
  roundTrip : UpRequest -> gostring + UpResponse;
  dialDirect : gostring -> option gostring;                  (* the error *)
  dialProxy : gostring -> bytes -> gostring + bytes;         (* address, what is sent: error or the answer *)
}.

Section Http.
Context {U : Unicode} {UR : Url} {AE : Aead} {MR : MapRange} {NT : Net}.

(** At 10000 entries one is deleted first, whatever the host asked for; the first
    entry of the iteration.  The breaker that is returned is also in the table. *)
Definition getCircuitBreaker (h : HttpHandler) (upstreamHost : gostring) : ProxyCircuitBreaker * HttpHandler :=
  let m := hh_circuitBreakers h in
  let m := if decide (Z.of_nat (size m) >= 10000) then
             match range m with (k, _) :: _ => delete k m | [] => m end
           else m in
  match m !! upstreamHost with
  | Some cb => (cb, with_breakers h m)
  | None => let cb := NewProxyCircuitBreaker upstreamHost in (cb, with_breakers h (<[upstreamHost := cb]> m))
  end.

(** ** Loop tokens *)

Definition normalizeUrlPath (urlStr : gostring) : gostring := TrimSuffix urlStr (gs "?").
Definition loopMac (h : HttpHandler) (urlStr clientIp : gostring) (window : Z) : gostring :=
  HexEncode (hmac (hh_loopSecret h) (normalizeUrlPath urlStr ++ gs ":" ++ clientIp ++ gs ":" ++ fmt_d window)).
(** [now] in seconds. *)
Definition generateLoopToken (h : HttpHandler) (now : Z) (urlStr clientIp : gostring) : gostring :=
  loopMac h urlStr clientIp (Z.quot now 60).
Definition verifyLoopToken (h : HttpHandler) (now : Z) (token urlStr clientIp : gostring) : bool :=
  let window := Z.quot now 60 in
  bool_decide (token = loopMac h urlStr clientIp window) || bool_decide (token = loopMac h urlStr clientIp (window - 1)).

(** ** Names and the outbound policy *)

(** The loop of [findWildcardHost]: every suffix of at least two labels. *)
Fixpoint wildcardLoop (hosts : gmap gostring HostConfig) (labels : list gostring) : option HostConfig :=
  match labels with
  | [] => None
  | _ :: rest =>
      if decide (rest = []) then None
      else match hosts !! (gs "*." ++ Join labels (gs ".")) with
           | Some val => Some val
           | None => wildcardLoop hosts rest
           end
  end.
Definition findWildcardHost (cfg : ServerConfig) (hostname : gostring) : option HostConfig :=
  wildcardLoop (cfg_Hosts cfg) (Split (ToLower (TrimSuffix hostname (gs "."))) dot).

(** The section of a name: its own, or that of the first wildcard that covers it. *)
Definition hostSection (cfg : ServerConfig) (hostname : gostring) : option HostConfig :=
  match cfg_Hosts cfg !! ToLower (TrimSuffix hostname (gs ".")) with
  | Some hc => Some hc
  | None => findWildcardHost cfg hostname
  end.

Definition addressRecords (hc : HostConfig) : list gostring :=
  map rec_Address (filter (fun r => rec_Type r = gs "A" \/ rec_Type r = gs "AAAA") (hc_Records hc)).

Definition resolveHost (hostname : gostring) (cfg : ServerConfig) : gostring + list gostring :=
  match hostSection cfg hostname with
  | Some hc => let ips := addressRecords hc in if decide (len ips > 0) then inr ips else LookupHost hostname
  | None => LookupHost hostname
  end.

Fixpoint checkTargets (ips : list gostring) (fw : option FirewallConfig) : option gostring :=
  match ips with
  | [] => None
  | ip :: ips =>
      if decide (EvaluateOutbound ip fw = DENY) then Some (gs "Restricted IP: (" ++ ip ++ gs ")")
      else if decide (EvaluateIp ip fw = DENY) then Some (gs "IP Blocked: " ++ ip)
      else checkTargets ips fw
  end.

Definition validateTargetFirewall (targetUrl : gostring) (cfg : ServerConfig) : gostring + list gostring :=
  match url_Parse targetUrl with
  | inl e => inl e
  | inr parsed =>
      let host := Hostname parsed in
      let isLiteralIp := bool_decide (is_Some (ParseIP host)) in
      let fw := cfg_Firewall cfg in
      if bool_decide (fw <> None) && negb isLiteralIp && bool_decide (EvaluateDomain host fw = DENY) then
        inl (gs "Domain Blocked: '" ++ host ++ gs "'")
      else
        match (if isLiteralIp then inr [host] else resolveHost host cfg) with
        | inl _ => inl (gs "Resolution Fault: '" ++ host ++ gs "'")
        | inr targetIps =>
            if decide (len targetIps = 0) then inl (gs "NXDOMAIN: '" ++ host ++ gs "'")
            else match checkTargets targetIps fw with Some e => inl e | None => inr targetIps end
        end
  end.

(** [None] is the error result. *)
Definition sanitizeHeader (value : gostring) : option gostring :=
  if decide (len value > 8192) then None
  else if existsb (fun r => bool_decide (r = 13 \/ r = 10 \/ r = 9) || bool_decide (r < 32 \/ r = 127)) (runes value) then None
  else Some value.

(** ** The upstream proxy *)

Fixpoint noProxyMatch (hostname : gostring) (patterns : list gostring) : bool :=
  match patterns with
  | [] => false
  | pattern :: patterns =>
      let pattern := TrimSpace (ToLower pattern) in
      if decide (pattern = []) then noProxyMatch hostname patterns
      else if decide (pattern = gs "*") then true
      else if HasPrefix pattern (gs ".") then
        if HasSuffix hostname pattern || bool_decide (hostname = drop 1 pattern) then true else noProxyMatch hostname patterns
      else if bool_decide (hostname = pattern) || HasSuffix hostname (gs "." ++ pattern) then true
      else noProxyMatch hostname patterns
  end.

Definition getUpstreamProxy (h : HttpHandler) (targetUrl : URL) : gostring + option URL :=
  let cfg := hh_cfg h in
  let proxyStr := if decide (ToLower (u_Scheme targetUrl) = gs "https") then cfg_UpstreamHttpsProxy cfg else cfg_UpstreamHttpProxy cfg in
  if decide (proxyStr = []) then ProxyFromEnvironment targetUrl
  else if bool_decide (cfg_UpstreamNoProxy cfg <> []) &&
          noProxyMatch (ToLower (Hostname targetUrl)) (Split (cfg_UpstreamNoProxy cfg) 44) then inr None
  else match url_Parse proxyStr with inl e => inl e | inr u => inr (Some u) end.

(** Its result as the callers use it: an error means no proxy. *)
Definition chosenProxy (h : HttpHandler) (targetUrl : URL) : option URL :=
  match getUpstreamProxy h targetUrl with inr p => p | inl _ => None end.

(** ** TLS material *)

Definition resolveTlsMaterial (data : gostring) : gostring + bytes :=
  if Contains data (gs "-----BEGIN") then inr data else readFile data.

Record TlsSettings := { ts_Cert : bytes; ts_Key : bytes; ts_ServerName : gostring; ts_RootCAs : option bytes }.

Definition loadTlsConfig (tc : TlsConfig) : gostring + TlsSettings :=
  match resolveTlsMaterial (tls_Cert tc) with
  | inl e => inl (gs "failed to read cert: " ++ e)
  | inr certBytes =>
      match resolveTlsMaterial (tls_Key tc) with
      | inl e => inl (gs "failed to read key: " ++ e)
      | inr keyBytes =>
          match X509KeyPair certBytes keyBytes with
          | Some e => inl e
          | None =>
              inr {| ts_Cert := certBytes; ts_Key := keyBytes; ts_ServerName := tls_ServerName tc;
                     ts_RootCAs := if decide (tls_Ca tc <> []) then
                                     match resolveTlsMaterial (tls_Ca tc) with
                                     | inr caBytes => if AppendCertsFromPEM caBytes then Some caBytes else None
                                     | inl _ => None
                                     end
                                   else None |}
          end
      end
  end.

(** ** Faults *)

(** The text of a breaker error. *)
Definition errorText (e : exec_error) : gostring :=
  match e with
  | BreakerOpen => gs "Target Offline (Circuit Breaker OPEN)"
  | BreakerTrialInFlight => gs "Target Offline (Circuit Breaker HALF_OPEN Trial In-Flight)"
  | ActionError msg => msg
  end.

Definition handleHttpFault (message clientIp reqMethod hostname reqUrl : gostring) (w : Writer) : Writer * list call :=
  let w := setHeader (gs "Connection") (gs "close") (setHeader (gs "Content-Type") (gs "text/html") w) in
  let answer code text log := (Write text (WriteHeader code w), [CallHTTP clientIp reqMethod hostname reqUrl code log]) in
  if Contains message (gs "Target Offline (Circuit Breaker OPEN)") then
    answer 503 (gs "<h1>503 Service Unavailable (Circuit Broken)</h1>") (gs "Circuit Breaker OPEN")
  else if Contains message (gs "Domain Blocked") || Contains message (gs "Restricted IP")
          || Contains message (gs "IP Blocked") || Contains message (gs "Resolution Fault") then
    answer 403 (gs "<h1>403 Forbidden</h1>") (gs "Blocked for Security (SSRF/Firewall)")
  else if Contains message (gs "timeout") then
    answer 504 (gs "<h1>504 Gateway Timeout</h1>") (gs "Upstream Gateway Timeout")
  else answer 502 (gs "<h1>502 Bad Gateway</h1>") (gs "Upstream Offline/Fault").

(** ** Proxying a request *)

(** What [handleRequest] hands to [doHttpProxy]. *)
Record Plan := {
  pl_targetUrl : URL;
  pl_targetIp : gostring;
  pl_hostname : gostring;
  pl_auditUrl : gostring;
  pl_reqHeaders : gmap gostring gostring;
  pl_resHeaders : gmap gostring gostring;
  pl_maxBodyBytes : Z;
  pl_clientTls : option TlsSettings;
  pl_forwardBody : bool;
}.

Definition is_hop (k : gostring) : bool := bool_decide (ToLower k ∈ hopByHopHeaders).
Definition is_scrubbed (k : gostring) : bool := bool_decide (ToLower k ∈ fingerprintHeadersToScrub).

(** The loop [for k, vv := range r.Header]. *)
Definition forwardedHeaders (h : header) : header :=
  filter (fun kv => is_hop kv.1 = false /\ ToLower kv.1 <> gs "content-length") h.

(** [for k, v := range m { h.Set(k, v) }] *)
Definition setAll (m : gmap gostring gostring) (h : header) : header :=
  foldl (fun h kv => HeaderSet kv.1 kv.2 h) h (range m).

Definition has_body (m : gostring) : bool := bool_decide (m <> gs "GET" /\ m <> gs "HEAD").

Definition upHeaders (p : Plan) (r : HttpRequest) (loopToken : gostring) (bodyBytes : option bytes) : header :=
  let h := forwardedHeaders (rq_Header r) in
  let h := HeaderSet (gs "Host") (u_Host (pl_targetUrl p)) h in
  let h := HeaderSet (gs "X-Ottergate-Loop") loopToken h in
  let h :=
    if pl_forwardBody p && has_body (rq_Method r) then
      let h := HeaderSet (gs "X-Body-Forwarded") (gs "true") h in
      match bodyBytes with Some b => HeaderSet (gs "X-Body-Size") (fmt_d (len b)) h | None => h end
    else h in
  setAll (pl_reqHeaders p) h.

Definition upRequest (h : HttpHandler) (p : Plan) (r : HttpRequest) (loopToken : gostring) (bodyBytes : option bytes) : UpRequest :=
  let u := pl_targetUrl p in
  let destPort := if decide (PortOf u = []) then (if decide (u_Scheme u = gs "https") then gs "443" else gs "80") else PortOf u in
  {| ur_Method := rq_Method r; ur_Url := url_String u; ur_Host := u_Host u;
     ur_Header := upHeaders p r loopToken bodyBytes; ur_Body := bodyBytes;
     ur_Proxy := chosenProxy h u; ur_DialAddr := plainAddr (pl_targetIp p) destPort;
     ur_ServerName := if decide (u_Scheme u = gs "https") then
                        Some (match pl_clientTls p with
                              | Some t => if decide (ts_ServerName t = []) then pl_hostname p else ts_ServerName t
                              | None => pl_hostname p
                              end)
                      else None |}.

(** The loop over [resp.Header]: entries of the writer's header map are replaced. *)
Definition relayHeaders (resp w : header) : header :=
  filter (fun kv => is_hop kv.1 = false /\ is_scrubbed kv.1 = false) resp ∪ w.

(** [executeProxy]: the error, the writer and the log; a panic when the status of the
    upstream cannot be written. *)
Definition executeProxy (h : HttpHandler) (p : Plan) (r : HttpRequest) (loopToken : gostring) (bodyBytes : option bytes)
    (w : Writer) : go (option gostring * Writer * list call) :=
  let up := upRequest h p r loopToken bodyBytes in
  match newRequestError (ur_Method up) (ur_Url up) with
  | Some e => Ret (Some e, w, [])
  | None =>
      match roundTrip up with
      | inl e => Ret (Some e, w, [])
      | inr resp =>
          let w := {| w_Header := setAll (pl_resHeaders p) (relayHeaders (up_Header resp) (w_Header w)); w_Sent := w_Sent w; w_Body := w_Body w |} in
          w ← writeStatus (up_Status resp) w;
          let w := if decide (up_Body resp = []) then w else Write (up_Body resp) w in
          Ret (up_ReadErr resp, w,
           [CallHTTP (rq_ClientIp r) (rq_Method r) (pl_hostname p) (u_Path (pl_targetUrl p)) (up_Status resp) (pl_auditUrl p)])
      end
  end.

(** The body that is forwarded, or an early answer. *)
Inductive body_result : Type := Forward (b : option bytes) | TooLarge | ReadFault (msg : gostring).
Definition readBody (p : Plan) (r : HttpRequest) : body_result :=
  if pl_forwardBody p && has_body (rq_Method r) then
    match rq_Body r with
    | None => Forward None
    | Some (b, err) =>
        let maxBodyBytes := pl_maxBodyBytes p in
        if decide (maxBodyBytes > 0 /\ rq_ContentLength r > maxBodyBytes) then TooLarge
        else if decide (maxBodyBytes > 0 /\ len b >= maxBodyBytes) then Forward (Some (take (Z.to_nat maxBodyBytes) b))
        else match err with Some e => ReadFault e | None => Forward (Some b) end
    end
  else Forward None.

(** [t1], [t2]: the breaker's clock readings; [now]: that of the loop token.  The
    breaker is the one that [getCircuitBreaker] put into the table for [host]. *)
Definition doHttpProxy (h : HttpHandler) (t1 t2 now : Z) (host : gostring) (p : Plan) (r : HttpRequest) (w : Writer)
  : go (HttpHandler * Writer * list call) :=
  let u := pl_targetUrl p in
  let reqUrl := u_Path u ++ (if decide (u_RawQuery u <> []) then gs "?" ++ u_RawQuery u else []) in
  let loopToken := generateLoopToken h now reqUrl (rq_ClientIp r) in
  let fault msg w := handleHttpFault msg (rq_ClientIp r) (rq_Method r) (pl_hostname p) reqUrl w in
  match readBody p r with
  | TooLarge =>
      Ret (h, Write (gs "<h1>413 Payload Too Large</h1>") (WriteHeader 413 w),
       [CallHTTP (rq_ClientIp r) (rq_Method r) (pl_hostname p) reqUrl 413 (gs "Payload exceeds maxRequestBodyBytes")])
  | ReadFault e => let '(w, logs) := fault e w in Ret (h, w, logs)
  | Forward bodyBytes =>
      let breaker := default (NewProxyCircuitBreaker host) (hh_circuitBreakers h !! host) in
      let store cb := with_breakers h (<[host := cb]> (hh_circuitBreakers h)) in
      match Execute_enter breaker t1 with
      | (cb, l, Some e) =>
          let '(w, logs) := fault (errorText e) w in Ret (store cb, w, map CallSystem l ++ logs)
      | (cb, l, None) =>
          '(err, w, plogs) ← executeProxy h p r loopToken bodyBytes w;
          let '(cb, l', e) := Execute_leave cb t2 err in
          match e with
          | Some e => let '(w, logs) := fault (errorText e) w in Ret (store cb, w, map CallSystem l ++ plogs ++ map CallSystem l' ++ logs)
          | None => Ret (store cb, w, map CallSystem l ++ plogs ++ map CallSystem l')
          end
      end
  end.

(** ** Routing *)

(** The host name of a [Host] header: the slice expression may panic. *)
Definition hostnameOf (rawHost : gostring) : go gostring :=
  if Contains rawHost (gs "[") then
    match Index rawHost (gs "]") with
    | Some closingIdx => slice rawHost 1 closingIdx
    | None => Ret rawHost
    end
  else Ret (hd [] (Split rawHost colon)).

Definition customResHeaders : gmap gostring gostring :=
  <[gs "X-Proxy" := gs "ottergate"]>
  (<[gs "Strict-Transport-Security" := gs "max-age=63072000; includeSubDomains; preload"]>
  (<[gs "X-Content-Type-Options" := gs "nosniff"]>
  (<[gs "X-Frame-Options" := gs "DENY"]>
  {[ gs "X-XSS-Protection" := gs "1; mode=block" ]}))).

(** Decryption does not panic ([DecryptSecret_total]). *)
Definition customHeader (masterKey v : gostring) : option gostring :=
  match DecryptSecret masterKey v with Ret (Some d) => sanitizeHeader d | _ => None end.
Definition customReqHeaders (masterKey : bytes) (hp : HttpProxyConfig) : gmap gostring gostring :=
  omap (customHeader masterKey) (hp_Headers hp).

Inductive route : Type :=
| Answer (code : Z) (body : bytes) (logs : list call)
| RedirectTo (code : Z) (target : gostring) (logs : list call)
| Proxy (breakerHost : gostring) (p : Plan) (logs : list call).

(** The URL of a proxied host section. *)
Definition sectionUrl (base : URL) (target : URL) (reqUrl : gostring) : URL :=
  match url_Parse reqUrl with
  | inl _ => target
  | inr parsedPath =>
      {| u_Scheme := u_Scheme target; u_Host := u_Host target;
         u_Path := if decide (u_Path base <> [] /\ u_Path base <> gs "/")
                   then TrimSuffix (u_Path base) (gs "/") ++ u_Path parsedPath else u_Path parsedPath;
         u_RawQuery := u_RawQuery parsedPath; u_other := u_other target |}
  end.

(** A section with an enabled proxy. *)
Definition routeSection (masterKey : bytes) (cfg : ServerConfig) (hp : HttpProxyConfig) (r : HttpRequest) (hostname : gostring) : go route :=
  let log code target := CallHTTP (rq_ClientIp r) (rq_Method r) hostname (rq_RequestURI r) code target in
  match url_Parse (hp_Upstream hp) with
  | inl _ => Ret (Answer 400 [] [])
  | inr base =>
      match validateTargetFirewall (url_String base) cfg with
      | inl _ => Ret (Answer 403 [] [log 403 (gs "Blocked by L3 Firewall")])
      | inr ips =>
          match ips, url_Parse (url_String base) with
          | targetIp :: _, inr target =>
              let u := sectionUrl base target (rq_RequestURI r) in
              let '(tls, logs) :=
                match hp_ClientTls hp with
                | None => (None, [])
                | Some tc => match loadTlsConfig tc with
                             | inr t => (Some t, [])
                             | inl e => (None, [CallError (gs "Client TLS initialization for host proxy " ++ rq_Host r ++ gs " bypassed: " ++ e)])
                             end
                end in
              Ret (Proxy (Hostname base)
                {| pl_targetUrl := u; pl_targetIp := targetIp; pl_hostname := Hostname base; pl_auditUrl := url_String u;
                   pl_reqHeaders := customReqHeaders masterKey hp; pl_resHeaders := customResHeaders;
                   pl_maxBodyBytes := hp_MaxRequestBodyBytes hp; pl_clientTls := tls; pl_forwardBody := hp_ForwardRequestBody hp |} logs)
          | _, _ => Panic
          end
      end
  end.

(** Any other host: an open forward proxy under the firewall. *)
Definition routeForward (cfg : ServerConfig) (r : HttpRequest) (hostname : gostring) : go route :=
  let log target := CallHTTP (rq_ClientIp r) (rq_Method r) hostname (rq_RequestURI r) 403 target in
  let fw := cfg_Firewall cfg in
  let isLiteralIp := bool_decide (is_Some (ParseIP hostname)) in
  if isLiteralIp && bool_decide (EvaluateIp hostname fw = DENY) then Ret (Answer 403 [] [log (gs "Blocked by IP Firewall")])
  else if negb isLiteralIp && bool_decide (EvaluateDomain hostname fw = DENY) then Ret (Answer 403 [] [log (gs "Blocked by Domain Firewall")])
  else
    match (if isLiteralIp then inr [hostname] else resolveHost hostname cfg) with
    | inl _ | inr [] => Ret (Answer 502 [] [])
    | inr (targetIp :: _) =>
        if decide (EvaluateIp targetIp fw = DENY) then Ret (Answer 403 [] [log (gs "Blocked by IP Firewall")])
        else if decide (EvaluateOutbound targetIp fw = DENY) then Ret (Answer 403 [] [log (gs "Blocked by SSRF Policy")])
        else
          let reqUrl := rq_RequestURI r in
          match url_Parse (if HasPrefix reqUrl (gs "http://") || HasPrefix reqUrl (gs "https://") then reqUrl
                           else gs "http://" ++ rq_Host r ++ reqUrl) with
          | inl _ => Panic (* the nil URL is dereferenced *)
          | inr u =>
              Ret (Proxy hostname
                {| pl_targetUrl := u; pl_targetIp := targetIp; pl_hostname := hostname; pl_auditUrl := targetIp;
                   pl_reqHeaders := ∅; pl_resHeaders := ∅; pl_maxBodyBytes := 0; pl_clientTls := None; pl_forwardBody := true |} [])
          end
    end.

Definition routeRequest (masterKey : bytes) (cfg : ServerConfig) (r : HttpRequest) : go route :=
  hostname ← hostnameOf (rq_Host r);
  let log code target := CallHTTP (rq_ClientIp r) (rq_Method r) hostname (rq_RequestURI r) code target in
  if decide (hostname = []) then
    Ret (Answer 400 (gs "Bad Request") [CallHTTP (rq_ClientIp r) (rq_Method r) (gs "UNKNOWN") (rq_RequestURI r) 400 (gs "Missing Host Header")])
  else
    match hostSection cfg hostname with
    | Some hc =>
        match hc_Redirect hc with
        | Some {| rd_Enabled := true; rd_Code := code; rd_Target := target |} =>
            match validateTargetFirewall target cfg with
            | inl _ => Ret (Answer 403 [] [log 403 (gs "Blocked by L3 Firewall")])
            | inr _ => Ret (RedirectTo code target [log code target])
            end
        | _ =>
            match hc_HttpProxy hc with
            | Some hp => if hp_Enabled hp && bool_decide (hp_Upstream hp <> []) then routeSection masterKey cfg hp r hostname
                         else routeForward cfg r hostname
            | None => routeForward cfg r hostname
            end
        end
    | None => routeForward cfg r hostname
    end.

Definition handleRequest (h : HttpHandler) (masterKey : bytes) (cfg : ServerConfig) (t1 t2 now : Z) (r : HttpRequest) (w : Writer)
  : go (HttpHandler * Writer * list call) :=
  rt ← routeRequest masterKey cfg r;
  match rt with
  | Answer code body logs =>
      let w := WriteHeader code w in Ret (h, (if decide (body = []) then w else Write body w), logs)
  | RedirectTo code target logs => w ← writeStatus code (setHeader (gs "Location") target w); Ret (h, w, logs)
  | Proxy host p logs =>
      let '(_, h) := getCircuitBreaker h host in
      '(h, w, logs') ← doHttpProxy h t1 t2 now host p r w; Ret (h, w, logs ++ logs')
  end.

(** ** Tunnels *)

Inductive tunnel : Type := Direct (addr : gostring) | ViaProxy (proxyHost : gostring).

Definition connectRequest (target : gostring) : bytes :=
  gs "CONNECT " ++ target ++ gs " HTTP/1.1" ++ [13; 10] ++ gs "Host: " ++ target ++ [13; 10; 13; 10].

(** Dialling for [host:port], whose checked address is [targetIp]; error or tunnel. *)
Definition openTunnel (h : HttpHandler) (u : URL) (target targetIp port : gostring) : gostring + tunnel :=
  match chosenProxy h u with
  | Some proxyURL =>
      match dialProxy (u_Host proxyURL) (connectRequest target) with
      | inl e => inl e
      | inr resp => let respStr := take 4096 resp in
                    if Contains respStr (gs "200") then inr (ViaProxy (u_Host proxyURL))
                    else inl (gs "upstream proxy returned: " ++ FirstPart respStr [13; 10])
      end
  | None => match dialDirect (plainAddr targetIp port) with
            | Some e => inl e
            | None => inr (Direct (plainAddr targetIp port))
            end
  end.

Definition https_url (host : gostring) : URL :=
  {| u_Scheme := gs "https"; u_Host := host; u_Path := []; u_RawQuery := []; u_other := [] |}.

(** What is written to the hijacked connection, the tunnel and the log. *)
Definition handleConnect (h : HttpHandler) (cfg : ServerConfig) (clientIp targetUrl : gostring) : go (bytes * option tunnel * list call) :=
  let '(host, portStr) := match SplitHostPort targetUrl with Some hp => hp | None => (targetUrl, gs "443") end in
  let log code target := CallHTTP clientIp (gs "CONNECT") host (gs ":" ++ portStr) code target in
  let blocked logs := Ret (gs "HTTP/1.1 403 Forbidden" ++ [13; 10; 13; 10], None, logs ++ [log 403 (gs "Blocked by Firewall")]) in
  match validateTargetFirewall (gs "https://" ++ host ++ gs ":" ++ portStr) cfg with
  | inl _ => blocked []
  | inr [] => Panic
  | inr (targetIp :: _) =>
      let logs := [log 200 (gs "TCP Tunnel Established -> " ++ targetIp)] in
      match openTunnel h (https_url (JoinHostPort host portStr)) (host ++ gs ":" ++ portStr) targetIp portStr with
      | inl _ => blocked logs
      | inr t => Ret (gs "HTTP/1.1 200 Connection Established" ++ [13; 10; 13; 10], Some t, logs)
      end
  end.

Inductive http_result : Type := Served (w : Writer) | Hijacked (b : bytes) (t : option tunnel).

(** [hijackable]: the writer can be hijacked. *)
Definition ServeHTTP (h : HttpHandler) (masterKey : bytes) (hijackable : bool) (t1 t2 now : Z) (r : HttpRequest)
  : go (HttpHandler * http_result * list call) :=
  let providedLoopToken := HeaderGet (gs "X-Ottergate-Loop") (rq_Header r) in
  let reqUrl := rq_Path r ++ (if decide (rq_RawQuery r <> []) then gs "?" ++ rq_RawQuery r else []) in
  if bool_decide (providedLoopToken <> []) && verifyLoopToken h now providedLoopToken reqUrl (rq_ClientIp r) then
    let w := setHeader (gs "Connection") (gs "close") (setHeader (gs "Content-Type") (gs "text/html") new_writer) in
    Ret (h, Served (Write (gs "<h1>508 Loop Detected</h1>") (WriteHeader 508 w)),
         [CallHTTP (rq_ClientIp r) (rq_Method r) (rq_Host r) reqUrl 508 (gs "Routing Loop Detected")])
  else if decide (rq_Method r = gs "CONNECT") then
    if hijackable then
      '(b, t, logs) ← handleConnect h (hh_cfg h) (rq_ClientIp r) (rq_RequestURI r);
      Ret (h, Hijacked b t, logs)
    else Ret (h, Served (WriteHeader 500 new_writer), [])
  else
    '(h, w, logs) ← handleRequest h masterKey (hh_cfg h) t1 t2 now r new_writer;
    Ret (h, Served w, logs).

End Http.

(** ** Which addresses are dialled *)

Section Dial.
Context {U : Unicode} {UR : Url} {AE : Aead} {MR : MapRange} {NT : Net}.

Definition safe_ip (fw : option FirewallConfig) (ip : gostring) : Prop :=
  EvaluateIp ip fw = ALLOW /\ EvaluateOutbound ip fw = ALLOW.

(** The policies on the host part of an address that is dialled. *)
Definition allowedAddr (fw : option FirewallConfig) (addr : gostring) : bool :=
  match LastIndexByte addr colon with
  | Some i => bool_decide (safe_ip fw (take i addr))
  | None => false
  end.

(** The network behind a filter that lets a direct connection through only when
    both policies allow the address. *)
Definition guarded (fw : option FirewallConfig) : Net :=
  {| LookupHost := LookupHost; ProxyFromEnvironment := ProxyFromEnvironment; readFile := readFile; X509KeyPair := X509KeyPair;
     AppendCertsFromPEM := AppendCertsFromPEM; newRequestError := newRequestError; dialProxy := dialProxy;
     roundTrip := fun up => if bool_decide (ur_Proxy up = None) && negb (allowedAddr fw (ur_DialAddr up)) then inl (gs "filtered") else roundTrip up;
     dialDirect := fun addr => if allowedAddr fw addr then dialDirect addr else Some (gs "filtered") |}.

Lemma verdict_allow v : v <> DENY -> v = ALLOW.
Proof. by destruct v. Qed.

Lemma checkTargets_safe ips fw : checkTargets ips fw = None -> Forall (safe_ip fw) ips.
Proof.
  induction ips as [|ip ips IH]; [constructor|]. simpl. destruct (decide (EvaluateOutbound ip fw = DENY)); [done|].
  destruct (decide (EvaluateIp ip fw = DENY)); [done|]. constructor; [split; by apply verdict_allow|auto].
Qed.

Lemma validateTargetFirewall_ok url cfg ips :
  validateTargetFirewall url cfg = inr ips -> ips <> [] /\ Forall (safe_ip (cfg_Firewall cfg)) ips.
Proof.
  unfold validateTargetFirewall. intros H. destruct (url_Parse url) as [|u]; [done|]. destruct (_ && _ && _); [done|].
  destruct (if bool_decide _ then inr _ else _) as [|l]; [done|]. case_decide as Hl; [done|].
  destruct (checkTargets l _) eqn:E; simplify_eq. split; [|by apply checkTargets_safe]. by intros ->.
Qed.

Lemma LastIndexByte_split s c i : LastIndexByte s c = Some i -> s = take i s ++ c :: drop (S i) s /\ c ∉ drop (S i) s.
Proof.
  revert i. induction s as [|d s IH]; intros i H; [done|]. simpl in H. destruct (LastIndexByte s c) as [j|] eqn:E; simplify_eq.
  - destruct (IH j eq_refl) as [H1 H2]. simpl. split; [by f_equal|done].
  - case_decide; simplify_eq. simpl. rewrite drop_0. split; [done|]. clear IH. induction s as [|d s IH]; [by apply not_elem_of_nil|].
    simpl in E. destruct (LastIndexByte s c) eqn:E'; [done|]. case_decide; [done|]. apply not_elem_of_cons. auto.
Qed.

Lemma allowedAddr_safe fw ip port : safe_ip fw ip -> colon ∉ port -> allowedAddr fw (plainAddr ip port) = true.
Proof.
  intros Hs Hp. unfold allowedAddr, plainAddr. change (gs ":") with [colon]. cbn [app].
  rewrite LastIndexByte_app by done. by rewrite take_app_length, bool_decide_true.
Qed.

Lemma PortOf_no_colon u : colon ∉ PortOf u.
Proof.
  unfold PortOf, splitHostPort. destruct (LastIndexByte (u_Host u) colon) as [i|] eqn:E.
  - apply LastIndexByte_split in E as [_ H].
    destruct (validOptionalPort _), (_ && _); simpl; try done; apply not_elem_of_nil.
  - destruct (_ && _); apply not_elem_of_nil.
Qed.

(** The port that a plan is dialled with. *)
Lemma upRequest_dial h p r tok b :
  exists port, ur_DialAddr (upRequest h p r tok b) = plainAddr (pl_targetIp p) port /\ colon ∉ port.
Proof.
  eexists. split; [done|]. cbn zeta. case_decide; [case_decide; vm_compute; set_solver|apply PortOf_no_colon].
Qed.

Lemma executeProxy_guarded fw h p r tok b w :
  safe_ip fw (pl_targetIp p) -> executeProxy (NT := guarded fw) h p r tok b w = executeProxy h p r tok b w.
Proof.
  intros Hs. destruct (upRequest_dial h p r tok b) as (port & Hd & Hp).
  unfold executeProxy. change (upRequest (NT := guarded fw) h p r tok b) with (upRequest h p r tok b).
  cbn [newRequestError roundTrip guarded]. rewrite Hd, allowedAddr_safe by done. by rewrite andb_false_r.
Qed.

Lemma doHttpProxy_guarded fw h t1 t2 now host p r w :
  safe_ip fw (pl_targetIp p) -> doHttpProxy (NT := guarded fw) h t1 t2 now host p r w = doHttpProxy h t1 t2 now host p r w.
Proof. intros Hs. unfold doHttpProxy. destruct (readBody p r); [|done..]. destruct (Execute_enter _ _) as [[cb l] [e|]]; [done|].
  by rewrite executeProxy_guarded. Qed.

Lemma routeSection_safe mk cfg hp r hn host p l :
  routeSection mk cfg hp r hn = Ret (Proxy host p l) -> safe_ip (cfg_Firewall cfg) (pl_targetIp p).
Proof.
  unfold routeSection. intros H. destruct (url_Parse (hp_Upstream hp)) as [|base]; [done|].
  destruct (validateTargetFirewall _ cfg) as [|ips] eqn:E; [done|]. apply validateTargetFirewall_ok in E as [_ E].
  destruct ips as [|ip ips]; [done|]. destruct (url_Parse _) as [|u]; [done|]. apply Forall_cons in E as [E _].
  destruct (match hp_ClientTls hp with None => _ | _ => _ end). by simplify_eq.
Qed.

Lemma routeForward_safe cfg r hn host p l :
  routeForward cfg r hn = Ret (Proxy host p l) -> safe_ip (cfg_Firewall cfg) (pl_targetIp p).
Proof.
  unfold routeForward, safe_ip. intros H. repeat (case_match; [done|]).
  repeat (case_match; try done); simplify_eq; split; by apply verdict_allow.
Qed.

Lemma routeRequest_safe mk cfg r host p l :
  routeRequest mk cfg r = Ret (Proxy host p l) -> safe_ip (cfg_Firewall cfg) (pl_targetIp p).
Proof.
  unfold routeRequest. intros (hn & Hn & H)%bind_Ret_inv. case_decide; [done|].
  repeat (case_match; try done); eauto using routeSection_safe, routeForward_safe.
Qed.

Lemma SplitHostPort_port s host port : SplitHostPort s = Some (host, port) -> colon ∉ port.
Proof.
  unfold SplitHostPort. intros H. destruct (LastIndexByte s colon) as [i|] eqn:E; [|done]. apply LastIndexByte_split in E as [_ E].
  repeat (case_match; try done); by simplify_eq.
Qed.

Lemma handleConnect_guarded h cfg ip url :
  handleConnect (NT := guarded (cfg_Firewall cfg)) h cfg ip url = handleConnect h cfg ip url.
Proof.
  unfold handleConnect. destruct (match SplitHostPort url with Some _ => _ | None => _ end) as [host port] eqn:Ep.
  assert (colon ∉ port) as Hp.
  { destruct (SplitHostPort url) as [[]|] eqn:E; simplify_eq; [by eapply SplitHostPort_port|vm_compute; set_solver]. }
  change (validateTargetFirewall (NT := guarded (cfg_Firewall cfg))) with validateTargetFirewall.
  destruct (validateTargetFirewall _ cfg) as [|ips] eqn:E; [done|]. apply validateTargetFirewall_ok in E as [_ E].
  destruct ips as [|tip ips]; [done|]. apply Forall_cons in E as [E _].
  unfold openTunnel. cbn [dialDirect guarded]. by rewrite allowedAddr_safe.
Qed.

(** C1: The proxy never connects directly to an address that the firewall or the
    outbound (SSRF) policy denies: putting the network behind a filter that refuses
    every such connection changes nothing that a request can observe, for every
    configuration, request (CONNECT included), resolver and upstream. *)
Theorem ServeHTTP_ssrf_safe h mk hijackable t1 t2 now r :
  ServeHTTP (NT := guarded (cfg_Firewall (hh_cfg h))) h mk hijackable t1 t2 now r = ServeHTTP h mk hijackable t1 t2 now r.
Proof.
  unfold ServeHTTP. destruct (_ && _); [done|]. case_decide.
  { destruct hijackable; [|done]. by rewrite handleConnect_guarded. }
  f_equal. unfold handleRequest.
  change (routeRequest (NT := guarded (cfg_Firewall (hh_cfg h)))) with routeRequest.
  destruct (routeRequest mk (hh_cfg h) r) as [[]| |] eqn:E; try done. simpl.
  apply routeRequest_safe in E. unfold getCircuitBreaker. by destruct (_ !! breakerHost); rewrite doHttpProxy_guarded.
Qed.

End Dial.

(** ** Headers *)

Section Headers.
Context {U : Unicode} {UR : Url} {AE : Aead} {MR : MapRange} {NT : Net}.

Abbreviation LoopHeader := (gs "X-Ottergate-Loop").

(** No entry of [m] is set under the header name [k]. *)
Definition sets_no (m : gmap gostring gostring) (k : gostring) : Prop :=
  forall n v, m !! n = Some v -> CanonicalKey n <> k.

Lemma forwardedHeaders_lookup h k :
  forwardedHeaders h !! k = if decide (ToLower k ∈ hopByHopHeaders \/ ToLower k = gs "content-length") then None else h !! k.
Proof.
  unfold forwardedHeaders, is_hop. case_decide as Hc.
  - apply map_lookup_filter_None. right. intros v _ [Hh Hl]. simpl in *. apply bool_decide_eq_false in Hh. tauto.
  - destruct (h !! k) as [v|] eqn:E; [apply map_lookup_filter_Some|apply map_lookup_filter_None; by left].
    split; [done|]. simpl. rewrite bool_decide_false by tauto. tauto.
Qed.

(** The configured header of name [k]: the last one of the iteration, should several names
    be canonicalised to [k]. *)
Definition configured (m : gmap gostring gostring) (k : gostring) : option gostring :=
  snd <$> last (filter (fun kv => CanonicalKey kv.1 = k) (range m)).

Lemma setAll_lookup m h k : setAll m h !! k = match configured m k with Some v => Some [v] | None => h !! k end.
Proof.
  unfold setAll, configured. induction (range m) as [|[n v] l IH] using rev_ind; [done|].
  rewrite foldl_app, filter_app. cbn [foldl]. unfold HeaderSet at 1. cbn [fst snd]. rewrite filter_cons, filter_nil. cbn [fst].
  case_decide as Hn; [rewrite Hn, lookup_insert_eq, last_snoc; done|]. by rewrite lookup_insert_ne, app_nil_r.
Qed.

Lemma sets_no_configured m k : sets_no m k -> configured m k = None.
Proof.
  intros Hm. unfold configured. destruct (filter _ (range m)) as [|[n v] l] eqn:E; [done|]. exfalso.
  assert ((n, v) ∈ filter (fun kv => CanonicalKey kv.1 = k) (range m)) as [H1 H2]%list_elem_of_filter by (rewrite E; left).
  apply elem_of_range in H2. by apply (Hm n v).
Qed.

(** C21: Every header of the upstream request is accounted for.  A header that the section
    configures has the configured value, whatever its name.  Of the others, the loop header
    and the host header are the proxy's own; when a body is forwarded, the headers that
    announce and measure it are the proxy's too, and the client's otherwise; the hop-by-hop
    headers and the length of the client's request are dropped, and its other headers are
    passed on unchanged. *)
Theorem upHeaders_spec p r tok b k :
  upHeaders p r tok b !! k =
    let body := pl_forwardBody p && has_body (rq_Method r) in
    match configured (pl_reqHeaders p) k with
    | Some v => Some [v]
    | None =>
        if decide (k = LoopHeader) then Some [tok]
        else if decide (k = gs "Host") then Some [u_Host (pl_targetUrl p)]
        else if decide (k = gs "X-Body-Forwarded" /\ body = true) then Some [gs "true"]
        else match (if decide (k = gs "X-Body-Size" /\ body = true) then b else None) with
             | Some b => Some [fmt_d (len b)]
             | None => if decide (ToLower k ∈ hopByHopHeaders \/ ToLower k = gs "content-length") then None else rq_Header r !! k
             end
    end.
Proof.
  unfold upHeaders, HeaderSet. rewrite setAll_lookup. cbn zeta. destruct (configured _ k); [done|].
  change (CanonicalKey (gs "Host")) with (gs "Host"). change (CanonicalKey (gs "X-Ottergate-Loop")) with LoopHeader.
  change (CanonicalKey (gs "X-Body-Forwarded")) with (gs "X-Body-Forwarded").
  change (CanonicalKey (gs "X-Body-Size")) with (gs "X-Body-Size").
  rewrite <- forwardedHeaders_lookup.
  destruct (decide (k = LoopHeader)) as [->|H1].
  { destruct (_ && _), b; simpl; simplify_map_eq; done. }
  destruct (decide (k = gs "Host")) as [->|H2].
  { destruct (_ && _), b; simpl; simplify_map_eq; done. }
  destruct (_ && _); simpl.
  - destruct (decide (k = gs "X-Body-Forwarded")) as [->|H3]; [rewrite decide_True by done; destruct b; simplify_map_eq; done|].
    rewrite decide_False by naive_solver.
    destruct (decide (k = gs "X-Body-Size")) as [->|H4].
    + rewrite decide_True by done. destruct b; by simplify_map_eq.
    + rewrite decide_False by naive_solver. destruct b; by simplify_map_eq.
  - rewrite !decide_False by naive_solver. by simplify_map_eq.
Qed.

Lemma upHeaders_loop p r tok b : sets_no (pl_reqHeaders p) LoopHeader -> upHeaders p r tok b !! LoopHeader = Some [tok].
Proof.
  intros Hs. unfold upHeaders, HeaderSet. rewrite setAll_lookup, sets_no_configured by done. cbn zeta.
  change (CanonicalKey (gs "X-Ottergate-Loop")) with LoopHeader. destruct (_ && _), b; by simplify_map_eq.
Qed.

(** *** Responses *)

(** Nothing that identifies the upstream server, and no hop-by-hop header but the
    proxy's own [Connection: close]. *)
Definition clean (h : header) : Prop :=
  forall k vs, h !! k = Some vs ->
    is_scrubbed k = false /\ (is_hop k = true -> k = gs "Connection" /\ vs = [gs "close"]).
Definition clean_writer (w : Writer) : Prop :=
  clean (w_Header w) /\ forall c h, w_Sent w = Some (c, h) -> clean h.

Lemma clean_HeaderSet k v h :
  is_scrubbed (CanonicalKey k) = false -> is_hop (CanonicalKey k) = false -> clean h -> clean (HeaderSet k v h).
Proof.
  intros Hs Hh Hc k' vs. unfold HeaderSet. destruct (decide (k' = CanonicalKey k)) as [->|Hk].
  - rewrite lookup_insert_eq. intros [= <-]. by rewrite Hs, Hh.
  - rewrite lookup_insert_ne by done. apply Hc.
Qed.

Lemma clean_close h : clean h -> clean (HeaderSet (gs "Connection") (gs "close") h).
Proof.
  intros Hc k' vs. unfold HeaderSet. change (CanonicalKey (gs "Connection")) with (gs "Connection").
  destruct (decide (k' = gs "Connection")) as [->|Hk].
  - rewrite lookup_insert_eq. intros [= <-]. split; [vm_compute; reflexivity|done].
  - rewrite lookup_insert_ne by done. apply Hc.
Qed.

Lemma new_writer_clean : clean_writer new_writer.
Proof. split; [|done]. intros k vs H. simpl in H. by rewrite lookup_empty in H. Qed.

Lemma WriteHeader_clean c w : clean_writer w -> clean_writer (WriteHeader c w).
Proof. intros [H1 H2]. split; [done|]. simpl. destruct (w_Sent w) as [[]|]; naive_solver. Qed.

Lemma writeStatus_clean c w w' : writeStatus c w = Ret w' -> clean_writer w -> clean_writer w'.
Proof. unfold writeStatus. case_decide; [|done]. intros [= <-]. apply WriteHeader_clean. Qed.

Lemma Write_clean b w : clean_writer w -> clean_writer (Write b w).
Proof. intros H. apply (WriteHeader_clean 200) in H as [H1 H2]. by split. Qed.

Lemma setHeader_clean k v w :
  is_scrubbed (CanonicalKey k) = false -> is_hop (CanonicalKey k) = false -> clean_writer w -> clean_writer (setHeader k v w).
Proof. intros Hs Hh [H1 H2]. split; [by apply clean_HeaderSet|done]. Qed.

Lemma error_page_clean w :
  clean_writer w -> clean_writer (setHeader (gs "Connection") (gs "close") (setHeader (gs "Content-Type") (gs "text/html") w)).
Proof.
  intros H. apply (setHeader_clean (gs "Content-Type") (gs "text/html")) in H as [H1 H2]; [|vm_compute; reflexivity..].
  split; [by apply clean_close|done].
Qed.

Lemma handleHttpFault_clean msg ip m hn u w w' l :
  handleHttpFault msg ip m hn u w = (w', l) -> clean_writer w -> clean_writer w'.
Proof.
  unfold handleHttpFault. intros H Hw. apply error_page_clean in Hw.
  repeat case_match; simplify_eq; by apply Write_clean, WriteHeader_clean.
Qed.

(** The header maps that a plan can carry. *)
Definition clean_names (m : gmap gostring gostring) : Prop :=
  forall k v, m !! k = Some v -> is_scrubbed (CanonicalKey k) = false /\ is_hop (CanonicalKey k) = false.

Lemma clean_setAll m h : clean_names m -> clean h -> clean (setAll m h).
Proof.
  intros Hm. unfold setAll. assert (forall kv, kv ∈ range m -> is_scrubbed (CanonicalKey kv.1) = false /\ is_hop (CanonicalKey kv.1) = false) as Hr.
  { intros [k v] Hi. apply elem_of_range in Hi. by eapply Hm. }
  clear Hm. revert h Hr. induction (range m) as [|kv l IH]; intros h Hr Hc; [done|]. simpl.
  destruct (Hr kv) as [H1 H2]; [left|]. apply IH; [intros; apply Hr; by right|]. by apply clean_HeaderSet.
Qed.

Lemma customResHeaders_clean : clean_names customResHeaders.
Proof.
  intros k v H. unfold customResHeaders in H.
  repeat (apply lookup_insert_Some in H as [[<- _] | [_ H]]; [split; vm_compute; reflexivity|]).
  apply lookup_singleton_Some in H as [<- _]. split; vm_compute; reflexivity.
Qed.

Lemma clean_names_empty : clean_names ∅.
Proof. intros k v H. by rewrite lookup_empty in H. Qed.

Lemma relayHeaders_clean resp w : clean w -> clean (relayHeaders resp w).
Proof.
  intros Hw k vs. unfold relayHeaders. rewrite lookup_union_Some_raw, map_lookup_filter_Some. simpl.
  intros [[_ [H1 H2]] | [_ H]]; [|by apply Hw]. split; [done|]. by rewrite H1.
Qed.

Lemma executeProxy_clean h p r tok b w e w' l :
  executeProxy h p r tok b w = Ret (e, w', l) -> clean_names (pl_resHeaders p) -> clean_writer w -> clean_writer w'.
Proof.
  unfold executeProxy. intros H Hp Hw. destruct (newRequestError _ _); [by simplify_eq|].
  destruct (roundTrip _) as [|resp]; [by simplify_eq|].
  apply bind_Ret_inv in H as (w1 & H1 & H). assert (clean_writer w1) as Hc.
  { eapply writeStatus_clean; [exact H1|]. destruct Hw as [Hw1 Hw2]. split; [|done]. simpl. by apply clean_setAll, relayHeaders_clean. }
  simplify_eq. case_decide; [done|]. by apply Write_clean.
Qed.

Lemma doHttpProxy_clean h t1 t2 now host p r w h' w' l :
  doHttpProxy h t1 t2 now host p r w = Ret (h', w', l) -> clean_names (pl_resHeaders p) -> clean_writer w -> clean_writer w'.
Proof.
  unfold doHttpProxy. intros H Hp Hw. destruct (readBody p r).
  - destruct (Execute_enter _ _) as [[cb l1] [e|]].
    + destruct (handleHttpFault _ _ _ _ _ _) eqn:E. simplify_eq. by eapply handleHttpFault_clean.
    + apply bind_Ret_inv in H as ([[e w1] l2] & E1 & H). eapply executeProxy_clean in E1; [|done..].
      destruct (Execute_leave _ _ _) as [[cb' l3] [e'|]]; [|by simplify_eq].
      destruct (handleHttpFault _ _ _ _ _ _) eqn:E. simplify_eq. by eapply handleHttpFault_clean.
  - simplify_eq. by apply Write_clean, WriteHeader_clean.
  - destruct (handleHttpFault _ _ _ _ _ _) eqn:E. simplify_eq. by eapply handleHttpFault_clean.
Qed.

Lemma routeRequest_resHeaders mk cfg r host p l :
  routeRequest mk cfg r = Ret (Proxy host p l) -> pl_resHeaders p = customResHeaders \/ pl_resHeaders p = ∅.
Proof.
  unfold routeRequest, routeSection, routeForward. intros (hn & Hn & H)%bind_Ret_inv. case_decide; [done|].
  repeat (case_match; try done); simplify_eq; auto.
Qed.

(** C20: Whatever the upstream answers, and on every error path, the headers of the
    answer to a client carry no server fingerprint, and no hop-by-hop header but the
    proxy's own [Connection: close]. *)
Theorem ServeHTTP_response_clean h mk hijackable t1 t2 now r h' w l c hd k vs :
  ServeHTTP h mk hijackable t1 t2 now r = Ret (h', Served w, l) ->
  w_Sent w = Some (c, hd) -> hd !! k = Some vs ->
  is_scrubbed k = false /\ (is_hop k = true -> k = gs "Connection" /\ vs = [gs "close"]).
Proof.
  intros H Hs Hk. enough (clean_writer w) as [_ Hc] by by eapply Hc. clear Hs Hk.
  pose proof new_writer_clean as Hn. unfold ServeHTTP in H. destruct (_ && _).
  { simplify_eq. by apply Write_clean, WriteHeader_clean, error_page_clean. }
  case_decide.
  { destruct hijackable; [|simplify_eq; by apply WriteHeader_clean].
    apply bind_Ret_inv in H as ([[b t] l'] & _ & H). by simplify_eq. }
  apply bind_Ret_inv in H as ([[h1 w1] l1] & H & E). simplify_eq.
  apply bind_Ret_inv in H as (rt & Hr & H). destruct rt as [code body logs|code target logs|host p logs].
  - cbn zeta in H. simplify_eq. case_decide; [by apply WriteHeader_clean|by apply Write_clean, WriteHeader_clean].
  - apply bind_Ret_inv in H as (w2 & H2 & H). simplify_eq. eapply writeStatus_clean; [exact H2|]. apply setHeader_clean; [vm_compute; reflexivity..|done].
  - destruct (getCircuitBreaker h host) as [cb h2]. apply bind_Ret_inv in H as ([[h3 w3] l3] & E & H). simplify_eq.
    eapply doHttpProxy_clean; [done| |done].
    apply routeRequest_resHeaders in Hr as [-> | ->]; [apply customResHeaders_clean|apply clean_names_empty].
Qed.

End Headers.

(** ** Loops *)

Section Loops.
Context {U : Unicode} {UR : Url} {AE : Aead} {MR : MapRange} {NT : Net}.

Lemma loopMac_nonempty h u ip window : loopMac h u ip window <> [].
Proof. unfold loopMac. intros H%(f_equal length). rewrite HexEncode_length, hmac_length in H. simpl in H. lia. Qed.

Lemma verify_generate h now now' u ip :
  0 <= now <= now' -> now' / 60 <= now / 60 + 1 -> verifyLoopToken h now' (generateLoopToken h now u ip) u ip = true.
Proof.
  intros H1 H2. unfold verifyLoopToken, generateLoopToken. rewrite !Z.quot_div_nonneg by lia.
  assert (now / 60 <= now' / 60) by (apply Z.div_le_mono; lia).
  apply orb_true_iff. destruct (decide (now' / 60 = now / 60)) as [-> | Hn].
  - left. by apply bool_decide_eq_true.
  - right. apply bool_decide_eq_true. do 2 f_equal. lia.
Qed.

(** The text that the token of a plan is made for. *)
Definition planUrl (p : Plan) : gostring :=
  let u := pl_targetUrl p in u_Path u ++ (if decide (u_RawQuery u <> []) then gs "?" ++ u_RawQuery u else []).

(** The token is for one address: it does not verify for another, unless their codes collide. *)
Lemma verify_other h now now' u ip ip' :
  loopMac h u ip (Z.quot now 60) <> loopMac h u ip' (Z.quot now' 60) ->
  loopMac h u ip (Z.quot now 60) <> loopMac h u ip' (Z.quot now' 60 - 1) ->
  verifyLoopToken h now' (generateLoopToken h now u ip) u ip' = false.
Proof.
  intros H1 H2. unfold verifyLoopToken, generateLoopToken. apply orb_false_iff. split; by apply bool_decide_eq_false.
Qed.

(** C22: A forwarded request that comes back to the proxy with the headers it was sent
    with, the same path and query and the client address that its token was made for,
    before the second minute boundary has passed, is answered with 508 and not forwarded
    again, and the state of the proxy does not change; the section must not configure the
    loop header itself. *)
Theorem loop_detected h p r b now now' r' mk hijackable t1 t2 :
  0 <= now <= now' -> now' / 60 <= now / 60 + 1 ->
  sets_no (pl_reqHeaders p) (gs "X-Ottergate-Loop") ->
  rq_Header r' = upHeaders p r (generateLoopToken h now (planUrl p) (rq_ClientIp r)) b ->
  rq_ClientIp r' = rq_ClientIp r -> rq_Path r' = u_Path (pl_targetUrl p) -> rq_RawQuery r' = u_RawQuery (pl_targetUrl p) ->
  exists w l, ServeHTTP h mk hijackable t1 t2 now' r' = Ret (h, Served w, l) /\ fst <$> w_Sent w = Some 508.
Proof.
  intros H1 H2 Hs Hh Hc Hp Hq. set (tok := generateLoopToken h now (planUrl p) (rq_ClientIp r)) in *.
  assert (HeaderGet (gs "X-Ottergate-Loop") (rq_Header r') = tok) as Ht.
  { unfold HeaderGet. change (CanonicalKey (gs "X-Ottergate-Loop")) with (gs "X-Ottergate-Loop").
    rewrite Hh, upHeaders_loop; done. }
  unfold ServeHTTP. rewrite Ht, Hc, Hp, Hq. change (u_Path (pl_targetUrl p) ++ _) with (planUrl p). subst tok.
  rewrite verify_generate, bool_decide_true by (try done; apply loopMac_nonempty).
  eexists _, _. split; [done|]. done.
Qed.

End Loops.

(** ** Breakers, bodies and faults *)

Section Faults.
Context {U : Unicode} {UR : Url} {AE : Aead} {MR : MapRange} {NT : Net}.

(** The table is bounded, and every breaker in it is in a reachable state and
    belongs to its key. *)
Definition breakers_ok (m : gmap gostring ProxyCircuitBreaker) : Prop :=
  Z.of_nat (size m) <= 10000 /\ map_Forall (fun k cb => breaker_inv cb /\ cb_targetHost cb = k) m.

Lemma delete_breakers_ok k m : breakers_ok m -> breakers_ok (delete k m).
Proof.
  intros [H1 H2]. split; [|by apply map_Forall_delete].
  rewrite map_size_delete. destruct (m !! k); simpl; unfold id; lia.
Qed.

Lemma getCircuitBreaker_ok h host cb h' :
  getCircuitBreaker h host = (cb, h') -> breakers_ok (hh_circuitBreakers h) ->
  breakers_ok (hh_circuitBreakers h') /\ hh_circuitBreakers h' !! host = Some cb.
Proof.
  unfold getCircuitBreaker. intros H Hm. set (m := hh_circuitBreakers h) in *.
  set (m' := if decide (Z.of_nat (size m) >= 10000) then _ else _) in H.
  assert (breakers_ok m' /\ Z.of_nat (size m') < 10000) as [Hm' Hlt].
  { unfold m'. case_decide as Hs; [|split; [done|lia]].
    destruct (range m) as [|[k v] l] eqn:E.
    { pose proof (range_length m) as Hl. rewrite E in Hl. simpl in Hl. lia. }
    split; [by apply delete_breakers_ok|]. assert (is_Some (m !! k)) as [v' Hk] by (exists v; apply elem_of_range; rewrite E; left).
    destruct Hm as [Hm _]. rewrite map_size_delete_Some by eauto. lia. }
  clearbody m'. destruct (m' !! host) as [cb'|] eqn:E; simplify_eq; simpl; [done|]. split; [|apply lookup_insert_eq].
  destruct Hm' as [H1 H2]. split; [rewrite map_size_insert_None by done; lia|].
  apply map_Forall_insert_2; [|done]. split; [apply new_inv|done].
Qed.

Lemma store_breaker_ok m host cb cb' :
  breakers_ok m -> m !! host = Some cb -> breaker_inv cb' -> cb_targetHost cb' = cb_targetHost cb -> breakers_ok (<[host := cb']> m).
Proof.
  intros [H1 H2] Hl Hi Ht. split; [by rewrite map_size_insert_Some by eauto|].
  apply map_Forall_insert_2; [|done]. split; [done|]. rewrite Ht. by apply (H2 host cb).
Qed.

Lemma enter_host cb now cb' l r : Execute_enter cb now = (cb', l, r) -> cb_targetHost cb' = cb_targetHost cb.
Proof. intros. by breaker. Qed.
Lemma leave_host cb now e cb' l r : Execute_leave cb now e = (cb', l, r) -> cb_targetHost cb' = cb_targetHost cb.
Proof. intros. destruct e; by breaker. Qed.

Lemma doHttpProxy_ok h t1 t2 now host p r w h' w' l cb :
  doHttpProxy h t1 t2 now host p r w = Ret (h', w', l) -> hh_circuitBreakers h !! host = Some cb ->
  breakers_ok (hh_circuitBreakers h) -> breakers_ok (hh_circuitBreakers h').
Proof.
  unfold doHttpProxy. intros H Hl Hm. rewrite Hl in H. simpl in H.
  assert (breaker_inv cb /\ cb_targetHost cb = host) as [Hi Hh] by (by apply Hm).
  destruct (readBody p r); [|by simplify_eq|by destruct (handleHttpFault _ _ _ _ _ _); simplify_eq].
  destruct (Execute_enter cb t1) as [[cb1 l1] [e|]] eqn:E1; pose proof (enter_host _ _ _ _ _ E1); apply enter_inv in E1; try done.
  { destruct (handleHttpFault _ _ _ _ _ _). simplify_eq. by eapply store_breaker_ok. }
  apply bind_Ret_inv in H as ([[e w1] l2] & _ & H).
  destruct (Execute_leave cb1 t2 e) as [[cb2 l3] r2] eqn:E2. pose proof (leave_host _ _ _ _ _ _ E2). apply leave_inv in E2; [|done].
  assert (cb_targetHost cb2 = cb_targetHost cb) by congruence.
  destruct r2; [destruct (handleHttpFault _ _ _ _ _ _)|]; simplify_eq; by eapply store_breaker_ok.
Qed.

(** Every request keeps the breaker table within 10000 entries, each in a
    consistent state and filed under its own host. *)
Theorem ServeHTTP_breakers h mk hijackable t1 t2 now r h' res l :
  ServeHTTP h mk hijackable t1 t2 now r = Ret (h', res, l) ->
  breakers_ok (hh_circuitBreakers h) -> breakers_ok (hh_circuitBreakers h').
Proof.
  unfold ServeHTTP. intros H Hm. destruct (_ && _); [by simplify_eq|]. case_decide.
  { destruct hijackable; [|by simplify_eq]. apply bind_Ret_inv in H as ([[b t] l'] & _ & H). by simplify_eq. }
  apply bind_Ret_inv in H as ([[h1 w1] l1] & H & E). simplify_eq.
  apply bind_Ret_inv in H as (rt & Hr & H). destruct rt as [code body logs|code target logs|host p logs]; cbn zeta in H; [by simplify_eq|apply bind_Ret_inv in H as (w2 & _ & H); by simplify_eq|].
  destruct (getCircuitBreaker h host) as [cb h2] eqn:Eg. apply getCircuitBreaker_ok in Eg as [Hm2 Hl]; [|done].
  apply bind_Ret_inv in H as ([[h3 w3] l3] & E & H). simplify_eq. by eapply doHttpProxy_ok.
Qed.

(** A body that is forwarded to a section with a limit is within the limit; one
    that announces more is refused. *)
Theorem readBody_bounded p r b :
  0 < pl_maxBodyBytes p -> readBody p r = Forward (Some b) ->
  len b <= pl_maxBodyBytes p /\ rq_ContentLength r <= pl_maxBodyBytes p.
Proof.
  unfold readBody. intros Hm H. destruct (_ && _); [|done]. destruct (rq_Body r) as [[b' e]|]; [|done].
  destruct (decide (pl_maxBodyBytes p > 0 /\ rq_ContentLength r > _)); [done|].
  case_decide; [|destruct e]; simplify_eq; unfold len in *; rewrite ?length_take; lia.
Qed.

(** A body of unknown length that exceeds the limit is not refused: its first
    [maxRequestBodyBytes] bytes are forwarded as if they were the whole body. *)
Theorem oversized_body_truncated p r b e :
  pl_forwardBody p = true -> has_body (rq_Method r) = true -> rq_Body r = Some (b, e) -> rq_ContentLength r = -1 ->
  0 < pl_maxBodyBytes p < len b ->
  exists b', readBody p r = Forward (Some b') /\ len b' = pl_maxBodyBytes p /\ b' `prefix_of` b /\ b' <> b.
Proof.
  intros Hf Hm Hb Hc Hl. unfold readBody. rewrite Hf, Hm, Hb, Hc. simpl. rewrite decide_False, decide_True by lia.
  eexists. split; [done|]. assert (len (take (Z.to_nat (pl_maxBodyBytes p)) b) = pl_maxBodyBytes p) as Hlen.
  { unfold len in *. rewrite length_take. lia. }
  split; [done|]. split; [apply prefix_take|]. intros E. rewrite E in Hlen. lia.
Qed.

(** An open breaker is answered with 503; a half-open one, whose error does not
    contain the same text, with 502. *)
Theorem breaker_statuses ip m hn u w :
  w_Sent w = None ->
  fst <$> w_Sent (handleHttpFault (errorText BreakerOpen) ip m hn u w).1 = Some 503 /\
  fst <$> w_Sent (handleHttpFault (errorText BreakerTrialInFlight) ip m hn u w).1 = Some 502.
Proof. intros Hw. destruct w as [hd s b]. simpl in Hw. subst s. split; reflexivity. Qed.

(** When reading the upstream body fails after the answer has begun, the error page
    is appended to what the client has received: under the upstream's status. *)
Theorem fault_page_appended h p r tok b resp e :
  newRequestError (rq_Method r) (url_String (pl_targetUrl p)) = None -> roundTrip (upRequest h p r tok b) = inr resp ->
  100 <= up_Status resp <= 999 -> up_ReadErr resp = Some e ->
  exists w l, executeProxy h p r tok b new_writer = Ret (Some e, w, l) /\
    let w' := (handleHttpFault e (rq_ClientIp r) (rq_Method r) (pl_hostname p) [] w).1 in
    fst <$> w_Sent w' = Some (up_Status resp) /\ exists page, page <> [] /\ w_Body w' = up_Body resp ++ page.
Proof.
  intros Hn Hr Hc He. unfold executeProxy, writeStatus. cbn [ur_Method ur_Url upRequest]. rewrite Hn, Hr, He, decide_True by done. rewrite bind_Ret.
  eexists _, _. split; [done|]. cbn zeta. set (w := if decide (up_Body resp = []) then _ else _).
  assert (exists hd, w_Sent w = Some (up_Status resp, hd) /\ w_Body w = up_Body resp) as (hd & Hs & Hb).
  { unfold w. case_decide as Hd; simpl; [rewrite Hd|]; eauto. }
  clearbody w. unfold handleHttpFault.
  repeat (case_match; [simpl; rewrite Hs, Hb; split; [done|]; eexists; split; [|done]; done|]).
  simpl. rewrite Hs, Hb. split; [done|]. eexists. split; [|done]. done.
Qed.

(** A status below 100, which the HTTP client accepts from an upstream, makes the handler
    panic between the two sections of the breaker. *)
Theorem low_status_panics h p r tok b w resp :
  newRequestError (rq_Method r) (url_String (pl_targetUrl p)) = None -> roundTrip (upRequest h p r tok b) = inr resp ->
  up_Status resp < 100 -> executeProxy h p r tok b w = Panic.
Proof.
  intros Hn Hr Hc. unfold executeProxy, writeStatus. cbn [ur_Method ur_Url upRequest]. rewrite Hn, Hr, decide_False by lia. done.
Qed.

(** A [Host] header whose first closing bracket comes first makes the slice
    expression of the host name panic. *)
Theorem bracket_host_panics mk cfg r : rq_Host r = gs "][" -> routeRequest mk cfg r = Panic.
Proof. intros H. unfold routeRequest. by rewrite H. Qed.

(** The answer of an upstream proxy counts as success when the digits 200 occur
    anywhere in it, such as in the length of an error page. *)
Theorem proxy_refusal_accepted h u target ip port proxyURL :
  chosenProxy h u = Some proxyURL ->
  dialProxy (u_Host proxyURL) (connectRequest target)
    = inr (gs "HTTP/1.1 403 Forbidden" ++ [13; 10] ++ gs "Content-Length: 1200" ++ [13; 10; 13; 10]) ->
  openTunnel h u target ip port = inr (ViaProxy (u_Host proxyURL)).
Proof. intros H1 H2. unfold openTunnel. rewrite H1, H2. reflexivity. Qed.

End Faults.

(** ** Demonstrations *)

Definition demo_http_cfg : ServerConfig :=
  {| cfg_Port := 53; cfg_HttpPort := None; cfg_HttpsPort := None; cfg_Tls := None; cfg_DotPort := None;
     cfg_DohPort := None; cfg_FallbackDns := gs "9.9.9.9"; cfg_Firewall := None;
     cfg_ControlPlane := None; cfg_DnsCacheMaxSize := 16; cfg_DnsCacheTtlMs := 60000; cfg_MaxTcpConnections := 0;
     cfg_TcpIdleTimeoutMs := 0; cfg_RateLimitMaxRequests := 0; cfg_RateLimitWindowMs := 0;
     cfg_UpstreamHttpProxy := []; cfg_UpstreamHttpsProxy := []; cfg_UpstreamNoProxy := []; cfg_Hosts := ∅ |}.
Definition demo_http : HttpHandler := NewHttpHandler demo_http_cfg [1; 2; 3].

(** Every name is one public address; every exchange succeeds. *)
Definition demo_net : Net :=
  {| LookupHost := fun _ => inr [gs "93.184.216.34"]; ProxyFromEnvironment := fun _ => inr None; readFile := fun _ => inl (gs "absent");
     X509KeyPair := fun _ _ => None; AppendCertsFromPEM := fun _ => true; newRequestError := fun _ _ => None;
     roundTrip := fun _ => inr {| up_Status := 200;
       up_Header := <[gs "Server" := [gs "nginx"]]> (<[gs "Connection" := [gs "keep-alive"]]> {[ gs "X-A" := [gs "1"] ]});
       up_Body := gs "hello"; up_ReadErr := None |};
     dialDirect := fun _ => None; dialProxy := fun _ _ => inl (gs "no proxy") |}.

Definition demo_get : HttpRequest :=
  {| rq_ClientIp := gs "10.0.0.9"; rq_Method := gs "GET"; rq_RequestURI := gs "/x"; rq_Host := gs "a.example"; rq_Path := gs "/x";
     rq_RawQuery := []; rq_Header := {[ gs "Keep-Alive" := [gs "timeout=5"] ]}; rq_Body := None; rq_ContentLength := 0 |}.
Definition demo_plan : Plan :=
  {| pl_targetUrl := {| u_Scheme := gs "http"; u_Host := gs "a.example"; u_Path := gs "/x"; u_RawQuery := []; u_other := [] |};
     pl_targetIp := gs "93.184.216.34"; pl_hostname := gs "a.example"; pl_auditUrl := gs "93.184.216.34"; pl_reqHeaders := ∅;
     pl_resHeaders := ∅; pl_maxBodyBytes := 4; pl_clientTls := None; pl_forwardBody := true |}.

(** The same request, once it has gone through the proxy at second 100. *)
Definition demo_returned : HttpRequest :=
  {| rq_ClientIp := gs "10.0.0.9"; rq_Method := gs "GET"; rq_RequestURI := gs "/x"; rq_Host := gs "a.example"; rq_Path := gs "/x";
     rq_RawQuery := [];
     rq_Header := upHeaders (U := ascii_unicode) (MR := list_range) demo_plan demo_get
       (generateLoopToken (AE := toy_aead) demo_http 100 (planUrl demo_plan) (gs "10.0.0.9")) None;
     rq_Body := None; rq_ContentLength := 0 |}.
(** A chunked upload of six bytes. *)
Definition demo_post : HttpRequest :=
  {| rq_ClientIp := gs "10.0.0.9"; rq_Method := gs "POST"; rq_RequestURI := gs "/x"; rq_Host := gs "a.example"; rq_Path := gs "/x";
     rq_RawQuery := []; rq_Header := ∅; rq_Body := Some (gs "abcdef", None); rq_ContentLength := -1 |}.

Abbreviation demo_serve := (ServeHTTP (U := ascii_unicode) (UR := simple_url) (AE := toy_aead) (MR := list_range) (NT := demo_net)).

Example demo_served :
  match demo_serve demo_http [] false 0 1 100 demo_get with
  | Ret (_, Served w, _) => fst <$> w_Sent w = Some 200 /\ w_Body w = gs "hello"
  | _ => False
  end.
Proof. vm_compute. done. Qed.

Lemma sets_no_empty k : sets_no ∅ k.
Proof. intros n v H. by rewrite lookup_empty in H. Qed.

Lemma ServeHTTP_response_clean_witness :
  exists h' w l hd, demo_serve demo_http [] false 0 1 100 demo_get = Ret (h', Served w, l) /\ w_Sent w = Some (200, hd) /\
    hd !! gs "X-A" = Some [gs "1"] /\ is_scrubbed (U := ascii_unicode) (gs "X-A") = false.
Proof.
  eexists _, _, _, _. split; [vm_compute; reflexivity|]. split; [reflexivity|]. split; [vm_compute; reflexivity|].
  eapply (ServeHTTP_response_clean (U := ascii_unicode) (UR := simple_url) (AE := toy_aead) (MR := list_range) (NT := demo_net)
    demo_http [] false 0 1 100 demo_get); [vm_compute; reflexivity|reflexivity|vm_compute; reflexivity].
Defined.

Lemma loop_detected_witness :
  exists w l, demo_serve demo_http [] false 0 1 179 demo_returned = Ret (demo_http, Served w, l) /\ fst <$> w_Sent w = Some 508.
Proof.
  apply (loop_detected (U := ascii_unicode) (UR := simple_url) (AE := toy_aead) (MR := list_range) (NT := demo_net)
    demo_http demo_plan demo_get None 100 179 demo_returned [] false 0 1);
    [lia|vm_compute; congruence|apply sets_no_empty|reflexivity..].
Defined.

Lemma breakers_ok_empty : breakers_ok ∅.
Proof. split; [rewrite map_size_empty; lia|apply map_Forall_empty]. Qed.

Lemma ServeHTTP_breakers_witness :
  exists h' w l, demo_serve demo_http [] false 0 1 100 demo_get = Ret (h', Served w, l) /\ breakers_ok (hh_circuitBreakers h').
Proof.
  eexists _, _, _. split; [vm_compute; reflexivity|].
  eapply (ServeHTTP_breakers (U := ascii_unicode) (UR := simple_url) (AE := toy_aead) (MR := list_range) (NT := demo_net)
    demo_http [] false 0 1 100 demo_get); [vm_compute; reflexivity|apply breakers_ok_empty].
Defined.

Lemma oversized_body_truncated_witness : exists b', readBody demo_plan demo_post = Forward (Some b') /\ len b' = 4.
Proof.
  destruct (oversized_body_truncated demo_plan demo_post (gs "abcdef") None) as (b' & H1 & H2 & _);
    [reflexivity..|vm_compute; split; congruence|]. exists b'. split; [exact H1|exact H2].
Defined.

(** A loop through an upstream comes back from the upstream's or the gateway's address, not
    from the client's: the token, which is bound to the client's address, does not verify,
    and the request is forwarded again. *)
Theorem loop_from_gateway_missed :
  let r' := {| rq_ClientIp := gs "172.17.0.1"; rq_Method := rq_Method demo_returned; rq_RequestURI := rq_RequestURI demo_returned; rq_Host := rq_Host demo_returned;
               rq_Path := rq_Path demo_returned; rq_RawQuery := []; rq_Header := rq_Header demo_returned; rq_Body := None; rq_ContentLength := 0 |} in
  match demo_serve demo_http [] false 0 1 101 r' with
  | Ret (_, Served w, _) => fst <$> w_Sent w = Some 200 /\ w_Body w = gs "hello"
  | _ => False
  end.
Proof. vm_compute. done. Qed.

Lemma fault_page_appended_witness :
  let nt := {| LookupHost := fun _ => inl []; ProxyFromEnvironment := fun _ => inr None; readFile := fun _ => inl []; X509KeyPair := fun _ _ => None;
               AppendCertsFromPEM := fun _ => true; newRequestError := fun _ _ => None; dialDirect := fun _ => None; dialProxy := fun _ _ => inl [];
               roundTrip := fun _ => inr {| up_Status := 206; up_Header := ∅; up_Body := gs "part"; up_ReadErr := Some (gs "reset") |} |} in
  exists w l, executeProxy (U := ascii_unicode) (UR := simple_url) (MR := list_range) (NT := nt) demo_http demo_plan demo_get (gs "t") None new_writer = Ret (Some (gs "reset"), w, l).
Proof.
  intros nt. destruct (fault_page_appended (U := ascii_unicode) (UR := simple_url) (MR := list_range) (NT := nt) demo_http demo_plan demo_get (gs "t") None
    {| up_Status := 206; up_Header := ∅; up_Body := gs "part"; up_ReadErr := Some (gs "reset") |} (gs "reset")) as (w & l & H & _); [reflexivity|reflexivity|cbn; lia|reflexivity|].
  exists w, l. exact H.
Defined.
