(* ===== verification/Sni.v ===== *)
(** * The SNI proxy ([pkg/proxy/sni.go])

    The parser of the server name in a TLS ClientHello, the decision of the handler
    (terminate, tunnel or drop), the replay of the bytes that were read, and the set
    of open connections.  Reading, dialling and copying are the network's
    ([HttpProxy.Net]); deadlines are not modelled. *)
From S2P Require Import Prelude GoStrings NetIP Platform Config Firewall Circuit RateLimiter AuditLog Secrets HttpProxy.

Definition MaxClientHelloSize : Z := 16384.
Definition MaxTlsExtensions : Z := 50.

(** ** Replayed connections *)

(** A connection whose first bytes were read already; [pc_Conn]: what the client
    still sends. *)
Record PrefixConn := { pc_Conn : bytes; pc_Prefix : bytes }.

(** [Read] into a buffer of [n] bytes; [m]: how much the socket would deliver. *)
Definition PrefixConn_Read (p : PrefixConn) (n m : nat) : bytes * PrefixConn :=
  if decide (len (pc_Prefix p) > 0) then
    (take n (pc_Prefix p), {| pc_Conn := pc_Conn p; pc_Prefix := drop n (pc_Prefix p) |})
  else (take (min n m) (pc_Conn p), {| pc_Conn := drop (min n m) (pc_Conn p); pc_Prefix := pc_Prefix p |}).

(** ** State *)

Record SniProxyService := {
  sn_cfg : ServerConfig;
  sn_port : Z;
  sn_idleTimeout : Z;
  sn_activeConnections : gset nat;
  sn_stopped : bool;
}.

Definition NewSniProxyService (cfg : ServerConfig) : SniProxyService :=
  {| sn_cfg := cfg; sn_port := default 443 (cfg_HttpsPort cfg);
     sn_idleTimeout := if decide (cfg_TcpIdleTimeoutMs cfg > 0) then cfg_TcpIdleTimeoutMs cfg * millisecond else 30 * second;
     sn_activeConnections := ∅; sn_stopped := false |}.

Definition sniUpdateConfig (s : SniProxyService) (newCfg : ServerConfig) : SniProxyService :=
  {| sn_cfg := newCfg; sn_port := default (sn_port s) (cfg_HttpsPort newCfg);
     sn_idleTimeout := if decide (cfg_TcpIdleTimeoutMs newCfg > 0) then cfg_TcpIdleTimeoutMs newCfg * millisecond else sn_idleTimeout s;
     sn_activeConnections := sn_activeConnections s; sn_stopped := sn_stopped s |}.

(** The connections that are closed; they stay in the set until their handlers end. *)
Definition sniStop (s : SniProxyService) : go (gset nat * SniProxyService) :=
  if sn_stopped s then Panic
  else Ret (sn_activeConnections s,
            {| sn_cfg := sn_cfg s; sn_port := sn_port s; sn_idleTimeout := sn_idleTimeout s;
               sn_activeConnections := sn_activeConnections s; sn_stopped := true |}).

Definition with_active (s : SniProxyService) (a : gset nat) : SniProxyService :=
  {| sn_cfg := sn_cfg s; sn_port := sn_port s; sn_idleTimeout := sn_idleTimeout s; sn_activeConnections := a; sn_stopped := sn_stopped s |}.
(** The registration of a client, by [acceptLoop], and of an upstream connection. *)
Definition sniTrack (s : SniProxyService) (conn : nat) : SniProxyService := with_active s ({[conn]} ∪ sn_activeConnections s).
Definition sniForget (s : SniProxyService) (conn : nat) : SniProxyService := with_active s (sn_activeConnections s ∖ {[conn]}).

(** ** The ClientHello *)

Definition err_hello : gostring := gs "TLS ClientHello out of bounds".
Definition err_ext : gostring := gs "SNI extension out of bounds".

(** The loop over the extensions.  The fuel is [MaxTlsExtensions] + 2: the counter
    stops it. *)
Fixpoint extensionsLoop (fuel : nat) (data : bytes) (extensionsEnd offset extCount : Z) : go (gostring + gostring) :=
  match fuel with
  | O => Hang
  | S fuel =>
      if decide (offset < extensionsEnd /\ offset + 4 <= len data) then
        if decide (extCount > MaxTlsExtensions) then
          Ret (inl (gs "SNI Parser bounded due to MAX_TLS_EXTENSIONS boundary hit"))
        else
          let extCount := extCount + 1 in
          extType ← get_uint16 data offset;
          extLength ← get_uint16 data (offset + 2);
          let offset := offset + 4 in
          if decide (extType = 0) then
            let extEnd := offset + extLength in
            if decide (extEnd > extensionsEnd \/ extEnd > len data) then Ret (inl err_ext)
            else
              let sniOffset := offset in
              if decide (sniOffset + 2 > extEnd) then Ret (inl err_ext)
              else
                let sniOffset := sniOffset + 2 in
                if decide (sniOffset + 1 > extEnd) then Ret (inl err_ext)
                else
                  nameType ← index data sniOffset;
                  if decide (nameType = 0) then
                    let sniOffset := sniOffset + 1 in
                    if decide (sniOffset + 2 > extEnd) then Ret (inl err_ext)
                    else
                      nameLength ← get_uint16 data sniOffset;
                      let sniOffset := sniOffset + 2 in
                      if decide (sniOffset + nameLength > extEnd) then Ret (inl err_ext)
                      else name ← slice data sniOffset (sniOffset + nameLength); Ret (inr name)
                  else extensionsLoop fuel data extensionsEnd (offset + extLength) extCount
          else extensionsLoop fuel data extensionsEnd (offset + extLength) extCount
      else Ret (inl (gs "no SNI extension found"))
  end.

Definition extractSNI (data : bytes) : go (gostring + gostring) :=
  let notHello := Ret (inl (gs "not a TLS ClientHello")) in
  if decide (len data < 6) then notHello
  else
    d0 ← index data 0; d5 ← index data 5;
    if decide (d0 <> 22 \/ d5 <> 1) then notHello
    else
      let offset := 43 in
      if decide (offset >= len data) then Ret (inl err_hello)
      else
        sessionIdLength ← index data offset;
        let offset := offset + (1 + sessionIdLength) in
        if decide (offset >= len data) then Ret (inl err_hello)
        else if decide (offset + 2 > len data) then Ret (inl err_hello)
        else
          cipherSuitesLength ← get_uint16 data offset;
          let offset := offset + (2 + cipherSuitesLength) in
          if decide (offset >= len data) then Ret (inl err_hello)
          else
            compressionMethodsLength ← index data offset;
            let offset := offset + (1 + compressionMethodsLength) in
            if decide (offset + 2 > len data) then Ret (inl err_hello)
            else
              extensionsLength ← get_uint16 data offset;
              let offset := offset + 2 in
              let extensionsEnd := offset + extensionsLength in
              if decide (extensionsEnd > len data) then Ret (inl err_hello)
              else extensionsLoop 52 data extensionsEnd offset 0.

(** ** The handler *)

Section Sni.
Context {U : Unicode} {UR : Url} {AE : Aead} {MR : MapRange} {NT : Net}.

Definition findHostConfig (cfg : ServerConfig) (hostname : gostring) : option HostConfig :=
  let normalizedName := ToLower (TrimSuffix hostname (gs ".")) in
  match cfg_Hosts cfg !! normalizedName with
  | Some val => Some val
  | None => wildcardLoop (cfg_Hosts cfg) (Split normalizedName dot)
  end.

Definition sniResolveHost (hostname : gostring) (cfg : ServerConfig) : gostring + list gostring :=
  match findHostConfig cfg hostname with
  | Some hostConfig =>
      let ips := addressRecords hostConfig in
      if decide (len ips > 0) then inr ips else LookupHost hostname
  | None => LookupHost hostname
  end.

(** What [tryTunnel] settles before it touches the network. *)
Inductive sni_plan : Type := Terminate (t : TlsSettings) | TunnelTo (targetIp : gostring) (targetPort : Z).

Definition sniTargets (cfg : ServerConfig) (hostConfig : option HostConfig) (portConfig : HostConfig) : list gostring :=
  match hc_TlsProxy portConfig with
  | Some tp => if decide (tp_TargetIp tp <> []) then [tp_TargetIp tp]
               else match hostConfig with Some hc => addressRecords hc | None => [] end
  | None => match hostConfig with Some hc => addressRecords hc | None => [] end
  end.

Definition planTunnel (cfg : ServerConfig) (sni : gostring) : gostring + sni_plan :=
  let fw := cfg_Firewall cfg in
  if decide (EvaluateDomain sni fw = DENY) then inl (gs "domain blocked by Firewall policy")
  else
    let hostConfig := findHostConfig cfg sni in
    let portConfig := match hostConfig with Some hc => hc | None => default empty_host (cfg_Hosts cfg !! gs "*") end in
    if match hc_HttpProxy portConfig with Some hp => hp_Enabled hp | None => false end then
      match cfg_Tls cfg with
      | None => inl (gs "L7 HTTPS termination requires a global TLS certificate configured")
      | Some tc => match loadTlsConfig tc with
                   | inl e => inl (gs "TLS load fault: " ++ e)
                   | inr t => inr (Terminate t)
                   end
      end
    else
      let targetIps := sniTargets cfg hostConfig portConfig in
      match (if decide (len targetIps = 0) then sniResolveHost sni cfg else inr targetIps) with
      | inl e => inl (gs "resolution fault on upstream: " ++ e)
      | inr [] => inl (gs "NXDOMAIN on upstream resolution")
      | inr (targetIp :: _) =>
          if decide (EvaluateOutbound targetIp fw = DENY) then inl (gs "Target IP " ++ targetIp ++ gs " blocked by Strict SSRF proxy policy")
          else if decide (EvaluateIp targetIp fw = DENY) then inl (gs "Target IP " ++ targetIp ++ gs " blocked by Firewall policy")
          else inr (TunnelTo targetIp (match hc_TlsProxy portConfig with
                                       | Some tp => if decide (tp_TargetPort tp <> 0) then tp_TargetPort tp else 443
                                       | None => 443
                                       end))
      end.

(** The end of a connection: dropped, handed to the HTTP proxy, or tunnelled, with
    the bytes that the other side gets first. *)
Inductive sni_outcome : Type :=
| Dropped
| HandedOff (t : TlsSettings) (c : PrefixConn)
| Tunnelled (t : tunnel) (first : bytes).

Definition with_listener (h : HttpHandler) (v : VirtualListener) : HttpHandler :=
  {| hh_cfg := hh_cfg h; hh_port := hh_port h; hh_idleTimeout := hh_idleTimeout h; hh_VirtualListener := v;
     hh_circuitBreakers := hh_circuitBreakers h; hh_activeConns := hh_activeConns h; hh_loopSecret := hh_loopSecret h;
     hh_stopped := hh_stopped h |}.

Definition tryTunnel (s : SniProxyService) (h : HttpHandler) (clientIp : gostring) (conn : nat) (sni : gostring) (clientHello rest : bytes)
  : go ((gostring + sni_outcome) * HttpHandler * list call) :=
  let log method code target := CallHTTP clientIp method sni (gs ":" ++ fmt_d (sn_port s)) code target in
  match planTunnel (sn_cfg s) sni with
  | inl e => Ret (inl e, h, [])
  | inr (Terminate t) =>
      v ← vlSend (hh_VirtualListener h) conn;
      match v with
      | Some v => Ret (inr (HandedOff t {| pc_Conn := rest; pc_Prefix := clientHello |}), with_listener h v,
                       [log (gs "TLS-TERM") 200 (gs "L7 Decrypted -> Virtual HTTP Router")])
      | None => Ret (inl (gs "Virtual listener capacity saturated. Connection dropped via resource constraint boundary."), h, [])
      end
  | inr (TunnelTo targetIp targetPort) =>
      let port := fmt_d targetPort in
      let logs := [log (gs "TLS-SNI") 200 (gs "Tunneled to " ++ plainAddr targetIp port)] in
      match openTunnel h (https_url (plainAddr sni port)) (plainAddr sni port) targetIp port with
      | inl e => Ret (inl e, h, logs)
      | inr t => Ret (inr (Tunnelled t clientHello), h, logs)
      end
  end.

(** [stream]: all that the client sends.  A short read ends the handler. *)
Definition handleConnection (s : SniProxyService) (h : HttpHandler) (clientIp : gostring) (conn : nat) (stream : bytes)
  : go (sni_outcome * HttpHandler * list call) :=
  let log code target := CallHTTP clientIp (gs "TLS") (gs "UNKNOWN") (gs ":" ++ fmt_d (sn_port s)) code target in
  if decide (len stream < 5) then Ret (Dropped, h, [])
  else
    let headerBuf := take 5 stream in
    h0 ← index headerBuf 0;
    if decide (h0 <> 22) then Ret (Dropped, h, [log 400 (gs "Dropped: Not a TLS Handshake record")])
    else
      recordLength ← get_uint16 headerBuf 3;
      if decide (recordLength > MaxClientHelloSize) then Ret (Dropped, h, [log 400 (gs "Dropped: Overlong TLS Record length")])
      else if decide (len (drop 5 stream) < recordLength) then Ret (Dropped, h, [])
      else
        let clientHelloBytes := headerBuf ++ take (Z.to_nat recordLength) (drop 5 stream) in
        let rest := drop (Z.to_nat recordLength) (drop 5 stream) in
        sni ← extractSNI clientHelloBytes;
        match sni with
        | inl _ => Ret (Dropped, h, [log 400 (gs "Dropped: No SNI detected")])
        | inr sni =>
            '(r, h, logs) ← tryTunnel s h clientIp conn sni clientHelloBytes rest;
            match r with
            | inr o => Ret (o, h, logs)
            | inl e => Ret (Dropped, h, logs ++ [CallHTTP clientIp (gs "TLS-SNI") sni (gs ":" ++ fmt_d (sn_port s)) 403 (gs "Blocked: " ++ e)])
            end
        end.

End Sni.

(** ** The parser is total *)

(** Read the next length field, whose bounds the code has checked. *)
Ltac read_word v Hv := let E := fresh in
  match goal with
  | |- context [get_uint16 ?d ?o] => destruct (get_uint16_total d o) as (v & E & Hv); [done|lia|lia|]; rewrite E, bind_Ret; clear E
  end.
Ltac read_byte v Hv := let E := fresh in
  match goal with
  | |- context [index ?d ?o] => destruct (index_total d o) as (v & E & Hv); [done|lia|]; rewrite E, bind_Ret; clear E; unfold is_byte in Hv
  end.

Lemma extensionsLoop_total fuel : forall data e offset c,
  bytes_ok data -> 0 <= offset -> e <= len data -> 0 <= c <= 51 -> 52 <= c + Z.of_nat fuel ->
  exists r, extensionsLoop fuel data e offset c = Ret r /\ (forall n, r = inr n -> len n <= len data).
Proof.
  induction fuel as [|fuel IH]; intros data e offset c Hd Ho He Hc Hf; [lia|]. cbn [extensionsLoop].
  destruct (decide (offset < e /\ offset + 4 <= len data)) as [Hin|]; [|by eexists].
  destruct (decide (c > MaxTlsExtensions)) as [|Hm]; [by eexists|]. unfold MaxTlsExtensions in Hm. cbn zeta.
  read_word ty Hty. read_word xl Hxl.
  assert (exists r, extensionsLoop fuel data e (offset + 4 + xl) (c + 1) = Ret r /\ (forall n, r = inr n -> len n <= len data)) as Hrec.
  { apply IH; try done; lia. }
  destruct (decide (ty = 0)); [|exact Hrec].
  do 3 (case_decide; [by eexists|]). read_byte nt Hnt. destruct (decide (nt = 0)); [|exact Hrec].
  case_decide; [by eexists|]. read_word nl Hnl. case_decide; [by eexists|].
  rewrite slice_Ret by lia. rewrite bind_Ret. eexists. split; [done|]. intros n [= <-]. len_solve.
Qed.

Lemma extractSNI_returns data :
  bytes_ok data -> exists r, extractSNI data = Ret r /\ (forall n, r = inr n -> len n <= len data).
Proof.
  intros Hd. unfold extractSNI. cbn zeta. case_decide; [by eexists|]. read_byte d0 H0. read_byte d5 H5.
  case_decide; [by eexists|]. case_decide; [by eexists|]. read_byte sl Hsl. case_decide; [by eexists|]. case_decide; [by eexists|].
  read_word cl Hcl. case_decide; [by eexists|]. read_byte ml Hml. case_decide; [by eexists|]. read_word el Hel.
  case_decide; [by eexists|]. apply extensionsLoop_total; try done; lia.
Qed.

(** The ClientHello parser returns, with a name or an error, on every sequence of
    bytes: no length field of the sender can make it read out of bounds or loop, and
    a name it returns is no longer than the record. *)
Theorem extractSNI_total data :
  bytes_ok data -> exists r, extractSNI data = Ret r /\ (forall n, r = inr n -> len n <= len data).
Proof. apply extractSNI_returns. Qed.

(** ** The parser finds the name *)

(** A ClientHello by its fields: RFC 8446, 4.1.2. *)
Record ClientHello := {
  ch_version : bytes;
  ch_random : bytes;
  ch_session : bytes;
  ch_ciphers : bytes;
  ch_compression : bytes;
  ch_extensions : list (Z * bytes);
}.

Definition enc_ext (e : Z * bytes) : bytes := be16 e.1 ++ be16 (len e.2) ++ e.2.
Definition enc_exts (l : list (Z * bytes)) : bytes := concat (map enc_ext l).
(** The record layer header, the handshake header (three length bytes) and the body. *)
Definition enc_hello (rec_header hs_length : bytes) (h : ClientHello) : bytes :=
  [22] ++ rec_header ++ [1] ++ hs_length ++ ch_version h ++ ch_random h ++
  (len (ch_session h) :: ch_session h) ++ (be16 (len (ch_ciphers h)) ++ ch_ciphers h) ++
  (len (ch_compression h) :: ch_compression h) ++ be16 (len (enc_exts (ch_extensions h))) ++ enc_exts (ch_extensions h).

Record hello_ok (h : ClientHello) : Prop := {
  ho_version : length (ch_version h) = 2%nat;
  ho_random : length (ch_random h) = 32%nat;
  ho_session : len (ch_session h) < 256;
  ho_ciphers : len (ch_ciphers h) < 65536;
  ho_compression : len (ch_compression h) < 256;
  ho_total : len (enc_exts (ch_extensions h)) < 65536;
  ho_exts : Forall (fun e => 0 <= e.1 < 65536 /\ bytes_ok e.2) (ch_extensions h);
}.

(** The payload of a server name extension: RFC 6066, section 3.  [None]: not a host
    name, the search goes on. *)
Definition sni_payload (d : bytes) : option (gostring + gostring) :=
  match d with
  | _ :: _ :: 0 :: a :: b :: name =>
      Some (if decide (of_be16 a b <= len name) then inr (take (Z.to_nat (of_be16 a b)) name) else inl err_ext)
  | _ :: _ :: 0 :: _ => Some (inl err_ext)
  | _ :: _ :: _ :: _ => None
  | _ => Some (inl err_ext)
  end.

(** The first host name among the first [n] extensions. *)
Fixpoint find_sni (n : nat) (l : list (Z * bytes)) {struct l} : gostring + gostring :=
  match l with
  | [] => inl (gs "no SNI extension found")
  | (ty, d) :: l =>
      match n with
      | O => inl (gs "SNI Parser bounded due to MAX_TLS_EXTENSIONS boundary hit")
      | S n => match (if decide (ty = 0) then sni_payload d else None) with
               | Some r => r
               | None => find_sni n l
               end
      end
  end.

Definition sni_ext (name : gostring) : Z * bytes := (0, be16 (len name + 3) ++ [0] ++ be16 (len name) ++ name).

Lemma get_uint16_at (p q : bytes) x y : get_uint16 (p ++ x :: y :: q) (len p) = Ret (of_be16 x y).
Proof.
  unfold get_uint16. rewrite decide_True by len_solve.
  replace (len p) with (len p + Z.of_nat 0) at 1 by lia. replace (len p + 1) with (len p + Z.of_nat 1) by lia.
  by rewrite !nth_app_len by (simpl; lia).
Qed.

Lemma slice_at (p q : bytes) n : 0 <= n <= len q -> slice (p ++ q) (len p) (len p + n) = Ret (take (Z.to_nat n) q).
Proof.
  intros Hn. rewrite slice_Ret by len_solve. replace (len p + n - len p) with n by lia. unfold len at 1. rewrite Nat2Z.id.
  by rewrite drop_app_length.
Qed.

(** The branch of the loop for the server name extension. *)
Definition sni_branch (data : bytes) (extensionsEnd offset extLength : Z) (continue : go (gostring + gostring)) : go (gostring + gostring) :=
  let extEnd := offset + extLength in
  if decide (extEnd > extensionsEnd \/ extEnd > len data) then Ret (inl err_ext)
  else if decide (offset + 2 > extEnd) then Ret (inl err_ext)
  else if decide (offset + 2 + 1 > extEnd) then Ret (inl err_ext)
  else
    nameType ← index data (offset + 2);
    if decide (nameType = 0) then
      if decide (offset + 2 + 1 + 2 > extEnd) then Ret (inl err_ext)
      else
        nameLength ← get_uint16 data (offset + 2 + 1);
        if decide (offset + 2 + 1 + 2 + nameLength > extEnd) then Ret (inl err_ext)
        else name ← slice data (offset + 2 + 1 + 2) (offset + 2 + 1 + 2 + nameLength); Ret (inr name)
    else continue.

Lemma sni_branch_payload p d q e k :
  bytes_ok d -> len p + len d <= e -> sni_branch (p ++ d ++ q) e (len p) (len d) k
    = match sni_payload d with Some r => Ret r | None => k end.
Proof.
  intros Hd He. unfold sni_branch. cbn zeta. rewrite decide_False by len_solve.
  destruct d as [|a [|b [|c d]]]; [do 1 (rewrite decide_True by len_solve); done| |
    rewrite decide_False, decide_True by len_solve; done|].
  { rewrite decide_True by len_solve. done. }
  do 2 (rewrite decide_False by len_solve).
  replace (p ++ (a :: b :: c :: d) ++ q) with ((p ++ [a; b]) ++ c :: d ++ q) by (by rewrite <- app_assoc).
  replace (len p + 2) with (len (p ++ [a; b])) by len_solve. rewrite index_app_mid, bind_Ret.
  destruct (decide (c = 0)) as [->|Hc]; [|by destruct c].
  destruct d as [|x [|y name]]; [by rewrite decide_True by len_solve..|]. rewrite decide_False by len_solve.
  replace ((p ++ [a; b]) ++ 0 :: (x :: y :: name) ++ q) with ((p ++ [a; b; 0]) ++ x :: y :: name ++ q) by (by rewrite <- !app_assoc).
  replace (len (p ++ [a; b]) + 1) with (len (p ++ [a; b; 0])) by len_solve. rewrite get_uint16_at, bind_Ret. cbn [sni_payload].
  assert (0 <= of_be16 x y < 65536) as Hxy.
  { rewrite !Forall_cons in Hd. apply of_be16_range; tauto. }
  destruct (decide (of_be16 x y <= len name)) as [Hn|Hn]; [rewrite decide_False by len_solve|by rewrite decide_True by len_solve].
  replace ((p ++ [a; b; 0]) ++ x :: y :: name ++ q) with ((p ++ [a; b; 0; x; y]) ++ name ++ q) by (by rewrite <- !app_assoc).
  replace (len (p ++ [a; b; 0]) + 2) with (len (p ++ [a; b; 0; x; y])) by len_solve.
  rewrite slice_at by len_solve. rewrite bind_Ret, take_app_le by (unfold len in *; lia). done.
Qed.

Lemma extensionsLoop_refines l : forall n fuel p q c,
  Forall (fun e => 0 <= e.1 < 65536 /\ bytes_ok e.2) l -> len (enc_exts l) < 65536 ->
  c + Z.of_nat n = 51 -> 0 <= c -> (n < fuel)%nat ->
  extensionsLoop fuel (p ++ enc_exts l ++ q) (len p + len (enc_exts l)) (len p) c = Ret (find_sni n l).
Proof.
  induction l as [|[ty d] l IH]; intros n fuel p q c Hl Ht Hc Hc0 Hf; (destruct fuel as [|fuel]; [lia|]); cbn [extensionsLoop].
  { rewrite decide_False; [done|]. unfold enc_exts. simpl. rewrite len_nil. lia. }
  apply Forall_cons in Hl as [[Hty Hd] Hl]. simpl in Hty, Hd.
  assert (enc_exts ((ty, d) :: l) = be16 ty ++ be16 (len d) ++ d ++ enc_exts l) as Ee.
  { unfold enc_exts. cbn [map concat]. unfold enc_ext at 1. cbn [fst snd]. by rewrite <- !app_assoc. }
  rewrite Ee in Ht |- *. assert (len d + len (enc_exts l) + 4 = len (be16 ty ++ be16 (len d) ++ d ++ enc_exts l)) as Hlen by len_solve.
  rewrite <- Hlen in Ht |- *. pose proof (len_nonneg d). pose proof (len_nonneg (enc_exts l)).
  rewrite decide_True by len_solve. unfold MaxTlsExtensions.
  destruct n as [|n]; [by rewrite decide_True by lia|]. rewrite decide_False by lia. cbn zeta.
  replace (p ++ (be16 ty ++ be16 (len d) ++ d ++ enc_exts l) ++ q) with (p ++ be16 ty ++ be16 (len d) ++ d ++ enc_exts l ++ q)
    by (by rewrite <- !app_assoc).
  rewrite get_uint16_app, bind_Ret.
  replace (p ++ be16 ty ++ be16 (len d) ++ d ++ enc_exts l ++ q) with ((p ++ be16 ty) ++ be16 (len d) ++ d ++ enc_exts l ++ q)
    by (by rewrite <- !app_assoc).
  replace (len p + 2) with (len (p ++ be16 ty)) by len_solve. rewrite get_uint16_app, bind_Ret.
  replace (uint16 ty) with ty by (unfold uint16; rewrite Z.mod_small; lia).
  replace (uint16 (len d)) with (len d) by (unfold uint16; rewrite Z.mod_small; lia).
  set (p' := (p ++ be16 ty) ++ be16 (len d)).
  replace ((p ++ be16 ty) ++ be16 (len d) ++ d ++ enc_exts l ++ q) with (p' ++ d ++ enc_exts l ++ q) by (unfold p'; by rewrite <- !app_assoc).
  replace (len p + 4) with (len p') by (unfold p'; len_solve).
  replace (len p + (len d + len (enc_exts l) + 4)) with (len (p' ++ d) + len (enc_exts l)) by (unfold p'; len_solve).
  assert (extensionsLoop fuel (p' ++ d ++ enc_exts l ++ q) (len (p' ++ d) + len (enc_exts l)) (len p' + len d) (c + 1)
    = Ret (find_sni n l)) as Hrec.
  { rewrite (app_assoc p' d). replace (len p' + len d) with (len (p' ++ d)) by len_solve. apply IH; try done; lia. }
  cbn [find_sni]. destruct (decide (ty = 0)); [|exact Hrec].
  trans (sni_branch (p' ++ d ++ enc_exts l ++ q) (len (p' ++ d) + len (enc_exts l)) (len p') (len d) (Ret (find_sni n l))).
  { rewrite <- Hrec. reflexivity. }
  rewrite sni_branch_payload by (try done; len_solve). by destruct (sni_payload d).
Qed.

(** Right-nested concatenations. *)
Ltac app_norm := repeat first [rewrite <- app_assoc | progress cbn [app]].

(** C6: On every well-formed ClientHello the offset arithmetic of the parser computes
    the abstract search through the extension list: the host name of the first
    server name extension that has one, among the first 51 extensions. *)
Theorem extractSNI_refines rh hl h rest :
  length rh = 4%nat -> length hl = 3%nat -> hello_ok h ->
  extractSNI (enc_hello rh hl h ++ rest) = Ret (find_sni 51 (ch_extensions h)).
Proof.
  intros Hrh Hhl Hh. destruct h as [ver rnd sid cs cm exts]. destruct Hh as [Hv Hr Hsid Hcs Hcm Ht He].
  cbn [ch_version ch_random ch_session ch_ciphers ch_compression ch_extensions] in *.
  set (data := enc_hello _ _ _ ++ rest).
  set (tail := be16 (len (enc_exts exts)) ++ enc_exts exts).
  set (p5 := [22] ++ rh). set (p43 := p5 ++ [1] ++ hl ++ ver ++ rnd).
  set (ps := p43 ++ len sid :: sid). set (pc := ps ++ be16 (len cs) ++ cs). set (pm := pc ++ len cm :: cm).
  assert (len p5 = 5) as L5 by (unfold p5; len_solve). assert (len p43 = 43) as L43 by (unfold p43; len_solve).
  assert (len ps = 43 + (1 + len sid)) as Ls by (unfold ps; len_solve).
  assert (len pc = 43 + (1 + len sid) + (2 + len cs)) as Lc by (unfold pc, be16; len_solve).
  assert (len pm = 43 + (1 + len sid) + (2 + len cs) + (1 + len cm)) as Lm by (unfold pm; len_solve).
  assert (data = pm ++ be16 (len (enc_exts exts)) ++ enc_exts exts ++ rest) as Em
    by (unfold data, enc_hello; cbn [ch_version ch_random ch_session ch_ciphers ch_compression ch_extensions]; unfold tail, pm, pc, ps, p43, p5; by app_norm).
  assert (data = pc ++ len cm :: cm ++ be16 (len (enc_exts exts)) ++ enc_exts exts ++ rest) as Ec
    by (rewrite Em; unfold pm; by app_norm).
  assert (exists q, data = ps ++ be16 (len cs) ++ q) as [q1 Es] by (rewrite Ec; unfold pc; eexists; by app_norm).
  assert (exists q, data = p43 ++ len sid :: q) as [q2 E43] by (rewrite Es; unfold ps; eexists; by app_norm).
  assert (exists q, data = p5 ++ 1 :: q) as [q3 E5] by (rewrite E43; unfold p43; eexists; by app_norm).
  assert (len data = len pm + 2 + len (enc_exts exts) + len rest) as Ld by (rewrite Em; unfold be16; len_solve).
  pose proof (len_nonneg sid). pose proof (len_nonneg cs). pose proof (len_nonneg cm). pose proof (len_nonneg (enc_exts exts)). pose proof (len_nonneg rest).
  unfold extractSNI. cbn zeta. rewrite decide_False by lia.
  assert (index data 0 = Ret 22) as -> by (rewrite index_Ret by lia; done). rewrite bind_Ret.
  assert (index data 5 = Ret 1) as -> by (rewrite E5, <- L5; apply index_app_mid). rewrite bind_Ret.
  rewrite decide_False by naive_solver. rewrite decide_False by lia.
  assert (index data 43 = Ret (len sid)) as -> by (rewrite E43, <- L43 at 1; apply index_app_mid). rewrite bind_Ret.
  rewrite !(decide_False (P := 43 + (1 + len sid) >= _)), (decide_False (P := 43 + (1 + len sid) + 2 > _)) by lia.
  assert (get_uint16 data (43 + (1 + len sid)) = Ret (len cs)) as ->.
  { rewrite Es, <- Ls, get_uint16_app. f_equal. unfold uint16. apply Z.mod_small. lia. }
  rewrite bind_Ret, decide_False by lia.
  assert (index data (43 + (1 + len sid) + (2 + len cs)) = Ret (len cm)) as -> by (rewrite Ec, <- Lc; apply index_app_mid).
  rewrite bind_Ret, decide_False by lia. rewrite <- Lm.
  assert (get_uint16 data (len pm) = Ret (len (enc_exts exts))) as ->.
  { rewrite Em, get_uint16_app. f_equal. unfold uint16. apply Z.mod_small. lia. }
  rewrite bind_Ret, decide_False by lia.
  replace data with ((pm ++ be16 (len (enc_exts exts))) ++ enc_exts exts ++ rest) by (rewrite Em; by rewrite <- app_assoc).
  replace (len pm + 2) with (len (pm ++ be16 (len (enc_exts exts)))) by (unfold be16; len_solve).
  apply extensionsLoop_refines; try done; lia.
Qed.

(** The ordinary case: the first server name extension comes after at most fifty
    others. *)
Lemma find_sni_first n pre name post :
  Forall (fun e => e.1 <> 0) pre -> (length pre < n)%nat -> len name < 65536 ->
  find_sni n (pre ++ sni_ext name :: post) = inr name.
Proof.
  revert n. induction pre as [|[ty d] pre IH]; intros n Hp Hn Hl; (destruct n as [|n]; [simpl in Hn; lia|]).
  - simpl. rewrite of_be16_be16. unfold uint16. rewrite Z.mod_small by (pose proof (len_nonneg name); lia).
    rewrite decide_True by lia. f_equal. unfold len. rewrite Nat2Z.id. apply firstn_all.
  - apply Forall_cons in Hp as [Hty Hp]. simpl in Hty, Hn |- *. rewrite decide_False by done. apply IH; try done; lia.
Qed.

(** ** Replay *)

(** Reads in sequence: the bytes that they deliver, and what is left. *)
Fixpoint PrefixConn_reads (p : PrefixConn) (sizes : list (nat * nat)) : bytes * PrefixConn :=
  match sizes with
  | [] => ([], p)
  | (n, m) :: sizes => let '(b, p) := PrefixConn_Read p n m in let '(bs, p) := PrefixConn_reads p sizes in (b ++ bs, p)
  end.

Lemma PrefixConn_Read_stream p n m b p' :
  PrefixConn_Read p n m = (b, p') -> b ++ pc_Prefix p' ++ pc_Conn p' = pc_Prefix p ++ pc_Conn p.
Proof.
  unfold PrefixConn_Read. case_decide as Hd; intros; simplify_eq; simpl.
  - by rewrite app_assoc, take_drop.
  - destruct (pc_Prefix p); [|len_solve]. simpl. apply take_drop.
Qed.
Lemma PrefixConn_Read_progress p n m b p' :
  PrefixConn_Read p n m = (b, p') -> (0 < n)%nat -> (0 < m)%nat -> pc_Prefix p ++ pc_Conn p <> [] -> (0 < length b)%nat.
Proof.
  unfold PrefixConn_Read. intros H Hn Hm Hne. case_decide as Hd; simplify_eq; rewrite length_take.
  - unfold len in Hd. lia.
  - destruct (pc_Prefix p) eqn:E; [|len_solve]. cbn [app] in Hne. destruct (pc_Conn p); [done|]. cbn [length]. lia.
Qed.

(** Read with any buffer sizes, the connection yields the bytes of [stream] from the first
    one on, once each and in order, and all of them after enough reads. *)
Definition delivers (c : PrefixConn) (stream : bytes) : Prop :=
  (forall sizes, (PrefixConn_reads c sizes).1 `prefix_of` stream) /\
  forall sizes, Forall (fun nm => (0 < nm.1)%nat /\ (0 < nm.2)%nat) sizes -> (length stream <= length sizes)%nat -> (PrefixConn_reads c sizes).1 = stream.

Lemma PrefixConn_delivers p : delivers p (pc_Prefix p ++ pc_Conn p).
Proof.
  split; intros sizes; revert p; induction sizes as [|[n m] sizes IH]; intros p; cbn [PrefixConn_reads fst].
  - apply prefix_nil.
  - destruct (PrefixConn_Read p n m) as [b p1] eqn:E. apply PrefixConn_Read_stream in E. rewrite <- E.
    specialize (IH p1). destruct (PrefixConn_reads p1 sizes) as [bs p2]. by apply prefix_app.
  - intros _ Hl. cbn [length] in Hl. symmetry. apply nil_length_inv. lia.
  - intros [[Hn Hm] Hs]%Forall_cons Hl. destruct (PrefixConn_Read p n m) as [b p1] eqn:E. pose proof (PrefixConn_Read_progress _ _ _ _ _ E Hn Hm) as Hp.
    apply PrefixConn_Read_stream in E. rewrite <- E in *. specialize (IH p1 Hs). destruct (PrefixConn_reads p1 sizes) as [bs p2]. cbn [fst] in *. f_equal. apply IH.
    rewrite length_app in Hl. cbn [length] in Hl. destruct b; [|cbn [length] in *; lia]. destruct (pc_Prefix p1 ++ pc_Conn p1); [cbn; lia|]. cbn in Hp. specialize (Hp ltac:(done)). lia.
Qed.

(** ** The handler's decision *)

Section Decision.
Context {U : Unicode} {UR : Url} {AE : Aead} {MR : MapRange} {NT : Net}.

(** The two proxies choose the same section for a name. *)
Lemma findHostConfig_hostSection cfg name : findHostConfig cfg name = hostSection cfg name.
Proof. done. Qed.

Lemma fmt_d_no_colon n : colon ∉ fmt_d n.
Proof.
  assert (forall k, 0 <= k -> colon ∉ itoa k) as Hi.
  { intros k Hk Hc. eapply Forall_forall in Hc; [|by apply itoa_digits]. simpl in Hc. lia. }
  unfold fmt_d. case_decide; [|apply Hi; lia]. change (gs "-") with [45]. apply not_elem_of_app. split; [set_solver|apply Hi; lia].
Qed.

Lemma planTunnel_allowed cfg sni p :
  planTunnel cfg sni = inr p ->
  EvaluateDomain sni (cfg_Firewall cfg) = ALLOW /\ (forall ip port, p = TunnelTo ip port -> safe_ip (cfg_Firewall cfg) ip).
Proof.
  unfold planTunnel. intros H. destruct (decide (EvaluateDomain sni _ = DENY)); [done|]. split; [by apply verdict_allow|].
  intros ip port ->. cbn zeta in H. destruct (match hc_HttpProxy _ with Some _ => _ | None => _ end).
  { destruct (cfg_Tls cfg); [|done]. by destruct (loadTlsConfig _). }
  destruct (if decide (len (sniTargets _ _ _) = 0) then _ else _) as [|[|tip ips]]; [done..|].
  destruct (decide (EvaluateOutbound tip _ = DENY)); [done|]. destruct (decide (EvaluateIp tip _ = DENY)); [done|].
  simplify_eq. split; by apply verdict_allow.
Qed.

Lemma openTunnel_guarded fw h u target ip port :
  safe_ip fw ip -> colon ∉ port -> openTunnel (NT := guarded fw) h u target ip port = openTunnel h u target ip port.
Proof. intros Hs Hp. unfold openTunnel. cbn [dialDirect guarded]. by rewrite allowedAddr_safe. Qed.

(** C23: Like the HTTP proxy, the SNI proxy connects directly only to addresses that
    the firewall and the outbound policy allow: a filter on the network that refuses
    all others is never noticed. *)
Theorem sni_ssrf_safe s h ip conn stream :
  handleConnection (NT := guarded (cfg_Firewall (sn_cfg s))) s h ip conn stream = handleConnection s h ip conn stream.
Proof.
  unfold handleConnection. case_decide; [done|]. cbn zeta. destruct (index _ _); [|done..]. rewrite !bind_Ret. case_decide; [done|].
  destruct (get_uint16 _ _); [|done..]. rewrite !bind_Ret. do 2 (case_decide; [done|]).
  destruct (extractSNI _) as [[|sni]| |]; [done| |done..]. rewrite !bind_Ret. f_equal.
  unfold tryTunnel. change (planTunnel (NT := guarded (cfg_Firewall (sn_cfg s)))) with planTunnel.
  destruct (planTunnel (sn_cfg s) sni) as [|[t|tip port]] eqn:E; [done..|]. cbn zeta.
  apply planTunnel_allowed in E as [_ E]. rewrite openTunnel_guarded; [done|by eapply E|apply fmt_d_no_colon].
Qed.

(** What an outcome other than a drop rests on. *)
Definition outcome_sound (cfg : ServerConfig) (hello rest : bytes) (o : sni_outcome) : Prop :=
  match o with
  | Dropped => False
  | HandedOff t c => delivers c (hello ++ rest)
  | Tunnelled (Direct addr) first => first = hello /\ allowedAddr (cfg_Firewall cfg) addr = true
  | Tunnelled (ViaProxy _) first => first = hello
  end.

Lemma tryTunnel_sound s h ip conn sni hello rest o h' l :
  tryTunnel s h ip conn sni hello rest = Ret (inr o, h', l) ->
  EvaluateDomain sni (cfg_Firewall (sn_cfg s)) = ALLOW /\ outcome_sound (sn_cfg s) hello rest o.
Proof.
  unfold tryTunnel. intros H. destruct (planTunnel (sn_cfg s) sni) as [|p] eqn:E; [done|]. apply planTunnel_allowed in E as [Ed Es].
  split; [done|]. destruct p as [t|tip port].
  - apply bind_Ret_inv in H as (v & _ & H). destruct v; simplify_eq. apply PrefixConn_delivers.
  - cbn zeta in H. unfold openTunnel in H. destruct (chosenProxy _ _).
    + destruct (dialProxy _ _); [done|]. destruct (Contains _ _); by simplify_eq.
    + destruct (dialDirect _); [done|]. simplify_eq. split; [done|].
      apply allowedAddr_safe; [by eapply Es|apply fmt_d_no_colon].
Qed.

(** C24: A connection is tunnelled or terminated only if the record is at most 16384
    bytes and its server name passes the domain policy.  The TLS server of a terminated
    connection reads the bytes that the client sent, from the first one on, once each and
    in order, whatever the sizes of its reads; the upstream of a tunnel is sent first
    exactly the bytes that were read from the client, and a direct tunnel goes to an
    address that both policies allow. *)
Theorem handleConnection_sound s h ip conn stream o h' l :
  handleConnection s h ip conn stream = Ret (o, h', l) -> o <> Dropped ->
  exists hello rest sni, stream = hello ++ rest /\ len hello <= 5 + MaxClientHelloSize /\
    extractSNI hello = Ret (inr sni) /\ EvaluateDomain sni (cfg_Firewall (sn_cfg s)) = ALLOW /\
    outcome_sound (sn_cfg s) hello rest o.
Proof.
  unfold handleConnection. cbn zeta. intros H Ho. case_decide; [by simplify_eq|].
  apply bind_Ret_inv in H as (h0 & _ & H). case_decide; [by simplify_eq|]. apply bind_Ret_inv in H as (rl & _ & H).
  do 2 (case_decide; [by simplify_eq|]). apply bind_Ret_inv in H as ([|sni] & He & H); [by simplify_eq|].
  apply bind_Ret_inv in H as ([[r h1] l1] & Ht & H). destruct r as [|o']; simplify_eq. apply tryTunnel_sound in Ht as [Hd Hs].
  eexists _, _, sni. split; [|split; [|done]].
  - by rewrite <- app_assoc, take_drop, take_drop.
  - unfold MaxClientHelloSize, len in *. rewrite length_app, !length_take. lia.
Qed.

(** The handler ends for every sequence of bytes that a client can send; it can
    only panic when it hands a connection to a listener that was closed. *)
Theorem handleConnection_total s h ip conn stream :
  bytes_ok stream -> vl_closed (hh_VirtualListener h) = false -> exists r, handleConnection s h ip conn stream = Ret r.
Proof.
  intros Hb Hv. unfold handleConnection. cbn zeta. case_decide; [by eexists|].
  assert (bytes_ok (take 5 stream)) as Ht by by apply Forall_take. assert (len (take 5 stream) = 5) by len_solve.
  read_byte h0 Hh0. case_decide; [by eexists|]. read_word rl Hrl. do 2 (case_decide; [by eexists|]).
  destruct (extractSNI_returns (take 5 stream ++ take (Z.to_nat rl) (drop 5 stream))) as (r & E & _).
  { apply Forall_app. split; [done|]. by apply Forall_take, Forall_drop. }
  rewrite E, bind_Ret. destruct r as [|sni]; [by eexists|]. unfold tryTunnel.
  destruct (planTunnel _ _) as [|[t|tip port]]; [by eexists| |].
  - unfold vlSend. rewrite Hv. case_decide; by eexists.
  - cbn zeta. destruct (openTunnel _ _ _ _ _); by eexists.
Qed.

(** The connection set is what it was once both ends are forgotten. *)
Lemma track_forget s c u :
  c ∉ sn_activeConnections s -> u ∉ sn_activeConnections s -> c <> u ->
  sn_activeConnections (sniForget (sniForget (sniTrack (sniTrack s c) u) u) c) = sn_activeConnections s.
Proof. simpl. set_solver. Qed.

(** A closed listener: the send panics. *)
Lemma handoff_after_stop_panics v c : vlSend (vlClose v) c = Panic.
Proof. done. Qed.

End Decision.

(** ** Demonstrations *)

Definition demo_hello (name : gostring) : ClientHello :=
  {| ch_version := [3; 3]; ch_random := replicate 32 7; ch_session := [1; 2]; ch_ciphers := [19; 1]; ch_compression := [0];
     ch_extensions := [(10, [0; 29]); sni_ext name; (16, [])] |}.
Definition demo_stream (name : gostring) : bytes :=
  let h := enc_hello [3; 1; 0; 0] [0; 0; 0] (demo_hello name) in [22; 3; 1] ++ be16 (len h - 5) ++ drop 5 h ++ gs "more".
Definition demo_sni : SniProxyService := NewSniProxyService demo_http_cfg.

Abbreviation demo_handle :=
  (handleConnection (U := ascii_unicode) (UR := simple_url) (NT := demo_net) demo_sni demo_http (gs "10.0.0.9") 1).

Example demo_tunnelled :
  match demo_handle (demo_stream (gs "a.example")) with
  | Ret (Tunnelled (Direct addr) first, _, _) => addr = gs "93.184.216.34:443" /\ first ++ gs "more" = demo_stream (gs "a.example")
  | _ => False
  end.
Proof. vm_compute. done. Qed.

Lemma extractSNI_total_witness :
  exists r, extractSNI (replicate 60 22) = Ret r /\ (forall n, r = inr n -> len n <= len (replicate 60 22)).
Proof. apply (extractSNI_total (replicate 60 22)). by apply (bool_decide_eq_true_1 _). Defined.

Lemma extractSNI_refines_witness :
  extractSNI (enc_hello [3; 1; 0; 0] [0; 0; 0] (demo_hello (gs "a.example")) ++ []) = Ret (inr (gs "a.example")).
Proof.
  rewrite (extractSNI_refines [3; 1; 0; 0] [0; 0; 0] (demo_hello (gs "a.example")) []); [vm_compute; reflexivity|reflexivity..|].
  split; try (vm_compute; reflexivity). by apply (bool_decide_eq_true_1 _).
Defined.

Lemma handleConnection_sound_witness :
  exists o h' l sni, demo_handle (demo_stream (gs "a.example")) = Ret (o, h', l) /\
    EvaluateDomain (U := ascii_unicode) sni (cfg_Firewall (sn_cfg demo_sni)) = ALLOW.
Proof.
  eexists _, _, _.
  destruct (handleConnection_sound (U := ascii_unicode) (UR := simple_url) (NT := demo_net) demo_sni demo_http (gs "10.0.0.9") 1
    (demo_stream (gs "a.example")) _ _ _ ltac:(vm_compute; reflexivity)) as (hello & rest & sni & _ & _ & _ & Hd & _); [discriminate|].
  exists sni. split; [vm_compute; reflexivity|exact Hd].
Defined.

Lemma handleConnection_total_witness : exists r, demo_handle (demo_stream (gs "a.example")) = Ret r.
Proof.
  apply (handleConnection_total (U := ascii_unicode) (UR := simple_url) (NT := demo_net) demo_sni demo_http (gs "10.0.0.9") 1
    (demo_stream (gs "a.example"))); [by apply (bool_decide_eq_true_1 _)|reflexivity].
Defined.

(** A server name with a line break: an upstream proxy behind [dialProxy] gets a
    header line of the client's making. *)
Definition demo_evil : gostring := gs "a.example:443 HTTP/1.1" ++ [13; 10] ++ gs "X-Injected: 1" ++ [13; 10] ++ gs "X: y".
Definition demo_proxied : Net :=
  {| LookupHost := fun _ => inr [gs "93.184.216.34"]; ProxyFromEnvironment := fun _ => inr (Some (https_url (gs "proxy:3128")));
     readFile := fun _ => inl (gs "absent"); X509KeyPair := fun _ _ => None; AppendCertsFromPEM := fun _ => true;
     newRequestError := fun _ _ => None; roundTrip := fun _ => inl (gs "refused"); dialDirect := fun _ => None;
     dialProxy := fun _ req => if Contains req ([13; 10] ++ gs "X-Injected: 1" ++ [13; 10]) then inr (gs "HTTP/1.1 200 OK") else inl (gs "not injected") |}.

Lemma sni_injects_header :
  match handleConnection (U := ascii_unicode) (UR := simple_url) (NT := demo_proxied) demo_sni demo_http (gs "10.0.0.9") 1 (demo_stream demo_evil) with
  | Ret (Tunnelled (ViaProxy _) _, _, _) => True
  | _ => False
  end.
Proof. vm_compute. done. Qed.
