(* ===== verification/Validation.v ===== *)
(** * Validation of the configuration ([pkg/config/validation.go])

    The checks in the order of the code, each with its error text, the defaults
    that a zero value gets and the normalisation of the host keys.  [url.Parse] is
    the class [Url] and the iteration order of maps the class [MapRange]. *)
From S2P Require Import Prelude GoStrings NetIP Platform JsonText GoText Config Json Wire Server.

(** ** Errors: the first one ends the validation *)

#[local] Instance sum_ret {E} : MRet (sum E) := fun A a => inr a.
#[local] Instance sum_bind {E} : MBind (sum E) := fun A B f m => match m with inl e => inl e | inr a => f a end.

Abbreviation result := (sum gostring).
Definition ok : result unit := inr tt.
Definition fail {A} (msg : gostring) : result A := inl msg.
Definition require (P : Prop) `{!Decision P} (msg : gostring) : result unit := if decide P then ok else fail msg.

(** [for _, x := range l { if err := f(x); err != nil { return err } }] *)
Fixpoint each {A} (f : A -> result unit) (l : list A) : result unit :=
  match l with
  | [] => ok
  | x :: l => _ ← f x; each f l
  end.

Definition option_check {A} (f : A -> result unit) (o : option A) : result unit :=
  match o with None => ok | Some a => f a end.

(** ** Names and addresses *)

Definition is_alnum (c : Z) : bool := bool_decide (97 <= c <= 122 \/ 65 <= c <= 90 \/ 48 <= c <= 57).
Definition is_word (c : Z) : bool := is_alnum c || bool_decide (c = 95).
Definition is_word_dash (c : Z) : bool := is_word c || bool_decide (c = 45).

(** [labelRegex] *)
Definition labelRegex (s : gostring) : bool :=
  match s with
  | [] => false
  | [c] => is_word c
  | c :: rest => is_word c && forallb is_word_dash (removelast rest) && is_alnum (List.last rest 0) && bool_decide (len rest <= 62)
  end.
(** [headerNameRegex] *)
Definition headerNameRegex (s : gostring) : bool :=
  bool_decide (s <> []) && forallb (fun c => is_alnum c || bool_decide (c = 45)) s.

Definition IsValidHostname (hostname : gostring) : bool :=
  if decide (len hostname > 253 \/ len hostname = 0) then false
  else
    let parts := Split hostname dot in
    if decide (len parts > 16) then false
    else forallb (fun part => negb (bool_decide (len part = 0) || bool_decide (len part > 63) || negb (labelRegex part))) parts.

Definition IsValidIPv4 (ip : gostring) : bool :=
  match ParseIP ip with Some a => bool_decide (is_Some (To4 a)) | None => false end.
Definition IsValidIPv6 (ip : gostring) : bool :=
  match ParseIP ip with Some a => bool_decide (To4 a = None) | None => false end.

(** The methods of [net.IP] that follow are modelled on 16-byte addresses. *)
Definition IsLoopback (ip : bytes) : bool :=
  match To4 ip with Some b => bool_decide (nth 0 b 0 = 127) | None => bool_decide (ip = replicate 15 0 ++ [1]) end.
Definition IsLinkLocalUnicast (ip : bytes) : bool :=
  match To4 ip with
  | Some b => bool_decide (nth 0 b 0 = 169 /\ nth 1 b 0 = 254)
  | None => bool_decide (len ip = 16 /\ nth 0 ip 0 = 254 /\ Z.land (nth 1 ip 0) 192 = 128)
  end.
Definition IsLinkLocalMulticast (ip : bytes) : bool :=
  match To4 ip with
  | Some b => bool_decide (nth 0 b 0 = 224 /\ nth 1 b 0 = 0 /\ nth 2 b 0 = 0)
  | None => bool_decide (len ip = 16 /\ nth 0 ip 0 = 255 /\ Z.land (nth 1 ip 0) 15 = 2)
  end.

Section Validation.
Context {U : Unicode} {UR : Url} {MR : MapRange}.

Definition IsPrivateOrLoopbackIP (ipStr : gostring) : bool :=
  match ParseIP ipStr with
  | None => true
  | Some ip =>
      if IsLoopback ip || IsLinkLocalUnicast ip || IsLinkLocalMulticast ip then true
      else match To4 ip with
           | Some b =>
               let b0 := nth 0 b 0 in let b1 := nth 1 b 0 in
               bool_decide (b0 = 10 \/ (b0 = 172 /\ b1 >= 16 /\ b1 <= 31) \/ (b0 = 192 /\ b1 = 168) \/ (b0 = 100 /\ b1 >= 64 /\ b1 <= 127))
           | None => HasPrefix (ToLower (IPString ip)) (gs "fc00:") || HasPrefix (ToLower (IPString ip)) (gs "fd00:")
           end
  end.

Definition ValidatePort (port : Z) : result unit :=
  if decide (port < 1 \/ port > 65535) then fail (gs "invalid port: " ++ fmt_d port ++ gs " (must be 1-65535)") else ok.

(** ** Records and host sections *)

Definition validPriority (o : option Z) : bool :=
  match o with None => false | Some p => bool_decide (0 <= p <= 65535) end.

Definition validateTxtChunk (d : gostring) : result unit :=
  if decide (len d > 255) then fail (gs "TXT record data chunk exceeds 255 bytes")
  else if ContainsAny d [13; 10] then fail (gs "TXT record data contains CRLF") else ok.

Definition ValidateDnsRecord (r : DnsRecord) : result unit :=
  let t := rec_Type r in
  if decide (t = gs "A") then
    if IsValidIPv4 (rec_Address r) then ok else fail (gs "invalid IPv4 address: " ++ rec_Address r)
  else if decide (t = gs "AAAA") then
    if IsValidIPv6 (rec_Address r) then ok else fail (gs "invalid IPv6 address: " ++ rec_Address r)
  else if decide (t = gs "CNAME" \/ t = gs "NS" \/ t = gs "PTR") then
    if IsValidHostname (rec_Target r) then ok
    else fail (gs "invalid hostname target for " ++ t ++ gs ": " ++ rec_Target r)
  else if decide (t = gs "TXT") then
    if decide (len (rec_Data r) = 0) then fail (gs "TXT record must contain data")
    else if decide (len (rec_Data r) > 128) then fail (gs "TXT record chunks density exceeds allocation boundary policy")
    else
      _ ← each validateTxtChunk (rec_Data r);
      if decide (foldr (fun d n => len d + n) 0 (rec_Data r) > 2048) then fail (gs "aggregate TXT record data size exceeds 2048 bytes") else ok
  else if decide (t = gs "MX") then
    if negb (IsValidHostname (rec_Exchange r)) then fail (gs "invalid MX exchange: " ++ rec_Exchange r)
    else if negb (validPriority (rec_Priority r)) then fail (gs "invalid MX priority") else ok
  else if decide (t = gs "SRV") then
    if negb (IsValidHostname (rec_Target r)) then fail (gs "invalid SRV target: " ++ rec_Target r)
    else if negb (validPriority (rec_Priority r)) then fail (gs "invalid SRV priority")
    else if negb (validPriority (rec_Weight r)) then fail (gs "invalid SRV weight")
    else match rec_Port r with None => fail (gs "invalid SRV port") | Some p => ValidatePort p end
  else fail (gs "unsupported DNS record type: " ++ t).

Definition ValidateTls (tls : option TlsConfig) : result unit :=
  match tls with
  | None => ok
  | Some t =>
      if decide (len (tls_Cert t) = 0) then fail (gs "TLS cert cannot be empty")
      else if decide (len (tls_Key t) = 0) then fail (gs "TLS key cannot be empty")
      else if decide (tls_ServerName t <> []) then
        if IsValidHostname (tls_ServerName t) then ok else fail (gs "invalid TLS serverName: " ++ tls_ServerName t)
      else ok
  end.

Definition validateHeader (kv : gostring * gostring) : result unit :=
  let '(k, v) := kv in
  if decide (len k > 256 \/ headerNameRegex k = false) then fail (gs "invalid proxy header name: " ++ k)
  else if ContainsAny v [13; 10] then fail (gs "proxy header " ++ k ++ gs " contains CRLF")
  else if decide (len v > 8192) then fail (gs "proxy header " ++ k ++ gs " is too long") else ok.

Definition ValidateHttpProxy (hp : option HttpProxyConfig) : result unit :=
  match hp with
  | None => ok
  | Some hp =>
      _ ← (if hp_Enabled hp then
             if decide (len (hp_Upstream hp) = 0) then fail (gs "HTTP proxy requires 'upstream' URL when enabled")
             else if ContainsAny (hp_Upstream hp) [13; 10] then fail (gs "HTTP proxy upstream URL contains CRLF")
             else if decide (len (hp_Upstream hp) > 8192) then fail (gs "HTTP proxy upstream URL too long")
             else match url_Parse (hp_Upstream hp) with
                  | inl e => fail (gs "failed to parse upstream URL: " ++ e)
                  | inr _ => ok
                  end
           else ok);
      if decide (Z.of_nat (size (hp_Headers hp)) > 64) then fail (gs "HTTP proxy metadata boundary capacity exceeded")
      else
        _ ← each validateHeader (range (hp_Headers hp));
        if decide (hp_MaxRequestBodyBytes hp < -1) then
          fail (gs "invalid maxRequestBodyBytes value (must be >= -1, where 0 or -1 disables the limit)")
        else ValidateTls (hp_ClientTls hp)
  end.

Definition ValidateTlsProxy (tp : option TlsProxyConfig) : result unit :=
  match tp with
  | None => ok
  | Some tp =>
      _ ← (if decide (tp_TargetPort tp <> 0) then ValidatePort (tp_TargetPort tp) else ok);
      if decide (tp_TargetIp tp <> []) then
        if IsValidIPv4 (tp_TargetIp tp) || IsValidIPv6 (tp_TargetIp tp) then ok
        else fail (gs "invalid TLS proxy target IP: " ++ tp_TargetIp tp)
      else ok
  end.

Definition ValidateRedirect (rc : option RedirectConfig) : result unit :=
  match rc with
  | None => ok
  | Some rc =>
      if negb (rd_Enabled rc) then ok
      else if decide (rd_Code rc ∉ [301; 302; 303; 307; 308]) then fail (gs "invalid redirect status code: " ++ fmt_d (rd_Code rc))
      else if ContainsAny (rd_Target rc) [13; 10] then fail (gs "redirect target URL contains CRLF")
      else if decide (len (rd_Target rc) > 8192) then fail (gs "redirect target URL too long")
      else match url_Parse (rd_Target rc) with
           | inl _ => fail (gs "invalid redirect target URL: " ++ rd_Target rc)
           | inr u => if decide (u_Scheme u = [] \/ u_Host u = []) then fail (gs "invalid redirect target URL: " ++ rd_Target rc) else ok
           end
  end.

(** ** The whole configuration *)

Definition validateDomainLen (d : gostring) : result unit := require (len d <= 253) (gs "firewall domain too long").
Definition validateRange (which : gostring) (r : gostring) : result unit :=
  match ParseCIDR r with Some _ => ok | None => fail (gs "invalid firewall " ++ which ++ gs " CIDR: " ++ r) end.
Definition validateIp (which : gostring) (ip : gostring) : result unit :=
  if IsValidIPv4 ip || IsValidIPv6 ip then ok else fail (gs "invalid firewall " ++ which ++ gs " IP: " ++ ip).

Definition validateFirewall (f : FirewallConfig) : result unit :=
  if decide (fw_DefaultPolicy f <> gs "allow" /\ fw_DefaultPolicy f <> gs "deny") then
    fail (gs "invalid firewall defaultPolicy: " ++ fw_DefaultPolicy f)
  else if decide (len (fw_AllowlistDomains f) > 1000 \/ len (fw_BlocklistDomains f) > 1000) then
    fail (gs "firewall domain metadata count policy limit violation")
  else
    _ ← each validateDomainLen (fw_AllowlistDomains f);
    _ ← each validateDomainLen (fw_BlocklistDomains f);
    if decide (len (fw_AllowlistRanges f) > 1000 \/ len (fw_BlocklistRanges f) > 1000) then
      fail (gs "firewall network range capacity limit violation")
    else
      _ ← each (validateRange (gs "allowlist")) (fw_AllowlistRanges f);
      _ ← each (validateRange (gs "blocklist")) (fw_BlocklistRanges f);
      if decide (len (fw_AllowlistIps f) > 1000 \/ len (fw_BlocklistIps f) > 1000) then
        fail (gs "firewall address registry size limit violation")
      else
        _ ← each (validateIp (gs "allowlist")) (fw_AllowlistIps f);
        each (validateIp (gs "blocklist")) (fw_BlocklistIps f).

(** The control plane's TLS section is only looked at when it has a port. *)
Definition validateControlPlane (cp : ControlPlaneConfig) : result unit :=
  if decide (cp_Port cp <> 0) then _ ← ValidatePort (cp_Port cp); ValidateTls (cp_Tls cp) else ok.

(** The part that changes nothing. *)
Definition validateSections (c : ServerConfig) : result unit :=
  _ ← ValidatePort (cfg_Port c);
  _ ← option_check ValidatePort (cfg_HttpPort c);
  _ ← option_check ValidatePort (cfg_HttpsPort c);
  _ ← option_check ValidatePort (cfg_DotPort c);
  _ ← option_check ValidatePort (cfg_DohPort c);
  _ ← (if decide (cfg_FallbackDns c <> []) then
         if IsValidIPv4 (cfg_FallbackDns c) then ok
         else fail (gs "invalid fallback DNS: " ++ cfg_FallbackDns c ++ gs " (must be IPv4)")
       else ok);
  _ ← ValidateTls (cfg_Tls c);
  _ ← option_check validateFirewall (cfg_Firewall c);
  option_check validateControlPlane (cfg_ControlPlane c).

(** A number outside [lo, hi] is an error, but zero becomes the default. *)
Definition bounded_default (lo hi dflt v : Z) (msg : gostring) : result Z :=
  if decide (v < lo \/ v > hi) then (if decide (v = 0) then inr dflt else fail msg) else inr v.
Definition bounded (lo hi v : Z) (msg : gostring) : result Z :=
  if decide (v < lo \/ v > hi) then fail msg else inr v.

Definition normalizeKey (key : gostring) : gostring := ToLower (TrimSuffix key (gs ".")).

(** The key of a host section: [*], a wildcard or a name. *)
Definition validateKey (key : gostring) : result unit :=
  let normalized := normalizeKey key in
  if decide (normalized <> gs "*") then
    if HasPrefix normalized (gs "*.") then
      if IsValidHostname (drop 2 normalized) then ok else fail (gs "invalid wildcard host in configuration key: " ++ key)
    else if IsValidHostname normalized then ok else fail (gs "invalid hostname in configuration key: " ++ key)
  else ok.

Definition validateHost (kv : gostring * HostConfig) : result unit :=
  let '(key, hc) := kv in
  _ ← validateKey key;
  if decide (len (hc_Records hc) > 64) then fail (gs "maximum records density capacity exceeded per routing label unit")
  else
    _ ← each ValidateDnsRecord (hc_Records hc);
    _ ← ValidateHttpProxy (hc_HttpProxy hc);
    _ ← ValidateTlsProxy (hc_TlsProxy hc);
    ValidateRedirect (hc_Redirect hc).

(** [normalizedHosts]: of two keys with the same normal form the one visited last wins. *)
Fixpoint normalizeHosts (l : list (gostring * HostConfig)) (acc : gmap gostring HostConfig) : result (gmap gostring HostConfig) :=
  match l with
  | [] => inr acc
  | (key, hc) :: l => _ ← validateHost (key, hc); normalizeHosts l (<[normalizeKey key := hc]> acc)
  end.

Definition ValidateServerConfig (c : ServerConfig) : result ServerConfig :=
  _ ← validateSections c;
  size ← bounded_default 1 100000 1024 (cfg_DnsCacheMaxSize c) (gs "invalid dnsCacheMaxSize (1-100000)");
  _ ← bounded 0 3600000 (cfg_DnsCacheTtlMs c) (gs "invalid dnsCacheTtlMs (0-3600000)");
  conns ← bounded_default 1 10000 100 (cfg_MaxTcpConnections c) (gs "invalid maxTcpConnections (1-10000)");
  idle ← bounded_default 1000 600000 30000 (cfg_TcpIdleTimeoutMs c) (gs "invalid tcpIdleTimeoutMs (1000-600000)");
  _ ← bounded 0 100000 (cfg_RateLimitMaxRequests c) (gs "invalid rateLimitMaxRequests (0-100000)");
  window ← bounded_default 100 60000 1000 (cfg_RateLimitWindowMs c) (gs "invalid rateLimitWindowMs (100-60000)");
  if decide (Z.of_nat (base.size (cfg_Hosts c)) > 5000) then fail (gs "hosts mapping allocation policy volume violation")
  else
    hosts ← normalizeHosts (range (cfg_Hosts c)) ∅;
    inr {| cfg_Port := cfg_Port c; cfg_HttpPort := cfg_HttpPort c; cfg_HttpsPort := cfg_HttpsPort c; cfg_Tls := cfg_Tls c;
           cfg_DotPort := cfg_DotPort c; cfg_DohPort := cfg_DohPort c; cfg_FallbackDns := cfg_FallbackDns c;
           cfg_Firewall := cfg_Firewall c; cfg_ControlPlane := cfg_ControlPlane c; cfg_DnsCacheMaxSize := size;
           cfg_DnsCacheTtlMs := cfg_DnsCacheTtlMs c; cfg_MaxTcpConnections := conns; cfg_TcpIdleTimeoutMs := idle;
           cfg_RateLimitMaxRequests := cfg_RateLimitMaxRequests c; cfg_RateLimitWindowMs := window;
           cfg_UpstreamHttpProxy := cfg_UpstreamHttpProxy c; cfg_UpstreamHttpsProxy := cfg_UpstreamHttpsProxy c;
           cfg_UpstreamNoProxy := cfg_UpstreamNoProxy c; cfg_Hosts := hosts |}.

(** [unmarshal]: [json.Unmarshal], with the text of its error. *)
Definition ParseServerConfig {JL : JsonLib} (data : bytes) : result ServerConfig :=
  c ← unmarshalServerConfig data; ValidateServerConfig c.

End Validation.

(** ** The error monad *)

Lemma bind_ok {A B} (m : result A) (f : A -> result B) b : (x ← m; f x) = inr b <-> exists a, m = inr a /\ f a = inr b.
Proof. destruct m as [e|a]; simpl; [split; [done|by intros (? & ? & ?)]|]. split; [eauto|by intros (? & [= ->] & ?)]. Qed.

Lemma bind_unit {B} (m : result unit) (k : result B) b : (_ ← m; k) = inr b <-> m = ok /\ k = inr b.
Proof. rewrite bind_ok. split; [intros ([] & ? & ?); done|intros [-> ?]; by exists tt]. Qed.

Lemma each_ok {A} (f : A -> result unit) l : each f l = ok <-> Forall (fun x => f x = ok) l.
Proof.
  induction l as [|x l IH]; [done|]. cbn [each]. unfold ok at 1. rewrite bind_unit, Forall_cons.
  fold (@ok). change (inr tt) with ok. by rewrite IH.
Qed.

Lemma if_ok (P : Prop) `{!Decision P} {A} (m : result A) (b : A) msg :
  (if decide P then fail msg else m) = inr b <-> ~ P /\ m = inr b.
Proof. case_decide; split; naive_solver. Qed.

Lemma if_ok_bool (c : bool) {A} (m : result A) (b : A) msg : (if c then fail msg else m) = inr b <-> c = false /\ m = inr b.
Proof. destruct c; split; naive_solver. Qed.

Lemma ok_if_bool (c : bool) msg : (if c then ok else fail msg) = ok <-> c = true.
Proof. by destruct c. Qed.

(** ** Host names *)

Definition name_char (c : Z) : bool := is_word_dash c || bool_decide (c = dot).

Lemma is_alnum_word_dash c : is_alnum c = true -> is_word_dash c = true.
Proof. unfold is_word_dash, is_word. by intros ->. Qed.
Lemma is_word_word_dash c : is_word c = true -> is_word_dash c = true.
Proof. unfold is_word_dash. by intros ->. Qed.

Lemma labelRegex_spec s :
  labelRegex s = true -> s <> [] /\ len s <= 63 /\ Forall (fun c => is_word_dash c = true) s.
Proof.
  destruct s as [|c [|d rest]]; [done| |].
  - intros H. split; [done|]. split; [by vm_compute|]. constructor; [by apply is_word_word_dash|constructor].
  - cbn [labelRegex]. rewrite !andb_true_iff, bool_decide_eq_true, forallb_forall. intros [[[Hc Hm] Hl] Hn].
    split; [done|]. split; [rewrite len_cons; lia|]. constructor; [by apply is_word_word_dash|].
    assert (d :: rest <> []) as Hne by done. rewrite (app_removelast_last 0 Hne). apply Forall_app. split.
    + apply Forall_forall. intros x Hx. apply Hm. by apply list_elem_of_In.
    + constructor; [by apply is_alnum_word_dash|constructor].
Qed.

Lemma IsValidHostname_spec s :
  IsValidHostname s = true <->
  1 <= len s <= 253 /\ len (Split s dot) <= 16 /\ Forall (fun l => labelRegex l = true) (Split s dot).
Proof.
  unfold IsValidHostname. case_decide as Hl; [split; [done|intros (? & _); lia]|].
  pose proof (len_nonneg s). case_decide as Hp; [split; [done|intros (_ & ? & _); lia]|].
  rewrite forallb_forall, Forall_forall. setoid_rewrite <- list_elem_of_In. split.
  - intros Hf. split; [lia|]. split; [lia|]. intros x Hx. specialize (Hf x Hx).
    rewrite negb_true_iff, !orb_false_iff, negb_false_iff in Hf. by destruct Hf as [_ ?].
  - intros (_ & _ & Hf) x Hx. specialize (Hf x Hx). apply labelRegex_spec in Hf as Hs. destruct Hs as (Hne & H63 & _).
    rewrite negb_true_iff, !orb_false_iff, negb_false_iff, !bool_decide_eq_false. split; [|done].
    split; [|lia]. destruct x; [done|]. rewrite len_cons. pose proof (len_nonneg x). lia.
Qed.

Lemma IsValidHostname_chars s : IsValidHostname s = true -> Forall (fun c => name_char c = true) s.
Proof.
  intros (_ & _ & Hf)%IsValidHostname_spec. rewrite <- (Join_Split s dot). apply Join_Forall; [|by repeat constructor].
  eapply Forall_impl; [exact Hf|]. intros l (_ & _ & Hl)%labelRegex_spec. eapply Forall_impl; [exact Hl|].
  intros c Hc. unfold name_char. by rewrite Hc.
Qed.

Lemma name_char_ascii c : name_char c = true -> 45 <= c <= 122.
Proof.
  unfold name_char, is_word_dash, is_word, is_alnum. rewrite !orb_true_iff, !bool_decide_eq_true. lia.
Qed.

Lemma enc_labels_len ls :
  Forall (fun l => l <> []) ls -> len (enc_labels ls) = if decide (ls = []) then 0 else len (Join ls [dot]) + 1.
Proof.
  induction 1 as [|l ls Hl Hls IH]; [done|]. rewrite decide_False by done. cbn [enc_labels flat_map].
  fold (enc_labels ls). rewrite len_app, IH. unfold enc_label. rewrite decide_False by (destruct l; [done|unfold len; simpl; lia]).
  rewrite len_cons. destruct ls as [|l2 ls]; [rewrite decide_True by done; cbn [Join]; lia|].
  rewrite decide_False by done. rewrite Join_cons2, !len_app. vm_compute (len [dot]). lia.
Qed.

(** A validated name fits the wire format: its labels are at most 63 bytes, it is at
    most 255 bytes long when encoded, and encoding followed by decoding gives it back
    (no empty label, no trailing dot). *)
Theorem valid_hostname_wire s :
  IsValidHostname s = true -> short_labels s /\ canon_name s = s /\ len (enc_name s) <= 255.
Proof.
  intros (Hl & _ & Hf)%IsValidHostname_spec.
  assert (Forall (fun l => l <> [] /\ len l <= 63) (Split s dot)) as Hls
    by (eapply Forall_impl; [exact Hf|]; intros l (? & ? & _)%labelRegex_spec; done).
  split; [eapply Forall_impl; [exact Hls|]; naive_solver|]. split.
  - unfold canon_name. rewrite filter_all; [apply Join_Split|]. eapply Forall_impl; [exact Hls|]. naive_solver.
  - unfold enc_name. rewrite len_app, enc_labels_len by (eapply Forall_impl; [exact Hls|]; naive_solver).
    rewrite Join_Split. rewrite decide_False by apply Split_nonnil. vm_compute (len [0]). lia.
Qed.

(** ** Records *)

Section Facts.
Context {U : Unicode} {UR : Url} {MR : MapRange}.

Lemma enc_txts_len data : Forall (fun d => len d <= 255) data ->
  len (flat_map enc_txt data) = foldr (fun d n => len d + n) 0 data + len data.
Proof.
  induction 1 as [|d data Hd Hds IH]; [done|]. cbn [flat_map foldr]. rewrite len_app, IH, len_cons. unfold enc_txt.
  rewrite take_ge by (unfold len in Hd; lia). rewrite len_cons. lia.
Qed.

Lemma validateTxtChunk_ok d : validateTxtChunk d = ok -> len d <= 255.
Proof. unfold validateTxtChunk. case_decide; [done|]. lia. Qed.

Lemma validPriority_range o : validPriority o = true -> exists p, o = Some p /\ 0 <= p <= 65535.
Proof. destruct o as [p|]; [|done]. simpl. rewrite bool_decide_eq_true. eauto. Qed.

Lemma valid_name_len s : IsValidHostname s = true -> 2 <= len (enc_name s) <= 255.
Proof.
  intros H. apply IsValidHostname_spec in H as (Hl & _ & Hf).
  assert (Forall (fun l => l <> []) (Split s dot)) as Hls
    by (eapply Forall_impl; [exact Hf|]; intros l (? & ? & _)%labelRegex_spec; done).
  unfold enc_name. rewrite len_app, enc_labels_len by done. rewrite Join_Split, decide_False by apply Split_nonnil.
  vm_compute (len [0]). lia.
Qed.

(** Every record that passes validation can be served: it has a known type number,
    and its record data is not empty and fits the 16-bit length field; an A record has
    four bytes and an AAAA record sixteen. *)
Theorem valid_record_encodable r :
  ValidateDnsRecord r = ok ->
  toTypeNumber (rec_Type r) <> 0 /\ 1 <= len (rdata_of r) <= 2303 /\
  (rec_Type r = gs "A" -> len (rdata_of r) = 4) /\ (rec_Type r = gs "AAAA" -> len (rdata_of r) = 16).
Proof.
  destruct r as [t addr tgt data pri exch w p]. unfold ValidateDnsRecord, rdata_of. cbn [rec_Type rec_Address rec_Target rec_Data rec_Priority rec_Exchange rec_Weight rec_Port].
  destruct (decide (t = gs "A")) as [->|HA].
  { intros [=H]%ok_if_bool. unfold IsValidIPv4 in H. unfold EncodeARecord. destruct (ParseIP addr) as [ip|] eqn:Ep; [|done].
    apply bool_decide_eq_true in H as [b Hb]. apply ParseIP_ok in Ep as [Hl _]. simpl. rewrite Hb. simpl.
    assert (len b = 4) by (apply To4_Some in Hb as [[Hl' ->]|[_ Hip]]; [lia|apply (f_equal length) in Hip; rewrite length_app in Hip; vm_compute (length v4InV6Prefix) in Hip; unfold len; lia]). split; [by vm_compute|]. split; [lia|done]. }
  destruct (decide (t = gs "AAAA")) as [->|H6].
  { intros [=H]%ok_if_bool. unfold IsValidIPv6 in H. unfold EncodeAAAARecord. destruct (ParseIP addr) as [ip|] eqn:Ep; [|done].
    apply ParseIP_ok in Ep as [Hl _]. simpl. assert (len ip = 16) by (unfold len; lia). split; [by vm_compute|]. split; [lia|done]. }
  destruct (decide (t = gs "CNAME" \/ t = gs "NS" \/ t = gs "PTR")) as [Ht|Hn].
  { intros H%ok_if_bool%valid_name_len. split; [by destruct Ht as [-> | [-> | ->]]; vm_compute|]. split; [lia|done]. }
  destruct (decide (t = gs "TXT")) as [->|HT].
  { intros (H0 & H)%if_ok. apply if_ok in H as (H1 & H). apply bind_unit in H as (Hc & H). apply if_ok in H as (H2 & _).
    apply each_ok in Hc. rewrite enc_txts_len by (eapply Forall_impl; [exact Hc|]; apply validateTxtChunk_ok).
    pose proof (len_nonneg data). assert (0 <= foldr (fun d n => len d + n) 0 data)
      by (clear; induction data as [|d l IH]; simpl; [done|pose proof (len_nonneg d); lia]).
    split; [by vm_compute|]. split; [lia|done]. }
  destruct (decide (t = gs "MX")) as [->|HM].
  { intros (Hn1%negb_false_iff & H)%if_ok_bool. apply valid_name_len in Hn1. split; [by vm_compute|].
    rewrite len_app. change (len (be16 (default 0 pri))) with 2. split; [lia|done]. }
  destruct (decide (t = gs "SRV")) as [->|HS]; [|done].
  intros (Hn1%negb_false_iff & _)%if_ok_bool. apply valid_name_len in Hn1. split; [by vm_compute|].
  rewrite !len_app. change (len (be16 (default 0 pri))) with 2. change (len (be16 (default 0 w))) with 2.
  change (len (be16 (default 0 p))) with 2. split; [lia|done].
Qed.
(** ** Normal forms of host keys *)

(** No letter of package [unicode] has an ASCII capital as its lower case. *)
Hypothesis lower_no_upper : forall r, ~ 65 <= unicode_ToLower r <= 90.

Abbreviation no_upper := (Forall (fun c => ~ 65 <= c <= 90)).

Lemma EncodeRune_no_upper r : ~ 65 <= r <= 90 -> no_upper (EncodeRune r).
Proof.
  intros Hr. unfold EncodeRune. repeat case_decide; repeat constructor; try done; Z.div_mod_to_equations; lia.
Qed.

Lemma ascii_lower_no_upper c : ~ 65 <= ascii_lower c <= 90.
Proof. unfold ascii_lower. case_decide; lia. Qed.

Lemma ToLower_no_upper s : no_upper (ToLower s).
Proof.
  unfold ToLower. destruct (is_ascii s).
  - apply List.Forall_map, Forall_true, ascii_lower_no_upper.
  - apply Forall_flat_map, Forall_true. intros r. apply EncodeRune_no_upper. case_decide; [apply ascii_lower_no_upper|apply lower_no_upper].
Qed.

Lemma ToLower_fix s : Forall (fun c => c < 128) s -> no_upper s -> ToLower s = s.
Proof.
  intros Ha Hu. rewrite ToLower_ascii by (by apply is_ascii_Forall). rewrite <- (map_id s) at 2. apply map_ext_Forall.
  eapply Forall_impl; [exact Hu|]. intros c Hc. unfold ascii_lower. by rewrite decide_False.
Qed.

Lemma valid_no_trailing_dot m : IsValidHostname m = true -> HasSuffix m (gs ".") = false.
Proof.
  intros (_ & _ & Hf)%IsValidHostname_spec. destruct (HasSuffix m (gs ".")) eqn:E; [|done].
  apply HasSuffix_true in E as [t ->]. change (gs ".") with [dot] in Hf. rewrite Split_app_sep in Hf.
  apply Forall_app in Hf as [_ Hf]. by inversion Hf.
Qed.

Lemma wildcard_no_trailing_dot m : IsValidHostname m = true -> HasSuffix (gs "*." ++ m) (gs ".") = false.
Proof.
  intros Hv. pose proof (valid_no_trailing_dot m Hv) as Hd. destruct (HasSuffix (gs "*." ++ m) (gs ".")) eqn:E; [|done].
  apply HasSuffix_true in E as [t E]. exfalso. destruct (exists_last (l := m)) as (m' & d & ->).
  { intros ->. by vm_compute in Hv. }
  rewrite app_assoc in E. change (gs ".") with [dot] in E. apply app_inj_tail in E as [_ ->].
  apply not_true_iff_false in Hd. apply Hd, HasSuffix_true. by exists m'.
Qed.

Lemma lowered_fix n : no_upper n -> Forall (fun c => c < 128) n -> HasSuffix n (gs ".") = false -> normalizeKey n = n.
Proof. intros Hu Ha Hd. unfold normalizeKey. rewrite TrimSuffix_no by done. by apply ToLower_fix. Qed.

Lemma validateKey_cases key : validateKey key = ok ->
  normalizeKey key = gs "*" \/ IsValidHostname (normalizeKey key) = true \/
  exists m, normalizeKey key = gs "*." ++ m /\ IsValidHostname m = true.
Proof.
  unfold validateKey. destruct (decide (normalizeKey key = gs "*")) as [E|Hs]; [by left|]. cbv zeta. rewrite decide_True by done.
  destruct (HasPrefix _ _) eqn:Ep; intros H%ok_if_bool; [|by right; left].
  right; right. apply HasPrefix_true in Ep as [m Em]. exists m. split; [done|]. rewrite Em in H. by change (drop 2 (gs "*." ++ m)) with m in H.
Qed.

Lemma valid_ascii m : IsValidHostname m = true -> Forall (fun c => c < 128) m.
Proof. intros H%IsValidHostname_chars. eapply Forall_impl; [exact H|]. intros c Hc%name_char_ascii. lia. Qed.

Lemma normalizeKey_fix key : validateKey key = ok -> normalizeKey (normalizeKey key) = normalizeKey key.
Proof.
  intros H%validateKey_cases. pose proof (ToLower_no_upper (TrimSuffix key (gs "."))) as Hu. fold (normalizeKey key) in Hu.
  destruct H as [E|[Hv|(m & E & Hv)]].
  - rewrite E. reflexivity.
  - apply lowered_fix; [done|by apply valid_ascii|by apply valid_no_trailing_dot].
  - rewrite E in *. apply lowered_fix; [done| |by apply wildcard_no_trailing_dot].
    apply Forall_app. split; [by repeat constructor|by apply valid_ascii].
Qed.

Lemma validateKey_fix key : validateKey key = ok -> validateKey (normalizeKey key) = ok.
Proof.
  intros H. pose proof (normalizeKey_fix key H) as E. unfold validateKey in *. rewrite E.
  destruct (decide (normalizeKey key <> gs "*")); [|done].
  destruct (HasPrefix (normalizeKey key) (gs "*.")); apply ok_if_bool in H; by rewrite H.
Qed.

(** ** The normalised host table *)

Definition insert_host (m : gmap gostring HostConfig) (kv : gostring * HostConfig) : gmap gostring HostConfig :=
  <[normalizeKey kv.1 := kv.2]> m.

Lemma normalizeHosts_ok l acc m :
  normalizeHosts l acc = inr m <-> Forall (fun kv => validateHost kv = ok) l /\ m = foldl insert_host acc l.
Proof.
  revert acc. induction l as [|[k hc] l IH]; intros acc; cbn [normalizeHosts foldl].
  - split; [intros [=]; by split|intros [_ ->]; done].
  - rewrite bind_unit, IH, Forall_cons. tauto.
Qed.

Lemma foldl_hosts_lookup l acc k hc :
  foldl insert_host acc l !! k = Some hc -> acc !! k = Some hc \/ exists key, (key, hc) ∈ l /\ k = normalizeKey key.
Proof.
  revert acc. induction l as [|[k0 hc0] l IH]; intros acc; cbn [foldl]; [by left|]. intros H.
  apply IH in H as [H|(key & Hin & ->)]; [|right; exists key; split; [by right|done]].
  unfold insert_host in H. simpl in H. apply lookup_insert_Some in H as [[<- <-]|[_ H]]; [|by left].
  right. exists k0. split; [by left|done].
Qed.

Lemma foldl_hosts_size l acc : (size (foldl insert_host acc l) <= size acc + length l)%nat.
Proof.
  revert acc. induction l as [|kv l IH]; intros acc; cbn [foldl length]; [lia|]. rewrite IH. unfold insert_host.
  rewrite map_size_insert. destruct (acc !! _); simpl; lia.
Qed.

Lemma foldl_hosts_normal l acc :
  NoDup l.*1 -> Forall (fun kv => normalizeKey kv.1 = kv.1) l -> foldl insert_host acc l = list_to_map l ∪ acc.
Proof.
  intros Hnd Hn. revert acc Hnd. induction Hn as [|[k hc] l Hk Hl IH]; intros acc Hnd; cbn [foldl]; [by rewrite list_to_map_nil, (left_id_L ∅ (∪))|].
  cbn [fmap list_fmap fst] in Hnd. apply NoDup_cons in Hnd as [Hni Hnd]. rewrite IH by done. unfold insert_host. simpl in *. rewrite Hk.
  rewrite <- insert_union_r by (by apply not_elem_of_list_to_map_1). by rewrite insert_union_l.
Qed.

Lemma list_to_map_range {A} (m : gmap gostring A) : list_to_map (range m) = m.
Proof.
  rewrite <- (list_to_map_to_list m) at 2. apply list_to_map_proper; [apply range_NoDup|apply range_perm].
Qed.

Lemma validateHost_key key hc : validateHost (key, hc) = ok -> validateKey key = ok.
Proof. unfold validateHost, ok. rewrite bind_unit. tauto. Qed.

Lemma validateHost_fix key hc : validateHost (key, hc) = ok -> validateHost (normalizeKey key, hc) = ok.
Proof.
  intros H. pose proof (validateKey_fix key (validateHost_key key hc H)) as Hk. unfold validateHost in *.
  unfold ok in H. apply bind_unit in H as [_ H]. rewrite Hk. exact H.
Qed.

(** Every entry of the resulting table comes from a valid one and has a normal key. *)
Definition hosts_valid (m : gmap gostring HostConfig) : Prop :=
  forall k hc, m !! k = Some hc -> normalizeKey k = k /\ validateHost (k, hc) = ok.

Lemma normalizeHosts_valid hosts m : normalizeHosts (range hosts) ∅ = inr m -> hosts_valid m.
Proof.
  intros [Hf ->]%normalizeHosts_ok k hc Hk. apply foldl_hosts_lookup in Hk as [Hk|(key & Hin & ->)]; [by rewrite lookup_empty in Hk|].
  rewrite Forall_forall in Hf. specialize (Hf _ Hin). split; [|by apply validateHost_fix].
  by apply normalizeKey_fix, (validateHost_key _ hc).
Qed.

Lemma normalizeHosts_again m : hosts_valid m -> normalizeHosts (range m) ∅ = inr m.
Proof.
  intros Hv. apply normalizeHosts_ok. split.
  - apply Forall_forall. intros [k hc] Hin%elem_of_range. by apply Hv.
  - rewrite foldl_hosts_normal; [|apply range_NoDup|].
    + by rewrite list_to_map_range, (right_id_L ∅ (∪)).
    + apply Forall_forall. intros [k hc] Hin%elem_of_range. by destruct (Hv k hc Hin).
Qed.

Lemma normalizeHosts_size hosts m : normalizeHosts (range hosts) ∅ = inr m -> (size m <= size hosts)%nat.
Proof. intros [_ ->]%normalizeHosts_ok. rewrite foldl_hosts_size, range_length, map_size_empty. lia. Qed.

Lemma bounded_default_ok lo hi dflt v msg r :
  lo <= dflt <= hi -> bounded_default lo hi dflt v msg = inr r -> lo <= r <= hi /\ (v <> 0 -> r = v).
Proof. intros Hd. unfold bounded_default. repeat case_decide; intros [=]; subst; split; lia. Qed.

Lemma bounded_default_again lo hi dflt v msg : lo <= v <= hi -> bounded_default lo hi dflt v msg = inr v.
Proof. intros. unfold bounded_default. by rewrite decide_False by lia. Qed.

Lemma bounded_ok lo hi v msg r : bounded lo hi v msg = inr r -> lo <= v <= hi.
Proof. unfold bounded. case_decide; [done|]. lia. Qed.

(** What the validator establishes and what it kept. *)
Lemma ValidateServerConfig_inv c c' : ValidateServerConfig c = inr c' ->
  validateSections c = ok /\ validateSections c' = ok /\ 1 <= cfg_DnsCacheMaxSize c' <= 100000 /\ 0 <= cfg_DnsCacheTtlMs c' <= 3600000 /\
  1 <= cfg_MaxTcpConnections c' <= 10000 /\ 1000 <= cfg_TcpIdleTimeoutMs c' <= 600000 /\
  0 <= cfg_RateLimitMaxRequests c' <= 100000 /\ 100 <= cfg_RateLimitWindowMs c' <= 60000 /\
  (size (cfg_Hosts c') <= 5000)%nat /\ hosts_valid (cfg_Hosts c').
Proof.
  unfold ValidateServerConfig. intros (Hs & H)%bind_unit.
  apply bind_ok in H as (sz & Hsz & H). apply bind_ok in H as (? & Httl & H). apply bind_ok in H as (conns & Hcn & H).
  apply bind_ok in H as (idle & Hid & H). apply bind_ok in H as (? & Hrl & H). apply bind_ok in H as (win & Hw & H).
  apply if_ok in H as [Hn H]. apply bind_ok in H as (hosts & Hh & [= <-]).
  apply bounded_default_ok in Hsz as [? _]; [|lia]. apply bounded_ok in Httl. apply bounded_default_ok in Hcn as [? _]; [|lia].
  apply bounded_default_ok in Hid as [? _]; [|lia]. apply bounded_ok in Hrl. apply bounded_default_ok in Hw as [? _]; [|lia].
  pose proof (normalizeHosts_size _ _ Hh). pose proof (normalizeHosts_valid _ _ Hh). simpl. split_and!; try done; try lia.
Qed.

(** A configuration within the bounds and with normal keys is left as it is. *)
Lemma ValidateServerConfig_fix c :
  validateSections c = ok -> 1 <= cfg_DnsCacheMaxSize c <= 100000 -> 0 <= cfg_DnsCacheTtlMs c <= 3600000 ->
  1 <= cfg_MaxTcpConnections c <= 10000 -> 1000 <= cfg_TcpIdleTimeoutMs c <= 600000 ->
  0 <= cfg_RateLimitMaxRequests c <= 100000 -> 100 <= cfg_RateLimitWindowMs c <= 60000 ->
  (size (cfg_Hosts c) <= 5000)%nat -> hosts_valid (cfg_Hosts c) -> ValidateServerConfig c = inr c.
Proof.
  intros Hs ? ? ? ? ? ? Hn Hh. destruct c. unfold ValidateServerConfig. cbn in *.
  rewrite Hs. cbn [mbind sum_bind ok]. rewrite !bounded_default_again by done. cbn [mbind sum_bind].
  unfold bounded. rewrite !decide_False by lia. cbn [mbind sum_bind]. by rewrite normalizeHosts_again.
Qed.

(** Validation is a projection: a configuration that it accepts is accepted again,
    unchanged: defaults and normal forms of the host names are final. *)
Theorem ValidateServerConfig_idempotent c c' :
  ValidateServerConfig c = inr c' -> ValidateServerConfig c' = inr c'.
Proof.
  intros (_ & Hs & ? & ? & ? & ? & ? & ? & Hn & Hh)%ValidateServerConfig_inv. by apply ValidateServerConfig_fix.
Qed.

Definition port_ok (p : Z) : Prop := 1 <= p <= 65535.
Lemma ValidatePort_ok p : ValidatePort p = ok -> port_ok p.
Proof. unfold ValidatePort, port_ok. case_decide; [done|]. lia. Qed.

Lemma option_check_ok {A} (f : A -> result unit) o : option_check f o = ok -> forall a, o = Some a -> f a = ok.
Proof. by destruct o as [x|]; intros H y [= <-]. Qed.

Lemma valid_ip ip : IsValidIPv4 ip || IsValidIPv6 ip = true -> is_Some (ParseIP ip).
Proof. unfold IsValidIPv4, IsValidIPv6. destruct (ParseIP ip); [by eexists|done]. Qed.

(** The firewall section of an accepted configuration: every range and address is
    one, and the default policy is one of the two. *)
Definition firewall_valid (f : FirewallConfig) : Prop :=
  (fw_DefaultPolicy f = gs "allow" \/ fw_DefaultPolicy f = gs "deny") /\
  Forall (fun r => is_Some (ParseCIDR r)) (fw_AllowlistRanges f ++ fw_BlocklistRanges f) /\
  Forall (fun ip => is_Some (ParseIP ip)) (fw_AllowlistIps f ++ fw_BlocklistIps f).

Lemma validateFirewall_ok f : validateFirewall f = ok -> firewall_valid f.
Proof.
  unfold validateFirewall, ok. intros (Hp & H)%if_ok. apply if_ok in H as (_ & H).
  apply bind_unit in H as (_ & H). apply bind_unit in H as (_ & H). apply if_ok in H as (_ & H).
  apply bind_unit in H as (Ha & H). apply bind_unit in H as (Hb & H). apply if_ok in H as (_ & H).
  apply bind_unit in H as (Hc & Hd). apply each_ok in Ha, Hb, Hc, Hd.
  assert (forall w l, Forall (fun x => validateRange w x = ok) l -> Forall (fun r => is_Some (ParseCIDR r)) l) as Hr.
  { intros w l Hl. eapply Forall_impl; [exact Hl|]. intros x. unfold validateRange. by destruct (ParseCIDR x). }
  assert (forall w l, Forall (fun x => validateIp w x = ok) l -> Forall (fun r => is_Some (ParseIP r)) l) as Hi.
  { intros w l Hl. eapply Forall_impl; [exact Hl|]. intros x. unfold validateIp. intros Hx%ok_if_bool. by apply valid_ip. }
  split; [|split; apply Forall_app; eauto]. destruct (decide (fw_DefaultPolicy f = gs "allow")); [by left|].
  destruct (decide (fw_DefaultPolicy f = gs "deny")); [by right|]. exfalso. by apply Hp.
Qed.

Lemma validateSections_ok c : validateSections c = ok ->
  port_ok (cfg_Port c) /\ (forall p, cfg_HttpPort c = Some p \/ cfg_HttpsPort c = Some p \/ cfg_DotPort c = Some p \/ cfg_DohPort c = Some p -> port_ok p) /\
  (cfg_FallbackDns c = [] \/ IsValidIPv4 (cfg_FallbackDns c) = true) /\
  (forall f, cfg_Firewall c = Some f -> firewall_valid f).
Proof.
  unfold validateSections, ok. intros (H0 & H)%bind_unit. apply bind_unit in H as (H1 & H). apply bind_unit in H as (H2 & H).
  apply bind_unit in H as (H3 & H). apply bind_unit in H as (H4 & H). apply bind_unit in H as (H5 & H).
  apply bind_unit in H as (_ & H). apply bind_unit in H as (H7 & _).
  split; [by apply ValidatePort_ok|]. split.
  - intros p [E|[E|[E|E]]]; apply ValidatePort_ok; [exact (option_check_ok _ _ H1 _ E)|exact (option_check_ok _ _ H2 _ E)|exact (option_check_ok _ _ H3 _ E)|exact (option_check_ok _ _ H4 _ E)].
  - split; [|intros f E; apply validateFirewall_ok; exact (option_check_ok _ _ H7 _ E)].
    destruct (decide (cfg_FallbackDns c = [])); [by left|right]. rewrite decide_True in H5 by done. by apply ok_if_bool in H5.
Qed.

Lemma no_star_contains k : 42 ∉ k -> Contains k (gs "*") = false.
Proof.
  intros Hk. unfold Contains. apply bool_decide_eq_false. intros [i Hi]. revert i Hi. induction k as [|c k IH]; intros i Hi.
  - by vm_compute in Hi.
  - apply not_elem_of_cons in Hk as [Hc Hk]. cbn [Index] in Hi. destruct (HasPrefix (c :: k) (gs "*")) eqn:E.
    + apply HasPrefix_true in E as [t E]. by injection E as -> _.
    + destruct (Index k (gs "*")) as [j|] eqn:Ej; [|done]. by apply (IH Hk j).
Qed.

(** *** What an accepted section means *)

Definition letter_digit (c : Z) : Prop := 97 <= c <= 122 \/ 65 <= c <= 90 \/ 48 <= c <= 57.
(** Letters, digits, underscores and dashes, with no dash at either end and no underscore
    at the end of a longer label. *)
Record label_valid (l : gostring) : Prop := {
  lv_len : 1 <= len l <= 63;
  lv_chars : Forall (fun c => letter_digit c \/ c = 95 \/ c = 45) l;
  lv_first : forall c, head l = Some c -> letter_digit c \/ c = 95;
  lv_last : forall c, last l = Some c -> letter_digit c \/ (c = 95 /\ len l = 1);
}.
Definition name_valid (s : gostring) : Prop := 1 <= len s <= 253 /\ len (Split s dot) <= 16 /\ Forall label_valid (Split s dot).
Definition no_crlf (s : gostring) : Prop := (13 ∉ s) /\ (10 ∉ s).
Definition ipv4_text (s : gostring) : Prop := exists ip b, ParseIP s = Some ip /\ To4 ip = Some b.
Definition ipv6_text (s : gostring) : Prop := exists ip, ParseIP s = Some ip /\ To4 ip = None.
Definition field16 (o : option Z) : Prop := exists v, o = Some v /\ 0 <= v <= 65535.

Definition record_valid (r : DnsRecord) : Prop :=
  let t := rec_Type r in
  t = gs "A" /\ ipv4_text (rec_Address r) \/
  t = gs "AAAA" /\ ipv6_text (rec_Address r) \/
  (t = gs "CNAME" \/ t = gs "NS" \/ t = gs "PTR") /\ name_valid (rec_Target r) \/
  t = gs "TXT" /\ 1 <= len (rec_Data r) <= 128 /\ Forall (fun d => len d <= 255 /\ no_crlf d) (rec_Data r) /\ len (concat (rec_Data r)) <= 2048 \/
  t = gs "MX" /\ name_valid (rec_Exchange r) /\ field16 (rec_Priority r) \/
  t = gs "SRV" /\ name_valid (rec_Target r) /\ field16 (rec_Priority r) /\ field16 (rec_Weight r) /\ exists p, rec_Port r = Some p /\ port_ok p.

Definition header_valid (k v : gostring) : Prop :=
  1 <= len k <= 256 /\ Forall (fun c => letter_digit c \/ c = 45) k /\ no_crlf v /\ len v <= 8192.
Definition proxy_valid (hp : HttpProxyConfig) : Prop :=
  (hp_Enabled hp = true -> hp_Upstream hp <> [] /\ no_crlf (hp_Upstream hp) /\ exists u, url_Parse (hp_Upstream hp) = inr u) /\
  (size (hp_Headers hp) <= 64)%nat /\ (forall k v, hp_Headers hp !! k = Some v -> header_valid k v) /\ (-1 <= hp_MaxRequestBodyBytes hp).
Definition tls_proxy_valid (tp : TlsProxyConfig) : Prop :=
  (tp_TargetPort tp = 0 \/ port_ok (tp_TargetPort tp)) /\ (tp_TargetIp tp = [] \/ is_Some (ParseIP (tp_TargetIp tp))).
Definition redirect_valid (rc : RedirectConfig) : Prop :=
  rd_Enabled rc = true -> rd_Code rc ∈ [301; 302; 303; 307; 308] /\ no_crlf (rd_Target rc) /\
    exists u, url_Parse (rd_Target rc) = inr u /\ u_Scheme u <> [] /\ u_Host u <> [].

Lemma is_alnum_letter c : is_alnum c = true -> letter_digit c.
Proof. unfold is_alnum, letter_digit. by rewrite bool_decide_eq_true. Qed.
Lemma is_word_letter c : is_word c = true -> letter_digit c \/ c = 95.
Proof. unfold is_word. rewrite orb_true_iff, bool_decide_eq_true. intros [?%is_alnum_letter|?]; auto. Qed.
Lemma is_word_dash_letter c : is_word_dash c = true -> letter_digit c \/ c = 95 \/ c = 45.
Proof. unfold is_word_dash. rewrite orb_true_iff, bool_decide_eq_true. intros [[]%is_word_letter|?]; auto. Qed.

Lemma labelRegex_valid l : labelRegex l = true -> label_valid l.
Proof.
  intros H. pose proof (labelRegex_spec l H) as (Hne & Hlen & Hchars). split.
  - destruct l; [done|]. rewrite len_cons in *. pose proof (len_nonneg l). lia.
  - eapply Forall_impl; [exact Hchars|]. apply is_word_dash_letter.
  - destruct l as [|c [|d rest]]; [done|..]; intros x [= <-]; apply is_word_letter; [done|]. cbn [labelRegex] in H. rewrite !andb_true_iff in H. tauto.
  - destruct l as [|c [|d rest]]; [done|..]; intros x Hx.
    + injection Hx as <-. apply is_word_letter in H as [|]; [by left|by right].
    + cbn [labelRegex] in H. rewrite !andb_true_iff in H. destruct H as [[_ H] _]. left. apply is_alnum_letter.
      assert (d :: rest <> []) as Hne' by done. rewrite (app_removelast_last 0 Hne') in Hx. rewrite app_comm_cons, last_snoc in Hx. by injection Hx as <-.
Qed.
Lemma hostname_valid s : IsValidHostname s = true -> name_valid s.
Proof. intros (H1 & H2 & H3)%IsValidHostname_spec. split; [done|]. split; [done|]. eapply Forall_impl; [exact H3|]. apply labelRegex_valid. Qed.
Lemma ContainsAny_crlf s : ContainsAny s [13; 10] = false -> no_crlf s.
Proof.
  unfold ContainsAny. intros H. assert (forall c, c ∈ s -> c ∉ [13; 10]) as Hs.
  { intros c Hc. rewrite <- not_true_iff_false, existsb_exists in H. intros Hi. apply H. exists c. split; [by apply list_elem_of_In|by apply bool_decide_eq_true]. }
  split; intros Hc; apply Hs in Hc; apply Hc; set_solver.
Qed.
Lemma IsValidIPv4_text s : IsValidIPv4 s = true -> ipv4_text s.
Proof. unfold IsValidIPv4. destruct (ParseIP s) as [ip|] eqn:E; [|done]. intros [b Hb]%bool_decide_eq_true. by exists ip, b. Qed.
Lemma IsValidIPv6_text s : IsValidIPv6 s = true -> ipv6_text s.
Proof. unfold IsValidIPv6. destruct (ParseIP s) as [ip|] eqn:E; [|done]. intros Hb%bool_decide_eq_true. by exists ip. Qed.
Lemma len_concat (l : list gostring) : len (concat l) = foldr (fun d n => len d + n) 0 l.
Proof. induction l as [|d l IH]; [done|]. cbn [concat foldr]. by rewrite len_app, IH. Qed.

Lemma ValidateDnsRecord_valid r : ValidateDnsRecord r = ok -> record_valid r.
Proof.
  unfold ValidateDnsRecord, record_valid. cbn zeta. case_decide as T1; [intros ?%ok_if_bool%IsValidIPv4_text; auto|].
  case_decide as T2; [intros ?%ok_if_bool%IsValidIPv6_text; auto|]. case_decide as T3; [intros ?%ok_if_bool%hostname_valid; auto|].
  case_decide as T4.
  { intros (Hd0 & H)%if_ok. apply if_ok in H as (Hd1 & H). apply bind_unit in H as (Hc & H). apply if_ok in H as (Hd2 & _). do 3 right. left.
    rewrite len_concat. pose proof (len_nonneg (rec_Data r)). split; [done|]. split; [lia|]. split; [|lia]. apply each_ok in Hc. eapply Forall_impl; [exact Hc|].
    intros d. unfold validateTxtChunk. intros (Hd & H')%if_ok. apply if_ok_bool in H' as [H' _]. split; [lia|by apply ContainsAny_crlf]. }
  case_decide as T5.
  { intros (Hn%negb_false_iff%hostname_valid & H)%if_ok_bool. apply if_ok_bool in H as [Hp%negb_false_iff%validPriority_range _]. do 4 right. left. auto. }
  case_decide as T6; [|done]. intros (Hn%negb_false_iff%hostname_valid & H)%if_ok_bool. apply if_ok_bool in H as [Hp%negb_false_iff%validPriority_range H].
  apply if_ok_bool in H as [Hw%negb_false_iff%validPriority_range H]. destruct (rec_Port r) as [p|]; [|done]. do 5 right.
  split; [done|]. split; [done|]. split; [done|]. split; [done|]. exists p. split; [done|by apply ValidatePort_ok].
Qed.

Lemma validateHeader_valid k v : validateHeader (k, v) = ok -> header_valid k v.
Proof.
  unfold validateHeader. intros (Hk & H)%if_ok. apply if_ok_bool in H as [Hv H]. apply if_ok in H as [Hl _].
  assert (len k <= 256 /\ headerNameRegex k = true) as [H256 Hn] by (split; [lia|]; destruct (headerNameRegex k); [done|]; exfalso; apply Hk; by right).
  unfold headerNameRegex in Hn. apply andb_true_iff in Hn as [Hne%bool_decide_eq_true Hc].
  split; [destruct k; [done|]; rewrite len_cons in *; pose proof (len_nonneg k); lia|]. split; [|split; [by apply ContainsAny_crlf|lia]].
  apply Forall_forall. intros c Hin. rewrite forallb_forall in Hc. specialize (Hc c (proj1 (list_elem_of_In _ _) Hin)).
  apply orb_true_iff in Hc as [?%is_alnum_letter|?%bool_decide_eq_true]; auto.
Qed.

Lemma ValidateHttpProxy_valid hp : ValidateHttpProxy (Some hp) = ok -> proxy_valid hp.
Proof.
  unfold ValidateHttpProxy, ok. intros (Hu & H)%bind_unit. apply if_ok in H as [Hs H]. apply bind_unit in H as [Hh H]. apply if_ok in H as [Hm _].
  split; [|split; [lia|split; [|lia]]].
  - intros He. rewrite He in Hu. apply if_ok in Hu as [Hl Hu]. apply if_ok_bool in Hu as [Hc Hu]. apply if_ok in Hu as [_ Hu].
    split; [by intros E; rewrite E in Hl|]. split; [by apply ContainsAny_crlf|]. destruct (url_Parse _) as [|u]; [done|]. by exists u.
  - intros k v Hk. apply validateHeader_valid. rewrite each_ok, Forall_forall in Hh. apply Hh. by apply elem_of_range.
Qed.
Lemma ValidateTlsProxy_valid tp : ValidateTlsProxy (Some tp) = ok -> tls_proxy_valid tp.
Proof.
  unfold ValidateTlsProxy, ok. intros (Hp & H)%bind_unit. split.
  - destruct (decide (tp_TargetPort tp = 0)); [by left|right]. rewrite decide_True in Hp by done. by apply ValidatePort_ok.
  - destruct (decide (tp_TargetIp tp = [])); [by left|right]. rewrite decide_True in H by done. apply ok_if_bool in H. by apply valid_ip.
Qed.
Lemma ValidateRedirect_valid rc : ValidateRedirect (Some rc) = ok -> redirect_valid rc.
Proof.
  unfold ValidateRedirect, redirect_valid. intros H He. rewrite He in H. cbn [negb] in H. apply if_ok in H as [Hc H]. apply if_ok_bool in H as [Hn H].
  apply if_ok in H as [_ H]. split; [by apply dec_stable|]. split; [by apply ContainsAny_crlf|]. destruct (url_Parse _) as [|u]; [done|]. apply if_ok in H as [Hu _].
  exists u. split; [done|]. tauto.
Qed.

(** A host section of an accepted configuration. *)
Definition host_valid (hc : HostConfig) : Prop :=
  (length (hc_Records hc) <= 64)%nat /\ Forall record_valid (hc_Records hc) /\
  (forall hp, hc_HttpProxy hc = Some hp -> proxy_valid hp) /\ (forall tp, hc_TlsProxy hc = Some tp -> tls_proxy_valid tp) /\
  (forall rc, hc_Redirect hc = Some rc -> redirect_valid rc).
Lemma validateHost_valid k hc : validateHost (k, hc) = ok -> host_valid hc.
Proof.
  unfold validateHost, ok. intros (_ & H)%bind_unit. apply if_ok in H as (Hl & H). apply bind_unit in H as (Hr & H). apply bind_unit in H as (Hp & H).
  apply bind_unit in H as (Ht & Hd). split; [unfold len in Hl; lia|]. split; [apply each_ok in Hr; eapply Forall_impl; [exact Hr|]; apply ValidateDnsRecord_valid|].
  split; [intros hp E; rewrite E in Hp; by apply ValidateHttpProxy_valid|]. split; [intros tp E; rewrite E in Ht; by apply ValidateTlsProxy_valid|].
  intros rc E. rewrite E in Hd. by apply ValidateRedirect_valid.
Qed.

(** No host is lost: its normal form is in the table. *)
Lemma foldl_hosts_kept l : forall acc k, is_Some (acc !! k) -> is_Some (foldl insert_host acc l !! k).
Proof.
  induction l as [|kv l IH]; intros acc k Hk; [done|]. cbn [foldl]. apply IH. unfold insert_host. destruct (decide (normalizeKey kv.1 = k)) as [->|].
  - rewrite lookup_insert_eq. eauto.
  - by rewrite lookup_insert_ne.
Qed.
Lemma foldl_hosts_found l : forall acc key hc, (key, hc) ∈ l -> is_Some (foldl insert_host acc l !! normalizeKey key).
Proof.
  induction l as [|kv l IH]; intros acc key hc Hin; [by apply elem_of_nil in Hin|]. cbn [foldl]. apply elem_of_cons in Hin as [<-|Hin]; [|by eapply IH].
  apply foldl_hosts_kept. unfold insert_host. cbn [fst]. rewrite lookup_insert_eq. eauto.
Qed.

Lemma ValidateServerConfig_hosts c c' : ValidateServerConfig c = inr c' ->
  (forall k hc, cfg_Hosts c' !! k = Some hc -> exists key, normalizeKey key = k /\ cfg_Hosts c !! key = Some hc) /\
  (forall key hc, cfg_Hosts c !! key = Some hc -> is_Some (cfg_Hosts c' !! normalizeKey key)).
Proof.
  unfold ValidateServerConfig. intros (_ & H)%bind_unit. do 6 (apply bind_ok in H as (? & _ & H)).
  apply if_ok in H as [_ H]. apply bind_ok in H as (hosts & Hn & [= <-]). cbn [cfg_Hosts]. apply normalizeHosts_ok in Hn as [_ ->]. split.
  - intros k hc Hk. apply foldl_hosts_lookup in Hk as [Hk|(key & Hin%elem_of_range & ->)]; [by rewrite lookup_empty in Hk|]. by exists key.
  - intros key hc Hk%elem_of_range. by eapply foldl_hosts_found.
Qed.

(** The ports that a configuration names. *)
Definition ports_of (c : ServerConfig) : list Z :=
  cfg_Port c :: omap id [cfg_HttpPort c; cfg_HttpsPort c; cfg_DotPort c; cfg_DohPort c]
  ++ match cfg_ControlPlane c with Some cp => if decide (cp_Port cp = 0) then [] else [cp_Port cp] | None => [] end.
Lemma validateSections_ports c : validateSections c = ok -> Forall port_ok (ports_of c).
Proof.
  intros H. pose proof (validateSections_ok c H) as (Hp & Ho & _ & _). unfold validateSections, ok in H. do 8 (apply bind_unit in H as (_ & H)).
  unfold ports_of. apply Forall_cons. split; [done|]. apply Forall_app. split.
  - apply Forall_forall. intros p (x & Hx & Hp')%list_elem_of_omap. cbn in Hp'. subst x. apply Ho. set_solver.
  - destruct (cfg_ControlPlane c) as [cp|]; [|constructor]. case_decide as E; [constructor|]. apply Forall_singleton.
    cbn in H. unfold validateControlPlane in H. rewrite decide_True in H by done. apply bind_unit in H as [H _]. by apply ValidatePort_ok.
Qed.

(** C35: What an accepted configuration guarantees to the rest of the program.  Every port
    is in range, the fallback resolver is an IPv4 address or absent, the firewall entries
    parse, and the cache, connection, timeout and rate limits are within their bounds.  No
    host section is lost or made up: under the normal form of every key of the input there
    is a section of the input with that normal form, the same one unless another key has
    it too, and a look-up of the name in any letter case and with a trailing dot finds it
    (for a key without a star).  And the records, proxies and redirects of every section
    are well-formed, as written out for each record type. *)
Theorem ValidateServerConfig_sound c c' :
  ValidateServerConfig c = inr c' ->
  (Forall port_ok (ports_of c') /\ (cfg_FallbackDns c' = [] \/ ipv4_text (cfg_FallbackDns c')) /\
   forall f, cfg_Firewall c' = Some f -> firewall_valid f) /\
  (1 <= cfg_DnsCacheMaxSize c' <= 100000 /\ 0 <= cfg_DnsCacheTtlMs c' <= 3600000 /\
   1 <= cfg_MaxTcpConnections c' <= 10000 /\ 1000 <= cfg_TcpIdleTimeoutMs c' <= 600000 /\
   0 <= cfg_RateLimitMaxRequests c' <= 100000 /\ 100 <= cfg_RateLimitWindowMs c' <= 60000) /\
  (forall k hc, cfg_Hosts c' !! k = Some hc -> host_valid hc /\ exists key, normalizeKey key = k /\ cfg_Hosts c !! key = Some hc) /\
  (forall key hc0, cfg_Hosts c !! key = Some hc0 ->
    exists hc, cfg_Hosts c' !! normalizeKey key = Some hc /\
      ((forall key', is_Some (cfg_Hosts c !! key') -> normalizeKey key' = normalizeKey key -> key' = key) -> hc = hc0) /\
      (42 ∉ normalizeKey key -> forall name, normalizeHost name = normalizeKey key -> findHostConfig c' (normalizeHost name) = Some hc)).
Proof.
  intros H. pose proof (ValidateServerConfig_inv c c' H) as (_ & Hs & ? & ? & ? & ? & ? & ? & _ & Hh).
  pose proof (validateSections_ports c' Hs). apply validateSections_ok in Hs as (_ & _ & Hf & ?). apply ValidateServerConfig_hosts in H as [Hfrom Hto].
  split; [split; [done|]; split; [|done]; destruct Hf as [|?%IsValidIPv4_text]; auto|]. split; [done|]. split.
  - intros k hc Hk. split; [|by apply Hfrom]. destruct (Hh k hc Hk) as [_ Hv]. by eapply validateHost_valid.
  - intros key hc0 Hk. destruct (Hto key hc0 Hk) as [hc Hc]. exists hc. split; [done|]. split.
    + intros Hu. destruct (Hfrom _ _ Hc) as (key' & En & Hk'). rewrite (Hu key') in Hk' by eauto. congruence.
    + intros Hstar name ->. unfold findHostConfig. rewrite no_star_contains by done. by rewrite Hc.
Qed.

End Facts.

(** ** Concrete configurations *)

Definition plain_host (addr : gostring) : HostConfig :=
  {| hc_Records := [{| rec_Type := gs "A"; rec_Address := addr; rec_Target := []; rec_Data := []; rec_Priority := None;
                       rec_Exchange := []; rec_Weight := None; rec_Port := None |}];
     hc_HttpProxy := None; hc_TlsProxy := None; hc_Redirect := None |}.
Definition config_with (hosts : gmap gostring HostConfig) : ServerConfig :=
  {| cfg_Port := 53; cfg_HttpPort := Some 80; cfg_HttpsPort := None; cfg_Tls := None; cfg_DotPort := None;
     cfg_DohPort := None; cfg_FallbackDns := gs "9.9.9.9"; cfg_Firewall := Some demo_firewall;
     cfg_ControlPlane := None; cfg_DnsCacheMaxSize := 0; cfg_DnsCacheTtlMs := 60000; cfg_MaxTcpConnections := 0;
     cfg_TcpIdleTimeoutMs := 0; cfg_RateLimitMaxRequests := 0; cfg_RateLimitWindowMs := 0;
     cfg_UpstreamHttpProxy := []; cfg_UpstreamHttpsProxy := []; cfg_UpstreamNoProxy := []; cfg_Hosts := hosts |}.

Lemma ascii_no_upper r : ~ 65 <= unicode_ToLower (Unicode := ascii_unicode) r <= 90.
Proof. apply ascii_lower_no_upper. Qed.

Lemma valid_hostname_wire_witness :
  canon_name (gs "www.example-1.org") = gs "www.example-1.org" /\ len (enc_name (gs "www.example-1.org")) <= 255.
Proof. apply (valid_hostname_wire (gs "www.example-1.org")). vm_compute. reflexivity. Defined.

Lemma valid_record_encodable_witness :
  let r := {| rec_Type := gs "A"; rec_Address := gs "10.0.0.5"; rec_Target := []; rec_Data := []; rec_Priority := None;
              rec_Exchange := []; rec_Weight := None; rec_Port := None |} in len (rdata_of r) = 4.
Proof.
  apply (proj1 (proj2 (proj2 (valid_record_encodable (U := ascii_unicode) {| rec_Type := gs "A"; rec_Address := gs "10.0.0.5"; rec_Target := []; rec_Data := [];
    rec_Priority := None; rec_Exchange := []; rec_Weight := None; rec_Port := None |} ltac:(vm_compute; reflexivity))))).
  reflexivity.
Defined.

Definition upper_config : ServerConfig := config_with {[ gs "OK.Test." := plain_host (gs "10.0.0.5") ]}.
Definition upper_accepted : ServerConfig :=
  Eval vm_compute in
  match ValidateServerConfig (U := ascii_unicode) (UR := simple_url) (MR := list_range) upper_config with inr c => c | inl _ => upper_config end.

Lemma upper_config_accepted :
  ValidateServerConfig (U := ascii_unicode) (UR := simple_url) (MR := list_range) upper_config = inr upper_accepted.
Proof. vm_compute. reflexivity. Qed.

Lemma ValidateServerConfig_idempotent_witness :
  ValidateServerConfig (U := ascii_unicode) (UR := simple_url) (MR := list_range) upper_accepted = inr upper_accepted.
Proof.
  apply (ValidateServerConfig_idempotent (U := ascii_unicode) (UR := simple_url) (MR := list_range) ascii_no_upper upper_config).
  apply upper_config_accepted.
Defined.

Lemma ValidateServerConfig_sound_witness :
  Forall port_ok (ports_of upper_accepted) /\
  findHostConfig upper_accepted (normalizeHost (U := ascii_unicode) (gs "oK.TEST")) = Some (plain_host (gs "10.0.0.5")).
Proof.
  destruct (ValidateServerConfig_sound (U := ascii_unicode) (UR := simple_url) (MR := list_range) ascii_no_upper upper_config upper_accepted
    upper_config_accepted) as ((Hp & _) & _ & _ & Hh).
  split; [exact Hp|]. destruct (Hh (gs "OK.Test.") (plain_host (gs "10.0.0.5")) ltac:(vm_compute; reflexivity)) as (hc & _ & Hu & Hf).
  rewrite Hu in Hf; [|intros key' [x Hx] _; unfold upper_config, config_with in Hx; cbn [cfg_Hosts] in Hx; by apply lookup_singleton_Some in Hx as [<- _]].
  apply Hf; [by apply (bool_decide_eq_true_1 _)|vm_compute; reflexivity].
Defined.

(** The reverse order is as admissible as the order of [map_to_list]. *)
Definition reverse_range : MapRange :=
  {| range := fun A m => reverse (map_to_list m); range_perm := fun A m => reverse_Permutation _ |}.

(** Two host keys that differ only in letter case are merged without an error, and
    which section survives depends on the iteration order of the map: the same file can
    be served with either address. *)
Theorem duplicate_host_order :
  let c := config_with {[ gs "a.test" := plain_host (gs "10.0.0.1"); gs "A.test" := plain_host (gs "10.0.0.2") ]} in
  let served MR := match ValidateServerConfig (U := ascii_unicode) (UR := simple_url) (MR := MR) c with
                   | inr c' => cfg_Hosts c' !! gs "a.test" | inl _ => None end in
  exists a b, served list_range = Some a /\ served reverse_range = Some b /\ a <> b.
Proof.
  eexists _, _. split; [vm_compute; reflexivity|]. split; [vm_compute; reflexivity|]. discriminate.
Qed.
