(* ===== verification/ControlPlane.v ===== *)
(** * The control plane ([pkg/controlplane/controlplane.go])

    Authentication by key, device and proof of work, the endpoints, and the
    replacement of the configuration: encryption of the header secrets, the write to
    a temporary file, the rename and the notification of the subscribers.  Requests and
    answers are bytes; the file system's failures are arguments; the listener is in
    [Services]. *)
From S2P Require Import Prelude GoStrings NetIP Platform JsonText GoText Config Json Wire Server AuditLog AuditJson Secrets HttpProxy Validation.

Record ControlPlane := {
  cn_cfg : ServerConfig;
  cn_port : Z;
  cn_socketPath : gostring;
  cn_apiKey : gostring;
  cn_blindIndexSalt : gostring;
  cn_configFilePath : gostring;
  cn_tlsCfg : option TlsConfig;
  cn_subscribers : nat;                     (* how many *)
  cn_seenNonces : gset gostring;
  cn_currentPoWWindow : Z;
  cn_expectedApiKeyHash : gostring;
  cn_apiKeySecret : bytes;
  cn_deviceSecret : bytes;
  cn_tlsActive : bool;
  cn_stopped : bool;
}.

Definition with_nonces (cp : ControlPlane) (window : Z) (seen : gset gostring) : ControlPlane :=
  {| cn_cfg := cn_cfg cp; cn_port := cn_port cp; cn_socketPath := cn_socketPath cp; cn_apiKey := cn_apiKey cp;
     cn_blindIndexSalt := cn_blindIndexSalt cp; cn_configFilePath := cn_configFilePath cp; cn_tlsCfg := cn_tlsCfg cp;
     cn_subscribers := cn_subscribers cp; cn_seenNonces := seen; cn_currentPoWWindow := window;
     cn_expectedApiKeyHash := cn_expectedApiKeyHash cp; cn_apiKeySecret := cn_apiKeySecret cp; cn_deviceSecret := cn_deviceSecret cp;
     cn_tlsActive := cn_tlsActive cp; cn_stopped := cn_stopped cp |}.
Definition with_cn_cfg (cp : ControlPlane) (cfg : ServerConfig) : ControlPlane :=
  {| cn_cfg := cfg; cn_port := cn_port cp; cn_socketPath := cn_socketPath cp; cn_apiKey := cn_apiKey cp;
     cn_blindIndexSalt := cn_blindIndexSalt cp; cn_configFilePath := cn_configFilePath cp; cn_tlsCfg := cn_tlsCfg cp;
     cn_subscribers := cn_subscribers cp; cn_seenNonces := cn_seenNonces cp; cn_currentPoWWindow := cn_currentPoWWindow cp;
     cn_expectedApiKeyHash := cn_expectedApiKeyHash cp; cn_apiKeySecret := cn_apiKeySecret cp; cn_deviceSecret := cn_deviceSecret cp;
     cn_tlsActive := cn_tlsActive cp; cn_stopped := cn_stopped cp |}.

Definition Subscribe (cp : ControlPlane) : ControlPlane :=
  {| cn_cfg := cn_cfg cp; cn_port := cn_port cp; cn_socketPath := cn_socketPath cp; cn_apiKey := cn_apiKey cp;
     cn_blindIndexSalt := cn_blindIndexSalt cp; cn_configFilePath := cn_configFilePath cp; cn_tlsCfg := cn_tlsCfg cp;
     cn_subscribers := S (cn_subscribers cp); cn_seenNonces := cn_seenNonces cp; cn_currentPoWWindow := cn_currentPoWWindow cp;
     cn_expectedApiKeyHash := cn_expectedApiKeyHash cp; cn_apiKeySecret := cn_apiKeySecret cp; cn_deviceSecret := cn_deviceSecret cp;
     cn_tlsActive := cn_tlsActive cp; cn_stopped := cn_stopped cp |}.

(** The listener apart. *)
Definition cpStop (cp : ControlPlane) : go ControlPlane :=
  if cn_stopped cp then Panic
  else Ret {| cn_cfg := cn_cfg cp; cn_port := cn_port cp; cn_socketPath := cn_socketPath cp; cn_apiKey := cn_apiKey cp;
     cn_blindIndexSalt := cn_blindIndexSalt cp; cn_configFilePath := cn_configFilePath cp; cn_tlsCfg := cn_tlsCfg cp;
     cn_subscribers := cn_subscribers cp; cn_seenNonces := cn_seenNonces cp; cn_currentPoWWindow := cn_currentPoWWindow cp;
     cn_expectedApiKeyHash := cn_expectedApiKeyHash cp; cn_apiKeySecret := cn_apiKeySecret cp; cn_deviceSecret := cn_deviceSecret cp;
     cn_tlsActive := cn_tlsActive cp; cn_stopped := true |}.

(** What the read-only endpoints show, and the environment. *)
Record View := {
  v_sandboxSubnets : gostring;      (* OTTERGATE_SANDBOX_SUBNETS *)
  v_logger : AuditLogger;           (* with its buffer of events *)
  v_formatTime : Z -> option gostring;
  v_IPToName : gmap gostring gostring;
  v_dashboard : bytes;
}.

(** The clock readings of a request, the randomness of the encryption by host and
    header name, whether the fallible file operations succeed, and what a failed write
    leaves in the file. *)
Record Ambient := {
  am_unix : Z;
  am_nano : Z;
  am_milli : Z;
  am_nonce : gostring -> gostring -> option bytes;
  am_open : bool;
  am_write : bool;
  am_rename : bool;
  am_remove : bool;
  am_partial : bytes;
}.

Abbreviation disk := (gmap gostring bytes).

Section ControlPlane.
Context {U : Unicode} {UR : Url} {AE : Aead} {MR : MapRange} {JL : JsonLib}.

Definition NewControlPlane (port : Z) (socketPath apiKey blindIndexSalt : gostring) (initialConfig : ServerConfig)
    (configFilePath : gostring) (tlsCfg : option TlsConfig) : go ControlPlane :=
  apiKeySecret ← HKDF blindIndexSalt [] (gs "api_key_derivation") 32;
  deviceSecret ← HKDF blindIndexSalt [] (gs "device_id_derivation") 32;
  Ret {| cn_cfg := initialConfig; cn_port := if decide (port = 0) then 8080 else port; cn_socketPath := socketPath; cn_apiKey := apiKey;
         cn_blindIndexSalt := blindIndexSalt; cn_configFilePath := Clean configFilePath; cn_tlsCfg := tlsCfg; cn_subscribers := 0;
         cn_seenNonces := ∅; cn_currentPoWWindow := 0; cn_expectedApiKeyHash := HexEncode (hmac apiKeySecret apiKey);
         cn_apiKeySecret := apiKeySecret; cn_deviceSecret := deviceSecret; cn_tlsActive := false; cn_stopped := false |}.

(** ** Authentication *)

Definition challengeText (cp : ControlPlane) (timeWindow : Z) (deviceHash payloadHash : gostring) : gostring :=
  cn_blindIndexSalt cp ++ gs ":" ++ fmt_d timeWindow ++ gs ":" ++ deviceHash ++ gs ":" ++ payloadHash.

(** The error, if any, and the new state; [now] in seconds.  The code reads the clock
    before it takes the lock; here one request is finished before the next reads it. *)
Definition verifyProofOfWork (cp : ControlPlane) (now : Z) (nonce deviceHash payloadHash : gostring) : option gostring * ControlPlane :=
  let timeWindow := Z.quot now 300 in
  let hashStr := HexEncode (sha256 (challengeText cp timeWindow deviceHash payloadHash ++ nonce)) in
  if negb (HasPrefix hashStr (gs "0000")) then (Some (gs "Invalid Proof of Work Challenge"), cp)
  else
    let seen := if decide (cn_currentPoWWindow cp <> timeWindow) then ∅ else cn_seenNonces cp in
    if decide (nonce ∈ seen) then (Some (gs "Proof of Work challenge nonce already used"), with_nonces cp timeWindow seen)
    else (None, with_nonces cp timeWindow ({[nonce]} ∪ seen)).

Definition deviceHashOf (cp : ControlPlane) (deviceId : gostring) : gostring := HexEncode (hmac (cn_deviceSecret cp) deviceId).

(** The error or the device, and the new state. *)
Definition authenticate (cp : ControlPlane) (now : Z) (hd : header) (isMutation : bool) (bodyBytes : bytes)
  : (gostring + gostring) * ControlPlane :=
  let apiKey := HeaderGet (gs "X-Api-Key") hd in
  let deviceId := HeaderGet (gs "X-Device-Id") hd in
  let nonce := HeaderGet (gs "X-Pow-Nonce") hd in
  if decide (apiKey = []) then (inl (gs "Missing API Key"), cp)
  else if decide (cn_expectedApiKeyHash cp <> HexEncode (hmac (cn_apiKeySecret cp) apiKey)) then (inl (gs "Unauthorized Access"), cp)
  else if decide (deviceId = []) then (inl (gs "Authentication Validation Failed (Missing device id)"), cp)
  else
    let deviceHash := deviceHashOf cp deviceId in
    if isMutation then
      if decide (nonce = []) then (inl (gs "Mutation endpoint requires x-pow-nonce header"), cp)
      else
        match verifyProofOfWork cp now nonce deviceHash (HexEncode (sha256 bodyBytes)) with
        | (Some e, cp) => (inl e, cp)
        | (None, cp) => (inr deviceHash, cp)
        end
    else (inr deviceHash, cp).

(** ** Replacing the configuration *)

Definition encryptHeader (key : bytes) (nonces : gostring -> option bytes) (k v : gostring) : gostring :=
  if IsEncrypted v then v else default v (EncryptSecret key (nonces k) v).
Definition encryptProxy (key : bytes) (nonces : gostring -> option bytes) (hp : HttpProxyConfig) : HttpProxyConfig :=
  {| hp_Enabled := hp_Enabled hp; hp_Upstream := hp_Upstream hp; hp_Headers := map_imap (fun k v => Some (encryptHeader key nonces k v)) (hp_Headers hp);
     hp_ForwardRequestBody := hp_ForwardRequestBody hp; hp_MaxRequestBodyBytes := hp_MaxRequestBodyBytes hp; hp_ClientTls := hp_ClientTls hp |}.
Definition encryptHost (key : bytes) (nonces : gostring -> option bytes) (hc : HostConfig) : HostConfig :=
  {| hc_Records := hc_Records hc; hc_HttpProxy := encryptProxy key nonces <$> hc_HttpProxy hc; hc_TlsProxy := hc_TlsProxy hc;
     hc_Redirect := hc_Redirect hc |}.
Definition with_hosts (c : ServerConfig) (hosts : gmap gostring HostConfig) : ServerConfig :=
  {| cfg_Port := cfg_Port c; cfg_HttpPort := cfg_HttpPort c; cfg_HttpsPort := cfg_HttpsPort c; cfg_Tls := cfg_Tls c;
     cfg_DotPort := cfg_DotPort c; cfg_DohPort := cfg_DohPort c; cfg_FallbackDns := cfg_FallbackDns c;
     cfg_Firewall := cfg_Firewall c; cfg_ControlPlane := cfg_ControlPlane c; cfg_DnsCacheMaxSize := cfg_DnsCacheMaxSize c;
     cfg_DnsCacheTtlMs := cfg_DnsCacheTtlMs c; cfg_MaxTcpConnections := cfg_MaxTcpConnections c; cfg_TcpIdleTimeoutMs := cfg_TcpIdleTimeoutMs c;
     cfg_RateLimitMaxRequests := cfg_RateLimitMaxRequests c; cfg_RateLimitWindowMs := cfg_RateLimitWindowMs c;
     cfg_UpstreamHttpProxy := cfg_UpstreamHttpProxy c; cfg_UpstreamHttpsProxy := cfg_UpstreamHttpsProxy c;
     cfg_UpstreamNoProxy := cfg_UpstreamNoProxy c; cfg_Hosts := hosts |}.
Definition encryptHeaders (key : bytes) (nonces : gostring -> gostring -> option bytes) (c : ServerConfig) : ServerConfig :=
  with_hosts c (map_imap (fun h hc => Some (encryptHost key (nonces h) hc)) (cfg_Hosts c)).

(** ** Answers *)

Definition jstr (s : gostring) : bytes := [34] ++ s ++ [34].
Definition jerrorq (quoted : gostring) : bytes := gs "{" ++ jstr (gs "error") ++ gs ":" ++ quoted ++ gs "}".
Definition jerror (msg : gostring) : bytes := jerrorq (jstr msg).
Definition answer (code : Z) (body : bytes) (w : Writer) : Writer := let w := WriteHeader code w in if decide (body = []) then w else Write body w.
Definition json_type : Writer -> Writer := setHeader (gs "Content-Type") (gs "application/json").

(** The outcome of a request: state, files, answer, the configurations that the
    subscribers are called with, and the log. *)
Record Outcome := {
  oc_cp : ControlPlane;
  oc_disk : disk;
  oc_w : Writer;
  oc_notified : list ServerConfig;
  oc_logs : list call;
}.
Definition reply (cp : ControlPlane) (d : disk) (w : Writer) (logs : list call) : Outcome :=
  {| oc_cp := cp; oc_disk := d; oc_w := w; oc_notified := []; oc_logs := logs |}.

Definition tempPath (cp : ControlPlane) (am : Ambient) : gostring := cn_configFilePath cp ++ gs ".tmp." ++ fmt_d (am_nano am).

(** [_ = os.Remove(tempPath)] *)
Definition removeTemp (cp : ControlPlane) (am : Ambient) (d : disk) : disk := if am_remove am then delete (tempPath cp am) d else d.

(** [PUT /api/v1/config], after authentication. *)
Definition putConfig (key : bytes) (am : Ambient) (cp : ControlPlane) (d : disk) (clientIp path deviceHash : gostring) (bodyBytes : bytes)
    (w : Writer) : Outcome :=
  match ParseServerConfig bodyBytes with
  | inl e => reply cp d (answer 400 (jerrorq (Quote e)) w) []
  | inr newCfg =>
      let newCfg := encryptHeaders key (am_nonce am) newCfg in
      if negb (am_open am) then reply cp d (answer 500 (jerror (gs "failed to create persistent temp file")) w) []
      else
        let data := encodeConfig newCfg in
        if negb (am_write am) then reply cp (removeTemp cp am (<[tempPath cp am := am_partial am]> d)) (answer 500 (jerror (gs "failed to serialize configuration")) w) []
        else
          let d2 := <[tempPath cp am := data]> d in
          if negb (am_rename am) then
              reply cp (removeTemp cp am d2) (answer 500 (jerror (gs "failed to atomically replace configuration file")) w) []
          else
              {| oc_cp := with_cn_cfg cp newCfg;
                 oc_disk := <[cn_configFilePath cp := data]> (delete (tempPath cp am) d2);
                 oc_w := answer 200 (gs "{" ++ jstr (gs "success") ++ gs ":true," ++ jstr (gs "timestamp") ++ gs ":" ++ fmt_d (am_milli am)
                                     ++ gs "," ++ jstr (gs "device") ++ gs ":" ++ Quote deviceHash ++ gs "}") w;
                 oc_notified := replicate (cn_subscribers cp) newCfg;
                 oc_logs := [CallHTTP clientIp (gs "PUT") (gs "control-plane") path 200 (gs "Config updated")] |}
  end.

(** ** Requests *)

(** The first sandbox subnet that holds the client. *)
Fixpoint sandboxMatch (ip : bytes) (subnets : list gostring) : option gostring :=
  match subnets with
  | [] => None
  | subnetStr :: subnets =>
      match ParseCIDR (TrimSpace subnetStr) with
      | Some n => if Contains_ip n ip then Some subnetStr else sandboxMatch ip subnets
      | None => sandboxMatch ip subnets
      end
  end.
Definition sandboxed (env clientIp : gostring) : option gostring :=
  if decide (env = []) then None
  else match ParseIP clientIp with Some ip => sandboxMatch ip (Split env 44) | None => None end.

(** A read-only endpoint. *)
Definition getOnly (method : gostring) (cp : ControlPlane) (d : disk) (w : Writer) (o : Outcome) : Outcome :=
  if decide (method <> gs "GET") then reply cp d (WriteHeader 405 w) [] else o.

Definition status_of (e : gostring) : Z := if Contains e (gs "Proof of Work") then 403 else 401.

(** [io.ReadAll(io.LimitReader(r.Body, 1048576))]; [None] is an error. *)
Definition readLimited (body : bytes * option gostring) : option bytes :=
  if decide (len body.1 >= 1048576) then Some (take (Z.to_nat 1048576) body.1)
  else match body.2 with Some _ => None | None => Some body.1 end.

(** The endpoints under [/api/v1/], once authenticated. *)
(** The bodies of the read-only endpoints. *)
Definition eventsText (v : View) : bytes := from_option compactText (gs "[]") (eventsTree (v_formatTime v) (GetEvents (al_buffer (v_logger v)))).
Definition statusOf (cp : ControlPlane) : object :=
  {[ gs "port" := JNum (cn_port cp); gs "socketPath" := JStr (cn_socketPath cp); gs "configFilePath" := JStr (cn_configFilePath cp);
     gs "expectedApiKeyHash" := JStr (cn_expectedApiKeyHash cp); gs "blindIndexSalt" := JStr (cn_blindIndexSalt cp);
     gs "currentPoWWindow" := JNum (cn_currentPoWWindow cp); gs "seenNoncesCount" := JNum (Z.of_nat (size (cn_seenNonces cp)));
     gs "subscribersCount" := JNum (Z.of_nat (cn_subscribers cp)); gs "tlsEnabled" := JBool (cn_tlsActive cp) ]}.
Definition statusText (cp : ControlPlane) : bytes := compactText (treeOf (JObj (statusOf cp))).

Definition apiRequest (key : bytes) (v : View) (am : Ambient) (cp : ControlPlane) (d : disk) (r : HttpRequest) (deviceHash : gostring)
    (bodyBytes : bytes) (w : Writer) : Outcome :=
  let method := rq_Method r in
  let path := rq_Path r in
  if decide (path = gs "/api/v1/logs") then
    getOnly method cp d w (reply cp d (answer 200 (eventsText v) w) [])
  else if decide (path = gs "/api/v1/containers") then
    getOnly method cp d w (reply cp d (answer 200 (compactText (TObj (entries (TStr <$> v_IPToName v)))) w) [])
  else if decide (path = gs "/api/v1/controlplane-status") then
    getOnly method cp d w (reply cp d (answer 200 (statusText cp) w) [])
  else if decide (path = gs "/api/v1/pow-challenge") then
    getOnly method cp d w
      (let payloadHash := queryGet (rq_RawQuery r) (gs "payload_hash") in
       if decide (payloadHash = []) then reply cp d (answer 400 (jerror (gs "Missing payload_hash query parameter")) w) []
       else reply cp d (answer 200 (gs "{" ++ jstr (gs "challenge") ++ gs ":"
                          ++ Quote (challengeText cp (Z.quot (am_unix am) 300) deviceHash payloadHash) ++ gs "}") w) [])
  else if decide (path = gs "/api/v1/config" /\ method = gs "GET") then
    reply cp d (answer 200 (marshalConfig (cn_cfg cp)) w)
      [CallHTTP (rq_ClientIp r) (gs "GET") (gs "control-plane") path 200 (gs "Config retrieved")]
  else if decide (path = gs "/api/v1/config" /\ method = gs "PUT") then
    putConfig key am cp d (rq_ClientIp r) path deviceHash bodyBytes w
  else reply cp d (answer 404 (jerror (gs "Endpoint Not Found")) w) [].

Definition cpServeHTTP (key : bytes) (v : View) (am : Ambient) (cp : ControlPlane) (d : disk) (r : HttpRequest) : Outcome :=
  let w := new_writer in
  let clientIp := rq_ClientIp r in
  let method := rq_Method r in
  let path := rq_Path r in
  match sandboxed (v_sandboxSubnets v) clientIp with
  | Some subnetStr =>
      reply cp d (answer 403 (jerror (gs "Security Violation: Sandboxed containers are strictly forbidden from accessing the Control Plane.")) (json_type w))
        [CallError (gs "[SECURITY] Blocked Control Plane access attempt from sandboxed client IP: " ++ clientIp ++ gs " (matches subnet: " ++ subnetStr ++ gs ")")]
  | None =>
      if decide (path = gs "/metrics") then
        getOnly method cp d w (reply cp d (Write (GetMetricsPrometheus (v_logger v)) (setHeader (gs "Content-Type") (gs "text/plain; version=0.0.4") w)) [])
      else if decide (path = gs "/healthz") then
        getOnly method cp d w (reply cp d (answer 200 (gs "{" ++ jstr (gs "status") ++ gs ":" ++ jstr (gs "healthy") ++ gs "," ++ jstr (gs "timestamp")
                                                       ++ gs ":" ++ fmt_d (am_unix am) ++ gs "}") (json_type w)) [])
      else if decide (path = gs "/" \/ path = gs "/dashboard") then
        getOnly method cp d w (reply cp d (answer 200 (v_dashboard v) (setHeader (gs "Content-Type") (gs "text/html; charset=utf-8") w)) [])
      else if HasPrefix path (gs "/api/v1/") then
        let w := json_type w in
        let isMutation := bool_decide (method = gs "PUT" \/ method = gs "POST") in
        match (if isMutation then readLimited (default ([], None) (rq_Body r)) else Some []) with
        | None =>
            reply cp d (answer 413 (jerror (gs "Payload size limit exceeded")) w)
              [CallError (gs "Control Plane API Fault: HTTP 413 | Payload size limit exceeded | Client: " ++ clientIp)]
        | Some bodyBytes =>
            match authenticate cp (am_unix am) (rq_Header r) isMutation bodyBytes with
            | (inl e, cp) =>
                reply cp d (answer (status_of e) (jerrorq (Quote e)) w)
                  [CallError (gs "Control Plane API Fault: HTTP " ++ fmt_d (status_of e) ++ gs " | " ++ e ++ gs " | Client: " ++ clientIp)]
            | (inr deviceHash, cp) => apiRequest key v am cp d r deviceHash bodyBytes w
            end
        end
      else reply cp d (answer 404 (jerror (gs "Endpoint Not Found")) w) []
  end.

End ControlPlane.

(** ** Who can change what *)

Section Access.
Context {U : Unicode} {UR : Url} {AE : Aead} {MR : MapRange} {JL : JsonLib}.
Implicit Types (cp : ControlPlane) (r : HttpRequest) (am : Ambient).

(** Nothing but the answer and the log comes of the request. *)
Definition no_effect cp (d : disk) (o : Outcome) : Prop := oc_cp o = cp /\ oc_disk o = d /\ oc_notified o = [].

Abbreviation powNonce r := (HeaderGet (gs "X-Pow-Nonce") (rq_Header r)).
Definition windowOf am : Z := Z.quot (am_unix am) 300.
(** The nonces that count as used in the window of the request. *)
Definition usedNonces cp am : gset gostring := if decide (cn_currentPoWWindow cp <> windowOf am) then ∅ else cn_seenNonces cp.

(** The credentials of an accepted mutation, over the body that was read. *)
Record authorized cp am r (body : bytes) : Prop := {
  au_method : rq_Method r = gs "PUT" \/ rq_Method r = gs "POST";
  au_body : readLimited (default ([], None) (rq_Body r)) = Some body;
  au_key : cn_expectedApiKeyHash cp = HexEncode (hmac (cn_apiKeySecret cp) (HeaderGet (gs "X-Api-Key") (rq_Header r)));
  au_work : HasPrefix (HexEncode (sha256 (challengeText cp (windowOf am)
      (deviceHashOf cp (HeaderGet (gs "X-Device-Id") (rq_Header r))) (HexEncode (sha256 body)) ++ powNonce r))) (gs "0000") = true;
  au_fresh : powNonce r ∉ usedNonces cp am;
}.

Lemma verifyProofOfWork_cases cp am nonce dev ph :
  let '(e, cp') := verifyProofOfWork cp (am_unix am) nonce dev ph in
  match e with
  | None => HasPrefix (HexEncode (sha256 (challengeText cp (windowOf am) dev ph ++ nonce))) (gs "0000") = true /\
            (nonce ∉ usedNonces cp am) /\ cp' = with_nonces cp (windowOf am) ({[nonce]} ∪ usedNonces cp am)
  | Some _ => cp' = cp \/ cp' = with_nonces cp (windowOf am) (usedNonces cp am)
  end.
Proof.
  unfold verifyProofOfWork. cbn zeta. fold (windowOf am). destruct (HasPrefix _ _); simpl; [|auto].
  fold (usedNonces cp am). destruct (decide (nonce ∈ usedNonces cp am)); auto.
Qed.

(** The outcomes of authentication. *)
Lemma authenticate_cases cp am r (m : bool) body :
  m = bool_decide (rq_Method r = gs "PUT" \/ rq_Method r = gs "POST") ->
  (m = true -> readLimited (default ([], None) (rq_Body r)) = Some body) ->
  let '(res, cp') := authenticate cp (am_unix am) (rq_Header r) m body in
  match res with
  | inl _ => cp' = cp \/ cp' = with_nonces cp (windowOf am) (usedNonces cp am)
  | inr dev => if m then authorized cp am r body /\ cp' = with_nonces cp (windowOf am) ({[powNonce r]} ∪ usedNonces cp am) else cp' = cp
  end.
Proof.
  intros Hm Hb. unfold authenticate. cbn zeta. destruct (decide (HeaderGet (gs "X-Api-Key") _ = [])); [by left|]. destruct (decide (cn_expectedApiKeyHash cp <> _)) as [|Hk]; [by left|].
  apply dec_stable in Hk. destruct (decide (HeaderGet (gs "X-Device-Id") _ = [])); [by left|]. destruct m; [|done]. destruct (decide (powNonce r = [])); [by left|].
  match goal with |- context [verifyProofOfWork cp _ ?n ?dv ?p] => pose proof (verifyProofOfWork_cases cp am n dv p) as Hv end.
  destruct (verifyProofOfWork _ _ _ _ _) as [[e|] cp'] eqn:E; [done|]. destruct Hv as (Hw & Hf & ->). split; [|done].
  split; auto. by eapply bool_decide_eq_true_1.
Qed.

Lemma getOnly_no_effect m cp d w o : no_effect cp d o -> no_effect cp d (getOnly m cp d w o).
Proof. unfold getOnly. by case_decide. Qed.

Lemma reply_no_effect cp d w l : no_effect cp d (reply cp d w l).
Proof. done. Qed.
Hint Resolve getOnly_no_effect reply_no_effect : ottergate.

(** Only a [PUT] of the configuration does anything. *)
Lemma apiRequest_effect key v am cp d r dev body w :
  no_effect cp d (apiRequest key v am cp d r dev body w) \/
  (rq_Method r = gs "PUT" /\ rq_Path r = gs "/api/v1/config" /\
   apiRequest key v am cp d r dev body w = putConfig key am cp d (rq_ClientIp r) (rq_Path r) dev body w).
Proof.
  unfold apiRequest. cbn zeta. do 3 (destruct (decide (rq_Path r = _)); [left; auto with ottergate|]).
  destruct (decide (rq_Path r = _)); [left; apply getOnly_no_effect; case_decide; done|]. destruct (decide (_ /\ _)); [by left|].
  destruct (decide (_ /\ _)) as [[? ?]|]; [by right|by left].
Qed.

(** The effect of any request: none, the bookkeeping of a refused proof of work, or
    an authenticated endpoint. *)
Lemma cpServeHTTP_effect key v am cp d r :
  let o := cpServeHTTP key v am cp d r in
  no_effect cp d o \/ no_effect (with_nonces cp (windowOf am) (usedNonces cp am)) d o \/
  exists body dev, sandboxed (v_sandboxSubnets v) (rq_ClientIp r) = None /\ authorized cp am r body /\
    o = apiRequest key v am (with_nonces cp (windowOf am) ({[powNonce r]} ∪ usedNonces cp am)) d r dev body (json_type new_writer).
Proof.
  cbn zeta. unfold cpServeHTTP. destruct (sandboxed _ _); [by left|]. do 2 (destruct (decide (rq_Path r = _)); [left; auto with ottergate|]).
  destruct (decide (_ \/ _)); [left; auto with ottergate|].
  destruct (HasPrefix _ _); [|by left]. set (m := bool_decide _).
  destruct (if m then readLimited _ else Some []) as [body|] eqn:Eb; [|by left].
  pose proof (authenticate_cases cp am r m body eq_refl) as Ha.
  destruct (authenticate _ _ _ _ _) as [[e|dev] cp'].
  - destruct Ha as [-> | ->]; [|by left|by right; left]. intros Em. by rewrite Em in Eb.
  - destruct m eqn:Em; cbn in Ha.
    + destruct Ha as [Ha ->]; [done|]. right. right. eauto.
    + rewrite Ha by done. left. destruct (apiRequest_effect key v am cp d r dev body (json_type new_writer)) as [?|(Hp & _)]; [done|].
      apply bool_decide_eq_false in Em. tauto.
Qed.

Lemma sandboxMatch_None ip l : sandboxMatch ip l = None -> forall sub n, sub ∈ l -> ParseCIDR (TrimSpace sub) = Some n -> Contains_ip n ip = false.
Proof.
  induction l as [|x l IH]; intros H sub n Hin Hn; [by apply elem_of_nil in Hin|]. cbn [sandboxMatch] in H. apply elem_of_cons in Hin as [->|Hin].
  - rewrite Hn in H. by destruct (Contains_ip n ip).
  - apply (IH) with sub; [|done..]. destruct (ParseCIDR (TrimSpace x)) as [n'|]; [|done]. by destruct (Contains_ip n' ip).
Qed.
Lemma sandboxed_None env client : sandboxed env client = None ->
  forall sub n ip, sub ∈ Split env 44 -> ParseCIDR (TrimSpace sub) = Some n -> ParseIP client = Some ip -> Contains_ip n ip = false.
Proof.
  unfold sandboxed. case_decide as He; intros H sub n ip Hs Hn Hi.
  - subst env. apply list_elem_of_singleton in Hs as ->. by vm_compute in Hn.
  - rewrite Hi in H. by eapply sandboxMatch_None.
Qed.

(** C3: Without the API key, a valid proof of work over the very body that is read and a
    nonce that is new in the five-minute window, no request changes the control plane's
    configuration, a file, or reaches a subscriber.  Nor does one from an address that
    lies in any of the listed sandbox subnets, whatever it presents; the address must be
    one that [net.ParseIP] reads, which excludes IPv6 addresses with a zone. *)
Theorem mutation_authenticated key v am cp d r :
  let o := cpServeHTTP key v am cp d r in
  cn_cfg (oc_cp o) = cn_cfg cp /\ oc_disk o = d /\ oc_notified o = [] \/
  (exists body, authorized cp am r body) /\
  forall sub n ip, sub ∈ Split (v_sandboxSubnets v) 44 -> ParseCIDR (TrimSpace sub) = Some n -> ParseIP (rq_ClientIp r) = Some ip -> Contains_ip n ip = false.
Proof.
  cbn zeta. destruct (cpServeHTTP_effect key v am cp d r) as [(-> & -> & ->)|[(-> & -> & ->)|(body & dev & Hs & Ha & _)]]; [by left..|].
  right. split; [eauto|]. by apply sandboxed_None.
Qed.

(** *** Replay *)

(** A configuration was replaced. *)
Definition succeeded r (o : Outcome) : Prop := rq_Method r = gs "PUT" /\ fst <$> w_Sent (oc_w o) = Some 200.
#[export] Instance succeeded_dec r o : Decision (succeeded r o).
Proof. unfold succeeded. apply _. Defined.

Lemma answer_status code b w : w_Sent w = None -> fst <$> w_Sent (answer code b w) = Some code.
Proof. intros H. unfold answer. case_decide; simpl; by rewrite H. Qed.

Lemma getOnly_put cp d w o : w_Sent w = None -> fst <$> w_Sent (oc_w (getOnly (gs "PUT") cp d w o)) = Some 405.
Proof. intros H. unfold getOnly. rewrite decide_True by done. simpl. by rewrite H. Qed.

Lemma succeeded_authorized key v am cp d r :
  succeeded r (cpServeHTTP key v am cp d r) ->
  (exists body, authorized cp am r body) /\
  cn_seenNonces (oc_cp (cpServeHTTP key v am cp d r)) = {[powNonce r]} ∪ usedNonces cp am /\
  cn_currentPoWWindow (oc_cp (cpServeHTTP key v am cp d r)) = windowOf am.
Proof.
  intros [Hm Hs]. unfold cpServeHTTP in *. rewrite Hm in *.
  destruct (sandboxed _ _); [cbn in Hs; by rewrite answer_status in Hs|].
  destruct (decide (rq_Path r = gs "/metrics")); [by rewrite getOnly_put in Hs|].
  destruct (decide (rq_Path r = gs "/healthz")); [by rewrite getOnly_put in Hs|].
  destruct (decide (_ \/ _)); [by rewrite getOnly_put in Hs|].
  destruct (HasPrefix _ _); [|cbn in Hs; by rewrite answer_status in Hs].
  rewrite bool_decide_eq_true_2 in * by auto.
  destruct (readLimited _) as [body|] eqn:Eb; [|cbn in Hs; by rewrite answer_status in Hs].
  pose proof (authenticate_cases cp am r true body) as Ha.
  destruct (authenticate _ _ _ _ _) as [[e|dev] cp'].
  { cbn in Hs. rewrite answer_status in Hs by done. unfold status_of in Hs. by destruct (Contains _ _). }
  destruct Ha as [Ha ->]; [by rewrite Hm, bool_decide_eq_true_2 by auto|done|]. split; [eauto|].
  destruct (apiRequest_effect key v am (with_nonces cp (windowOf am) ({[powNonce r]} ∪ usedNonces cp am)) d r dev body (json_type new_writer))
    as [(-> & _)|(_ & _ & ->)]; [done|].
  unfold putConfig. repeat case_match; done.
Qed.

(** A sequence of requests, each with its surroundings. *)
Definition arrival : Type := bytes * View * Ambient * HttpRequest.
(** The nonces of the successful ones, with their windows. *)
Fixpoint run_requests cp (d : disk) (l : list arrival) : list (Z * gostring) :=
  match l with
  | [] => []
  | (key, v, am, r) :: l =>
      let o := cpServeHTTP key v am cp d r in
      (if decide (succeeded r o) then [(windowOf am, powNonce r)] else []) ++ run_requests (oc_cp o) (oc_disk o) l
  end.

Fixpoint nondecreasing (t : Z) (l : list arrival) : Prop :=
  match l with [] => True | (_, _, am, _) :: l => t <= am_unix am /\ nondecreasing (am_unix am) l end.

(** Used up: in an earlier window, or remembered in the current one. *)
Definition spent cp (p : Z * gostring) : Prop :=
  p.1 < cn_currentPoWWindow cp \/ p.1 = cn_currentPoWWindow cp /\ p.2 ∈ cn_seenNonces cp.

Lemma spent_step key v am cp d r p :
  cn_currentPoWWindow cp <= windowOf am -> spent cp p -> spent (oc_cp (cpServeHTTP key v am cp d r)) p.
Proof.
  intros Hw Hp.
  assert (forall s, usedNonces cp am ⊆ s -> spent (with_nonces cp (windowOf am) s) p) as Hr.
  { intros s Hs. unfold spent in *. simpl. unfold usedNonces in Hs.
    destruct (decide (cn_currentPoWWindow cp = windowOf am)) as [E|E].
    - rewrite decide_False in Hs by tauto. rewrite E in Hp. destruct Hp as [?|[? ?]]; [by left|right; set_solver].
    - left. lia. }
  destruct (cpServeHTTP_effect key v am cp d r) as [(-> & _)|[(-> & _)|(body & dev & _ & _ & ->)]]; [done|by apply Hr|].
  destruct (apiRequest_effect key v am (with_nonces cp (windowOf am) ({[powNonce r]} ∪ usedNonces cp am)) d r dev body (json_type new_writer))
    as [(-> & _)|(_ & _ & ->)]; [apply Hr; set_solver|].
  specialize (Hr ({[powNonce r]} ∪ usedNonces cp am) ltac:(set_solver)).
  unfold putConfig. repeat case_match; done.
Qed.

Lemma window_step key v am cp d r :
  cn_currentPoWWindow cp <= windowOf am -> cn_currentPoWWindow (oc_cp (cpServeHTTP key v am cp d r)) <= windowOf am.
Proof.
  intros Hw. destruct (cpServeHTTP_effect key v am cp d r) as [(-> & _)|[(-> & _)|(body & dev & _ & _ & ->)]]; [done|simpl; lia|].
  destruct (apiRequest_effect key v am (with_nonces cp (windowOf am) ({[powNonce r]} ∪ usedNonces cp am)) d r dev body (json_type new_writer))
    as [(-> & _)|(_ & _ & ->)]; [simpl; lia|].
  unfold putConfig. repeat case_match; simpl; lia.
Qed.

Lemma windowOf_mono am am' : 0 <= am_unix am <= am_unix am' -> windowOf am <= windowOf am'.
Proof. intros H. unfold windowOf. rewrite !Z.quot_div_nonneg by lia. apply Z.div_le_mono; lia. Qed.

Lemma run_requests_fresh l : forall cp d t,
  0 <= t -> cn_currentPoWWindow cp <= Z.quot t 300 -> nondecreasing t l ->
  NoDup (run_requests cp d l) /\ forall p, p ∈ run_requests cp d l -> ~ spent cp p.
Proof.
  induction l as [|[[[key v] am] r] l IH]; intros cp d t Ht Hc Hl; cbn [run_requests].
  { split; [constructor|]. intros p Hp. by apply elem_of_nil in Hp. }
  destruct Hl as [Hta Hl]. assert (cn_currentPoWWindow cp <= windowOf am) as Hw.
  { unfold windowOf. etrans; [exact Hc|]. apply Z.quot_le_mono; lia. }
  set (o := cpServeHTTP key v am cp d r). destruct (IH (oc_cp o) (oc_disk o) (am_unix am)) as [IH1 IH2];
    [lia|by apply window_step|done|].
  assert (forall p, p ∈ run_requests (oc_cp o) (oc_disk o) l -> ~ spent cp p) as Hrest.
  { intros p Hp Hsp. apply (IH2 p Hp). by apply spent_step. }
  destruct (decide (succeeded r o)) as [Hs|]; [|done]. apply succeeded_authorized in Hs as ((body & Ha) & Hn & Hcw). fold o in Hn, Hcw.
  simpl. split.
  - constructor; [|done]. intros Hin. apply (IH2 _ Hin). right. simpl. rewrite Hn, Hcw. set_solver.
  - intros p [-> | Hp]%elem_of_cons; [|by apply Hrest]. intros [Hlt|[Heq Hin]]; simpl in *; [lia|].
    apply (au_fresh _ _ _ _ Ha). unfold usedNonces. rewrite decide_False by (rewrite Heq; tauto). done.
Qed.

(** C9: In any sequence of requests under a clock that does not go back, the successful
    configuration updates carry pairwise different nonces within each window: an
    update cannot be replayed. *)
Theorem updates_not_replayed cp d t l :
  0 <= t -> cn_currentPoWWindow cp <= Z.quot t 300 -> nondecreasing t l -> NoDup (run_requests cp d l).
Proof. intros Ht Hc Hl. by eapply run_requests_fresh. Qed.

End Access.

(** ** The stored configuration *)

Section Stored.
Context {U : Unicode} {UR : Url} {AE : Aead} {MR : MapRange} {JL : JsonLib}.

Lemma tempPath_ne cp am : tempPath cp am <> cn_configFilePath cp.
Proof. unfold tempPath. intros H%(f_equal length). rewrite !length_app in H. simpl in H. lia. Qed.

(** Nothing happened: no file but the temporary one differs, and not even that one if it did
    not exist before and could be removed. *)
Definition rejected (cp : ControlPlane) (am : Ambient) (d : disk) (o : Outcome) : Prop :=
  cn_cfg (oc_cp o) = cn_cfg cp /\ oc_notified o = [] /\ (forall p, p <> tempPath cp am -> oc_disk o !! p = d !! p) /\
  (d !! tempPath cp am = None -> am_remove am = true -> oc_disk o = d).
(** The update is in force: the file holds it, no other file changed, and every subscriber
    is called. *)
Definition replaced (cp : ControlPlane) (am : Ambient) (d : disk) (o : Outcome) : Prop :=
  oc_disk o !! cn_configFilePath cp = Some (encodeConfig (cn_cfg (oc_cp o))) /\ oc_notified o = replicate (cn_subscribers cp) (cn_cfg (oc_cp o)) /\
  oc_disk o !! tempPath cp am = None /\ (forall p, p <> cn_configFilePath cp -> p <> tempPath cp am -> oc_disk o !! p = d !! p).

Lemma no_effect_rejected cp am d o : no_effect cp d o -> rejected cp am d o.
Proof. intros (Hc & Hd & Hn). split; [by rewrite Hc|]. split; [done|]. by rewrite Hd. Qed.

Lemma putConfig_atomic key am cp d ip path dev body w : w_Sent w = None ->
  let o := putConfig key am cp d ip path dev body w in
  (fst <$> w_Sent (oc_w o) <> Some 200) /\ rejected cp am d o \/ (fst <$> w_Sent (oc_w o) = Some 200) /\ replaced cp am d o.
Proof.
  intros Hw. cbn zeta. unfold putConfig. pose proof (tempPath_ne cp am).
  assert (forall b code text, code <> 200 -> let o := reply cp (removeTemp cp am (<[tempPath cp am := b]> d)) (answer code text w) [] in
    (fst <$> w_Sent (oc_w o) <> Some 200) /\ rejected cp am d o) as Hrej.
  { intros b code text Hc. cbn zeta. cbn [oc_w reply]. rewrite answer_status by done. split; [congruence|]. unfold rejected, removeTemp. cbn [oc_cp oc_notified oc_disk reply].
    split; [done|]. split; [done|]. split; [intros; destruct (am_remove am); by simplify_map_eq|]. intros Hn ->. by rewrite delete_insert_eq, delete_id. }
  destruct (ParseServerConfig _) as [e|c].
  { left. cbn [oc_w reply]. rewrite answer_status by done. split; [done|by apply no_effect_rejected]. }
  destruct (am_open am); cbn [negb].
  2: { left. cbn [oc_w reply]. rewrite answer_status by done. split; [done|by apply no_effect_rejected]. }
  destruct (am_write am); cbn [negb]; [|left; by apply Hrej]. destruct (am_rename am); cbn [negb]; [|left; by apply Hrej].
  right. cbn [oc_w]. split; [by apply answer_status|]. unfold replaced. cbn [oc_disk oc_notified oc_cp with_cn_cfg cn_cfg].
  split; [by simplify_map_eq|]. split; [done|]. split; [by simplify_map_eq|]. intros. by simplify_map_eq.
Qed.

Lemma getOnly_put_fails r cp d w o : rq_Method r = gs "PUT" -> w_Sent w = None -> ~ succeeded r (getOnly (rq_Method r) cp d w o).
Proof. intros Hm Hw [_ Hs]. rewrite Hm, getOnly_put in Hs by done. done. Qed.

Lemma apiRequest_put key v am cp d r dev body w : rq_Method r = gs "PUT" -> w_Sent w = None ->
  let o := apiRequest key v am cp d r dev body w in
  no_effect cp d o /\ ~ succeeded r o \/ o = putConfig key am cp d (rq_ClientIp r) (rq_Path r) dev body w.
Proof.
  intros Hm Hw. cbn zeta. unfold apiRequest. cbn zeta.
  do 4 (destruct (decide (rq_Path r = _)); [left; split; [apply getOnly_no_effect; repeat case_decide; done|by apply getOnly_put_fails]|]).
  rewrite Hm. rewrite (decide_False (P := _ /\ gs "PUT" = gs "GET")) by (by intros [_ [=]]).
  destruct (decide (_ /\ _)) as [|]; [by right|]. left. split; [done|]. intros [_ Hs]. cbn [oc_w reply] in Hs. by rewrite answer_status in Hs.
Qed.

(** A request that is no successful update has no effect; a successful one replaces. *)
Lemma cpServeHTTP_atomic key v am cp d r :
  let o := cpServeHTTP key v am cp d r in ~ succeeded r o /\ rejected cp am d o \/ succeeded r o /\ replaced cp am d o.
Proof.
  cbn zeta. destruct (decide (succeeded r (cpServeHTTP key v am cp d r))) as [Hs|Hs].
  - right. split; [done|]. pose proof Hs as [Hm H200]. revert H200. unfold cpServeHTTP. rewrite Hm. clear Hs.
    destruct (sandboxed _ _); [cbn [oc_w reply]; by rewrite answer_status|]. do 2 (destruct (decide (rq_Path r = _)); [by rewrite getOnly_put|]).
    destruct (decide (_ \/ _)); [by rewrite getOnly_put|]. destruct (HasPrefix _ _); [|cbn [oc_w reply]; by rewrite answer_status].
    rewrite bool_decide_eq_true_2 by auto. destruct (readLimited _) as [body|] eqn:Eb; [|cbn [oc_w reply]; by rewrite answer_status].
    pose proof (authenticate_cases cp am r true body) as Ha. destruct (authenticate _ _ _ _ _) as [[e|dev] cp'].
    { cbn [oc_w reply]. rewrite answer_status by done. unfold status_of. by destruct (Contains _ _). }
    destruct Ha as [_ ->]; [by rewrite Hm, bool_decide_eq_true_2 by auto|done|]. set (cp' := with_nonces cp _ _).
    destruct (apiRequest_put key v am cp' d r dev body (json_type new_writer) Hm eq_refl) as [[_ Hf]| ->]; [intros Hx; by destruct Hf|].
    destruct (putConfig_atomic key am cp' d (rq_ClientIp r) (rq_Path r) dev body (json_type new_writer) eq_refl) as [[Hf _]|[_ Hr]]; [done|]. by intros _.
  - left. split; [done|]. destruct (cpServeHTTP_effect key v am cp d r) as [Hn|[Hn|(body & dev & _ & Ha & E)]];
      [by apply no_effect_rejected|exact (no_effect_rejected _ am d _ Hn)|].
    rewrite E in *. set (cp' := with_nonces cp _ _) in *.
    destruct (apiRequest_effect key v am cp' d r dev body (json_type new_writer)) as [Hn|(Hm & _ & Hp)]; [exact (no_effect_rejected cp' am d _ Hn)|].
    rewrite Hp in *. destruct (putConfig_atomic key am cp' d (rq_ClientIp r) (rq_Path r) dev body (json_type new_writer) eq_refl) as [[_ Hr]|[H200 _]]; [exact Hr|].
    destruct Hs. by split.
Qed.

(** C7: An update is all or nothing, whatever fails on the way.  Exactly when a [PUT] is
    answered with 200, the file holds the whole encoding of the configuration that the
    control plane now has, every subscriber was called with it, and every other file is as
    it was, the temporary one gone.  After any other request or answer the configuration
    and every file but the temporary one are unchanged and nobody is called; the temporary
    file is left behind only if it existed before or could not be removed. *)
Theorem update_atomic key v am cp d r :
  let o := cpServeHTTP key v am cp d r in
  if decide (rq_Method r = gs "PUT" /\ fst <$> w_Sent (oc_w o) = Some 200) then
    oc_disk o !! cn_configFilePath cp = Some (encodeConfig (cn_cfg (oc_cp o))) /\ oc_notified o = replicate (cn_subscribers cp) (cn_cfg (oc_cp o)) /\
    oc_disk o !! tempPath cp am = None /\ (forall p, p <> cn_configFilePath cp -> p <> tempPath cp am -> oc_disk o !! p = d !! p)
  else
    cn_cfg (oc_cp o) = cn_cfg cp /\ oc_notified o = [] /\ (forall p, p <> tempPath cp am -> oc_disk o !! p = d !! p) /\
    (d !! tempPath cp am = None -> am_remove am = true -> oc_disk o = d).
Proof. cbn zeta. destruct (cpServeHTTP_atomic key v am cp d r) as [[Hs Hr]|[Hs Hr]]; case_decide; done. Qed.

(** *** Secrets at rest *)

Definition nonces_ok (nonces : gostring -> gostring -> option bytes) : Prop :=
  forall h k n, nonces h k = Some n -> bytes_ok n /\ length n = 12%nat.

Lemma encryptHeader_text key nonces k v :
  IsEncrypted v = false ->
  encryptHeader key nonces k v = v \/ exists n, nonces k = Some n /\ EncryptSecret key (Some n) v = Some (encryptHeader key nonces k v).
Proof.
  intros Hv. unfold encryptHeader. rewrite Hv. destruct (nonces k) as [n|].
  - right. exists n. split; [done|]. by rewrite encrypt_text.
  - left. unfold EncryptSecret. by rewrite Hv.
Qed.

(** C37: What an update stores of a header secret.  It is [v1:nonce:tag:ciphertext] in
    hexadecimal, with the fresh nonce, a tag of 16 bytes and a ciphertext as long as the
    value, which the cipher opens to the value that was sent, and so does [DecryptSecret].
    There are two exceptions, in which the value is stored as it was sent: it has that
    form already (two fields of 24 and 32 characters), or no random nonce was available.
    The master key has 32 bytes and a nonce 12. *)
Theorem stored_secrets_encrypted key nonces c h hc hp k v :
  length key = 32%nat -> nonces_ok nonces ->
  cfg_Hosts c !! h = Some hc -> hc_HttpProxy hc = Some hp -> hp_Headers hp !! k = Some v -> bytes_ok v ->
  exists hc' hp' v', cfg_Hosts (encryptHeaders key nonces c) !! h = Some hc' /\ hc_HttpProxy hc' = Some hp' /\ hp_Headers hp' !! k = Some v' /\
    (v' = v /\ (encrypted_form v \/ nonces h k = None) \/
     ~ encrypted_form v /\ exists n tag ct, nonces h k = Some n /\
       v' = gs "v1:" ++ HexEncode n ++ gs ":" ++ HexEncode tag ++ gs ":" ++ HexEncode ct /\ length tag = 16%nat /\ length ct = length v /\
       Open key n (ct ++ tag) = Some v /\ DecryptSecret key v' = Ret (Some v)).
Proof.
  intros Hkey Hn Hh Hp Hk Hb. exists (encryptHost key (nonces h) hc), (encryptProxy key (nonces h) hp), (encryptHeader key (nonces h) k v).
  split; [cbn; by rewrite map_lookup_imap, Hh|]. split; [cbn; by rewrite Hp|]. split; [cbn; by rewrite map_lookup_imap, Hk|].
  unfold encryptHeader. destruct (IsEncrypted v) eqn:Ev; [left; split; [done|]; left; by apply IsEncrypted_form|]. destruct (nonces h k) as [n|] eqn:En.
  2: { left. unfold EncryptSecret. rewrite Ev. auto. }
  destruct (Hn h k n En) as [Hn1 Hn2]. right. split; [rewrite <- IsEncrypted_form; congruence|]. rewrite encrypt_text by done. set (sealed := Seal key n v).
  exists n, (drop (length sealed - 16) sealed), (take (length sealed - 16) sealed). pose proof (Seal_length key n v Hkey Hn2) as Hl. fold sealed in Hl. split; [done|]. split; [done|].
  rewrite length_drop, length_take. split; [lia|]. split; [lia|]. rewrite take_drop. split; [by apply Open_Seal|]. by apply decrypt_text.
Qed.

(** *** What is stored can be loaded again *)

Lemma encrypted_length key n v e :
  length key = 32%nat -> EncryptSecret key (Some n) v = Some e -> IsEncrypted v = false -> length n = 12%nat -> len e = 61 + 2 * len v.
Proof.
  unfold EncryptSecret. intros Hkey H Hv Hn. rewrite Hv in H. cbn [mbind option_bind] in H. apply (inj Some) in H. subst e.
  unfold len. rewrite !length_app, !HexEncode_length, length_take, length_drop, Seal_length, Hn by done. cbn [length gs]. lia.
Qed.

Lemma encrypted_chars key n v e :
  length key = 32%nat -> length n = 12%nat -> EncryptSecret key (Some n) v = Some e -> IsEncrypted v = false -> bytes_ok n -> bytes_ok v -> ContainsAny e [13; 10] = false.
Proof.
  unfold EncryptSecret. intros Hkey Hl H Hv Hn Hb. rewrite Hv in H. cbn [mbind option_bind] in H. apply (inj Some) in H. subst e.
  assert (forall b, bytes_ok b -> Forall (fun c => bool_decide (c ∈ [13; 10]) = false) (HexEncode b)) as Hx.
  { intros b Hok. eapply Forall_impl; [by apply HexEncode_chars|]. intros c Hc. apply bool_decide_eq_false. set_solver by lia. }
  pose proof (Seal_bytes key n v Hkey Hl Hb) as Hs. apply existsb_false, Forall_forall.
  repeat (apply Forall_app; split); try apply Hx; try done; try (by apply Forall_drop); try (by apply Forall_take);
    by apply (bool_decide_eq_true_1 _).
Qed.

(** Short enough to stay within the limit of a header value once encrypted. *)
Definition short_secrets (c : ServerConfig) : Prop :=
  forall h hc hp k v, cfg_Hosts c !! h = Some hc -> hc_HttpProxy hc = Some hp -> hp_Headers hp !! k = Some v ->
    bytes_ok v /\ (IsEncrypted v = false -> len v <= 4065).

Lemma encryptHeader_valid key nonces h k v :
  length key = 32%nat -> nonces_ok nonces -> bytes_ok v -> (IsEncrypted v = false -> len v <= 4065) ->
  validateHeader (k, v) = ok -> validateHeader (k, encryptHeader key (nonces h) k v) = ok.
Proof.
  intros Hkey Hn Hb Hs Hv. destruct (IsEncrypted v) eqn:Ee; [unfold encryptHeader; by rewrite Ee|].
  destruct (encryptHeader_text key (nonces h) k v Ee) as [-> | (n & En & He)]; [done|]. destruct (Hn h k n En) as [Hn1 Hn2].
  unfold validateHeader in *. case_decide; [done|]. rewrite (encrypted_chars _ _ _ _ Hkey Hn2 He) by done.
  rewrite (encrypted_length _ _ _ _ Hkey He) by done. rewrite decide_False; [done|]. specialize (Hs eq_refl). lia.
Qed.

Lemma encryptProxy_valid key nonces h hp :
  length key = 32%nat -> nonces_ok nonces -> (forall k v, hp_Headers hp !! k = Some v -> bytes_ok v /\ (IsEncrypted v = false -> len v <= 4065)) ->
  ValidateHttpProxy (Some hp) = ok -> ValidateHttpProxy (Some (encryptProxy key (nonces h) hp)) = ok.
Proof.
  intros Hkey Hn Hs. set (m := map_imap (fun k v => Some (encryptHeader key (nonces h) k v)) (hp_Headers hp)).
  assert (size m = size (hp_Headers hp)) as Hsz.
  { rewrite <- !size_dom. f_equal. apply set_eq. intros k. unfold m. rewrite !elem_of_dom, map_lookup_imap.
    destruct (hp_Headers hp !! k); simpl; split; intros [x Hx]; eauto; done. }
  unfold ValidateHttpProxy. cbn [hp_Enabled hp_Upstream hp_Headers hp_MaxRequestBodyBytes hp_ClientTls encryptProxy]. fold m. rewrite Hsz.
  intros [Hu H]%bind_unit. unfold ok. apply bind_unit. split; [exact Hu|]. case_decide; [done|].
  apply bind_unit in H as [He H]. apply bind_unit. split; [|exact H]. apply each_ok, Forall_forall. intros [k v'] Hin.
  apply elem_of_range in Hin. unfold m in Hin. rewrite map_lookup_imap in Hin. destruct (hp_Headers hp !! k) as [v|] eqn:Ek; [|done].
  simpl in Hin. injection Hin as <-. destruct (Hs k v Ek). apply encryptHeader_valid; try done.
  rewrite each_ok, Forall_forall in He. apply He. by apply elem_of_range.
Qed.

Lemma encryptHost_valid key nonces h hc :
  length key = 32%nat -> nonces_ok nonces ->
  (forall hp k v, hc_HttpProxy hc = Some hp -> hp_Headers hp !! k = Some v -> bytes_ok v /\ (IsEncrypted v = false -> len v <= 4065)) ->
  validateHost (h, hc) = ok -> validateHost (h, encryptHost key (nonces h) hc) = ok.
Proof.
  intros Hkey Hn Hs. unfold validateHost, ok. intros [Hk H]%bind_unit. apply bind_unit. split; [done|]. cbn [hc_Records encryptHost].
  case_decide; [done|]. apply bind_unit in H as [Hr H]. apply bind_unit. split; [done|]. apply bind_unit in H as [Hp H].
  apply bind_unit. split; [|exact H]. cbn [hc_HttpProxy encryptHost]. destruct (hc_HttpProxy hc) as [hp|] eqn:E; [|done].
  apply encryptProxy_valid; [done|done|eauto|done].
Qed.

(** The file that an update writes can be loaded at the next start: the validated
    configuration with its secrets encrypted is accepted again, unchanged, if no
    secret is longer than 4065 bytes. *)
Theorem stored_config_loads key nonces c c' :
  (forall r, ~ 65 <= unicode_ToLower r <= 90) -> length key = 32%nat -> nonces_ok nonces -> ValidateServerConfig c = inr c' -> short_secrets c' ->
  ValidateServerConfig (encryptHeaders key nonces c') = inr (encryptHeaders key nonces c').
Proof.
  intros Hlow Hkey Hn Hv Hshort. apply ValidateServerConfig_inv in Hv as (_ & Hs & ? & ? & ? & ? & ? & ? & Hsz & Hh); [|done].
  apply ValidateServerConfig_fix; try done.
  - cbn. etrans; [|exact Hsz]. apply Nat.eq_le_incl. rewrite <- !size_dom. f_equal. apply set_eq. intros k.
    rewrite !elem_of_dom, map_lookup_imap. destruct (cfg_Hosts c' !! k); simpl; split; intros [x Hx]; eauto; done.
  - intros k hc. cbn. rewrite map_lookup_imap. destruct (cfg_Hosts c' !! k) as [hc0|] eqn:E; [|done]. simpl. intros [= <-].
    destruct (Hh k hc0 E) as [Hk Hv]. split; [done|]. apply encryptHost_valid; [done|done| |done]. intros hp n v. by eapply Hshort.
Qed.

(** A header value of 4066 to 8192 bytes is accepted, but its encryption, which is
    what is stored, is rejected when the file is loaded. *)
Theorem long_secret_locks_out key n k v e :
  length key = 32%nat -> validateHeader (k, v) = ok -> IsEncrypted v = false -> length n = 12%nat -> 4066 <= len v ->
  EncryptSecret key (Some n) v = Some e -> validateHeader (k, e) <> ok.
Proof.
  intros Hkey Hv Hi Hn Hl He. unfold validateHeader in *. case_decide; [done|]. destruct (ContainsAny e _); [done|].
  rewrite decide_True; [done|]. rewrite (encrypted_length _ _ _ _ Hkey He) by done. lia.
Qed.

(** A body of a megabyte or more is not refused: what is parsed and authenticated is
    its first megabyte, and the answer 413 is never given for its size. *)
Theorem large_body_truncated b e : 1048576 <= len b -> readLimited (b, e) = Some (take (Z.to_nat 1048576) b).
Proof. intros H. unfold readLimited. cbn [fst]. by rewrite decide_True by lia. Qed.

End Stored.

(** ** Demonstrations *)

(** One proxied host with a secret header. *)
Definition demo_section : HostConfig :=
  {| hc_Records := []; hc_TlsProxy := None; hc_Redirect := None;
     hc_HttpProxy := Some {| hp_Enabled := true; hp_Upstream := gs "http://93.184.216.34"; hp_Headers := {[ gs "X-Token" := gs "secret" ]};
                             hp_ForwardRequestBody := false; hp_MaxRequestBodyBytes := 0; hp_ClientTls := None |} |}.
Definition demo_new : ServerConfig := config_with {[ gs "a.example" := demo_section ]}.
(** The toy hash is the identity, so that a salt of two zero bytes makes every nonce a
    valid proof of work. *)
Definition demo_cp : ControlPlane :=
  match NewControlPlane (AE := toy_aead) 0 [] (gs "key") [0; 0] demo_http_cfg (gs "/etc/c.json") None with
  | Ret cp => Subscribe cp
  | _ => with_nonces (Subscribe {| cn_cfg := demo_http_cfg; cn_port := 0; cn_socketPath := []; cn_apiKey := []; cn_blindIndexSalt := [];
      cn_configFilePath := []; cn_tlsCfg := None; cn_subscribers := 0; cn_seenNonces := ∅; cn_currentPoWWindow := 0; cn_expectedApiKeyHash := [];
      cn_apiKeySecret := []; cn_deviceSecret := []; cn_tlsActive := false; cn_stopped := false |}) 0 ∅
  end.
Definition demo_view : View :=
  {| v_sandboxSubnets := gs "172.16.0.0/12"; v_logger := demo_logger; v_formatTime := fun _ => Some (gs "2024-01-01T00:00:00Z"); v_IPToName := ∅; v_dashboard := gs "<html>" |}.
Definition demo_ambient (t : Z) : Ambient :=
  {| am_unix := t; am_nano := t; am_milli := t; am_nonce := fun _ _ => Some (replicate 12 3); am_open := true; am_write := true; am_rename := true; am_remove := true; am_partial := [] |}.
Definition demo_put (nonce : gostring) : HttpRequest :=
  {| rq_ClientIp := gs "10.0.0.9"; rq_Method := gs "PUT"; rq_RequestURI := gs "/api/v1/config"; rq_Host := []; rq_Path := gs "/api/v1/config";
     rq_RawQuery := []; rq_Body := Some (marshalConfig demo_new, None); rq_ContentLength := len (marshalConfig demo_new);
     rq_Header := <[gs "X-Api-Key" := [gs "key"]]> (<[gs "X-Device-Id" := [gs "d"]]> {[ gs "X-Pow-Nonce" := [nonce] ]}) |}.
Definition demo_arrivals : list arrival :=
  map (fun tn => (demo_key, demo_view, demo_ambient tn.1, demo_put tn.2)) [(600, gs "n1"); (700, gs "n1"); (710, gs "n2"); (900, gs "n1")].

Abbreviation demo_cp_serve := (cpServeHTTP (U := ascii_unicode) (UR := simple_url) (AE := toy_aead) (MR := list_range) (JL := no_floats)).

Example demo_update :
  let o := demo_cp_serve demo_key demo_view (demo_ambient 600) demo_cp ∅ (demo_put (gs "n1")) in
  fst <$> w_Sent (oc_w o) = Some 200 /\ oc_disk o !! gs "/etc/c.json" = Some (encodeConfig (cn_cfg (oc_cp o))) /\ length (oc_notified o) = 1%nat.
Proof. vm_compute. done. Qed.
Example demo_replay :
  run_requests (U := ascii_unicode) (UR := simple_url) (AE := toy_aead) (MR := list_range) (JL := no_floats) demo_cp ∅ demo_arrivals
  = [(2, gs "n1"); (2, gs "n2"); (3, gs "n1")].
Proof. vm_compute. reflexivity. Qed.

Lemma updates_not_replayed_witness :
  NoDup (run_requests (U := ascii_unicode) (UR := simple_url) (AE := toy_aead) (MR := list_range) (JL := no_floats) demo_cp ∅ demo_arrivals).
Proof.
  apply (updates_not_replayed (U := ascii_unicode) (UR := simple_url) (AE := toy_aead) (MR := list_range) (JL := no_floats) demo_cp ∅ 600 demo_arrivals);
    [lia|vm_compute; congruence|]. cbn. lia.
Defined.

Lemma demo_nonces_ok : nonces_ok (fun _ _ => Some (replicate 12 3)).
Proof. intros h k n [= <-]. split; [by apply (bool_decide_eq_true_1 _)|reflexivity]. Qed.

Lemma stored_secrets_encrypted_witness :
  exists hc' hp' v', cfg_Hosts (encryptHeaders (AE := toy_aead) demo_key (fun _ _ => Some (replicate 12 3)) demo_new) !! gs "a.example" = Some hc' /\
    hc_HttpProxy hc' = Some hp' /\ hp_Headers hp' !! gs "X-Token" = Some v' /\ DecryptSecret (AE := toy_aead) demo_key v' = Ret (Some (gs "secret")).
Proof.
  destruct (stored_secrets_encrypted (AE := toy_aead) demo_key (fun _ _ => Some (replicate 12 3)) demo_new (gs "a.example") demo_section
    (default {| hp_Enabled := true; hp_Upstream := []; hp_Headers := ∅; hp_ForwardRequestBody := false; hp_MaxRequestBodyBytes := 0; hp_ClientTls := None |} (hc_HttpProxy demo_section))
    (gs "X-Token") (gs "secret")) as (hc' & hp' & v' & H1 & H2 & H3 & H4);
    [reflexivity|exact demo_nonces_ok|vm_compute; reflexivity|reflexivity|vm_compute; reflexivity|by apply (bool_decide_eq_true_1 _)|].
  exists hc', hp', v'. split; [exact H1|]. split; [exact H2|]. split; [exact H3|]. destruct H4 as [(_ & [He|Hx])|(_ & n & tag & ct & _ & _ & _ & _ & _ & Hd)]; [|discriminate Hx|exact Hd].
  apply IsEncrypted_form in He. by vm_compute in He.
Defined.

Definition demo_accepted : ServerConfig :=
  match ValidateServerConfig (U := ascii_unicode) (UR := simple_url) (MR := list_range) demo_new with inr c => c | inl _ => demo_new end.
Lemma demo_new_valid : ValidateServerConfig (U := ascii_unicode) (UR := simple_url) (MR := list_range) demo_new = inr demo_accepted.
Proof. vm_compute. reflexivity. Qed.

Lemma demo_new_short : short_secrets demo_accepted.
Proof.
  intros h hc hp k v Hh Hp Hk. replace (cfg_Hosts demo_accepted) with ({[ gs "a.example" := demo_section ]} : gmap gostring HostConfig) in Hh by (vm_compute; reflexivity).
  apply lookup_singleton_Some in Hh as [<- <-]. simpl in Hp. injection Hp as <-. simpl in Hk. apply lookup_singleton_Some in Hk as [<- <-].
  split; [by apply (bool_decide_eq_true_1 _)|]. intros _. vm_compute. congruence.
Qed.

Lemma stored_config_loads_witness :
  ValidateServerConfig (U := ascii_unicode) (UR := simple_url) (MR := list_range)
    (encryptHeaders (AE := toy_aead) demo_key (fun _ _ => Some (replicate 12 3)) demo_accepted)
  = inr (encryptHeaders (AE := toy_aead) demo_key (fun _ _ => Some (replicate 12 3)) demo_accepted).
Proof.
  apply (stored_config_loads (U := ascii_unicode) (UR := simple_url) (AE := toy_aead) (MR := list_range) demo_key (fun _ _ => Some (replicate 12 3)) demo_new demo_accepted
    ascii_no_upper eq_refl demo_nonces_ok demo_new_valid demo_new_short).
Defined.

Lemma long_secret_locks_out_witness :
  let v := replicate 4066 97 in
  validateHeader (gs "X-Token", v) = ok /\
  validateHeader (gs "X-Token", default [] (EncryptSecret (AE := toy_aead) demo_key (Some (replicate 12 3)) v)) <> ok.
Proof.
  split; [vm_compute; reflexivity|].
  apply (long_secret_locks_out (AE := toy_aead) demo_key (replicate 12 3) (gs "X-Token") (replicate 4066 97));
    [reflexivity|vm_compute; reflexivity|vm_compute; reflexivity|reflexivity|vm_compute; congruence|vm_compute; reflexivity].
Defined.

(** An IPv6 client with a zone is not recognised as one of the sandbox. *)
Theorem zoned_client_admitted :
  sandboxed (gs "fe80::/10") (gs "fe80::1%eth0") = None /\ sandboxed (gs "fe80::/10") (gs "fe80::1") = Some (gs "fe80::/10").
Proof. vm_compute. done. Qed.
