(* ===== verification/StoredConfig.v ===== *)
(** * The configuration from request to file

    The values of a configuration on their way: the decoder makes UTF-8 strings and 64-bit
    integers of any accepted text, the validator and the encryption of secrets keep them,
    so that the file and the answers of the control plane can always be read again. *)
From S2P Require Import Prelude GoStrings NetIP Platform JsonText GoText Config Json JsonValues Wire Firewall Circuit RateLimiter AuditLog AuditJson Cache Server Secrets HttpProxy Sni Validation ControlPlane.
#[local] Open Scope Z_scope.

Section StoredConfig.
Context {U : Unicode} {UR : Url} {AE : Aead} {MR : MapRange} {JL : JsonLib}.
Context (HU : forall r, ~ 65 <= unicode_ToLower r <= 90).

(** ** The validator *)

Lemma hostname_printable s : IsValidHostname s = true -> Forall ascii_print s.
Proof. intros H%IsValidHostname_chars. eapply Forall_impl; [exact H|]. intros c Hc%name_char_ascii. unfold ascii_print. lia. Qed.
Lemma key_printable key : validateKey key = ok -> Forall ascii_print (normalizeKey key).
Proof.
  intros [-> |[H|(m & -> & H)]]%validateKey_cases; [by apply (bool_decide_eq_true_1 _)|by apply hostname_printable|].
  apply Forall_app. split; [by apply (bool_decide_eq_true_1 _)|by apply hostname_printable].
Qed.

Section Values.
Context (S : gostring -> Prop) (N : Z -> Prop) (HS : forall s, Forall ascii_print s -> S s).

(** The validator replaces zeros by its defaults and keys by printable ones. *)
Lemma validate_vals c c' : (forall n, 0 <= n <= 3600000 -> N n) -> ValidateServerConfig c = inr c' -> config_vals S N c -> config_vals S N c'.
Proof.
  intros HN H (Hi & Hp & Hs & Ht & Hf & Hc & Hh). pose proof (ValidateServerConfig_inv HU c c' H) as (_ & _ & ? & ? & ? & ? & ? & ? & _ & Hv).
  unfold ValidateServerConfig in H. apply bind_unit in H as (_ & H). do 6 (apply bind_ok in H as (? & _ & H)).
  apply if_ok in H as [_ H]. apply bind_ok in H as (hosts & Hn & [= <-]). cbn in *.
  apply Forall_cons in Hi as [Hport _]. split; [repeat (apply Forall_cons; split; [first [exact Hport|apply HN; cbn; lia]|]); constructor|].
  do 5 (split; [done|]). intros k hc Hk. apply normalizeHosts_ok in Hn as [Hval ->].
  apply foldl_hosts_lookup in Hk as [Hk|(key & Hin & ->)]; [by rewrite lookup_empty in Hk|].
  split; [|apply elem_of_range in Hin; by apply (Hh key)]. apply HS, key_printable. rewrite Forall_forall in Hval. specialize (Hval _ Hin).
  cbn in Hval. by apply bind_unit in Hval as [Hval _].
Qed.

(** ** Encryption *)

Lemma hex_printable b : bytes_ok b -> Forall ascii_print (HexEncode b).
Proof. intros H%HexEncode_chars. eapply Forall_impl; [exact H|]. unfold ascii_print. lia. Qed.
Lemma encryptHeader_vals key nonces k v : length key = 32%nat -> bytes_ok v -> (forall n, nonces k = Some n -> bytes_ok n /\ length n = 12%nat) -> S v -> S (encryptHeader key nonces k v).
Proof.
  intros Hkey Hb Hn Hv. unfold encryptHeader. destruct (IsEncrypted v) eqn:E; [done|]. unfold EncryptSecret. rewrite E. destruct (nonces k) as [n|] eqn:En; [|done].
  set (sealed := Seal key n v).
  change (S (gs "v1:" ++ HexEncode n ++ gs ":" ++ HexEncode (drop (length sealed - 16) sealed) ++ gs ":" ++ HexEncode (take (length sealed - 16) sealed))).
  apply HS. destruct (Hn n eq_refl) as [Hn1 Hn2]. pose proof (Seal_bytes key n v Hkey Hn2 Hb) as Hseal. rewrite !Forall_app.
  repeat split; try (by apply (bool_decide_eq_true_1 _)); apply hex_printable; [done|by apply Forall_drop|by apply Forall_take].
Qed.
Lemma encrypt_vals key nonces c : length key = 32%nat -> nonces_ok nonces -> (forall s, S s -> bytes_ok s) -> config_vals S N c -> config_vals S N (encryptHeaders key nonces c).
Proof.
  intros Hkey Hn HB (Hi & Hp & Hs & Ht & Hf & Hc & Hh). do 6 (split; [done|]). intros k hc. cbn. rewrite map_lookup_imap. destruct (cfg_Hosts c !! k) as [h|] eqn:E; [|done].
  simpl. intros [= <-]. destruct (Hh k h E) as (Hk & H1 & H2 & H3 & H4). split; [done|]. split; [done|]. split; [|split; [exact H3|exact H4]].
  destruct (hc_HttpProxy h) as [p|] eqn:Ep; [|cbn; by rewrite Ep]. cbn. rewrite Ep. destruct H2 as (P1 & P2 & P3 & P4). split; [done|]. split; [|by split].
  intros name v. cbn. rewrite map_lookup_imap. destruct (hp_Headers p !! name) as [v0|] eqn:Ev; [|done]. simpl. intros [= <-]. destruct (P2 name v0 Ev) as [? Hv0].
  split; [done|]. apply encryptHeader_vals; [done|by apply HB| |done]. intros n E'. by apply (Hn k name).
Qed.
End Values.

Lemma parse_wf body c : bytes_ok body -> ParseServerConfig body = inr c -> wf_config c.
Proof.
  intros Hb H. unfold ParseServerConfig in H. apply bind_ok in H as (c0 & H0 & Hv). eapply validate_vals; [apply printable_valid| |exact Hv|by eapply unmarshal_wf].
  unfold int_ok. lia.
Qed.
Lemma encrypt_wf key nonces c : length key = 32%nat -> nonces_ok nonces -> wf_config c -> wf_config (encryptHeaders key nonces c).
Proof. intros Hkey Hn. apply encrypt_vals; [apply printable_valid|done|done|by intros s []]. Qed.

(** ** Sequences of requests *)

(** What is asked of a request: a master key of 32 bytes and nonces of 12, a body of bytes,
    and in an accepted body no secret too long to be stored and no integer that a
    floating-point number cannot hold. *)
Definition harmless (a : arrival) : Prop :=
  let '(key, _, am, r) := a in
  length key = 32%nat /\ nonces_ok (am_nonce am) /\
  forall body, readLimited (default ([], None) (rq_Body r)) = Some body ->
    bytes_ok body /\ forall c, ParseServerConfig body = inr c -> short_secrets c /\ @ints_fit exact c.

(** The control plane and the disk after a sequence of requests. *)
Definition after (cp : ControlPlane) (d : disk) (l : list arrival) : ControlPlane * disk :=
  foldl (fun s '(key, v, am, r) => let o := cpServeHTTP key v am s.1 s.2 r in (oc_cp o, oc_disk o)) (cp, d) l.

(** An invariant of single requests is one of sequences. *)
Lemma after_invariant (P : ControlPlane -> disk -> Prop) :
  (forall key v am cp d r, harmless (key, v, am, r) -> P cp d -> let o := cpServeHTTP key v am cp d r in P (oc_cp o) (oc_disk o)) ->
  forall l cp d, Forall harmless l -> P cp d -> P (after cp d l).1 (after cp d l).2.
Proof.
  intros Hstep l. unfold after. induction l as [|[[[key v] am] r] l IH]; intros cp d Hl Hp; [exact Hp|]. apply Forall_cons in Hl as [Hh Hl]. cbn [foldl fst snd].
  apply IH; [done|]. by apply Hstep.
Qed.

(** Every header secret is in its encrypted form, as an update leaves it. *)
Definition secrets_encrypted (c : ServerConfig) : Prop :=
  forall h hc hp k v, cfg_Hosts c !! h = Some hc -> hc_HttpProxy hc = Some hp -> hp_Headers hp !! k = Some v -> IsEncrypted v = true.

Lemma encryptHeaders_id key nonces c : secrets_encrypted c -> encryptHeaders key nonces c = c.
Proof.
  intros H. unfold encryptHeaders, with_hosts. replace (map_imap _ (cfg_Hosts c)) with (cfg_Hosts c); [by destruct c|]. apply map_eq. intros h. rewrite map_lookup_imap.
  destruct (cfg_Hosts c !! h) as [hc|] eqn:E; [|done]. simpl. f_equal. unfold encryptHost. destruct hc as [recs hp tp rd] eqn:Ehc. cbn. f_equal.
  destruct hp as [hp|]; [|done]. simpl. f_equal. unfold encryptProxy. replace (map_imap _ (hp_Headers hp)) with (hp_Headers hp); [by destruct hp|].
  apply map_eq. intros k. rewrite map_lookup_imap. destruct (hp_Headers hp !! k) as [v|] eqn:Ek; [|done]. simpl. unfold encryptHeader.
  by rewrite (H h _ hp k v E eq_refl Ek).
Qed.

Lemma answer_body code b w : w_Body (answer code b w) = w_Body w ++ b.
Proof. unfold answer. case_decide as E; [rewrite E; cbn; by rewrite app_nil_r|done]. Qed.

(** Reading and writing back changes nothing: the body that [GET /api/v1/config]
    answers, sent back in a [PUT], is accepted with 200, leaves the running configuration
    as it is, secrets included, and stores exactly it. *)
Theorem get_put_unchanged key v am cp d get put dev w :
  let c := cn_cfg cp in
  let got := w_Body (oc_w (apiRequest key v am cp d get dev [] w)) in
  let o := apiRequest key v am cp d put dev got w in
  rq_Path get = gs "/api/v1/config" -> rq_Method get = gs "GET" -> rq_Path put = gs "/api/v1/config" -> rq_Method put = gs "PUT" ->
  ValidateServerConfig c = inr c -> wf_config c -> secrets_encrypted c -> w_Sent w = None -> w_Body w = [] ->
  am_open am = true -> am_write am = true -> am_rename am = true ->
  fst <$> w_Sent (oc_w o) = Some 200 /\ oc_cp o = with_cn_cfg cp c /\ oc_disk o !! cn_configFilePath cp = Some (encodeConfig c).
Proof.
  cbn zeta. intros Hp Hm Hp' Hm' Hv Hwf Hs Hw0 Hb Ho Hw Hr.
  assert (w_Body (oc_w (apiRequest key v am cp d get dev [] w)) = marshalConfig (cn_cfg cp)) as ->
    by (unfold apiRequest; rewrite Hp, Hm; cbn [decide]; etrans; [apply answer_body|by rewrite Hb]).
  assert (forall b, apiRequest key v am cp d put dev b w = putConfig key am cp d (rq_ClientIp put) (gs "/api/v1/config") dev b w) as -> by (intros; unfold apiRequest; by rewrite Hp', Hm').
  unfold putConfig, ParseServerConfig. rewrite unmarshal_marshal by (by apply wf_fits || by apply wf_utf8). cbn [mbind sum_bind]. rewrite Hv.
  rewrite encryptHeaders_id by done. rewrite Ho, Hw, Hr. cbn [negb oc_w oc_cp oc_disk]. split; [by apply answer_status|]. split; [done|apply lookup_insert_eq].
Qed.
End StoredConfig.

(** ** Demonstrations *)

(** The running configuration after an update. *)
Definition demo_stored : ServerConfig := encryptHeaders (AE := toy_aead) demo_key (fun _ _ => Some (replicate 12 3)) demo_accepted.
Lemma demo_stored_hosts : exists hp, cfg_Hosts demo_stored = {[ gs "a.example" := {| hc_Records := []; hc_TlsProxy := None; hc_Redirect := None; hc_HttpProxy := Some hp |} ]} /\
  hp_MaxRequestBodyBytes hp = 0 /\ exists v, hp_Headers hp = {[ gs "X-Token" := v ]} /\ IsEncrypted v = true.
Proof. eexists. split; [vm_compute; reflexivity|]. split; [reflexivity|]. eexists. split; vm_compute; reflexivity. Qed.

(** Configurations with the listeners and limits of the demonstration, and one host. *)
Definition int_values (c : ServerConfig) : list Z :=
  [cfg_Port c; cfg_DnsCacheMaxSize c; cfg_DnsCacheTtlMs c; cfg_MaxTcpConnections c; cfg_TcpIdleTimeoutMs c; cfg_RateLimitMaxRequests c; cfg_RateLimitWindowMs c]
  ++ omap id [cfg_HttpPort c; cfg_HttpsPort c; cfg_DotPort c; cfg_DohPort c].
Lemma demo_fits (fits : Z -> Prop) c h hc :
  cfg_Hosts c = {[ h := hc ]} -> forallb (fun n => (0 <=? n) && (n <=? 2 ^ 32)) (int_values c) = true -> cfg_ControlPlane c = None ->
  (forall n, 0 <= n <= 2 ^ 32 -> fits n) -> @host_fits fits hc -> @ints_fit fits c.
Proof.
  intros Hh Hi Hc Hf Hhc.
  assert (forall n, n ∈ int_values c -> fits n) as Hall.
  { intros n Hn%list_elem_of_In. rewrite forallb_forall in Hi. specialize (Hi n Hn). apply Hf. lia. }
  split; [apply Forall_forall; intros n Hn; apply Hall, elem_of_app; by left|]. split.
  - apply Forall_forall. intros p Hp n ->. apply Hall, elem_of_app. right. apply list_elem_of_omap. by eexists.
  - rewrite Hc, Hh. split; [done|]. intros k x Hk. by apply lookup_singleton_Some in Hk as [_ <-].
Qed.
Lemma demo_accepted_fits : @ints_fit exact demo_accepted.
Proof.
  eapply demo_fits; [|vm_compute; reflexivity|vm_compute; reflexivity|intros n Hn; unfold exact; lia|].
  - transitivity ({[ gs "a.example" := demo_section ]} : gmap gostring HostConfig); [vm_compute; reflexivity|reflexivity].
  - split; [constructor|]. split; [|split; intros p Hp; discriminate]. intros p [= <-]. split; vm_compute; congruence.
Qed.
Lemma demo_parsed : ParseServerConfig (U := ascii_unicode) (UR := simple_url) (MR := list_range) (JL := no_floats) (marshalConfig demo_new) = inr demo_accepted.
Proof. vm_compute. reflexivity. Qed.
Lemma demo_bytes : bytes_ok (marshalConfig demo_new).
Proof. by apply (bool_decide_eq_true_1 _). Qed.
Lemma demo_stored_wf : wf_config demo_stored.
Proof. apply encrypt_wf; [reflexivity|exact demo_nonces_ok|]. exact (parse_wf (UR := simple_url) (MR := list_range) (JL := no_floats) ascii_no_upper _ _ demo_bytes demo_parsed). Qed.

Definition demo_api (method : gostring) : HttpRequest :=
  {| rq_ClientIp := gs "10.0.0.9"; rq_Method := method; rq_RequestURI := gs "/api/v1/config"; rq_Host := []; rq_Path := gs "/api/v1/config";
     rq_RawQuery := []; rq_Body := None; rq_ContentLength := 0; rq_Header := ∅ |}.
Lemma get_put_unchanged_witness :
  let api := apiRequest (U := ascii_unicode) (UR := simple_url) (AE := toy_aead) (MR := list_range) (JL := no_floats) demo_key demo_view (demo_ambient 600) (with_cn_cfg demo_cp demo_stored) ∅ in
  oc_cp (api (demo_api (gs "PUT")) (gs "d") (w_Body (oc_w (api (demo_api (gs "GET")) (gs "d") [] new_writer))) new_writer) = with_cn_cfg demo_cp demo_stored.
Proof.
  cbn zeta. refine (proj1 (proj2 (get_put_unchanged (U := ascii_unicode) (UR := simple_url) (AE := toy_aead) (MR := list_range) (JL := no_floats) demo_key demo_view (demo_ambient 600)
    (with_cn_cfg demo_cp demo_stored) ∅ (demo_api (gs "GET")) (demo_api (gs "PUT")) (gs "d") new_writer eq_refl eq_refl eq_refl eq_refl _ demo_stored_wf _
    eq_refl eq_refl eq_refl eq_refl eq_refl))); [vm_compute; reflexivity|].
  destruct demo_stored_hosts as (hp & Hh & _ & v & Hv & He). intros h hc p k x H1 H2 H3. cbn [cn_cfg with_cn_cfg] in H1. rewrite Hh in H1.
  apply lookup_singleton_Some in H1 as [_ <-]. injection H2 as <-. rewrite Hv in H3. by apply lookup_singleton_Some in H3 as [_ <-].
Defined.

Abbreviation demo_after := (after (U := ascii_unicode) (UR := simple_url) (AE := toy_aead) (MR := list_range) (JL := no_floats)).
Lemma demo_harmless : Forall (harmless (U := ascii_unicode) (UR := simple_url) (MR := list_range) (JL := no_floats)) demo_arrivals.
Proof.
  apply Forall_map, Forall_true. intros [tm n]. split; [reflexivity|]. split; [exact demo_nonces_ok|]. intros body Hb.
  assert (body = marshalConfig demo_new) as -> by (vm_compute in Hb; injection Hb as <-; vm_compute; reflexivity).
  split; [exact demo_bytes|]. intros c Hc. rewrite demo_parsed in Hc. rewrite <- (inj inr _ _ Hc). split; [exact demo_new_short|exact demo_accepted_fits].
Qed.
(** The first and the third request replace the file. *)
Example demo_synced : let s := demo_after demo_cp ∅ demo_arrivals in s.2 !! gs "/etc/c.json" = Some (encodeConfig (cn_cfg s.1)).
Proof. vm_compute. reflexivity. Qed.

(** The challenge is quoted with [%q], which is no JSON for a control character. *)
Theorem challenge_not_json :
  let r := {| rq_ClientIp := gs "10.0.0.9"; rq_Method := gs "GET"; rq_RequestURI := gs "/api/v1/pow-challenge"; rq_Host := []; rq_Path := gs "/api/v1/pow-challenge";
              rq_RawQuery := gs "payload_hash=%7F"; rq_Body := None; rq_ContentLength := 0; rq_Header := ∅ |} in
  let w := oc_w (apiRequest (U := ascii_unicode) (UR := simple_url) (AE := toy_aead) (MR := list_range) (JL := no_floats) demo_key demo_view (demo_ambient 600) demo_cp ∅ r (gs "d") [] (json_type new_writer)) in
  fst <$> w_Sent w = Some 200 /\ parseJson (w_Body w) = None.
Proof. vm_compute. done. Qed.
