(* ===== verification/Dnssec.v ===== *)
(** * DNSSEC checks of upstream responses ([pkg/dns/dnssec.go])

    Record extraction, RRSIG and DNSKEY parsing, key tags, the signed data in
    canonical order and the acceptance rule.  The hash and the two signature
    algorithms of Go's [crypto] packages are the class [Crypto], about which
    nothing is assumed. *)
From stdpp Require Import sorting.
From S2P Require Import Prelude GoStrings NetIP Config Wire AuditLog Cache Server.

Class Crypto := {
  crypto_sha256 : bytes -> bytes;
  (* modulus, exponent, hash, signature *)
  rsa_VerifyPKCS1v15 : Z -> Z -> bytes -> bytes -> bool;
  (* the P-256 point, hash, r and s *)
  ecdsa_Verify : Z -> Z -> bytes -> Z -> Z -> bool;
}.

Record ParsedRecord := {
  pr_Name : gostring;
  pr_Type : Z;
  pr_Class : Z;
  pr_TTL : Z;
  pr_RdLength : Z;
  pr_Rdata : bytes;
  pr_Offset : Z;
}.

#[export] Instance ParsedRecord_eq_dec : EqDecision ParsedRecord.
Proof. solve_decision. Defined.

Record RRSIG := {
  sig_TypeCovered : Z;
  sig_Algorithm : Z;
  sig_Labels : Z;
  sig_OriginalTTL : Z;
  sig_SignatureExpiration : Z;
  sig_SignatureInception : Z;
  sig_KeyTag : Z;
  sig_SignerName : gostring;
  sig_Signature : bytes;
  sig_RawRdata : bytes;
}.

Record DNSKEY := { key_Flags : Z; key_Protocol : Z; key_Algorithm : Z; key_PublicKey : bytes }.

(** [b[lo:]] *)
Definition slice_from (b : bytes) (lo : Z) : go bytes := slice b lo (len b).

(** [None] is the error result. *)
Definition parseDnskey (rdata : bytes) : go (option DNSKEY) :=
  if decide (len rdata < 4) then Ret None
  else
    flags ← get_uint16 rdata 0;
    protocol ← index rdata 2;
    algorithm ← index rdata 3;
    pubKey ← slice_from rdata 4;
    Ret (Some {| key_Flags := flags; key_Protocol := protocol; key_Algorithm := algorithm; key_PublicKey := pubKey |}).

Definition parseRrsig (rdata : bytes) : go (option RRSIG) :=
  if decide (len rdata < 18) then Ret None
  else
    typeCovered ← get_uint16 rdata 0;
    algorithm ← index rdata 2;
    labels ← index rdata 3;
    originalTTL ← get_uint32 rdata 4;
    expiration ← get_uint32 rdata 8;
    inception ← get_uint32 rdata 12;
    keyTag ← get_uint16 rdata 16;
    '(signerName, dw) ← ReadDomainName {| Buf := rdata; Offset := 18 |};
    signature ← slice_from rdata (Offset dw);
    Ret (Some {| sig_TypeCovered := typeCovered; sig_Algorithm := algorithm; sig_Labels := labels;
                 sig_OriginalTTL := originalTTL; sig_SignatureExpiration := expiration;
                 sig_SignatureInception := inception; sig_KeyTag := keyTag; sig_SignerName := signerName;
                 sig_Signature := signature; sig_RawRdata := rdata |}).

(** [ac] is a 32-bit accumulator. *)
Fixpoint keyTagLoop (i : Z) (raw : bytes) (ac : Z) : Z :=
  match raw with
  | [] => ac
  | b :: raw =>
      keyTagLoop (i + 1) raw
        (uint32 (if decide (Z.land i 1 <> 0) then ac + b else ac + uint32 (Z.shiftl b 8)))
  end.

Definition calculateKeyTag (k : DNSKEY) (rawRdata : bytes) : go Z :=
  if decide (key_Algorithm k = 1) then
    if decide (len (key_PublicKey k) < 2) then Ret 0
    else
      hi ← index (key_PublicKey k) (len (key_PublicKey k) - 3);
      lo ← index (key_PublicKey k) (len (key_PublicKey k) - 2);
      Ret (uint16 (uint16 (Z.shiftl hi 8) + lo))
  else
    let ac := keyTagLoop 0 rawRdata 0 in
    let ac := uint32 (ac + Z.land (Z.shiftr ac 16) 65535) in
    Ret (uint16 (Z.land ac 65535)).

(** The order of [sort.Slice] on record data. *)
Fixpoint rdata_lt (a b : bytes) : bool :=
  match a, b with
  | [], [] => false
  | [], _ :: _ => true
  | _ :: _, [] => false
  | x :: a, y :: b => if decide (x <> y) then bool_decide (x < y) else rdata_lt a b
  end.

Fixpoint insert_record (r : ParsedRecord) (l : list ParsedRecord) : list ParsedRecord :=
  match l with
  | [] => [r]
  | s :: l => if rdata_lt (pr_Rdata s) (pr_Rdata r) then s :: insert_record r l else r :: s :: l
  end.
(** An insertion sort; the order that [sort.Slice] gives to equal data does not
    matter, see [signedData_order]. *)
Definition sortRrset (l : list ParsedRecord) : list ParsedRecord := foldr insert_record [] l.

(** [big.Int.SetBytes] *)
Definition bigBytes (b : bytes) : Z := foldl (fun a x => a * 256 + x) 0 b.
(** Wrap-around of Go's 64-bit [int]. *)
Definition int64 (v : Z) : Z := (v + 2 ^ 63) mod 2 ^ 64 - 2 ^ 63.
Definition expBytes (b : bytes) : Z := foldl (fun e x => Z.lor (int64 (Z.shiftl e 8)) x) 0 b.

Section Dnssec.
Context {U : Unicode} {CR : Crypto}.

Definition encodeCanonicalName (name : gostring) : go bytes :=
  dw ← WriteDomainName (NewDnsWireFormat None) (ToLower name); Finish dw.

(** The closure [parseSection]: records and the decoder, which it shares. *)
Fixpoint parseSection (count : nat) (buffer : bytes) (dw : DnsWireFormat) : go (list ParsedRecord * DnsWireFormat) :=
  match count with
  | O => Ret ([], dw)
  | S count =>
      if decide (len buffer <= Offset dw) then Ret ([], dw)
      else
        '(name, dw) ← ReadDomainName dw;
        '(rtype, dw) ← ReadUint16 dw;
        '(rclass, dw) ← ReadUint16 dw;
        '(ttl, dw) ← ReadUint32 dw;
        '(rdlen, dw) ← ReadUint16 dw;
        if decide (len buffer < Offset dw + rdlen) then Ret ([], dw)
        else
          rdata ← slice buffer (Offset dw) (Offset dw + rdlen);
          let r := {| pr_Name := ToLower name; pr_Type := rtype; pr_Class := rclass; pr_TTL := ttl;
                      pr_RdLength := rdlen; pr_Rdata := rdata; pr_Offset := Offset dw |} in
          '(records, dw) ← parseSection count buffer (skip dw rdlen);
          Ret (r :: records, dw)
  end.

Record sections := { sec_answers : list ParsedRecord; sec_authorities : list ParsedRecord; sec_additionals : list ParsedRecord }.

Definition extractSections (buffer : bytes) : go sections :=
  '(qdcount, dw) ← ReadUint16 {| Buf := buffer; Offset := 4 |};
  '(ancount, dw) ← ReadUint16 dw;
  '(nscount, dw) ← ReadUint16 dw;
  '(arcount, dw) ← ReadUint16 dw;
  dw ← skipNames (Z.to_nat qdcount) dw;
  '(answers, dw) ← parseSection (Z.to_nat ancount) buffer dw;
  '(authorities, dw) ← parseSection (Z.to_nat nscount) buffer dw;
  '(additionals, dw) ← parseSection (Z.to_nat arcount) buffer dw;
  Ret {| sec_answers := answers; sec_authorities := authorities; sec_additionals := additionals |}.

(** [None] is the error result, a recovered panic included. *)
Definition extractRecords (buffer : bytes) : go (option sections) :=
  if decide (len buffer < 12) then Ret None
  else match extractSections buffer with
       | Ret s => Ret (Some s)
       | Panic => Ret None
       | Hang => Hang
       end.

(** One record of the signed data. *)
Definition signedRecord (originalTTL : Z) (rr : ParsedRecord) : go bytes :=
  ownerCanonical ← encodeCanonicalName (pr_Name rr);
  header ← put_uint16 (replicate 10 0) 0 (pr_Type rr);
  header ← put_uint16 header 2 (pr_Class rr);
  header ← put_uint32 header 4 originalTTL;
  header ← put_uint16 header 8 (pr_RdLength rr);
  Ret (ownerCanonical ++ header ++ pr_Rdata rr).

Fixpoint signedRecords (originalTTL : Z) (rrset : list ParsedRecord) : go bytes :=
  match rrset with
  | [] => Ret []
  | rr :: rrset => a ← signedRecord originalTTL rr; b ← signedRecords originalTTL rrset; Ret (a ++ b)
  end.

Definition signedData (rrsig : RRSIG) (rrset : list ParsedRecord) : go bytes :=
  rrsigPrefix ← slice (sig_RawRdata rrsig) 0 18;
  signerNameCanonical ← encodeCanonicalName (sig_SignerName rrsig);
  records ← signedRecords (sig_OriginalTTL rrsig) (sortRrset rrset);
  Ret (rrsigPrefix ++ signerNameCanonical ++ records).

Definition verifyRsa (pubKeyRaw hashed signature : bytes) : go (bool * list call) :=
  if decide (len pubKeyRaw < 2) then Ret (false, [])
  else
    first ← index pubKeyRaw 0;
    if decide (first = 0 /\ len pubKeyRaw < 3) then Ret (false, [])
    else
      exponentLen ← (if decide (first = 0) then get_uint16 pubKeyRaw 1 else Ret first);
      let offset := if decide (first = 0) then 3 else 1 in
      if decide (len pubKeyRaw < offset + exponentLen) then Ret (false, [])
      else
        exponentBytes ← slice pubKeyRaw offset (offset + exponentLen);
        modulusBytes ← slice_from pubKeyRaw (offset + exponentLen);
        if decide (len modulusBytes = 0)
        then Ret (false, [CallError (gs "DNSSEC Cryptographic Violation: Zero modulus key exception rejected")])
        else Ret (rsa_VerifyPKCS1v15 (bigBytes modulusBytes) (expBytes exponentBytes) hashed signature, []).

Definition verifyEcdsa (pubKeyRaw hashed signature : bytes) : go (bool * list call) :=
  if decide (len pubKeyRaw <> 64) then Ret (false, [])
  else
    x ← slice pubKeyRaw 0 32;
    y ← slice pubKeyRaw 32 64;
    if decide (len signature <> 64) then Ret (false, [])
    else
      r ← slice signature 0 32;
      s ← slice signature 32 64;
      Ret (ecdsa_Verify (bigBytes x) (bigBytes y) hashed (bigBytes r) (bigBytes s), []).

(** [now] is [time.Now().Unix()]. *)
Definition verifySignature (now : Z) (rrsig : RRSIG) (rrset : list ParsedRecord) (dnskey : DNSKEY)
  : go (bool * list call) :=
  let now := uint32 now in
  if decide (now > sig_SignatureExpiration rrsig \/ now < sig_SignatureInception rrsig) then
    Ret (false, [CallError (gs "DNSSEC Temporal Fault: RRSIG outside validity window")])
  else
    data ← signedData rrsig rrset;
    let hashed := crypto_sha256 data in
    if decide (sig_Algorithm rrsig = 8) then verifyRsa (key_PublicKey dnskey) hashed (sig_Signature rrsig)
    else if decide (sig_Algorithm rrsig = 13) then verifyEcdsa (key_PublicKey dnskey) hashed (sig_Signature rrsig)
    else Ret (false, [CallSystem (gs "DNSSEC Skipped: Unsupported cryptographic algorithm " ++ itoa (sig_Algorithm rrsig))]).

Definition isHostConfigDomainSecure (domain : gostring) (fw : option FirewallConfig) : bool :=
  match fw with
  | None => false
  | Some fw =>
      let normDomain := ToLower (TrimSuffix domain (gs ".")) in
      existsb (fun pattern =>
        let normPattern := ToLower (TrimSuffix pattern (gs ".")) in
        bool_decide (normPattern = normDomain) ||
        (HasPrefix normPattern (gs "*.") && HasSuffix normDomain (gs "." ++ drop 2 normPattern)))
        (fw_AllowlistDomains fw)
  end.

(** The search for a DNSKEY with the key tag. *)
Fixpoint findDnskey (keyTag : Z) (dnskeyRecords : list ParsedRecord) : go (option DNSKEY) :=
  match dnskeyRecords with
  | [] => Ret None
  | kRec :: rest =>
      k ← parseDnskey (pr_Rdata kRec);
      match k with
      | None => findDnskey keyTag rest
      | Some k =>
          tag ← calculateKeyTag k (pr_Rdata kRec);
          if decide (tag = keyTag) then Ret (Some k) else findDnskey keyTag rest
      end
  end.

Definition covered (answers : list ParsedRecord) (name : gostring) (type : Z) : list ParsedRecord :=
  filter (fun rr => pr_Name rr = name /\ pr_Type rr = type) answers.

Fixpoint verifyLoop (now : Z) (answers dnskeyRecords rrsigRecords : list ParsedRecord) : go (bool * list call) :=
  match rrsigRecords with
  | [] => Ret (true, [])
  | sigRec :: rest =>
      rrsig ← parseRrsig (pr_Rdata sigRec);
      match rrsig with
      | None => verifyLoop now answers dnskeyRecords rest
      | Some rrsig =>
          let coveredRrset := covered answers (pr_Name sigRec) (sig_TypeCovered rrsig) in
          if decide (len coveredRrset = 0) then verifyLoop now answers dnskeyRecords rest
          else
            key ← findDnskey (sig_KeyTag rrsig) dnskeyRecords;
            match key with
            | None =>
                Ret (false, [CallError (gs "DNSSEC Cryptographic Fault: No matching DNSKEY found for RRSIG key tag "
                                        ++ itoa (sig_KeyTag rrsig))])
            | Some key =>
                '(ok, logs) ← verifySignature now rrsig coveredRrset key;
                if negb ok then
                  Ret (false, logs ++ [CallError (gs "DNSSEC Cryptographic Fault: Signature validation failed for "
                                                  ++ pr_Name sigRec)])
                else
                  '(r, logs') ← verifyLoop now answers dnskeyRecords rest;
                  Ret (r, logs ++ logs')
            end
      end
  end.

Fixpoint strippedLoop (expectedNames : list gostring) (fw : option FirewallConfig) : bool * list call :=
  match expectedNames with
  | [] => (true, [])
  | name :: rest =>
      if isHostConfigDomainSecure name fw then
        (false, [CallError (gs "DNSSEC Enforcement Downgrade Fault: Stripped signatures detected for secure zone " ++ name)])
      else strippedLoop rest fw
  end.

Definition VerifyDnssecResponse (now : Z) (buffer : bytes) (expectedNames : list gostring) (fw : option FirewallConfig)
  : go (bool * list call) :=
  r ← extractRecords buffer;
  match r with
  | None => Ret (false, [])
  | Some s =>
      let allRecords := sec_answers s ++ sec_authorities s ++ sec_additionals s in
      let dnskeyRecords := filter (fun r => pr_Type r = 48) allRecords in
      let rrsigRecords := filter (fun r => pr_Type r = 46) allRecords in
      if decide (len rrsigRecords = 0) then Ret (strippedLoop expectedNames fw)
      else verifyLoop now (sec_answers s) dnskeyRecords rrsigRecords
  end.

End Dnssec.

(** ** Key tags *)

(** The sum of the 16-bit words of the key, RFC 4034 appendix B. *)
Fixpoint be_words (raw : bytes) : Z :=
  match raw with
  | [] => 0
  | [a] => a * 256
  | a :: b :: raw => a * 256 + b + be_words raw
  end.

Lemma be_words_bound raw : bytes_ok raw -> 0 <= be_words raw <= 65535 * ((len raw + 1) / 2).
Proof.
  revert raw. fix IH 1. intros [|a [|b raw]] H.
  - by vm_compute.
  - apply Forall_cons_1 in H as [Ha _]. unfold is_byte in Ha. change ((len [a] + 1) / 2) with 1. simpl. lia.
  - apply Forall_cons_1 in H as [Ha [Hb H]%Forall_cons_1]. specialize (IH raw H). unfold is_byte in *.
    cbn [be_words]. rewrite !len_cons. replace (1 + (1 + len raw) + 1) with (len raw + 1 + 1 * 2) by lia.
    rewrite Z.div_add by lia. lia.
Qed.

Lemma keyTagLoop_words raw : forall i ac,
  bytes_ok raw -> 0 <= i -> Z.even i = true -> 0 <= ac -> ac + be_words raw < 2 ^ 32 ->
  keyTagLoop i raw ac = ac + be_words raw.
Proof.
  revert raw. fix IH 1. intros [|a [|b raw]] i ac H Hi He Hac Hb.
  - simpl. lia.
  - apply Forall_cons_1 in H as [Ha _]. unfold is_byte in Ha. cbn [keyTagLoop be_words] in *.
    rewrite decide_False.
    2:{ intros Hn. apply Hn. change 1 with (Z.ones 1). rewrite Z.land_ones by lia. change (2 ^ 1) with 2. by rewrite Zmod_even, He. }
    rewrite Z.shiftl_mul_pow2 by lia. unfold uint32. rewrite (Z.mod_small (a * 2 ^ 8)) by lia.
    rewrite Z.mod_small by lia. lia.
  - apply Forall_cons_1 in H as [Ha [Hb' H]%Forall_cons_1]. unfold is_byte in *. cbn [be_words] in *.
    pose proof (be_words_bound raw H) as [Hw _]. cbn [keyTagLoop].
    assert (forall j, 0 <= j -> Z.land j 1 = if Z.even j then 0 else 1) as Hl.
    { intros j Hj. change 1 with (Z.ones 1) at 1. rewrite Z.land_ones by lia. change (2 ^ 1) with 2. apply Zmod_even. }
    rewrite (decide_False (P := Z.land i 1 <> 0)) by (rewrite Hl, He by lia; tauto).
    rewrite (decide_True (P := Z.land (i + 1) 1 <> 0))
      by (rewrite Hl by lia; rewrite Z.add_1_r, Z.even_succ, <- Z.negb_even, He; done).
    rewrite Z.shiftl_mul_pow2 by lia. unfold uint32. rewrite (Z.mod_small (a * 2 ^ 8)) by lia.
    rewrite (Z.mod_small (ac + _)) by lia. rewrite (Z.mod_small (ac + _ + b)) by lia.
    rewrite (IH raw (i + 1 + 1)); [lia|done|lia| |lia|lia].
    replace (i + 1 + 1) with (i + 2) by lia. by rewrite Z.even_add, He.
Qed.

(** The key tag of a DNSKEY (other than of algorithm 1) is the checksum of RFC 4034,
    appendix B, and the 32-bit accumulator of the loop never overflows: record data has
    at most 65535 bytes. *)
Theorem calculateKeyTag_rfc k raw :
  key_Algorithm k <> 1 -> bytes_ok raw -> len raw <= 65535 ->
  calculateKeyTag k raw = Ret ((be_words raw + be_words raw / 65536) mod 65536).
Proof.
  intros Ha Hok Hl. unfold calculateKeyTag. rewrite decide_False by done.
  pose proof (be_words_bound raw Hok) as Hb.
  assert ((len raw + 1) / 2 <= 32768) as Hd by (apply Z.div_le_upper_bound; lia).
  assert (be_words raw < 2 ^ 31) as Hs by lia.
  rewrite keyTagLoop_words by (done || lia). rewrite Z.add_0_l. cbv zeta. f_equal.
  rewrite Z.shiftr_div_pow2 by lia. change 65535 with (Z.ones 16). rewrite !Z.land_ones by lia.
  change (2 ^ 16) with 65536. unfold uint16, uint32.
  assert (0 <= be_words raw / 65536 < 65536) as Hq.
  { split; [apply Z.div_pos; lia|apply Z.div_lt_upper_bound; lia]. }
  rewrite (Z.mod_small (be_words raw / 65536)) by done. rewrite (Z.mod_small (_ + _)) by lia.
  change (2 ^ 16) with 65536. by rewrite Z.mod_mod by lia.
Qed.

Lemma calculateKeyTag_rfc_witness :
  calculateKeyTag {| key_Flags := 257; key_Protocol := 3; key_Algorithm := 13; key_PublicKey := [7; 200; 9] |}
    [1; 1; 3; 13; 7; 200; 9] = Ret 5334.
Proof.
  rewrite (calculateKeyTag_rfc {| key_Flags := 257; key_Protocol := 3; key_Algorithm := 13; key_PublicKey := [7; 200; 9] |}
    [1; 1; 3; 13; 7; 200; 9]); [reflexivity|done|by apply (bool_decide_eq_true_1 _)|by vm_compute].
Defined.

(** ** The signed data does not depend on the order of the records *)

Definition rdata_le (a b : bytes) : Prop := rdata_lt b a = false.

Lemma rdata_le_cons x y a b : rdata_le (x :: a) (y :: b) <-> x < y \/ (x = y /\ rdata_le a b).
Proof.
  unfold rdata_le. cbn [rdata_lt]. case_decide as H; [|naive_solver lia].
  rewrite bool_decide_eq_false. naive_solver lia.
Qed.

#[export] Instance rdata_le_trans : Transitive rdata_le.
Proof.
  intros a. induction a as [|x a IH]; intros [|y b] [|z c]; try done.
  rewrite !rdata_le_cons. intros [?|[-> H1]] [?|[-> H2]]; [left; lia|left; lia|left; lia|right].
  split; [done|]. by eapply IH.
Qed.
#[export] Instance rdata_le_antisym : AntiSymm (=) rdata_le.
Proof.
  intros a. induction a as [|x a IH]; intros [|y b]; try done. rewrite !rdata_le_cons.
  intros [?|[-> H1]] [?|[? H2]]; try lia. f_equal. by apply IH.
Qed.
#[export] Instance rdata_le_total : Total rdata_le.
Proof.
  intros a. induction a as [|x a IH]; intros [|y b]; [by left|by left|by right|].
  rewrite !rdata_le_cons. destruct (Z.lt_trichotomy x y) as [?|[->|?]]; [tauto| |tauto].
  destruct (IH b); tauto.
Qed.

Definition record_le (r s : ParsedRecord) : Prop := rdata_le (pr_Rdata r) (pr_Rdata s).

Lemma insert_record_perm r l : insert_record r l ≡ₚ r :: l.
Proof.
  induction l as [|s l IH]; [done|]. simpl. case_match; [|done]. rewrite IH. constructor.
Qed.
Lemma sortRrset_perm l : sortRrset l ≡ₚ l.
Proof. induction l as [|r l IH]; [done|]. simpl. by rewrite insert_record_perm, IH. Qed.

Lemma insert_record_sorted r l : StronglySorted record_le l -> StronglySorted record_le (insert_record r l).
Proof.
  induction 1 as [|s l Hs IH Hall]; simpl; [repeat constructor|]. case_match eqn:E.
  - constructor; [done|]. rewrite insert_record_perm. constructor; [|done].
    destruct (rdata_le_total (pr_Rdata s) (pr_Rdata r)) as [?|Hc]; [done|]. unfold rdata_le in Hc. congruence.
  - constructor; [by constructor|]. constructor; [done|]. eapply Forall_impl; [done|]. intros x Hx.
    unfold record_le in *. by trans (pr_Rdata s).
Qed.
Lemma sortRrset_sorted l : StronglySorted record_le (sortRrset l).
Proof. induction l as [|r l IH]; [constructor|]. simpl. by apply insert_record_sorted. Qed.

(** The records of one RRset: same owner, type and class. *)
Definition same_rrset (n : gostring) (t c : Z) (r : ParsedRecord) : Prop :=
  pr_Name r = n /\ pr_Type r = t /\ pr_Class r = c /\ pr_RdLength r = len (pr_Rdata r).

Section Order.
Context {U : Unicode}.

Lemma encodeCanonicalName_enc name : encodeCanonicalName name = Ret (enc_name (ToLower name)).
Proof. apply (run_appends (fun dw => WriteDomainName dw (ToLower name))), _. Qed.

Lemma signedRecord_enc ttl r :
  signedRecord ttl r = Ret (enc_name (ToLower (pr_Name r)) ++
    (be16 (pr_Type r) ++ be16 (pr_Class r) ++ be32 ttl ++ be16 (pr_RdLength r)) ++ pr_Rdata r).
Proof.
  unfold signedRecord. rewrite encodeCanonicalName_enc, bind_Ret.
  change (replicate 10 0) with ([] ++ [0; 0] ++ [0; 0; 0; 0; 0; 0; 0; 0]).
  assert (put_uint16 ([] ++ [0; 0] ++ [0; 0; 0; 0; 0; 0; 0; 0]) 0 (pr_Type r) = Ret (be16 (pr_Type r) ++ [0; 0; 0; 0; 0; 0; 0; 0])) as ->
    by exact (put_uint16_app [] [0; 0] [0; 0; 0; 0; 0; 0; 0; 0] (pr_Type r) eq_refl).
  rewrite bind_Ret.
  assert (put_uint16 (be16 (pr_Type r) ++ [0; 0; 0; 0; 0; 0; 0; 0]) 2 (pr_Class r) =
    Ret (be16 (pr_Type r) ++ be16 (pr_Class r) ++ [0; 0; 0; 0; 0; 0])) as ->
    by exact (put_uint16_app (be16 (pr_Type r)) [0; 0] [0; 0; 0; 0; 0; 0] (pr_Class r) eq_refl).
  rewrite bind_Ret.
  assert (put_uint32 (be16 (pr_Type r) ++ be16 (pr_Class r) ++ [0; 0; 0; 0; 0; 0]) 4 ttl =
    Ret (be16 (pr_Type r) ++ be16 (pr_Class r) ++ be32 ttl ++ [0; 0])) as ->
    by exact (put_uint32_app (be16 (pr_Type r) ++ be16 (pr_Class r)) [0; 0; 0; 0] [0; 0] ttl eq_refl).
  rewrite bind_Ret.
  assert (put_uint16 (be16 (pr_Type r) ++ be16 (pr_Class r) ++ be32 ttl ++ [0; 0]) 8 (pr_RdLength r) =
    Ret (be16 (pr_Type r) ++ be16 (pr_Class r) ++ be32 ttl ++ be16 (pr_RdLength r))) as ->
    by exact (put_uint16_app (be16 (pr_Type r) ++ be16 (pr_Class r) ++ be32 ttl) [0; 0] [] (pr_RdLength r) eq_refl).
  by rewrite bind_Ret.
Qed.

Lemma signedRecords_total ttl l : exists b, signedRecords ttl l = Ret b.
Proof. induction l as [|r l [b IH]]; [by eexists|]. simpl. rewrite signedRecord_enc, IH. by eexists. Qed.

Lemma signedRecords_same ttl n t c l k :
  Forall (same_rrset n t c) l -> Forall (same_rrset n t c) k -> map pr_Rdata l = map pr_Rdata k ->
  signedRecords ttl l = signedRecords ttl k.
Proof.
  intros Hl. revert k. induction Hl as [|r l (Hn & Ht & Hc & Hd) Hl IH]; intros [|s k] Hk E; try done.
  apply Forall_cons_1 in Hk as [(Hn' & Ht' & Hc' & Hd') Hk]. simpl in E. injection E as E1 E2. cbn [signedRecords].
  rewrite !signedRecord_enc, !bind_Ret, (IH k) by done. by rewrite Hn, Ht, Hc, Hd, Hn', Ht', Hc', Hd', E1.
Qed.

(** The canonical form is canonical: for the records of one RRset, arriving in any
    order, and for any sorting that puts their data in ascending order (whatever it
    does with equal data), the bytes that are hashed are the same. *)
Theorem signedData_order rrsig rrset rrset' sorted n t c :
  Forall (same_rrset n t c) rrset -> rrset' ≡ₚ rrset ->
  sorted ≡ₚ rrset -> StronglySorted record_le sorted ->
  signedData rrsig rrset' = signedData rrsig rrset /\
  signedRecords (sig_OriginalTTL rrsig) sorted = signedRecords (sig_OriginalTTL rrsig) (sortRrset rrset).
Proof.
  intros Hs Hp Hp2 Hsorted.
  assert (forall l k, l ≡ₚ rrset -> k ≡ₚ rrset -> StronglySorted record_le l -> StronglySorted record_le k ->
    signedRecords (sig_OriginalTTL rrsig) l = signedRecords (sig_OriginalTTL rrsig) k) as Hgen.
  { intros l k Hl Hk Sl Sk. apply (signedRecords_same _ n t c); [by rewrite Hl|by rewrite Hk|].
    apply (StronglySorted_unique rdata_le).
    - by apply (StronglySorted_fmap pr_Rdata record_le rdata_le).
    - by apply (StronglySorted_fmap pr_Rdata record_le rdata_le).
    - change (map pr_Rdata l) with (pr_Rdata <$> l). change (map pr_Rdata k) with (pr_Rdata <$> k).
      by rewrite Hl, Hk. }
  split.
  - unfold signedData. rewrite (Hgen (sortRrset rrset') (sortRrset rrset)); [done| | |apply sortRrset_sorted..].
    + by rewrite sortRrset_perm.
    + apply sortRrset_perm.
  - apply Hgen; [done|apply sortRrset_perm|done|apply sortRrset_sorted].
Qed.

End Order.

Definition demo_sig : RRSIG :=
  {| sig_TypeCovered := 1; sig_Algorithm := 13; sig_Labels := 2; sig_OriginalTTL := 300; sig_SignatureExpiration := 20;
     sig_SignatureInception := 10; sig_KeyTag := 7; sig_SignerName := gs "b"; sig_Signature := []; sig_RawRdata := replicate 20 0 |}.
Definition demo_rec (d : bytes) : ParsedRecord :=
  {| pr_Name := gs "a.b"; pr_Type := 1; pr_Class := 1; pr_TTL := 5; pr_RdLength := len d; pr_Rdata := d; pr_Offset := 0 |}.

Lemma signedData_order_witness :
  signedData (U := ascii_unicode) demo_sig [demo_rec [9; 9; 9; 9]; demo_rec [1; 2; 3; 4]] =
  signedData (U := ascii_unicode) demo_sig [demo_rec [1; 2; 3; 4]; demo_rec [9; 9; 9; 9]].
Proof.
  apply (signedData_order (U := ascii_unicode) demo_sig [demo_rec [1; 2; 3; 4]; demo_rec [9; 9; 9; 9]]
    [demo_rec [9; 9; 9; 9]; demo_rec [1; 2; 3; 4]] [demo_rec [1; 2; 3; 4]; demo_rec [9; 9; 9; 9]] (gs "a.b") 1 1).
  - repeat constructor.
  - apply Permutation_swap.
  - reflexivity.
  - repeat constructor.
Defined.

(** ** Extraction and verification return *)

Definition record_ok (r : ParsedRecord) : Prop := bytes_ok (pr_Rdata r) /\ len (pr_Rdata r) = pr_RdLength r /\ 0 <= pr_RdLength r < 65536.

Section Total.
Context {U : Unicode} {CR : Crypto}.

Lemma parseSection_total n buf off :
  bytes_ok buf -> 0 <= off ->
  exists rs off', parseSection n buf {| Buf := buf; Offset := off |} = Ret (rs, {| Buf := buf; Offset := off' |}) /\
    0 <= off' /\ Forall record_ok rs.
Proof.
  intros Hb. revert off. induction n as [|n IH]; intros off Ho; [by exists [], off|]. cbn [parseSection Buf Offset].
  case_decide; [by exists [], off|].
  destruct (ReadDomainName_step buf off Hb Ho) as (ls & o1 & -> & _ & Hn). rewrite bind_Ret. unfold next_ok in Hn.
  destruct (ReadUint16_total buf o1 Hb ltac:(lia)) as (v2 & o2 & -> & Hv2 & Ho2 & _ & Hi2). rewrite bind_Ret.
  destruct (ReadUint16_total buf o2 Hb Ho2) as (v3 & o3 & -> & Hv3 & Ho3 & _ & Hi3). rewrite bind_Ret.
  destruct (ReadUint32_total buf o3 Hb Ho3) as (v4 & o4 & -> & Hv4 & Ho4 & _ & Hi4). rewrite bind_Ret.
  destruct (ReadUint16_total buf o4 Hb Ho4) as (v5 & o5 & -> & Hv5 & Ho5 & _ & Hi5). rewrite bind_Ret. cbn [Offset].
  case_decide; [by exists [], o5|]. rewrite slice_Ret by lia. rewrite bind_Ret. unfold skip. cbn [Buf Offset]. cbv zeta.
  destruct (IH (o5 + v5) ltac:(lia)) as (rs & off' & -> & Ho' & Hrs). rewrite bind_Ret.
  eexists _, off'. split; [done|]. split; [done|]. constructor; [|done].
  split; [by apply Forall_take, Forall_drop|]. cbn [pr_Rdata pr_RdLength]. split; [|done]. len_solve.
Qed.

Lemma extractRecords_total buf :
  bytes_ok buf -> 12 <= len buf ->
  exists s, extractRecords buf = Ret (Some s) /\
    Forall record_ok (sec_answers s ++ sec_authorities s ++ sec_additionals s).
Proof.
  intros Hb Hl. unfold extractRecords. rewrite decide_False by lia. unfold extractSections.
  destruct (ReadUint16_total buf 4 Hb ltac:(lia)) as (v1 & o1 & -> & Hv1 & Ho1 & _). rewrite bind_Ret.
  destruct (ReadUint16_total buf o1 Hb Ho1) as (v2 & o2 & -> & Hv2 & Ho2 & _). rewrite bind_Ret.
  destruct (ReadUint16_total buf o2 Hb Ho2) as (v3 & o3 & -> & Hv3 & Ho3 & _). rewrite bind_Ret.
  destruct (ReadUint16_total buf o3 Hb Ho3) as (v4 & o4 & -> & Hv4 & Ho4 & _). rewrite bind_Ret.
  destruct (skipNames_total (Z.to_nat v1) buf o4 Hb Ho4) as (o5 & -> & Ho5). rewrite bind_Ret.
  destruct (parseSection_total (Z.to_nat v2) buf o5 Hb Ho5) as (r1 & o6 & -> & Ho6 & H1). rewrite bind_Ret.
  destruct (parseSection_total (Z.to_nat v3) buf o6 Hb Ho6) as (r2 & o7 & -> & Ho7 & H2). rewrite bind_Ret.
  destruct (parseSection_total (Z.to_nat v4) buf o7 Hb Ho7) as (r3 & o8 & -> & Ho8 & H3). rewrite bind_Ret.
  eexists. split; [done|]. simpl. by rewrite !Forall_app.
Qed.

Lemma parseRrsig_total rdata :
  bytes_ok rdata -> exists r, parseRrsig rdata = Ret r /\ forall s, r = Some s -> sig_RawRdata s = rdata /\ 18 <= len rdata.
Proof.
  intros Hb. unfold parseRrsig. case_decide; [by exists None|].
  unfold get_uint16, get_uint32. rewrite !decide_True by lia. rewrite !bind_Ret. rewrite !index_Ret by lia. rewrite !bind_Ret.
  destruct (ReadDomainName_step rdata 18 Hb ltac:(lia)) as (ls & o & -> & _ & Hn). rewrite bind_Ret. cbn [Offset].
  unfold slice_from, next_ok in *. rewrite slice_Ret by lia. rewrite bind_Ret. eexists. split; [done|].
  intros s [= <-]. simpl. split; [done|lia].
Qed.

Lemma parseDnskey_total rdata : exists k, parseDnskey rdata = Ret k.
Proof.
  unfold parseDnskey. case_decide; [by eexists|]. unfold get_uint16, slice_from. rewrite decide_True by lia.
  rewrite !index_Ret, slice_Ret by lia. by eexists.
Qed.

(** The DNSKEY records on which the key tag routine indexes before the key. *)
Definition short_rsamd5 (r : ParsedRecord) : Prop :=
  len (pr_Rdata r) = 6 /\ nth 3 (pr_Rdata r) 0 = 1.

Lemma findDnskey_total tag keys :
  Forall (fun r => ~ short_rsamd5 r) keys -> exists k, findDnskey tag keys = Ret k.
Proof.
  induction 1 as [|r keys Hr Hk IH]; [by eexists|]. cbn [findDnskey]. unfold parseDnskey.
  case_decide; [by rewrite bind_Ret|]. unfold get_uint16, slice_from. rewrite decide_True by lia.
  rewrite !index_Ret, slice_Ret by lia. rewrite !bind_Ret. unfold calculateKeyTag. cbn [key_Algorithm key_PublicKey].
  change (Z.to_nat 3) with 3%nat. set (pk := take _ _).
  assert (len pk = len (pr_Rdata r) - 4) as Hpk by (unfold pk; len_solve).
  destruct (decide (nth 3 (pr_Rdata r) 0 = 1)) as [E1|E1].
  - case_decide; [rewrite bind_Ret; case_decide; eauto|].
    assert (len pk <> 2) by (intros E2; apply Hr; split; [lia|done]).
    rewrite !index_Ret by lia. rewrite !bind_Ret. case_decide; eauto.
  - rewrite bind_Ret. case_decide; eauto.
Qed.

Lemma verifyRsa_total pk hashed sg : bytes_ok pk -> exists r, verifyRsa pk hashed sg = Ret r.
Proof.
  intros Hb. unfold verifyRsa. case_decide; [by eexists|]. rewrite index_Ret by lia. rewrite bind_Ret.
  pose proof (nth_bytes_ok pk (Z.to_nat 0) Hb) as H0. set (x := nth (Z.to_nat 0) pk 0) in *. unfold is_byte in H0.
  case_decide as Hs; [by eexists|].
  assert (exists e, (if decide (x = 0) then get_uint16 pk 1 else Ret x) = Ret e /\ 0 <= e) as (e & -> & He).
  { case_decide; [|exists x; split; [done|lia]]. destruct (get_uint16_total pk 1 Hb) as (v & -> & ?); [lia|lia|]. exists v. split; [done|lia]. }
  rewrite bind_Ret. set (o := if decide (x = 0) then 3 else 1). assert (0 <= o) by (unfold o; case_decide; lia).
  case_decide; [by eexists|]. unfold slice_from. rewrite !slice_Ret by lia. rewrite !bind_Ret. case_decide; by eexists.
Qed.

Lemma verifySignature_total now sig rrset key :
  18 <= len (sig_RawRdata sig) -> bytes_ok (key_PublicKey key) -> exists r, verifySignature now sig rrset key = Ret r.
Proof.
  intros Hl Hk. unfold verifySignature. cbv zeta. case_decide; [by eexists|]. unfold signedData.
  rewrite slice_Ret by lia. rewrite bind_Ret, encodeCanonicalName_enc, bind_Ret.
  destruct (signedRecords_total (sig_OriginalTTL sig) (sortRrset rrset)) as (b & ->). rewrite !bind_Ret.
  case_decide; [by apply verifyRsa_total|]. case_decide; [|by eexists].
  unfold verifyEcdsa. case_decide; [by eexists|].
  rewrite (slice_Ret (key_PublicKey key) 0), (slice_Ret (key_PublicKey key) 32) by lia. rewrite !bind_Ret.
  case_decide; [by eexists|].
  rewrite (slice_Ret (sig_Signature sig) 0), (slice_Ret (sig_Signature sig) 32) by lia. by eexists.
Qed.

Lemma findDnskey_ok tag keys k :
  Forall record_ok keys -> findDnskey tag keys = Ret (Some k) -> bytes_ok (key_PublicKey k).
Proof.
  induction 1 as [|r keys [Hr _] Hk IH]; [done|]. cbn [findDnskey]. intros H.
  apply bind_Ret_inv in H as ([k'|] & Hp & H); [|by apply IH].
  apply bind_Ret_inv in H as (t & _ & H). case_decide; [|by apply IH]. simplify_eq.
  unfold parseDnskey in Hp. destruct (decide (len (pr_Rdata r) < 4)); [done|].
  unfold get_uint16, slice_from in Hp. rewrite decide_True in Hp by lia.
  rewrite !index_Ret, slice_Ret in Hp by lia. simpl in Hp. simplify_eq. simpl. by apply Forall_take, Forall_drop.
Qed.

Lemma verifyLoop_total now answers keys sigs :
  Forall record_ok keys -> Forall (fun r => ~ short_rsamd5 r) keys -> Forall record_ok sigs ->
  exists r, verifyLoop now answers keys sigs = Ret r.
Proof.
  intros Hk Hs Hsig. induction Hsig as [|s sigs [Hb _] Hsig [r IH]]; [by eexists|]. cbn [verifyLoop].
  destruct (parseRrsig_total (pr_Rdata s) Hb) as ([g|] & -> & Hg); rewrite bind_Ret; [|eauto].
  destruct (Hg g eq_refl) as [Eg Hl]. case_decide; [eauto|].
  destruct (findDnskey_total (sig_KeyTag g) keys Hs) as ([k|] & Ek); rewrite Ek, bind_Ret; [|by eexists].
  destruct (verifySignature_total now g (covered answers (pr_Name s) (sig_TypeCovered g)) k) as ([ok logs] & Ev);
    [by rewrite Eg|by apply (findDnskey_ok (sig_KeyTag g) keys)|]. rewrite Ev, bind_Ret. destruct ok; [|by eexists].
  rewrite IH. destruct r. by eexists.
Qed.

(** No DNSKEY record of the message is one of algorithm 1 with a two-byte key. *)
Definition no_short_rsamd5 (buf : bytes) : Prop :=
  forall s, extractRecords buf = Ret (Some s) ->
    Forall (fun r => ~ (pr_Type r = 48 /\ short_rsamd5 r)) (sec_answers s ++ sec_authorities s ++ sec_additionals s).

Lemma VerifyDnssecResponse_short now buf names fw :
  len buf < 12 -> VerifyDnssecResponse now buf names fw = Ret (false, []).
Proof. intros Hl. unfold VerifyDnssecResponse, extractRecords. by rewrite decide_True. Qed.

Lemma VerifyDnssecResponse_returns now buf names fw :
  bytes_ok buf -> no_short_rsamd5 buf -> exists r, VerifyDnssecResponse now buf names fw = Ret r.
Proof.
  intros Hb Hks. destruct (decide (len buf < 12)); [rewrite VerifyDnssecResponse_short by done; by eexists|].
  destruct (extractRecords_total buf Hb) as (s & Es & Hok); [lia|]. specialize (Hks s Es).
  unfold VerifyDnssecResponse. rewrite Es, bind_Ret. cbv zeta. set (all := sec_answers s ++ _) in *.
  case_decide; [by eexists|]. apply verifyLoop_total; [by apply Forall_filter_1| |by apply Forall_filter_1].
  apply Forall_forall. intros r [Ht Hr]%list_elem_of_filter. rewrite Forall_forall in Hks. specialize (Hks r Hr). tauto.
Qed.

(** Verification of any response returns a verdict, without a panic, provided that
    no DNSKEY record in it is one of algorithm 1 with a two-byte key; a response of
    fewer than twelve bytes is rejected, and any other has its records extracted. *)
Theorem VerifyDnssecResponse_total now buf names fw :
  bytes_ok buf ->
  (len buf < 12 -> VerifyDnssecResponse now buf names fw = Ret (false, [])) /\
  (12 <= len buf -> exists s, extractRecords buf = Ret (Some s)) /\
  (no_short_rsamd5 buf -> exists r, VerifyDnssecResponse now buf names fw = Ret r).
Proof.
  intros Hb. split; [apply VerifyDnssecResponse_short|]. split; [|by apply VerifyDnssecResponse_returns].
  intros Hl. destruct (extractRecords_total buf Hb Hl) as (s & Es & _). by exists s.
Qed.

(** ** What an accepted response guarantees *)

Lemma verifyLoop_sound now answers keys sigs logs sigRec g :
  verifyLoop now answers keys sigs = Ret (true, logs) -> sigRec ∈ sigs ->
  parseRrsig (pr_Rdata sigRec) = Ret (Some g) -> covered answers (pr_Name sigRec) (sig_TypeCovered g) <> [] ->
  exists k lg, findDnskey (sig_KeyTag g) keys = Ret (Some k) /\
    verifySignature now g (covered answers (pr_Name sigRec) (sig_TypeCovered g)) k = Ret (true, lg).
Proof.
  revert logs. induction sigs as [|s sigs IH]; intros logs H Hin Hp Hc; [by apply elem_of_nil in Hin|].
  cbn [verifyLoop] in H. apply elem_of_cons in Hin. destruct (decide (s = sigRec)) as [->|Hne].
  - rewrite Hp, bind_Ret in H. rewrite decide_False in H by (destruct (covered _ _ _); [done|unfold len; simpl; lia]).
    apply bind_Ret_inv in H as ([k|] & Hk & H); [|done]. apply bind_Ret_inv in H as ([[] lg] & Hv & H); [|done]. eauto.
  - destruct Hin as [?|Hin]; [done|]. apply bind_Ret_inv in H as ([g'|] & _ & H); [|by eapply IH].
    case_decide; [by eapply IH|]. apply bind_Ret_inv in H as ([k|] & _ & H); [|done].
    apply bind_Ret_inv in H as ([[] lg] & _ & H); [|done]. apply bind_Ret_inv in H as ([r lg'] & Hr & H).
    simpl in H. simplify_eq. by eapply IH.
Qed.

(** *** Specification of a verified signature *)

(** The big-endian number in the [n] bytes from position [o]. *)
Definition number_at (b : bytes) (o n : nat) : Z := bigBytes (take n (drop o b)).

(** The fields of RRSIG data, RFC 4034 section 3.1; the signature is what follows the
    signer's name. *)
Record rrsig_layout (b : bytes) (g : RRSIG) : Prop := {
  rl_type : sig_TypeCovered g = number_at b 0 2;
  rl_algorithm : sig_Algorithm g = number_at b 2 1;
  rl_ttl : sig_OriginalTTL g = number_at b 4 4;
  rl_expiration : sig_SignatureExpiration g = number_at b 8 4;
  rl_inception : sig_SignatureInception g = number_at b 12 4;
  rl_tag : sig_KeyTag g = number_at b 16 2;
  rl_signature : exists o, ReadDomainName {| Buf := b; Offset := 18 |} = Ret (sig_SignerName g, {| Buf := b; Offset := o |}) /\
    sig_Signature g = drop (Z.to_nat o) b;
}.

(** The key tag of DNSKEY data, RFC 4034 appendix B: for algorithm 1 two bytes of the
    modulus, otherwise a checksum. *)
Definition key_tag (b : bytes) : Z :=
  if decide (nth 3 b 0 = 1)
  then (if decide (len b < 6) then 0 else number_at b (length b - 3) 2)
  else (be_words b + be_words b / 65536) mod 65536.

(** An RSA key, RFC 3110: the length of the exponent in one byte, or in two after a zero
    byte, then the exponent and the modulus. *)
Definition rsa_key (pk e n : bytes) : Prop :=
  (0 < len e < 256 /\ pk = len e :: e ++ n) \/ (len e < 65536 /\ pk = 0 :: be16 (len e) ++ e ++ n).

(** The order of RFC 4034 section 6.3. *)
Inductive octets_le : bytes -> bytes -> Prop :=
| octets_nil b : octets_le [] b
| octets_lt x y a b : x < y -> octets_le (x :: a) (y :: b)
| octets_eq x a b : octets_le a b -> octets_le (x :: a) (x :: b).

(** A record in the canonical form of RFC 4034 section 6.2, with the original TTL. *)
Definition canonical_rr (ttl : Z) (r : ParsedRecord) : bytes :=
  enc_name (ToLower (pr_Name r)) ++ be16 (pr_Type r) ++ be16 (pr_Class r) ++ be32 ttl ++
  be16 (len (pr_Rdata r)) ++ pr_Rdata r.

(** What a signature with fields [g] and data [b] signs: its own first 18 bytes and
    signer, then the records in canonical order. *)
Definition signs (b : bytes) (g : RRSIG) (rrset : list ParsedRecord) (data : bytes) : Prop :=
  exists ordered, ordered ≡ₚ rrset /\ StronglySorted (fun r s => octets_le (pr_Rdata r) (pr_Rdata s)) ordered /\
    data = take 18 b ++ enc_name (ToLower (sig_SignerName g)) ++ concat (map (canonical_rr (sig_OriginalTTL g)) ordered).

(** RSA with SHA-256 is algorithm 8 and ECDSA on P-256 is algorithm 13; the exponent of
    an RSA key is kept in a 64-bit integer. *)
Definition crypto_accepts (alg : Z) (pk hash sg : bytes) : Prop :=
  (alg = 8 /\ exists e n, rsa_key pk e n /\ n <> [] /\
     rsa_VerifyPKCS1v15 (bigBytes n) (int64 (bigBytes e)) hash sg = true) \/
  (alg = 13 /\ exists x y r t, pk = x ++ y /\ len x = 32 /\ len y = 32 /\ sg = r ++ t /\ len r = 32 /\ len t = 32 /\
     ecdsa_Verify (bigBytes x) (bigBytes y) hash (bigBytes r) (bigBytes t) = true).

(** The signature data [b] is verified over [rrset] at time [now] with one of [keys]. *)
Definition signature_verified (now : Z) (b : bytes) (rrset keys : list ParsedRecord) : Prop :=
  exists g k data, rrsig_layout b g /\
    sig_SignatureInception g <= now mod 2 ^ 32 <= sig_SignatureExpiration g /\
    k ∈ keys /\ 4 <= len (pr_Rdata k) /\ key_tag (pr_Rdata k) = sig_KeyTag g /\
    signs b g rrset data /\
    crypto_accepts (sig_Algorithm g) (drop 4 (pr_Rdata k)) (crypto_sha256 data) (sig_Signature g).

(** A name, with or without its final dot, that is listed or below a listed wildcard,
    letter case set aside. *)
Definition secure_name (n : gostring) (fw : option FirewallConfig) : Prop :=
  exists f p, fw = Some f /\ p ∈ fw_AllowlistDomains f /\
    let norm x := ToLower (TrimSuffix x (gs ".")) in
    (norm p = norm n \/ exists zone sub, norm p = gs "*." ++ zone /\ norm n = sub ++ gs "." ++ zone).

(** *** The code meets it *)

Lemma rdata_le_octets a b : rdata_le a b -> octets_le a b.
Proof.
  revert b. induction a as [|x a IH]; intros [|y b]; [constructor|constructor|done|].
  rewrite rdata_le_cons. intros [?|[-> ?]]; [by constructor|]. apply octets_eq. by apply IH.
Qed.

Lemma signedRecords_canonical ttl l :
  Forall record_ok l -> signedRecords ttl l = Ret (concat (map (canonical_rr ttl) l)).
Proof.
  induction 1 as [|r l (_ & Hl & _) Hf IH]; [done|]. cbn [signedRecords map concat].
  rewrite signedRecord_enc, IH, !bind_Ret. unfold canonical_rr. by rewrite Hl, <- !app_assoc.
Qed.

Lemma signedData_signs b g rrset :
  sig_RawRdata g = b -> 18 <= len b -> Forall record_ok rrset ->
  exists data, signedData g rrset = Ret data /\ signs b g rrset data.
Proof.
  intros <- Hl Hok. unfold signedData. rewrite slice_Ret by lia. rewrite bind_Ret, encodeCanonicalName_enc, bind_Ret.
  rewrite signedRecords_canonical by (by rewrite sortRrset_perm). rewrite bind_Ret. eexists. split; [done|].
  exists (sortRrset rrset). split; [apply sortRrset_perm|]. split; [|done].
  induction (sortRrset_sorted rrset) as [|r l Hs IH Hr]; constructor; [done|].
  eapply Forall_impl; [done|]. intros s. apply rdata_le_octets.
Qed.

Lemma byte_high_bits x i : is_byte x -> 8 <= i -> Z.testbit x i = false.
Proof.
  unfold is_byte. intros Hx Hi. apply Z.testbit_false; [lia|]. rewrite Z.div_small; [done|].
  split; [lia|]. apply Z.lt_le_trans with (2 ^ 8); [lia|apply Z.pow_le_mono_r; lia].
Qed.

Lemma lor_byte q x : is_byte x -> Z.lor (q * 256) x = q * 256 + x.
Proof.
  intros Hx. change 256 with (2 ^ 8). rewrite <- Z.shiftl_mul_pow2 by lia.
  assert (Z.land (Z.shiftl q 8) x = 0) as H0.
  { apply Z.bits_inj'. intros j Hj. rewrite Z.land_spec, Z.bits_0. destruct (decide (j < 8)).
    - by rewrite Z.shiftl_spec_low.
    - rewrite (byte_high_bits x) by (done || lia). apply andb_false_r. }
  rewrite Z.add_nocarry_lxor by done. apply Z.bits_inj'. intros i Hi. rewrite Z.lor_spec, Z.lxor_spec.
  assert (Z.testbit (Z.land (Z.shiftl q 8) x) i = false) as Hn by (rewrite H0; apply Z.bits_0).
  rewrite Z.land_spec in Hn. by destruct (Z.testbit (Z.shiftl q 8) i), (Z.testbit x i).
Qed.

Lemma int64_lor_byte e x : is_byte x -> Z.lor (int64 (Z.shiftl (int64 e) 8)) x = int64 (e * 256 + x).
Proof.
  intros Hx. rewrite Z.shiftl_mul_pow2 by lia. change (2 ^ 8) with 256.
  assert (exists q, int64 (int64 e * 256) = q * 256 /\ int64 (e * 256 + x) = q * 256 + x) as (q & -> & ->);
    [|by apply lor_byte].
  unfold is_byte in Hx. unfold int64. exists ((e + 2 ^ 55) mod 2 ^ 56 - 2 ^ 55). split; Z.div_mod_to_equations; lia.
Qed.

Lemma expBytes_wrap b : bytes_ok b -> expBytes b = int64 (bigBytes b).
Proof.
  unfold expBytes, bigBytes. change 0 with (int64 0) at 1. generalize 0 as e.
  induction b as [|x b IH]; intros e; [done|]. intros [Hx Hb]%Forall_cons_1. cbn [foldl].
  rewrite int64_lor_byte by done. by apply IH.
Qed.

Lemma split_at p rest l :
  0 <= l <= len rest ->
  slice (p ++ rest) (len p) (len p + l) = Ret (take (Z.to_nat l) rest) /\
  slice_from (p ++ rest) (len p + l) = Ret (drop (Z.to_nat l) rest).
Proof.
  intros Hl. pose proof (len_nonneg p). unfold slice_from. rewrite !slice_Ret by (rewrite ?len_app; lia).
  replace (len p + l - len p) with l by lia. rewrite len_app.
  replace (Z.to_nat (len p)) with (length p) by (unfold len; lia). rewrite drop_app_length.
  replace (Z.to_nat (len p + l)) with (length p + Z.to_nat l)%nat by (unfold len; lia).
  rewrite <- drop_drop, drop_app_length. split; [done|]. f_equal. apply take_ge. rewrite length_drop. unfold len in *. lia.
Qed.

(** The part of [verifyRsa] after the length of the exponent. *)
Lemma verifyRsa_tail p rest l hash sg lg :
  bytes_ok rest -> 0 <= l ->
  (if decide (len (p ++ rest) < len p + l) then Ret (false, [])
   else
     exponentBytes ← slice (p ++ rest) (len p) (len p + l);
     modulusBytes ← slice_from (p ++ rest) (len p + l);
     if decide (len modulusBytes = 0)
     then Ret (false, [CallError (gs "DNSSEC Cryptographic Violation: Zero modulus key exception rejected")])
     else Ret (rsa_VerifyPKCS1v15 (bigBytes modulusBytes) (expBytes exponentBytes) hash sg, [])) = Ret (true, lg) ->
  exists e n, rest = e ++ n /\ len e = l /\ n <> [] /\ rsa_VerifyPKCS1v15 (bigBytes n) (int64 (bigBytes e)) hash sg = true.
Proof.
  intros Hr Hl H. case_decide as Hle; [done|]. rewrite len_app in Hle.
  destruct (split_at p rest l ltac:(lia)) as [E1 E2]. rewrite E1, E2, !bind_Ret in H. clear E1 E2.
  exists (take (Z.to_nat l) rest), (drop (Z.to_nat l) rest).
  split; [by rewrite take_drop|]. split; [len_solve|]. case_decide as Hz; [done|]. injection H as Hv _.
  split; [by intros Hn; rewrite Hn in Hz|]. by rewrite <- expBytes_wrap by (by apply Forall_take).
Qed.

Lemma verifyRsa_sound pk hash sg lg :
  bytes_ok pk -> verifyRsa pk hash sg = Ret (true, lg) -> crypto_accepts 8 pk hash sg.
Proof.
  intros Hb H. left. split; [done|]. unfold verifyRsa in H. destruct pk as [|f pk]; [done|]. case_decide; [done|].
  rewrite index_Ret, bind_Ret in H by (rewrite len_cons in *; pose proof (len_nonneg pk); lia).
  change (nth (Z.to_nat 0) (f :: pk) 0) with f in H. case_decide as Hs; [done|].
  pose proof Hb as [Hf Hpk]%Forall_cons_1. unfold is_byte in Hf. destruct (decide (f = 0)) as [->|Hf0].
  - destruct pk as [|a [|b pk]]; [by exfalso; apply Hs|by exfalso; apply Hs|].
    apply Forall_cons_1 in Hpk as [Ha [Hb' Hpk]%Forall_cons_1]. pose proof (of_be16_range a b Ha Hb') as Hw.
    unfold get_uint16 in H. rewrite (decide_True (P := 0 <= 1 /\ _)), bind_Ret in H
      by (rewrite !len_cons; pose proof (len_nonneg pk); lia).
    destruct (verifyRsa_tail [0; a; b] pk (of_be16 a b) hash sg lg Hpk ltac:(lia) H) as (e & n & -> & He & Hn & Hv).
    exists e, n. split; [|done]. right. split; [lia|]. by rewrite He, be16_of_be16.
  - rewrite bind_Ret in H.
    destruct (verifyRsa_tail [f] pk f hash sg lg Hpk ltac:(lia) H) as (e & n & -> & He & Hn & Hv).
    exists e, n. split; [|done]. left. split; [lia|]. by rewrite He.
Qed.

Lemma slice_halves b :
  len b = 64 -> exists x y, b = x ++ y /\ len x = 32 /\ len y = 32 /\ slice b 0 32 = Ret x /\ slice b 32 64 = Ret y.
Proof.
  intros Hl. exists (take 32 b), (drop 32 b). split; [by rewrite take_drop|]. rewrite !slice_Ret by lia.
  split; [len_solve|]. split; [len_solve|]. rewrite drop_0. split; [done|]. f_equal. apply take_ge.
  rewrite length_drop. unfold len in Hl. lia.
Qed.

Lemma verifyEcdsa_sound pk hash sg lg :
  verifyEcdsa pk hash sg = Ret (true, lg) -> crypto_accepts 13 pk hash sg.
Proof.
  intros H. right. split; [done|]. unfold verifyEcdsa in H. case_decide as Hl; [done|].
  destruct (slice_halves pk) as (x & y & Epk & Hx & Hy & E1 & E2); [lia|]. rewrite E1, E2, !bind_Ret in H.
  case_decide as Hg; [done|].
  destruct (slice_halves sg) as (r & t & Esg & Hr & Ht & E3 & E4); [lia|]. rewrite E3, E4, !bind_Ret in H.
  injection H as H _. by exists x, y, r, t.
Qed.

Lemma findDnskey_sound tag keys k :
  findDnskey tag keys = Ret (Some k) ->
  exists r, r ∈ keys /\ parseDnskey (pr_Rdata r) = Ret (Some k) /\ calculateKeyTag k (pr_Rdata r) = Ret tag.
Proof.
  induction keys as [|r keys IH]; [done|]. cbn [findDnskey]. intros H.
  assert (findDnskey tag keys = Ret (Some k) -> exists r', r' ∈ r :: keys /\
    parseDnskey (pr_Rdata r') = Ret (Some k) /\ calculateKeyTag k (pr_Rdata r') = Ret tag) as Hrest.
  { intros (r' & Hin & ?)%IH. exists r'. split; [by right|done]. }
  apply bind_Ret_inv in H as ([k'|] & Hp & H); [|by apply Hrest].
  apply bind_Ret_inv in H as (t & Ht & H). case_decide; [|by apply Hrest]. simplify_eq. exists r. split; [by left|done].
Qed.

Lemma parseDnskey_fields b k :
  parseDnskey b = Ret (Some k) -> 4 <= len b /\ key_Algorithm k = nth 3 b 0 /\ key_PublicKey k = drop 4 b.
Proof.
  unfold parseDnskey, get_uint16, slice_from. case_decide; [done|]. rewrite decide_True by lia.
  rewrite !index_Ret, slice_Ret by lia. rewrite !bind_Ret. intros [= <-]. split; [lia|]. split; [done|]. simpl.
  apply take_ge. rewrite length_drop. unfold len. lia.
Qed.

Lemma number_pair b o : (o + 2 <= length b)%nat -> number_at b o 2 = of_be16 (nth o b 0) (nth (S o) b 0).
Proof.
  unfold number_at. revert b. induction o as [|o IH]; intros [|x b] Hl; simpl in Hl; try lia.
  - destruct b as [|y b]; [simpl in Hl; lia|]. unfold of_be16, bigBytes. simpl. lia.
  - apply (IH b). lia.
Qed.

Lemma calculateKeyTag_tag b k t :
  bytes_ok b -> len b <= 65535 -> parseDnskey b = Ret (Some k) -> calculateKeyTag k b = Ret t -> key_tag b = t.
Proof.
  intros Hb Hl (H4 & Ha & Hk)%parseDnskey_fields H. unfold key_tag. rewrite <- Ha. case_decide as H1.
  2:{ rewrite calculateKeyTag_rfc in H by done. by injection H. }
  unfold calculateKeyTag in H. rewrite decide_True, Hk in H by done.
  assert (len (drop 4 b) = len b - 4) as Hd by (unfold len in *; rewrite length_drop; lia). rewrite Hd in H.
  case_decide; [rewrite decide_True by lia; by injection H|]. rewrite decide_False by lia.
  apply bind_Ret_inv in H as (hi & Hh & H). apply bind_Ret_inv in H as (lo & Hlo & H). unfold index in Hh, Hlo.
  rewrite Hd in Hh, Hlo. case_decide as Hi; [|done]. case_decide; [|done]. injection Hh as <-. injection Hlo as <-.
  injection H as <-. rewrite number_pair by (unfold len in *; lia). rewrite !nth_lookup, !lookup_drop, <- !nth_lookup.
  replace (4 + Z.to_nat (len b - 4 - 3))%nat with (length b - 3)%nat by (unfold len in *; lia).
  replace (4 + Z.to_nat (len b - 4 - 2))%nat with (S (length b - 3)) by (unfold len in *; lia).
  pose proof (nth_bytes_ok b (length b - 3) Hb) as Hx. pose proof (nth_bytes_ok b (S (length b - 3)) Hb) as Hy.
  unfold is_byte in *. unfold of_be16, uint16. rewrite Z.shiftl_mul_pow2 by lia.
  rewrite (Z.mod_small (_ * _)) by lia. rewrite Z.mod_small by lia. lia.
Qed.

Lemma number_quad b o :
  (o + 4 <= length b)%nat -> number_at b o 4 = of_be32 (nth o b 0) (nth (o + 1) b 0) (nth (o + 2) b 0) (nth (o + 3) b 0).
Proof.
  unfold number_at. revert b. induction o as [|o IH]; intros [|x b] Hl; simpl in Hl; try lia.
  - destruct b as [|y [|z [|w b]]]; simpl in Hl; try lia. unfold of_be32, bigBytes. simpl. lia.
  - apply (IH b). lia.
Qed.

Lemma parseRrsig_layout b :
  bytes_ok b -> 18 <= len b -> exists g, parseRrsig b = Ret (Some g) /\ sig_RawRdata g = b /\ rrsig_layout b g.
Proof.
  intros Hb Hl. unfold parseRrsig. rewrite decide_False by lia. unfold get_uint16, get_uint32. rewrite !decide_True by lia.
  rewrite !bind_Ret, !index_Ret by lia. rewrite !bind_Ret.
  destruct (ReadDomainName_step b 18 Hb ltac:(lia)) as (ls & o & En & _ & Hn). rewrite En, bind_Ret. cbn [Offset].
  unfold slice_from, next_ok in *. rewrite slice_Ret by lia. rewrite bind_Ret. eexists. split; [done|].
  split; [done|]. unfold len in Hl.
  split; cbn [sig_TypeCovered sig_Algorithm sig_OriginalTTL sig_SignatureExpiration sig_SignatureInception sig_KeyTag];
    try (by rewrite number_pair by lia); try (by rewrite number_quad by lia).
  - destruct b as [|b0 [|b1 [|b2 b]]]; simpl in Hl; try lia. done.
  - exists o. split; [done|]. simpl. apply take_ge. rewrite length_drop. unfold len. lia.
Qed.

Lemma verifySignature_sound now b g rrset key lg :
  18 <= len b -> sig_RawRdata g = b -> Forall record_ok rrset -> bytes_ok (key_PublicKey key) ->
  verifySignature now g rrset key = Ret (true, lg) ->
  sig_SignatureInception g <= now mod 2 ^ 32 <= sig_SignatureExpiration g /\
  exists data, signs b g rrset data /\
    crypto_accepts (sig_Algorithm g) (key_PublicKey key) (crypto_sha256 data) (sig_Signature g).
Proof.
  intros Hl Hb Hr Hk H. unfold verifySignature in H. cbv zeta in H. unfold uint32 in H.
  case_decide as Ht; [done|]. split; [lia|]. destruct (signedData_signs b g rrset Hb Hl Hr) as (data & E & Hs).
  rewrite E, bind_Ret in H. exists data. split; [done|]. case_decide as E8; [|case_decide as E13; [|done]].
  - rewrite E8. by eapply verifyRsa_sound.
  - rewrite E13. by eapply verifyEcdsa_sound.
Qed.

Lemma verifyLoop_verified now answers keys sigs logs r a :
  Forall record_ok answers -> Forall record_ok keys -> Forall record_ok sigs ->
  verifyLoop now answers keys sigs = Ret (true, logs) -> r ∈ sigs -> 18 <= len (pr_Rdata r) ->
  a ∈ answers -> pr_Name a = pr_Name r -> pr_Type a = number_at (pr_Rdata r) 0 2 ->
  signature_verified now (pr_Rdata r) (filter (fun x => pr_Name x = pr_Name r /\ pr_Type x = pr_Type a) answers) keys.
Proof.
  intros Ha Hk Hs H Hin Hl Hain Hn Ht. assert (record_ok r) as [Hb _] by (by eapply Forall_forall in Hs).
  destruct (parseRrsig_layout _ Hb Hl) as (g & Hp & Hraw & Hlay).
  assert (covered answers (pr_Name r) (sig_TypeCovered g) =
    filter (fun x => pr_Name x = pr_Name r /\ pr_Type x = pr_Type a) answers) as Hcov.
  { unfold covered. by rewrite (rl_type _ _ Hlay), Ht. }
  destruct (verifyLoop_sound now answers keys sigs logs r g H Hin Hp) as (k & lg & Hf & Hv).
  { rewrite Hcov. intros Hnil. apply (elem_of_nil a). rewrite <- Hnil. by apply list_elem_of_filter. }
  destruct (findDnskey_sound _ _ _ Hf) as (kr & Hkr & Hpk & Htag).
  assert (record_ok kr) as (Hkb & Hkl & Hkr') by (by eapply Forall_forall in Hk).
  pose proof (parseDnskey_fields _ _ Hpk) as (H4 & _ & Epk). rewrite Hcov in Hv.
  destruct (fun Hr => verifySignature_sound now (pr_Rdata r) g _ k lg Hl Hraw Hr (findDnskey_ok _ _ _ Hk Hf) Hv)
    as (Hw & data & Hsg & Hc); [by apply Forall_filter_1|].
  exists g, kr, data. rewrite <- Epk. split_and!; try done; try lia. eapply calculateKeyTag_tag; eauto. lia.
Qed.

Lemma isHostConfigDomainSecure_name n fw : isHostConfigDomainSecure n fw = true <-> secure_name n fw.
Proof.
  unfold secure_name, isHostConfigDomainSecure. destruct fw as [f|]; [|naive_solver].
  rewrite existsb_exists. split.
  - intros (p & Hp & H). exists f, p. split; [done|]. split; [by apply list_elem_of_In|].
    apply orb_true_iff in H as [H%bool_decide_eq_true|[H1 H2]%andb_true_iff]; [by left|right].
    apply HasPrefix_true in H1 as [zone Hz]. apply HasSuffix_true in H2 as [sub Hs]. exists zone, sub.
    split; [done|]. by rewrite Hs, Hz.
  - intros (f' & p & [= <-] & Hp & H). exists p. split; [by apply list_elem_of_In|].
    apply orb_true_iff. destruct H as [H|(zone & sub & Hz & Hs)]; [left; by apply bool_decide_eq_true|right].
    apply andb_true_iff. rewrite Hz, Hs. split; [apply HasPrefix_true; by exists zone|apply HasSuffix_true; by exists sub].
Qed.

Lemma strippedLoop_accepts names fw logs n :
  strippedLoop names fw = (true, logs) -> n ∈ names -> ~ secure_name n fw.
Proof.
  revert logs. induction names as [|m names IH]; intros logs H Hn; [by apply elem_of_nil in Hn|].
  cbn [strippedLoop] in H. destruct (isHostConfigDomainSecure m fw) eqn:Em; [done|].
  apply elem_of_cons in Hn as [->|Hn]; [|by eapply IH]. intros Hs%isHostConfigDomainSecure_name. congruence.
Qed.

(** C34: What acceptance means, for any bytes received.  A response without signature
    records is accepted only when no expected name is listed, or below a listed
    wildcard, in the allow list.  In an accepted response every RRSIG record of at
    least 18 bytes that has the owner of an answer and covers its type is verified
    over all the answers of that owner and type: the time, reduced to 32 bits, is inside
    its validity period, some DNSKEY record of the message has its key tag (RFC 4034),
    and the RSA or ECDSA verification accepts, with the key of that record, the hash of
    the signed data in canonical form; any other algorithm is refused.  Nothing is said
    of answers that no signature covers. *)
Theorem VerifyDnssecResponse_sound now buf names fw logs s :
  bytes_ok buf -> VerifyDnssecResponse now buf names fw = Ret (true, logs) -> extractRecords buf = Ret (Some s) ->
  let all := sec_answers s ++ sec_authorities s ++ sec_additionals s in
  let sigs := filter (fun r => pr_Type r = 46) all in
  let keys := filter (fun r => pr_Type r = 48) all in
  (sigs = [] -> forall n, n ∈ names -> ~ secure_name n fw) /\
  (forall r a, r ∈ sigs -> 18 <= len (pr_Rdata r) ->
     a ∈ sec_answers s -> pr_Name a = pr_Name r -> pr_Type a = number_at (pr_Rdata r) 0 2 ->
     signature_verified now (pr_Rdata r)
       (filter (fun x => pr_Name x = pr_Name r /\ pr_Type x = pr_Type a) (sec_answers s)) keys).
Proof.
  intros Hb H E all sigs keys. destruct (decide (len buf < 12)) as [Hs|Hs].
  { unfold extractRecords in E. by rewrite decide_True in E. }
  destruct (extractRecords_total buf Hb ltac:(lia)) as (s' & E' & Hok). rewrite E in E'. injection E' as <-. fold all in Hok.
  unfold VerifyDnssecResponse in H. rewrite E, bind_Ret in H. cbv zeta in H. fold all sigs keys in H. split.
  - intros Hnil n Hn. rewrite Hnil in H. rewrite decide_True in H by done. injection H as H. by eapply strippedLoop_accepts.
  - intros r a Hr Hl Ha Hna Hta. rewrite decide_False in H.
    2:{ intros Hlen. destruct sigs; [by apply elem_of_nil in Hr|unfold len in Hlen; simpl in Hlen; lia]. }
    apply (verifyLoop_verified now (sec_answers s) keys sigs logs r a); try done; [|by apply Forall_filter_1..].
    by apply Forall_app in Hok as [? _].
Qed.

End Total.

(** ** Concrete responses *)

(** A key that never verifies. *)
Definition no_crypto : Crypto :=
  {| crypto_sha256 := fun b => b; rsa_VerifyPKCS1v15 := fun _ _ _ _ => false; ecdsa_Verify := fun _ _ _ _ _ => false |}.
(** Signatures that always verify. *)
Definition any_crypto : Crypto :=
  {| crypto_sha256 := fun b => b; rsa_VerifyPKCS1v15 := fun _ _ _ _ => true; ecdsa_Verify := fun _ _ _ _ _ => true |}.

Definition enc_rr (name : gostring) (type : Z) (data : bytes) : bytes :=
  enc_name name ++ be16 type ++ be16 1 ++ be32 300 ++ be16 (len data) ++ data.
Definition response_packet (answers : list bytes) : bytes :=
  [0; 9; 129; 128; 0; 0] ++ be16 (len answers) ++ [0; 0; 0; 0] ++ concat answers.

(** RRSIG data covering type A with key tag [tag] and a 64-byte signature. *)
Definition rrsig_data (alg tag : Z) : bytes :=
  be16 1 ++ [alg; 2] ++ be32 300 ++ be32 2000 ++ be32 1000 ++ be16 tag ++ [0] ++ replicate 64 1.
(** DNSKEY data: flags, protocol, algorithm, key. *)
Definition dnskey_data (alg : Z) (key : bytes) : bytes := be16 257 ++ [3; alg] ++ key.

Definition secure_zone : FirewallConfig :=
  {| fw_DefaultPolicy := gs "allow"; fw_AllowlistDomains := [gs "*.safe"]; fw_BlocklistDomains := [];
     fw_AllowlistRanges := []; fw_BlocklistRanges := []; fw_AllowlistIps := []; fw_BlocklistIps := [] |}.

Definition signed_packet : bytes :=
  response_packet [enc_rr (gs "www.safe") 1 [1; 2; 3; 4]; enc_rr (gs "www.safe") 46 (rrsig_data 13 42158);
                   enc_rr (gs "safe") 48 (dnskey_data 13 (replicate 64 5))].

Lemma VerifyDnssecResponse_total_witness :
  exists r, VerifyDnssecResponse (U := ascii_unicode) (CR := no_crypto) 1500 signed_packet [gs "www.safe"] (Some secure_zone) = Ret r.
Proof.
  refine (proj2 (proj2 (VerifyDnssecResponse_total (U := ascii_unicode) (CR := no_crypto) 1500 signed_packet
    [gs "www.safe"] (Some secure_zone) ltac:(by apply (bool_decide_eq_true_1 _)))) _).
  intros s Es. vm_compute in Es. injection Es as <-. repeat constructor; by intros [? [? ?]].
Defined.

(** The accepted response has an address, its signature and the key; the signature of
    the address is among those that were verified. *)
Lemma VerifyDnssecResponse_sound_witness :
  exists s r a, extractRecords (U := ascii_unicode) signed_packet = Ret (Some s) /\
    r ∈ filter (fun r => pr_Type r = 46) (sec_answers s ++ sec_authorities s ++ sec_additionals s) /\
    a ∈ sec_answers s /\ pr_Type a = 1 /\
    signature_verified (U := ascii_unicode) (CR := any_crypto) 1500 (pr_Rdata r)
      (filter (fun x => pr_Name x = pr_Name r /\ pr_Type x = pr_Type a) (sec_answers s))
      (filter (fun r => pr_Type r = 48) (sec_answers s ++ sec_authorities s ++ sec_additionals s)).
Proof.
  eexists _, _, _. split; [vm_compute; reflexivity|]. split; [vm_compute; left|]. split; [vm_compute; left|].
  split; [reflexivity|].
  refine (proj2 (VerifyDnssecResponse_sound (U := ascii_unicode) (CR := any_crypto) 1500 signed_packet [gs "www.safe"]
    (Some secure_zone) [] _ _ _ _) _ _ _ _ _ _ _).
  - by apply (bool_decide_eq_true_1 _).
  - vm_compute; reflexivity.
  - vm_compute; reflexivity.
  - vm_compute; left.
  - vm_compute; discriminate.
  - vm_compute; left.
  - reflexivity.
  - reflexivity.
Defined.

(** A response without signatures, for a name of no secure zone, is accepted too. *)
Lemma unsigned_accepted :
  let plain := response_packet [enc_rr (gs "www.other") 1 [6; 6; 6; 6]] in
  VerifyDnssecResponse (U := ascii_unicode) (CR := no_crypto) 1500 plain [gs "www.other"] (Some secure_zone) = Ret (true, []) /\
  ~ secure_name (U := ascii_unicode) (gs "www.other") (Some secure_zone).
Proof.
  split; [vm_compute; reflexivity|]. intros H%isHostConfigDomainSecure_name. vm_compute in H. discriminate.
Qed.

(** The downgrade check can be bypassed: a response for a name of a zone marked
    secure is accepted with no signature over its address when it carries one RRSIG
    record that covers nothing (here: one of three bytes), although it is rejected
    without that record. *)
Theorem stripped_signature_accepted :
  let plain := response_packet [enc_rr (gs "www.safe") 1 [6; 6; 6; 6]] in
  let junk := response_packet [enc_rr (gs "www.safe") 1 [6; 6; 6; 6]; enc_rr (gs "x") 46 [0; 0; 0]] in
  (exists logs, VerifyDnssecResponse (U := ascii_unicode) (CR := no_crypto) 1500 plain [gs "www.safe"] (Some secure_zone) = Ret (false, logs)) /\
  VerifyDnssecResponse (U := ascii_unicode) (CR := no_crypto) 1500 junk [gs "www.safe"] (Some secure_zone) = Ret (true, []).
Proof. split; [eexists|]; vm_compute; reflexivity. Qed.

(** A DNSKEY of algorithm 1 with a two-byte key makes the key tag routine index
    before the start of the key: the verification of such a response panics. *)
Theorem short_rsamd5_panics :
  VerifyDnssecResponse (U := ascii_unicode) (CR := no_crypto) 1500
    (response_packet [enc_rr (gs "a") 1 [1; 2; 3; 4]; enc_rr (gs "a") 46 (rrsig_data 1 7); enc_rr (gs "a") 48 (dnskey_data 1 [9; 9])])
    [] None = Panic.
Proof. vm_compute. reflexivity. Qed.
