(* ===== verification/Query0x20.v ===== *)
(** * Preparing an upstream query ([pkg/dns/handler.go], lines 316-406)

    The test for private clients, the random letter case of the question names
    (0x20 encoding) and the EDNS0 option that asks for DNSSEC records.  The random
    bytes are a function of the position they are drawn for. *)
From S2P Require Import Prelude GoStrings NetIP Config Wire Firewall AuditLog Cache Server.

Section Private.
Context {U : Unicode}.

Definition isPrivateIp (ipStr : gostring) : bool :=
  match ParseIP ipStr with
  | None => false
  | Some ip =>
      match To4 ip with
      | Some ip4 =>
          let b0 := nth 0 ip4 0 in
          let b1 := nth 1 ip4 0 in
          bool_decide (b0 = 127) || bool_decide (b0 = 10) ||
          bool_decide (b0 = 172 /\ b1 >= 16 /\ b1 <= 31) || bool_decide (b0 = 192 /\ b1 = 168)
      | None =>
          let norm := ToLower (IPString ip) in
          bool_decide (norm = gs "::1") || HasPrefix norm (gs "fe80:") || HasPrefix norm (gs "fc00:") || HasPrefix norm (gs "fd")
      end
  end.

(** *** Which addresses that is *)

(** The loopback and private networks of IPv4. *)
Definition private_v4 (ip : bytes) : Prop :=
  match ip with
  | a :: b :: _ => a = 127 \/ a = 10 \/ (a = 172 /\ 16 <= b <= 31) \/ (a = 192 /\ b = 168)
  | _ => False
  end.
(** The loopback address of IPv6, and its networks [fe80::/16], [fc00::/16] and
    [fd00::/8]; and [fd::/16] and [fd0::/12], which are not private but whose text
    begins in the same way. *)
Definition private_v6 (ip : bytes) : Prop :=
  ip = replicate 15 0 ++ [1] \/
  let g := of_be16 (nth 0 ip 0) (nth 1 ip 0) in
  g = 65152 \/ g = 64512 \/ 64768 <= g <= 65023 \/ g = 253 \/ 4048 <= g <= 4063.
Definition private_address (ip : bytes) : Prop := match To4 ip with Some b => private_v4 b | None => private_v6 ip end.

(** The text of an IPv6 address begins with a colon or with its first group. *)
Lemma String6_head ip :
  length ip = 16%nat -> bytes_ok ip -> let g := of_be16 (nth 0 ip 0) (nth 1 ip 0) in
  is_u16 g /\ ((g = 0 /\ exists t, String6 ip = colon :: t) \/ exists t, String6 ip = hex16 g ++ colon :: t).
Proof.
  intros Hl Hok. cbn zeta. destruct ip as [|a [|b [|c [|d ip]]]]; try done. cbn [nth].
  destruct (groups_spec (a :: b :: c :: d :: ip) 8 Hl Hok) as (Hlen & Hu & _). change (groups (a :: b :: c :: d :: ip)) with (of_be16 a b :: of_be16 c d :: groups ip) in *.
  apply Forall_cons in Hu as [Hu _]. split; [exact Hu|]. set (g := of_be16 a b). set (rest := of_be16 c d :: groups ip).
  unfold String6. change (groups (a :: b :: c :: d :: ip)) with (g :: rest). destruct (zero_run (g :: rest)) as [zs zl] eqn:Ez.
  case_decide as Hz; [right; by eexists|]. apply zero_run_spec in Ez as [_ Eg]; [|done]. destruct zs as [|zs].
  - left. split; [|by eexists]. destruct zl; [done|]. cbn [firstn app replicate] in Eg. by injection Eg.
  - right. cbn [firstn]. destruct (take zs rest) as [|g2 gs'] eqn:Et; cbn [map]; [by eexists|]. rewrite Join_cons2, <- !app_assoc. by eexists.
Qed.

(** How the first group decides the prefix tests. *)
Lemma hex16_prefix g t :
  is_u16 g ->
  (HasPrefix (hex16 g ++ colon :: t) (gs "fe80:") = true <-> g = 65152) /\ (HasPrefix (hex16 g ++ colon :: t) (gs "fc00:") = true <-> g = 64512) /\
  (HasPrefix (hex16 g ++ colon :: t) (gs "fd") = true <-> 64768 <= g <= 65023 \/ g = 253 \/ 4048 <= g <= 4063).
Proof.
  intros Hg. rewrite !HasPrefix_true. unfold hex16.
  change (gs "fe80:") with [102; 101; 56; 48; 58]. change (gs "fc00:") with [102; 99; 48; 48; 58]. change (gs "fd") with [102; 100].
  split_and!; (split; [intros (t' & E); revert E; repeat case_decide; cbn; intros E; injection E; unfold hex_digit; repeat case_decide; intros; Z.div_mod_to_equations; lia|]).
  - intros ->. by exists t.
  - intros ->. by exists t.
  - intros H. assert (forall a b r, hex_digit a :: hex_digit b :: r = [102; 100] ++ r \/ ~ (a = 15 /\ b = 13)) as Hfd by (intros a b r; destruct (decide (a = 15 /\ b = 13)) as [[-> ->]|]; [by left|by right]).
    destruct H as [H|[H|H]]; repeat first [rewrite decide_True by lia|rewrite decide_False by lia]; cbn [app]; eexists;
      (match goal with |- hex_digit ?a :: hex_digit ?b :: ?r = _ => destruct (Hfd a b r) as [E|E]; [exact E|exfalso; apply E; split; Z.div_mod_to_equations; lia] end).
Qed.

Lemma isPrivateIp_spec s : isPrivateIp s = true <-> exists ip, ParseIP s = Some ip /\ private_address ip.
Proof.
  unfold isPrivateIp, private_address. destruct (ParseIP s) as [ip|] eqn:Ep; [|split; [done|by intros (? & [=] & _)]].
  assert (forall P : bytes -> Prop, (exists ip', Some ip = Some ip' /\ P ip') <-> P ip) as Hex by (intros P; split; [by intros (? & [= <-] & ?)|by exists ip]).
  rewrite Hex. apply ParseIP_ok in Ep as [Hl Hok]. destruct (To4 ip) as [b|] eqn:E4.
  - assert (length b = 4%nat) as Hb by (apply To4_Some in E4 as [[? _]|[_ ->]]; [lia|]; rewrite length_app in Hl; cbn in Hl; lia).
    destruct b as [|b0 [|b1 b]]; try done. cbn [nth private_v4]. rewrite !orb_true_iff, !bool_decide_eq_true. lia.
  - unfold IPString. rewrite E4, ToLower_String6 by done. rewrite !orb_true_iff, bool_decide_eq_true. unfold private_v6.
    assert (String6 ip = gs "::1" <-> ip = replicate 15 0 ++ [1]) as ->.
    { split; [|by intros ->]. intros E. apply IPString_inj; [done|done|done|by apply (bool_decide_eq_true_1 _)|]. unfold IPString at 1. by rewrite E4, E. }
    destruct (String6_head ip Hl Hok) as [Hu [[Hz [t ->]]|[t ->]]].
    + assert (forall c p, c <> colon -> HasPrefix (colon :: t) (c :: p) = false) as Hno
        by (intros c p Hc; apply not_true_iff_false; rewrite HasPrefix_true; intros (t' & E); by injection E).
      change (gs "fe80:") with (102 :: gs "e80:"). change (gs "fc00:") with (102 :: gs "c00:"). change (gs "fd") with (102 :: gs "d").
      rewrite !Hno by done. cbn zeta. rewrite Hz. intuition (congruence || lia).
    + destruct (hex16_prefix _ t Hu) as (H1 & H2 & H3). rewrite H1, H2, H3. tauto.
Qed.
End Private.

(** Addresses that are not private pass for private. *)
Theorem public_prefix_private :
  isPrivateIp (U := ascii_unicode) (gs "fd::1") = true /\ isPrivateIp (U := ascii_unicode) (gs "fd1::1") = true /\ isPrivateIp (U := ascii_unicode) (gs "fec0::1") = false.
Proof. vm_compute. done. Qed.

Definition is_letter (c : Z) : bool := bool_decide (65 <= c <= 90 \/ 97 <= c <= 122).

(** [char |= 0x20] or [char &^= 0x20] *)
Definition recase (entropy c : Z) : Z :=
  if is_letter c then
    if decide (entropy mod 2 = 0) then Z.lor c 32 else Z.land c (Z.lxor 255 32)
  else c.

(** The loop over the [n] bytes of a label from [offset]. *)
Fixpoint caseLoop (n : nat) (entropy : Z -> Z) (query : bytes) (offset : Z) : go bytes :=
  match n with
  | O => Ret query
  | S n =>
      if decide (offset >= len query) then Ret query
      else
        char ← index query offset;
        caseLoop n entropy (<[Z.to_nat offset := recase (entropy offset) char]> query) (offset + 1)
  end.

(** The loop over the labels of one name. *)
Fixpoint nameLoop (fuel : nat) (entropy : Z -> Z) (query : bytes) (offset : Z) : go (bytes * Z) :=
  match fuel with
  | O => Hang
  | S fuel =>
      if decide (len query <= offset) then Ret (query, offset)
      else
        length ← index query offset;
        if decide (length = 0) then Ret (query, offset + 1)
        else if decide (Z.land length 192 = 192) then Ret (query, offset + 2)
        else
          query ← caseLoop (Z.to_nat length) entropy query (offset + 1);
          nameLoop fuel entropy query (offset + 1 + length)
  end.

Fixpoint namesLoop (qdcount : nat) (entropy : Z -> Z) (query : bytes) (offset : Z) : go bytes :=
  match qdcount with
  | O => Ret query
  | S qdcount =>
      '(query, offset) ← nameLoop (S (length query)) entropy query offset;
      namesLoop qdcount entropy query (if decide (offset + 4 <= len query) then offset + 4 else offset)
  end.

Definition Apply0x20Encoding (entropy : Z -> Z) (originalQuery : bytes) : go (bytes * list gostring) :=
  if decide (len originalQuery < 12) then Ret (originalQuery, [])
  else
    qdcount ← get_uint16 originalQuery 4;
    query ← namesLoop (Z.to_nat qdcount) entropy originalQuery 12;
    questions ← ExtractQuestions query;
    Ret (query, map q_Name questions).

Definition DnssecDoBit : Z := 32768.

Definition AppendEdns0DoBit (query : bytes) : go bytes :=
  if decide (len query < 12) then Ret query
  else
    arcount ← get_uint16 query 10;
    if decide (arcount > 0) then Ret query
    else
      encoder ← WriteBytes (NewDnsWireFormat None) query;
      b ← put_uint16 (Buf encoder) 10 1;
      encoder ← WriteUint8 {| Buf := b; Offset := Offset encoder |} 0;
      encoder ← WriteUint16 encoder DnsTypeOPT;
      encoder ← WriteUint16 encoder 4096;
      encoder ← WriteUint32 encoder DnssecDoBit;
      encoder ← WriteUint16 encoder 0;
      Finish encoder.

(** ** Only letter case changes *)

(** Equal up to ASCII letter case. *)
Definition case_eq (a b : bytes) : Prop := map ascii_lower a = map ascii_lower b.

#[export] Instance case_eq_equivalence : Equivalence case_eq.
Proof. unfold case_eq. split; [done| |]; intros ?; intros; congruence. Qed.

Lemma case_eq_app a b c d : case_eq a b -> case_eq c d -> case_eq (a ++ c) (b ++ d).
Proof. unfold case_eq. rewrite !map_app. congruence. Qed.

#[export] Instance app_case_eq_proper : Proper (case_eq ==> case_eq ==> case_eq) (@app Z).
Proof. intros a b Hab c d Hcd. by apply case_eq_app. Qed.

Lemma case_eq_length a b : case_eq a b -> length a = length b.
Proof. intros H. apply (f_equal length) in H. by rewrite !length_map in H. Qed.

Lemma recase_spec e c : is_byte c ->
  ascii_lower (recase e c) = ascii_lower c /\ is_byte (recase e c) /\ is_letter (recase e c) = is_letter c.
Proof.
  intros Hc. unfold recase. destruct (is_letter c) eqn:E; [|done].
  set (f := fun c => negb (is_letter c) ||
    (bool_decide (ascii_lower (Z.lor c 32) = ascii_lower c /\ is_byte (Z.lor c 32) /\ is_letter (Z.lor c 32) = true /\
     ascii_lower (Z.land c (Z.lxor 255 32)) = ascii_lower c /\ is_byte (Z.land c (Z.lxor 255 32)) /\ is_letter (Z.land c (Z.lxor 255 32)) = true))).
  assert (f c = true) as Hf by (apply (byte_cases f); [vm_compute; reflexivity|done]).
  unfold f in Hf. rewrite E in Hf. simpl in Hf. apply bool_decide_eq_true in Hf. case_decide; tauto.
Qed.

Lemma insert_case_eq (q : bytes) i c e :
  (i < length q)%nat -> bytes_ok q -> nth i q 0 = c ->
  case_eq (<[i := recase e c]> q) q /\ bytes_ok (<[i := recase e c]> q).
Proof.
  intros Hi Hq Hc. assert (is_byte c) as Hb by (subst; by apply nth_bytes_ok).
  destruct (recase_spec e c Hb) as (Hl & Hr & _). split.
  - unfold case_eq. change (map ascii_lower) with (fmap (M := list) ascii_lower). rewrite list_fmap_insert, Hl.
    apply list_insert_id. rewrite list_lookup_fmap. rewrite nth_lookup in Hc.
    destruct (lookup_lt_is_Some_2 q i Hi) as [x Hx]. rewrite Hx in Hc |- *. simpl in *. by rewrite Hc.
  - by apply Forall_insert.
Qed.

Lemma caseLoop_spec n ent q o :
  bytes_ok q -> 0 <= o ->
  exists r, caseLoop n ent q o = Ret r /\ case_eq r q /\ bytes_ok r /\ take (Z.to_nat o) r = take (Z.to_nat o) q.
Proof.
  revert q o. induction n as [|n IH]; intros q o Hq Ho; simpl; [by exists q|]. case_decide; [by exists q|].
  rewrite index_Ret by lia. rewrite bind_Ret.
  destruct (insert_case_eq q (Z.to_nat o) (nth (Z.to_nat o) q 0) (ent o)) as [Hc Hok]; [unfold len in *; lia|done|done|].
  destruct (IH _ (o + 1) Hok ltac:(lia)) as (r & -> & Hr & Hrok & Ht). exists r. split; [done|]. split; [by rewrite Hr|].
  split; [done|]. apply (f_equal (take (Z.to_nat o))) in Ht.
  rewrite !take_take, !Nat.min_l in Ht by lia. rewrite Ht. by rewrite take_insert_ge by lia.
Qed.

Lemma nameLoop_spec fuel ent q o :
  bytes_ok q -> 0 <= o -> (Z.to_nat (len q - o) < fuel)%nat ->
  exists r o', nameLoop fuel ent q o = Ret (r, o') /\ case_eq r q /\ bytes_ok r /\ o <= o' /\
    take (Z.to_nat o) r = take (Z.to_nat o) q.
Proof.
  revert q o. induction fuel as [|fuel IH]; intros q o Hq Ho Hf; [lia|]. cbn [nameLoop].
  case_decide; [eexists _, _; split; [done|]; by split_and!|]. rewrite index_Ret by lia. rewrite bind_Ret.
  pose proof (nth_bytes_ok q (Z.to_nat o) Hq) as Hx. unfold is_byte in Hx.
  case_decide; [eexists _, _; split; [done|]; split_and!; by (done || lia)|].
  case_decide; [eexists _, _; split; [done|]; split_and!; by (done || lia)|].
  destruct (caseLoop_spec (Z.to_nat (nth (Z.to_nat o) q 0)) ent q (o + 1) Hq ltac:(lia)) as (r & -> & Hr & Hrok & Ht).
  rewrite bind_Ret. pose proof (case_eq_length _ _ Hr) as Hl.
  destruct (IH r (o + 1 + nth (Z.to_nat o) q 0) Hrok) as (r' & o' & -> & Hr' & Hrok' & Ho' & Ht'); [lia|unfold len in *; lia|].
  eexists _, _. split; [done|]. split; [by rewrite Hr'|]. split; [done|]. split; [lia|].
  apply (f_equal (take (Z.to_nat o))) in Ht, Ht'. rewrite !take_take, !Nat.min_l in Ht, Ht' by lia. congruence.
Qed.

Lemma namesLoop_spec n ent q o :
  bytes_ok q -> 0 <= o ->
  exists r, namesLoop n ent q o = Ret r /\ case_eq r q /\ bytes_ok r /\ take (Z.to_nat o) r = take (Z.to_nat o) q.
Proof.
  revert q o. induction n as [|n IH]; intros q o Hq Ho; cbn [namesLoop]; [by exists q|].
  destruct (nameLoop_spec (S (length q)) ent q o Hq Ho) as (r & o' & -> & Hr & Hrok & Ho' & Ht); [unfold len; lia|].
  rewrite bind_Ret. set (o2 := if decide _ then _ else _). assert (o' <= o2) by (unfold o2; case_decide; lia).
  destruct (IH r o2 Hrok ltac:(lia)) as (r' & -> & Hr' & Hrok' & Ht'). exists r'. split; [done|]. split; [by rewrite Hr'|].
  split; [done|]. apply (f_equal (take (Z.to_nat o))) in Ht'. rewrite !take_take, !Nat.min_l in Ht' by lia. congruence.
Qed.

Lemma Apply0x20_case ent q :
  bytes_ok q ->
  exists r names, Apply0x20Encoding ent q = Ret (r, names) /\ case_eq r q /\ bytes_ok r /\ take 12 r = take 12 q /\
    (12 <= len q -> exists qs, ExtractQuestions r = Ret qs /\ names = map q_Name qs).
Proof.
  intros Hq. unfold Apply0x20Encoding. case_decide; [eexists _, _; split; [done|]; split_and!; by (done || lia)|].
  rewrite (get_uint16_word q 4 4), bind_Ret by lia.
  destruct (namesLoop_spec (Z.to_nat (word q 4)) ent q 12 Hq ltac:(lia)) as (r & -> & Hr & Hrok & Ht). rewrite bind_Ret.
  destruct (ExtractQuestions_bounds r Hrok) as (qs & E & _). rewrite E, bind_Ret.
  eexists _, _. split; [done|]. split; [done|]. split; [done|]. split; [done|]. eauto.
Qed.

(** Whatever the bytes of the query and the random bytes, the 0x20 encoding returns,
    leaves the header alone, and changes nothing but the case of ASCII letters; the
    expected names are those of the encoded query. *)
Theorem Apply0x20_only_case ent q :
  bytes_ok q ->
  exists r names, Apply0x20Encoding ent q = Ret (r, names) /\ case_eq r q /\ take 12 r = take 12 q /\
    (12 <= len q -> exists qs, ExtractQuestions r = Ret qs /\ names = map q_Name qs).
Proof.
  intros Hq. destruct (Apply0x20_case ent q Hq) as (r & names & ? & ? & _ & ? & ?). by exists r, names.
Qed.

Lemma Apply0x20_only_case_witness :
  exists r names, Apply0x20Encoding (fun i => i) (demo_query (gs "ok.test")) = Ret (r, names) /\
    case_eq r (demo_query (gs "ok.test")).
Proof.
  destruct (Apply0x20_only_case (fun i => i) (demo_query (gs "ok.test"))) as (r & names & H & Hc & _);
    [by apply (bool_decide_eq_true_1 _)|by exists r, names].
Defined.

(** ** On a well-formed query the names are the same up to case *)

Lemma case_eq_dot a b : case_eq a b -> dot ∉ a -> dot ∉ b.
Proof.
  assert (forall c, ascii_lower c = 46 -> c = 46) as Hl by (intros c; unfold ascii_lower; case_decide; lia).
  unfold case_eq. intros E Ha Hb. apply Ha. apply (list_elem_of_fmap_2 ascii_lower b 46) in Hb as Hb'.
  change (ascii_lower <$> b) with (map ascii_lower b) in Hb'. change (ascii_lower 46) with 46 in Hb'. rewrite <- E in Hb'.
  apply list_elem_of_fmap in Hb' as (c & Hc & Hin). by rewrite <- (Hl c).
Qed.

Lemma caseLoop_label ent l : forall pre post,
  bytes_ok l -> exists l', caseLoop (length l) ent (pre ++ l ++ post) (len pre) = Ret (pre ++ l' ++ post) /\ case_eq l' l /\ bytes_ok l'.
Proof.
  induction l as [|c l IH]; intros pre post Hl; [by exists []|]. apply Forall_cons_1 in Hl as [Hc Hl].
  cbn [length caseLoop]. rewrite decide_False by len_solve. change ((c :: l) ++ post) with (c :: (l ++ post)).
  rewrite index_app_mid, bind_Ret. unfold len at 1. rewrite Nat2Z.id.
  replace (<[length pre := recase (ent (len pre)) c]> (pre ++ c :: l ++ post)) with ((pre ++ [recase (ent (len pre)) c]) ++ l ++ post).
  2:{ rewrite <- app_assoc. cbn [app]. rewrite insert_app_r_alt by lia. by rewrite Nat.sub_diag. }
  replace (len pre + 1) with (len (pre ++ [recase (ent (len pre)) c])) by len_solve.
  destruct (IH (pre ++ [recase (ent (len pre)) c]) post Hl) as (l' & -> & Hl' & Hok). exists (recase (ent (len pre)) c :: l').
  destruct (recase_spec (ent (len pre)) c Hc) as (E & Hr & _).
  split; [by rewrite <- app_assoc|]. split; [unfold case_eq in *; simpl; congruence|by constructor].
Qed.

Lemma nameLoop_labels ent ls : forall fuel pre post,
  Forall (fun l => 1 <= len l <= 63 /\ bytes_ok l) ls -> (length ls < fuel)%nat ->
  exists ls', nameLoop fuel ent (pre ++ raw_labels ls ++ 0 :: post) (len pre) =
    Ret (pre ++ raw_labels ls' ++ 0 :: post, len pre + len (raw_labels ls) + 1) /\
    Forall2 (fun a b => case_eq a b /\ bytes_ok a) ls' ls.
Proof.
  induction ls as [|l ls IH]; intros fuel pre post Hls Hf; (destruct fuel as [|fuel]; [simpl in Hf; lia|]); cbn [nameLoop].
  { exists []. split; [|constructor]. simpl. rewrite decide_False by len_solve. rewrite index_app_mid, bind_Ret, decide_True by done.
    do 2 f_equal. unfold len at 3. simpl. lia. }
  apply Forall_cons_1 in Hls as [[Hl Hlb] Hls]. simpl in Hf. cbn [flat_map]. rewrite <- app_assoc. cbn [app].
  rewrite decide_False by len_solve. rewrite index_app_mid, bind_Ret, decide_False by lia.
  rewrite decide_False by (apply land_small_label; lia).
  replace (pre ++ len l :: l ++ raw_labels ls ++ 0 :: post) with ((pre ++ [len l]) ++ l ++ raw_labels ls ++ 0 :: post) by (by rewrite <- !app_assoc).
  replace (len pre + 1) with (len (pre ++ [len l])) by len_solve.
  replace (Z.to_nat (len l)) with (length l) by (unfold len; lia).
  destruct (caseLoop_label ent l (pre ++ [len l]) (raw_labels ls ++ 0 :: post) Hlb) as (l' & -> & Hl' & Hok). rewrite bind_Ret.
  pose proof (case_eq_length _ _ Hl') as Hlen.
  replace (len (pre ++ [len l]) + len l) with (len ((pre ++ [len l]) ++ l')) by len_solve. rewrite (app_assoc _ l').
  destruct (IH fuel ((pre ++ [len l]) ++ l') post Hls ltac:(lia)) as (ls' & -> & Hls').
  exists (l' :: ls'). split; [|by constructor].
  cbn [flat_map]. replace (len l') with (len l) by len_solve. rewrite <- !app_assoc. cbn [app]. do 2 f_equal. len_solve.
Qed.

Lemma enc_labels_raw ls : Forall (fun l => len l <= 63) ls -> enc_labels ls = raw_labels (filter (fun l => l <> []) ls).
Proof.
  induction 1 as [|l ls Hl Hls IH]; [done|]. change (enc_labels (l :: ls)) with (enc_label l ++ enc_labels ls).
  rewrite IH, filter_cons. unfold enc_label. pose proof (len_nonneg l). destruct l as [|c l].
  - rewrite decide_True by done. rewrite decide_False by (intros Hn; by apply Hn). done.
  - rewrite decide_False by len_solve. rewrite decide_True by done. cbn [flat_map]. by rewrite uint8_id by (unfold is_byte; lia).
Qed.

Lemma Split_canon ls :
  Forall (fun l : gostring => l <> [] /\ dot ∉ l) ls -> filter (fun l => l <> []) (Split (Join ls [dot]) dot) = ls.
Proof.
  intros H. destruct (decide (ls = [])) as [->|Hne]; [done|]. rewrite Split_Join; [|done|].
  - clear Hne. induction H as [|l ls [Hl _] Hls IH]; [done|]. by rewrite filter_cons, decide_True, IH.
  - eapply Forall_impl; [done|]. by intros ? [_ ?].
Qed.

Lemma Join_case_eq ls' ls : Forall2 (fun a b => case_eq a b /\ bytes_ok a) ls' ls -> case_eq (Join ls' [dot]) (Join ls [dot]).
Proof.
  induction 1 as [|a b ls' ls [Hab _] Hls IH]; [done|]. destruct Hls as [|a2 b2 l1 l2 H2 Hls].
  - done.
  - rewrite !Join_cons2. rewrite Hab. by apply case_eq_app; [|apply case_eq_app].
Qed.

(** The nonempty labels of a name, with what the loops need to know about them. *)
Lemma name_labels name :
  short_labels name -> bytes_ok name ->
  Forall (fun l => 1 <= len l <= 63 /\ bytes_ok l) (filter (fun l => l <> []) (Split name dot)) /\
  Forall (fun l : gostring => l <> [] /\ dot ∉ l) (filter (fun l => l <> []) (Split name dot)).
Proof.
  intros Hs Hb.
  assert (Forall bytes_ok (Split name dot)) as Hsb.
  { clear Hs. induction Hb as [|c s Hc Hs IH]; [repeat constructor|]. simpl.
    case_decide; [by constructor|]. destruct (Split s dot) as [|l ls]; [by repeat apply Forall_cons_2|].
    apply Forall_cons_1 in IH as [? ?]. by repeat apply Forall_cons_2. }
  pose proof (Split_no_sep name dot) as Hd. unfold short_labels in Hs.
  rewrite !Forall_forall in *. split; intros l [Hne Hin]%list_elem_of_filter.
  - split; [|by apply Hsb]. split; [|by apply Hs]. destruct l; [done|len_solve].
  - split; [done|by apply Hd].
Qed.

Lemma Forall2_labels_ok ls' ls :
  Forall2 (fun a b => case_eq a b /\ bytes_ok a) ls' ls ->
  Forall (fun l : gostring => l <> [] /\ dot ∉ l) ls -> Forall (fun l => 1 <= len l <= 63 /\ bytes_ok l) ls ->
  Forall (fun l : gostring => l <> [] /\ dot ∉ l) ls' /\ Forall (fun l => len l <= 63) ls'.
Proof.
  induction 1 as [|a b ls' ls [Hab Ha] Hls IH]; intros H1 H2; [by split|].
  apply Forall_cons_1 in H1 as [[Hne Hd] H1]. apply Forall_cons_1 in H2 as [[Hl _] H2]. destruct (IH H1 H2) as [IH1 IH2].
  pose proof (case_eq_length _ _ Hab) as Hlen. split; constructor; try done.
  - split; [|by eapply case_eq_dot]. intros ->. by destruct b.
  - len_solve.
Qed.

Lemma raw_labels_case ls' ls :
  Forall2 (fun a b => case_eq a b /\ bytes_ok a) ls' ls -> length (raw_labels ls') = length (raw_labels ls).
Proof.
  induction 1 as [|a b l1 l2 [Hab _] H IH]; [done|]. cbn [flat_map]. rewrite !length_app. simpl.
  apply case_eq_length in Hab. lia.
Qed.

(** The loop over a whole question section. *)
Lemma namesLoop_questions ent qs : forall pre post,
  Forall (fun q => short_labels q.1 /\ bytes_ok q.1) qs ->
  exists qs', namesLoop (length qs) ent (pre ++ enc_questions qs ++ post) (len pre) = Ret (pre ++ enc_questions qs' ++ post) /\
    length qs' = length qs /\ map snd qs' = map snd qs /\
    Forall (fun q => short_labels q.1) qs' /\
    Forall2 (fun q' q => case_eq (canon_name q'.1) (canon_name q.1)) qs' qs.
Proof.
  induction qs as [|[name t] qs IH]; intros pre post Hqs; [by exists []|].
  apply Forall_cons_1 in Hqs as [[Hs Hb] Hqs]. cbn [length namesLoop fst] in *.
  change (enc_questions ((name, t) :: qs)) with (enc_question name t DnsClassIn ++ enc_questions qs).
  unfold enc_question, enc_name. rewrite enc_labels_raw by done. set (ls := filter (fun l => l <> []) (Split name dot)).
  destruct (name_labels name Hs Hb) as [H1 H2]. fold ls in H1, H2.
  set (tc := be16 t ++ be16 DnsClassIn).
  rewrite <- !app_assoc. cbn [app]. fold tc.
  replace (be16 t ++ be16 DnsClassIn ++ enc_questions qs ++ post) with (tc ++ enc_questions qs ++ post) by (unfold tc; by rewrite <- app_assoc).
  set (rest := tc ++ enc_questions qs ++ post).
  destruct (nameLoop_labels ent ls (S (length (pre ++ raw_labels ls ++ 0 :: rest))) pre rest H1) as (ls' & -> & Hls').
  { pose proof (raw_labels_len ls). rewrite !length_app. lia. }
  rewrite bind_Ret. destruct (Forall2_labels_ok ls' ls Hls' H2 H1) as [Hn' Hl'].
  pose proof (raw_labels_case ls' ls Hls') as Elen.
  set (pre2 := pre ++ raw_labels ls' ++ 0 :: tc).
  rewrite decide_True by (unfold rest, tc, be16; len_solve).
  replace (len pre + len (raw_labels ls) + 1 + 4) with (len pre2) by (unfold pre2, tc, be16; len_solve).
  replace (pre ++ raw_labels ls' ++ 0 :: rest) with (pre2 ++ enc_questions qs ++ post)
    by (unfold pre2, rest; rewrite <- !app_assoc; by rewrite <- app_comm_cons).
  destruct (IH pre2 post Hqs) as (qs' & -> & Hlen & Ht & Hsh & Hce).
  exists ((Join ls' [dot], t) :: qs').
  assert (canon_name (Join ls' [dot]) = Join ls' [dot]) as Ecan by (unfold canon_name; by rewrite Split_canon).
  split.
  { f_equal. unfold pre2. change (enc_questions ((Join ls' [dot], t) :: qs')) with (enc_question (Join ls' [dot]) t DnsClassIn ++ enc_questions qs').
    unfold enc_question, enc_name. rewrite enc_labels_raw.
    - rewrite Split_canon by done. unfold tc. rewrite <- !app_assoc. cbn [app]. by rewrite <- !app_assoc.
    - destruct (decide (ls' = [])) as [->|Hne]; [by repeat constructor|]. rewrite Split_Join; [done|done|].
      eapply Forall_impl; [exact Hn'|]. by intros ? [_ ?]. }
  split; [simpl; lia|]. split; [simpl; by rewrite Ht|]. split.
  - constructor; [|done]. unfold short_labels. cbn [fst].
    destruct (decide (ls' = [])) as [->|Hne]; [by repeat constructor|]. rewrite Split_Join; [done|done|].
    eapply Forall_impl; [exact Hn'|]. by intros ? [_ ?].
  - constructor; [|done]. cbn [fst]. rewrite Ecan. by apply Join_case_eq.
Qed.

Lemma located_names off qs : map q_Name (located off qs) = map (fun q => canon_name q.1) qs.
Proof. revert off. induction qs as [|[n t] qs IH]; intros off; [done|]. simpl. by rewrite IH. Qed.

(** On a well-formed query (uncompressed names, as clients send them) the upstream
    is asked the same questions: same types in the same order and the same names up to
    letter case, and these recased names are the ones expected in its response. *)
Theorem Apply0x20_same_questions ent hdr qs post :
  length hdr = 12%nat -> take 2 (drop 4 hdr) = be16 (len qs) -> len qs < 65536 ->
  Forall (fun q => short_labels q.1 /\ bytes_ok q.1) qs ->
  exists qs', Apply0x20Encoding ent (hdr ++ enc_questions qs ++ post) =
      Ret (hdr ++ enc_questions qs' ++ post, map (fun q => canon_name q.1) qs') /\
    map snd qs' = map snd qs /\
    Forall2 (fun q' q => case_eq (canon_name q'.1) (canon_name q.1)) qs' qs.
Proof.
  intros Hh Hqd Hn Hqs. unfold Apply0x20Encoding. rewrite decide_False by len_solve.
  assert (get_uint16 (hdr ++ enc_questions qs ++ post) 4 = Ret (len qs)) as ->.
  { assert (E : hdr = take 4 hdr ++ be16 (len qs) ++ drop 6 hdr).
    { rewrite <- Hqd. change (drop 6 hdr) with (drop (4 + 2) hdr). rewrite <- drop_drop, take_drop. symmetry. apply take_drop. }
    pose proof (get_uint16_app (take 4 hdr) (drop 6 hdr ++ enc_questions qs ++ post) (len qs)) as G.
    replace (len (take 4 hdr)) with 4 in G by len_solve. rewrite E at 1. rewrite <- !app_assoc, G.
    unfold uint16. by rewrite Z.mod_small by (pose proof (len_nonneg qs); lia). }
  rewrite bind_Ret. replace (Z.to_nat (len qs)) with (length qs) by (unfold len; lia).
  replace 12 with (len hdr) by len_solve.
  destruct (namesLoop_questions ent qs hdr post Hqs) as (qs' & -> & Hlen & Ht & Hs & Hc). rewrite bind_Ret.
  assert (len qs' = len qs) as El by len_solve.
  rewrite ExtractQuestions_enc; [|done|by rewrite El|by rewrite El|done]. rewrite bind_Ret, located_names.
  by exists qs'.
Qed.

Lemma Apply0x20_same_questions_witness :
  exists qs', Apply0x20Encoding (fun i => i) ([0; 9; 1; 0; 0; 1; 0; 0; 0; 0; 0; 0] ++ enc_questions [(gs "ok.test", 1)] ++ []) =
    Ret ([0; 9; 1; 0; 0; 1; 0; 0; 0; 0; 0; 0] ++ enc_questions qs' ++ [], map (fun q => canon_name q.1) qs').
Proof.
  destruct (Apply0x20_same_questions (fun i => i) [0; 9; 1; 0; 0; 1; 0; 0; 0; 0; 0; 0] [(gs "ok.test", 1)] [])
    as (qs' & H & _); [done|done|done| |by exists qs'].
  constructor; [|constructor]. split; [by apply (bool_decide_eq_true_1 _)|apply gs_bytes_ok].
Defined.

(** ** The EDNS0 option *)

(** The OPT record: root owner, type, UDP size 4096, the DO bit, no data. *)
Definition opt_record : bytes := [0] ++ be16 DnsTypeOPT ++ be16 4096 ++ be32 DnssecDoBit ++ be16 0.

Lemma AppendEdns0DoBit_enc query :
  12 <= len query -> word query 10 = 0 ->
  AppendEdns0DoBit query = Ret (take 10 query ++ be16 1 ++ drop 12 query ++ opt_record).
Proof.
  intros Hl Ha. unfold AppendEdns0DoBit. rewrite decide_False by lia.
  rewrite (get_uint16_word query 10 10), Ha, bind_Ret, decide_False by lia.
  destruct (appends (f := fun dw => WriteBytes dw query) _ wf_fresh) as (w1 & -> & Hf1 & Hw1). rewrite bind_Ret.
  rewrite written_fresh in Hw1. cbn [app] in Hw1. pose proof Hf1 as [Ho1 Ho2]. pose proof (offset_written w1 Hf1) as Ho. rewrite Hw1 in Ho.
  unfold put_uint16. rewrite decide_True by lia. rewrite bind_Ret. change (Z.to_nat 10) with 10%nat.
  set (b := overwrite 10 (be16 1) (Buf w1)).
  assert (length b = length (Buf w1)) as Elb by (destruct (overwrite_length 10 (be16 1) (Buf w1)); [done|unfold len in *; lia]).
  set (w2 := {| Buf := b; Offset := Offset w1 |}).
  assert (wf_writer w2) as Hf2 by (unfold wf_writer, w2, len in *; simpl; lia).
  assert (written w2 = take 10 query ++ be16 1 ++ drop 12 query) as Hw2.
  { unfold written, w2. cbn [Buf Offset]. unfold b. rewrite take_overwrite by (simpl; unfold len in *; lia).
    fold (written w1). rewrite Hw1.
    assert (query = take 10 query ++ take 2 (drop 10 query) ++ drop 12 query) as Eq.
    { change (drop 12 query) with (drop (10 + 2) query). by rewrite <- drop_drop, take_drop, take_drop. }
    pose proof (overwrite_mid (take 10 query) (take 2 (drop 10 query)) (drop 12 query) (be16 1)) as Hmid.
    rewrite <- Eq in Hmid. replace (length (take 10 query)) with 10%nat in Hmid by len_solve. apply Hmid. unfold be16. len_solve. }
  destruct (appends (f := fun dw => WriteUint8 dw 0) w2 Hf2) as (w3 & -> & Hf3 & Hw3). rewrite bind_Ret.
  destruct (appends (f := fun dw => WriteUint16 dw DnsTypeOPT) w3 Hf3) as (w4 & -> & Hf4 & Hw4). rewrite bind_Ret.
  destruct (appends (f := fun dw => WriteUint16 dw 4096) w4 Hf4) as (w5 & -> & Hf5 & Hw5). rewrite bind_Ret.
  destruct (appends (f := fun dw => WriteUint32 dw DnssecDoBit) w5 Hf5) as (w6 & -> & Hf6 & Hw6). rewrite bind_Ret.
  destruct (appends (f := fun dw => WriteUint16 dw 0) w6 Hf6) as (w7 & -> & Hf7 & Hw7). rewrite bind_Ret.
  rewrite Finish_written by done. rewrite Hw7, Hw6, Hw5, Hw4, Hw3, Hw2. unfold opt_record. by rewrite <- !app_assoc.
Qed.

Lemma AppendEdns0DoBit_cases query :
  bytes_ok query ->
  AppendEdns0DoBit query =
  Ret (if decide (12 <= len query /\ word query 10 = 0)
       then take 10 query ++ be16 1 ++ drop 12 query ++ opt_record else query).
Proof.
  intros Hb. case_decide as H; [apply AppendEdns0DoBit_enc; tauto|]. unfold AppendEdns0DoBit. case_decide; [done|].
  rewrite (get_uint16_word query 10 10), bind_Ret by lia.
  pose proof (of_be16_range (nth 10 query 0) (nth 11 query 0) (nth_bytes_ok _ _ Hb) (nth_bytes_ok _ _ Hb)) as Hr.
  assert (0 <= word query 10) by (unfold word; lia). by rewrite decide_True by lia.
Qed.

(** A query without additional records gets exactly one: its count becomes 1 and an
    OPT record with the DO bit follows; a query that has some, or is shorter than a
    header, is passed on unchanged. *)
Theorem AppendEdns0DoBit_exact query :
  bytes_ok query ->
  AppendEdns0DoBit query =
  Ret (if decide (12 <= len query /\ word query 10 = 0)
       then take 10 query ++ be16 1 ++ drop 12 query ++ opt_record else query).
Proof. apply AppendEdns0DoBit_cases. Qed.

Lemma AppendEdns0DoBit_exact_witness :
  AppendEdns0DoBit [0; 9; 1; 0; 0; 0; 0; 0; 0; 0; 0; 0] =
  Ret [0; 9; 1; 0; 0; 0; 0; 0; 0; 0; 0; 1; 0; 0; 41; 16; 0; 0; 0; 128; 0; 0; 0].
Proof.
  rewrite (AppendEdns0DoBit_exact [0; 9; 1; 0; 0; 0; 0; 0; 0; 0; 0; 0]); [reflexivity|by apply (bool_decide_eq_true_1 _)].
Defined.
