(* ===== verification/Handler.v ===== *)
(** * The DNS listeners ([pkg/dns/handler.go])

    The handler's state, the DoH, UDP and TCP paths and the table of pending UDP
    forwards.  Sockets are values: what a routine sends is returned as a list of
    actions, what the network gives back is an argument.  Listening, TLS set-up
    and deadlines are not modelled. *)
From S2P Require Import Prelude GoStrings NetIP Config RateLimiter Wire Firewall AuditLog Cache Server Dnssec Query0x20.

(** [net.UDPAddr] *)
Record UDPAddr := { ua_IP : bytes; ua_Port : Z }.
#[export] Instance UDPAddr_eq_dec : EqDecision UDPAddr.
Proof. solve_decision. Defined.

Record PendingUdpQuery := {
  pq_RemoteAddr : UDPAddr;
  pq_OriginalID : Z;
  pq_ExpectedNames : list gostring;
  pq_OriginalQuery : bytes;
}.

Record DnsHandler := {
  h_server : DevDnsServer;
  h_cfg : ServerConfig;
  h_rateLimiter : option RateLimiter;
  h_port : Z;
  h_fallbackDns : gostring;
  h_maxTcpConns : Z;
  h_idleTimeout : Z; (* nanoseconds *)
  h_stopped : bool; (* [stopChan] is closed *)
  h_activeTcpConns : gset nat;
  h_pendingUdpQueries : option (gmap Z PendingUdpQuery); (* [None] is the nil map *)
  h_maxUdpForwards : Z;
}.

Definition newLimiter (cfg : ServerConfig) : option RateLimiter :=
  if decide (cfg_RateLimitMaxRequests cfg > 0)
  then Some (NewRateLimiter (cfg_RateLimitMaxRequests cfg) (cfg_RateLimitWindowMs cfg) 100000) else None.

Definition NewDnsHandler (server : DevDnsServer) (cfg : ServerConfig) : DnsHandler :=
  {| h_server := server; h_cfg := cfg; h_rateLimiter := newLimiter cfg; h_port := cfg_Port cfg;
     h_fallbackDns := cfg_FallbackDns cfg;
     h_maxTcpConns := if decide (cfg_MaxTcpConnections cfg > 0) then cfg_MaxTcpConnections cfg else 100;
     h_idleTimeout := if decide (cfg_TcpIdleTimeoutMs cfg > 0) then cfg_TcpIdleTimeoutMs cfg * millisecond else 30000 * millisecond;
     h_stopped := false; h_activeTcpConns := ∅; h_pendingUdpQueries := Some ∅; h_maxUdpForwards := 2000 |}.

Definition with_server (h : DnsHandler) (s : DevDnsServer) : DnsHandler :=
  {| h_server := s; h_cfg := h_cfg h; h_rateLimiter := h_rateLimiter h; h_port := h_port h;
     h_fallbackDns := h_fallbackDns h; h_maxTcpConns := h_maxTcpConns h; h_idleTimeout := h_idleTimeout h;
     h_stopped := h_stopped h; h_activeTcpConns := h_activeTcpConns h; h_pendingUdpQueries := h_pendingUdpQueries h;
     h_maxUdpForwards := h_maxUdpForwards h |}.
Definition with_limiter (h : DnsHandler) (rl : option RateLimiter) : DnsHandler :=
  {| h_server := h_server h; h_cfg := h_cfg h; h_rateLimiter := rl; h_port := h_port h;
     h_fallbackDns := h_fallbackDns h; h_maxTcpConns := h_maxTcpConns h; h_idleTimeout := h_idleTimeout h;
     h_stopped := h_stopped h; h_activeTcpConns := h_activeTcpConns h; h_pendingUdpQueries := h_pendingUdpQueries h;
     h_maxUdpForwards := h_maxUdpForwards h |}.
Definition with_pending (h : DnsHandler) (m : option (gmap Z PendingUdpQuery)) : DnsHandler :=
  {| h_server := h_server h; h_cfg := h_cfg h; h_rateLimiter := h_rateLimiter h; h_port := h_port h;
     h_fallbackDns := h_fallbackDns h; h_maxTcpConns := h_maxTcpConns h; h_idleTimeout := h_idleTimeout h;
     h_stopped := h_stopped h; h_activeTcpConns := h_activeTcpConns h; h_pendingUdpQueries := m;
     h_maxUdpForwards := h_maxUdpForwards h |}.
Definition with_conns (h : DnsHandler) (cs : gset nat) : DnsHandler :=
  {| h_server := h_server h; h_cfg := h_cfg h; h_rateLimiter := h_rateLimiter h; h_port := h_port h;
     h_fallbackDns := h_fallbackDns h; h_maxTcpConns := h_maxTcpConns h; h_idleTimeout := h_idleTimeout h;
     h_stopped := h_stopped h; h_activeTcpConns := cs; h_pendingUdpQueries := h_pendingUdpQueries h;
     h_maxUdpForwards := h_maxUdpForwards h |}.

(** The old limiter, if any, is destroyed: closing its channel twice would panic. *)
Definition handlerUpdateConfig (h : DnsHandler) (newCfg : ServerConfig) : go DnsHandler :=
  _ ← match h_rateLimiter h with None => Ret None | Some rl => Some <$> Destroy rl end;
  Ret {| h_server := h_server h; h_cfg := newCfg; h_rateLimiter := newLimiter newCfg; h_port := cfg_Port newCfg;
         h_fallbackDns := cfg_FallbackDns newCfg;
         h_maxTcpConns := if decide (cfg_MaxTcpConnections newCfg > 0) then cfg_MaxTcpConnections newCfg else h_maxTcpConns h;
         h_idleTimeout := if decide (cfg_TcpIdleTimeoutMs newCfg > 0) then cfg_TcpIdleTimeoutMs newCfg * millisecond else h_idleTimeout h;
         h_stopped := h_stopped h; h_activeTcpConns := h_activeTcpConns h;
         h_pendingUdpQueries := h_pendingUdpQueries h; h_maxUdpForwards := h_maxUdpForwards h |}.

(** [Stop]: the sockets apart, the limiter is destroyed but kept, and the table of
    pending queries becomes nil. *)
Definition Stop (h : DnsHandler) : go DnsHandler :=
  if h_stopped h then Panic
  else
    rl ← match h_rateLimiter h with None => Ret None | Some rl => Some <$> Destroy rl end;
    Ret {| h_server := h_server h; h_cfg := h_cfg h; h_rateLimiter := rl; h_port := h_port h;
           h_fallbackDns := h_fallbackDns h; h_maxTcpConns := h_maxTcpConns h; h_idleTimeout := h_idleTimeout h;
           h_stopped := true; h_activeTcpConns := h_activeTcpConns h; h_pendingUdpQueries := None;
           h_maxUdpForwards := h_maxUdpForwards h |}.

(** One accepted connection: [None] when the limit is reached and it is closed. *)
Definition acceptConn (h : DnsHandler) (conn : nat) : option DnsHandler :=
  if decide (Z.of_nat (size (h_activeTcpConns h)) >= h_maxTcpConns h) then None
  else Some (with_conns h ({[conn]} ∪ h_activeTcpConns h)).
Definition closeConn (h : DnsHandler) (conn : nat) : DnsHandler := with_conns h (h_activeTcpConns h ∖ {[conn]}).

Definition isRateLimited (h : DnsHandler) (now : Z) (order : list gostring) (ip : gostring) : go (bool * DnsHandler) :=
  match h_rateLimiter h with
  | None => Ret (false, h)
  | Some rl => '(ok, rl) ← Allow rl now order ip; Ret (negb ok, with_limiter h (Some rl))
  end.

(** ** Checks on an upstream response, common to the three transports *)

(** The loop [responseQuestions[i].Name != name]. *)
Fixpoint sameNames (expectedNames : list gostring) (questions : list ParsedQuestion) : bool :=
  match expectedNames, questions with
  | name :: names, q :: questions => if decide (q_Name q <> name) then false else sameNames names questions
  | _, _ => true
  end.
Definition valid0x20 (expectedNames : list gostring) (questions : list ParsedQuestion) : bool :=
  bool_decide (len expectedNames = len questions) && sameNames expectedNames questions.

Section Handler.
Context {U : Unicode} {CR : Crypto}.

(** [blockedIp]: the first address the firewall denies, or the empty text. *)
Fixpoint firstBlocked (ips : list gostring) (fw : option FirewallConfig) : gostring :=
  match ips with
  | [] => []
  | ip :: ips => if decide (EvaluateIp ip fw = DENY) then ip else firstBlocked ips fw
  end.

Definition upstreamAddr (fallback : gostring) : gostring := fallback ++ gs ":53".

(** [exchange]: the message that the upstream at an address returns for a query;
    [None] when resolving, dialling, writing or reading fails.  [t1], [t2] are the
    clock readings of the cache, [now] that of the signature check. *)
Definition resolveQueryAsync (h : DnsHandler) (t1 t2 now : Z) (entropy : Z -> Z)
    (exchange : gostring -> bytes -> option bytes) (query : bytes) (clientIp : gostring)
  : go (option bytes * DnsHandler * list call) :=
  '(resp, s, logs) ← Resolve crypto_sha256 (h_server h) t1 t2 query clientIp;
  let h := with_server h s in
  let fail rcode logs := (e ← GenerateErrorResponse query rcode; Ret (e, h, logs)) in
  match resp with
  | Some resp => if decide (len resp > 0) then Ret (Some resp, h, logs) else fail DnsRcodeServFail logs
  | None =>
      let fw := cfg_Firewall (h_cfg h) in
      if decide (h_fallbackDns h = []) then fail DnsRcodeNxDomain logs
      else
        '(encoded, expectedNames) ← Apply0x20Encoding entropy query;
        dnssecQuery ← AppendEdns0DoBit encoded;
        match exchange (upstreamAddr (h_fallbackDns h)) dnssecQuery with
        | None => fail DnsRcodeServFail logs
        | Some msg =>
            '(ok, vlogs) ← VerifyDnssecResponse now msg expectedNames fw;
            let logs := logs ++ vlogs in
            if negb ok then
              fail DnsRcodeServFail (logs ++ [CallError (gs "Dropped upstream DoH fallback response: DNSSEC signature validation failed")])
            else
              responseQuestions ← ExtractQuestions msg;
              if negb (valid0x20 expectedNames responseQuestions) then
                fail DnsRcodeServFail (logs ++ [CallError (gs "Dropped upstream DoH fallback response: 0x20 bit encoding mismatch (Spoofing Mitigation)")])
              else
                ips ← ParseResolvedIpv4s msg;
                let blockedIp := firstBlocked ips fw in
                questions ← ExtractQuestions query;
                let isLocal := firstIsLocal (sv_cfg (h_server h)) questions in
                if decide (blockedIp <> []) then
                  fail DnsRcodeRefused
                    (logs ++ [CallFirewall clientIp blockedIp (gs "DENY") (gs "Upstream target IP blocked");
                              CallDNS clientIp (logged questions) DnsRcodeRefused false [] isLocal])
                else
                  w ← get_uint16 msg 2;
                  Ret (Some msg, h, logs ++ [CallDNS clientIp (logged questions) (Z.land w 15) false ips isLocal])
        end
  end.

(** ** UDP *)

Inductive action : Type :=
| Reply (b : bytes) (to : UDPAddr)       (* [udpListener.WriteToUDP] *)
| AskUpstream (to : gostring) (q : bytes) (* the goroutine that dials, writes and reads *)
| ArmTimer (id : Z) (data : bytes)        (* [time.AfterFunc(3s, ...)] *)
| Log (c : call).

(** The random identifiers are drawn until one is free. *)
Fixpoint pickId {A} (pending : gmap Z A) (draws : list Z) : go Z :=
  match draws with
  | [] => Hang
  | id :: draws => if decide (is_Some (pending !! id)) then pickId pending draws else Ret id
  end.

(** [resolves]: whether [net.ResolveUDPAddr] succeeds. *)
Definition forwardUdpQuery (h : DnsHandler) (entropy : Z -> Z) (draws : list Z) (resolves : bool)
    (data : bytes) (raddr : UDPAddr) : go (DnsHandler * list action) :=
  let fallback := h_fallbackDns h in
  let fw := cfg_Firewall (h_cfg h) in
  if decide (fallback = []) then Ret (h, [])
  else
    let clientIp := IPString (ua_IP raddr) in
    let allowed := isPrivateIp clientIp ||
      match fw with None => false | Some f => existsb (fun ip => bool_decide (ip = clientIp)) (fw_AllowlistIps f) end in
    if negb allowed then
      Ret (h, [Log (CallSystem (gs "Dropped UDP forward request from untrusted WAN IP: " ++ clientIp ++ gs " (Anti-Amplification)"))])
    else
      let pending := default ∅ (h_pendingUdpQueries h) in
      if decide (Z.of_nat (size pending) >= h_maxUdpForwards h) then
        Ret (h, [Log (CallSystem (gs "Dropped UDP forward request: Concurrent connection limit reached"))])
      else if decide (len data < 2) then Ret (h, [])
      else
        originalID ← get_uint16 data 0;
        ephemeralID ← pickId pending draws;
        '(encoded, expectedNames) ← Apply0x20Encoding entropy data;
        encoded ← put_uint16 encoded 0 ephemeralID;
        (* a query shorter than a header is not copied by [Apply0x20Encoding] *)
        let data := if decide (len data < 12) then encoded else data in
        dnssecQuery ← AppendEdns0DoBit encoded;
        if negb resolves then Ret (h, [])
        else
          match h_pendingUdpQueries h with
          | None => Panic
          | Some m =>
              let p := {| pq_RemoteAddr := raddr; pq_OriginalID := originalID;
                          pq_ExpectedNames := expectedNames; pq_OriginalQuery := data |} in
              Ret (with_pending h (Some (<[ephemeralID := p]> m)),
                   [ArmTimer ephemeralID data; AskUpstream (upstreamAddr fallback) dnssecQuery])
          end.

Definition handleUdpMessage (h : DnsHandler) (t1 t2 : Z) (entropy : Z -> Z) (draws : list Z) (resolves : bool)
    (data : bytes) (raddr : UDPAddr) : go (DnsHandler * list action) :=
  '(resp, s, logs) ← Resolve crypto_sha256 (h_server h) t1 t2 data (IPString (ua_IP raddr));
  let h := with_server h s in
  match resp with
  | Some resp => Ret (h, map Log logs ++ (if decide (len resp > 0) then [Reply resp raddr] else []))
  | None =>
      if decide (h_fallbackDns h <> []) then
        '(h, acts) ← forwardUdpQuery h entropy draws resolves data raddr;
        Ret (h, map Log logs ++ acts)
      else
        nx ← GenerateErrorResponse data DnsRcodeNxDomain;
        Ret (h, map Log logs ++ [Reply (default [] nx) raddr])
  end.

(** One round of [udpReadLoop]: a datagram longer than the buffer is cut. *)
Definition udpReceive (h : DnsHandler) (limiterNow : Z) (order : list gostring) (t1 t2 : Z) (entropy : Z -> Z)
    (draws : list Z) (resolves : bool) (datagram : bytes) (raddr : UDPAddr) : go (DnsHandler * list action) :=
  '(limited, h) ← isRateLimited h limiterNow order (IPString (ua_IP raddr));
  if (limited : bool) then Ret (h, [])
  else handleUdpMessage h t1 t2 entropy draws resolves (take (Z.to_nat 4096) datagram) raddr.

(** The closure of the timer armed for [ephemeralID]. *)
Definition udpTimeout (h : DnsHandler) (ephemeralID : Z) (data : bytes) : go (DnsHandler * list action) :=
  match default ∅ (h_pendingUdpQueries h) !! ephemeralID with
  | None => Ret (h, [])
  | Some pending =>
      ref ← GenerateErrorResponse data DnsRcodeServFail;
      Ret (with_pending h (delete ephemeralID <$> h_pendingUdpQueries h), [Reply (default [] ref) (pq_RemoteAddr pending)])
  end.

Definition handleUdpUpstreamResponse (h : DnsHandler) (now : Z) (msg : bytes) : go (DnsHandler * list action) :=
  if decide (len msg < 2) then Ret (h, [])
  else
    ephemeralID ← get_uint16 msg 0;
    match default ∅ (h_pendingUdpQueries h) !! ephemeralID with
    | None => Ret (h, [])
    | Some pending =>
        let h := with_pending h (delete ephemeralID <$> h_pendingUdpQueries h) in
        let fw := cfg_Firewall (h_cfg h) in
        '(ok, vlogs) ← VerifyDnssecResponse now msg (pq_ExpectedNames pending) fw;
        if negb ok then
          Ret (h, map Log vlogs ++ [Log (CallError (gs "Dropped upstream UDP response: DNSSEC signature validation failed"))])
        else
          responseQuestions ← ExtractQuestions msg;
          if negb (valid0x20 (pq_ExpectedNames pending) responseQuestions) then
            Ret (h, map Log vlogs ++ [Log (CallError (gs "Dropped upstream UDP response: 0x20 bit encoding mismatch (Spoofing Mitigation)"))])
          else
            restoredMsg ← put_uint16 msg 0 (pq_OriginalID pending);
            ips ← ParseResolvedIpv4s restoredMsg;
            let blockedIp := firstBlocked ips fw in
            questions ← ExtractQuestions restoredMsg;
            let clientIp := IPString (ua_IP (pq_RemoteAddr pending)) in
            let isLocal := firstIsLocal (sv_cfg (h_server h)) questions in
            if decide (blockedIp <> []) then
              ref ← GenerateErrorResponse restoredMsg DnsRcodeRefused;
              Ret (h, map Log vlogs ++
                [Log (CallFirewall clientIp blockedIp (gs "DENY") (gs "Upstream target IP blocked"));
                 Log (CallDNS clientIp (logged questions) DnsRcodeRefused false [] isLocal);
                 Reply (default [] ref) (pq_RemoteAddr pending)])
            else
              w ← get_uint16 restoredMsg 2;
              Ret (h, map Log vlogs ++
                [Log (CallDNS clientIp (logged questions) (Z.land w 15) false ips isLocal);
                 Reply restoredMsg (pq_RemoteAddr pending)])
    end.

(** ** TCP *)

(** A message behind its 16-bit length. *)
Definition prefixed (b : bytes) : go bytes :=
  p ← put_uint16 (replicate (2 + length b) 0) 0 (uint16 (len b));
  copy_at p 2 b.

(** What is written to the client, and the log. *)
Definition sendTcpError (query : bytes) (rcode : Z) : go bytes :=
  nx ← GenerateErrorResponse query rcode; prefixed (default [] nx).

(** [exchange] is here the answer of the upstream over TCP, without its length. *)
Definition forwardTcpQuery (h : DnsHandler) (now : Z) (entropy : Z -> Z) (exchange : gostring -> bytes -> option bytes)
    (query : bytes) (clientIp : gostring) : go (bytes * list call) :=
  let fw := cfg_Firewall (h_cfg h) in
  '(encoded, expectedNames) ← Apply0x20Encoding entropy query;
  dnssecQuery ← AppendEdns0DoBit encoded;
  prefixedQuery ← prefixed dnssecQuery;
  let fail rcode logs := (b ← sendTcpError query rcode; Ret (b, logs)) in
  match exchange (upstreamAddr (h_fallbackDns h)) prefixedQuery with
  | None => fail DnsRcodeServFail []
  | Some resp =>
      '(ok, vlogs) ← VerifyDnssecResponse now resp expectedNames fw;
      if negb ok then
        fail DnsRcodeServFail (vlogs ++ [CallError (gs "Dropped upstream TCP response: DNSSEC signature validation failed")])
      else
        responseQuestions ← ExtractQuestions resp;
        if negb (valid0x20 expectedNames responseQuestions) then
          fail DnsRcodeServFail (vlogs ++ [CallError (gs "Dropped upstream TCP response: 0x20 bit encoding mismatch (Spoofing Mitigation)")])
        else
          ips ← ParseResolvedIpv4s resp;
          let blockedIp := firstBlocked ips fw in
          questions ← ExtractQuestions query;
          let isLocal := firstIsLocal (sv_cfg (h_server h)) questions in
          if decide (blockedIp <> []) then
            fail DnsRcodeRefused
              (vlogs ++ [CallFirewall clientIp blockedIp (gs "DENY") (gs "Upstream target IP blocked");
                         CallDNS clientIp (logged questions) DnsRcodeRefused false [] isLocal])
          else
            w ← get_uint16 resp 2;
            let logs := vlogs ++ [CallDNS clientIp (logged questions) (Z.land w 15) false ips isLocal] in
            origID ← get_uint16 query 0;
            resp ← put_uint16 resp 0 origID;
            b ← prefixed resp;
            Ret (b, logs)
  end.

(** The read loop of a connection on the bytes that the client sends before it closes
    or times out; [clock i] are the two cache readings of round [i]. *)
Fixpoint tcpLoop (fuel : nat) (h : DnsHandler) (clock : nat -> Z * Z) (now : Z) (entropy : Z -> Z)
    (exchange : gostring -> bytes -> option bytes) (input : bytes) (clientIp : gostring)
  : go (DnsHandler * list bytes * list call) :=
  match fuel with
  | O => Hang
  | S fuel =>
      if decide (len input < 2) then Ret (h, [], [])
      else
        length ← get_uint16 input 0;
        if decide (length = 0 \/ length > 65535) then Ret (h, [], [])
        else if decide (len input < 2 + length) then Ret (h, [], [])
        else
          query ← slice input 2 (2 + length);
          '(resp, s, logs) ← Resolve crypto_sha256 (h_server h) (clock fuel).1 (clock fuel).2 query clientIp;
          let h := with_server h s in
          match resp with
          | Some resp =>
              if decide (len resp > 0) then
                out ← prefixed resp;
                '(h, outs, logs') ← tcpLoop fuel h clock now entropy exchange (drop (Z.to_nat (2 + length)) input) clientIp;
                Ret (h, out :: outs, logs ++ logs')
              else Ret (h, [], logs)
          | None =>
              if decide (h_fallbackDns h <> []) then
                '(out, logs') ← forwardTcpQuery h now entropy exchange query clientIp;
                Ret (h, [out], logs ++ logs')
              else
                out ← sendTcpError query DnsRcodeNxDomain;
                Ret (h, [out], logs)
          end
  end.

Definition handleTcpConnection (h : DnsHandler) (conn : nat) (limiterNow : Z) (order : list gostring)
    (clock : nat -> Z * Z) (now : Z) (entropy : Z -> Z) (exchange : gostring -> bytes -> option bytes)
    (input : bytes) (clientIp : gostring) : go (DnsHandler * list bytes * list call) :=
  '(limited, h) ← isRateLimited h limiterNow order clientIp;
  if (limited : bool) then Ret (closeConn h conn, [], [])
  else
    '(h, outs, logs) ← tcpLoop (S (length input)) h clock now entropy exchange input clientIp;
    Ret (closeConn h conn, outs, logs).

(** ** DNS over HTTPS *)

Record DohRequest := {
  dr_RemoteIp : gostring;
  dr_Method : gostring;
  dr_Path : gostring;
  dr_DnsParam : gostring;
  dr_ContentType : gostring;
  dr_Body : option bytes; (* [None]: reading fails *)
}.

Inductive doh_result : Type :=
| Status (code : Z)
| Message (b : bytes). (* 200 with the DNS message *)

(** The alphabet of [base64.URLEncoding]. *)
Definition b64_val (c : Z) : option Z :=
  if decide (65 <= c <= 90) then Some (c - 65)
  else if decide (97 <= c <= 122) then Some (c - 71)
  else if decide (48 <= c <= 57) then Some (c + 4)
  else if decide (c = 45) then Some 62
  else if decide (c = 95) then Some 63
  else None.

(** Groups of four characters; the last may be short ([RawURLEncoding]) or is padded
    with [=] ([URLEncoding]); superfluous bits are dropped. *)
Fixpoint b64_quads (padded : bool) (s : gostring) : option bytes :=
  match s with
  | [] => Some []
  | [a; b] =>
      if padded then None
      else x ← b64_val a; y ← b64_val b; Some [x * 4 + y / 16]
  | [a; b; c] =>
      if padded then None
      else x ← b64_val a; y ← b64_val b; z ← b64_val c; Some [x * 4 + y / 16; y mod 16 * 16 + z / 4]
  | a :: b :: c :: d :: rest =>
      x ← b64_val a; y ← b64_val b;
      match b64_val c, b64_val d with
      | Some z, Some w =>
          r ← b64_quads padded rest; Some (x * 4 + y / 16 :: y mod 16 * 16 + z / 4 :: z mod 4 * 64 + w :: r)
      | Some z, None =>
          if decide (padded = true /\ d = 61 /\ rest = []) then Some [x * 4 + y / 16; y mod 16 * 16 + z / 4] else None
      | None, _ =>
          if decide (padded = true /\ c = 61 /\ d = 61 /\ rest = []) then Some [x * 4 + y / 16] else None
      end
  | _ => None
  end.
(** Line breaks are skipped. *)
Definition b64_decode (padded : bool) (s : gostring) : option bytes :=
  b64_quads padded (filter (fun c => c <> 13 /\ c <> 10) s).

(** The query of a request, or the status that refuses it. *)
Definition dohQuery (r : DohRequest) : Z + bytes :=
  if decide (dr_Path r <> gs "/dns-query") then inl 404
  else if decide (dr_Method r = gs "GET") then
    if decide (dr_DnsParam r = []) then inl 400
    else if decide (len (dr_DnsParam r) > 512) then inl 413
    else match b64_decode false (dr_DnsParam r) with
         | Some q => inr q
         | None => match b64_decode true (dr_DnsParam r) with Some q => inr q | None => inl 400 end
         end
  else if decide (dr_Method r = gs "POST") then
    if decide (dr_ContentType r <> gs "application/dns-message") then inl 415
    else match dr_Body r with Some b => inr (take (Z.to_nat 65535) b) | None => inl 400 end
  else inl 405.

Definition handleDohRequest (h : DnsHandler) (limiterNow : Z) (order : list gostring) (t1 t2 now : Z) (entropy : Z -> Z)
    (exchange : gostring -> bytes -> option bytes) (r : DohRequest) : go (doh_result * DnsHandler * list call) :=
  '(limited, h) ← isRateLimited h limiterNow order (dr_RemoteIp r);
  if (limited : bool) then Ret (Status 429, h, [])
  else
    match dohQuery r with
    | inl code => Ret (Status code, h, [])
    | inr query =>
        if decide (len query < 12) then Ret (Status 400, h, [])
        else
          '(resp, h, logs) ← resolveQueryAsync h t1 t2 now entropy exchange query (dr_RemoteIp r);
          Ret (Message (default [] resp), h, logs)
    end.

End Handler.

(** ** What is relayed was checked *)

Lemma sameNames_eq names qs : length names = length qs -> sameNames names qs = true <-> map q_Name qs = names.
Proof.
  revert qs. induction names as [|n names IH]; intros [|q qs] Hl; try done. simpl in *.
  case_decide; [naive_solver|]. rewrite IH by lia. naive_solver.
Qed.

Lemma valid0x20_eq names qs : valid0x20 names qs = true <-> map q_Name qs = names.
Proof.
  unfold valid0x20. rewrite andb_true_iff, bool_decide_eq_true. split.
  - intros [Hl Hs]. apply sameNames_eq; [unfold len in Hl; lia|done].
  - intros <-. split; [unfold len; by rewrite length_map|]. apply sameNames_eq; [by rewrite length_map|done].
Qed.

Lemma IPString_nonempty b : length b = 4%nat \/ length b = 16%nat -> bytes_ok b -> IPString b <> [].
Proof.
  intros [Hl|Hl] Hb E.
  - destruct b as [|x [|y [|z [|w [|]]]]]; try done. rewrite <- dotted_IPString in E. unfold dotted in E.
    apply app_eq_nil in E as [E _]. by apply itoa_nonnil in E.
  - pose proof (ParseIP_IPString b Hl Hb) as H. rewrite E in H. by vm_compute in H.
Qed.

Lemma resolvedLoop_nonempty n resp f ips :
  bytes_ok resp -> resolvedLoop n resp f = Ret ips -> Forall (fun ip => ip <> []) ips.
Proof.
  intros Hb. revert f ips. induction n as [|n IH]; intros f ips H; cbn [resolvedLoop] in H; [by simplify_eq|].
  apply bind_Ret_inv in H as ([nm f1] & _ & H). apply bind_Ret_inv in H as ([t f2] & _ & H).
  apply bind_Ret_inv in H as ([l f3] & _ & H). apply bind_Ret_inv in H as (here & Hh & H).
  apply bind_Ret_inv in H as (rest & Hr & H). simplify_eq. apply Forall_app. split; [|by eapply IH].
  destruct (decide (t = DnsTypeA /\ l = 4)).
  - destruct (decide (Offset f3 + 4 <= len resp)); [|by simplify_eq].
    apply bind_Ret_inv in Hh as (x0 & _ & Hh). apply bind_Ret_inv in Hh as (x1 & _ & Hh).
    apply bind_Ret_inv in Hh as (x2 & _ & Hh). apply bind_Ret_inv in Hh as (x3 & _ & Hh). simplify_eq.
    constructor; [|constructor]. unfold dotted. intros [E _]%app_eq_nil. by apply itoa_nonnil in E.
  - destruct (decide (t = DnsTypeAAAA /\ l = 16)); [|by simplify_eq].
    destruct (decide (Offset f3 + 16 <= len resp)); [|by simplify_eq].
    apply bind_Ret_inv in Hh as (b & Hs & Hh). simplify_eq. constructor; [|constructor].
    unfold slice in Hs. case_decide; [|done]. simplify_eq. apply IPString_nonempty.
    + right. rewrite length_take, length_drop. unfold len in *. lia.
    + by apply Forall_take, Forall_drop.
Qed.

Lemma ParseResolved_nonempty resp ips :
  bytes_ok resp -> ParseResolvedIpv4s resp = Ret ips -> Forall (fun ip => ip <> []) ips.
Proof.
  intros Hb H. unfold ParseResolvedIpv4s in H. case_decide; [by simplify_eq|].
  destruct (resolvedIps resp) as [i| |] eqn:E; simplify_eq; [|constructor]. unfold resolvedIps in E.
  apply bind_Ret_inv in E as ([qd f1] & _ & E). apply bind_Ret_inv in E as ([an f2] & _ & E).
  apply bind_Ret_inv in E as (f3 & _ & E). by eapply resolvedLoop_nonempty.
Qed.

Section Relay.
Context {U : Unicode} {CR : Crypto}.

Lemma firstBlocked_none ips fw :
  Forall (fun ip => ip <> []) ips -> firstBlocked ips fw = [] -> forall ip, ip ∈ ips -> EvaluateIp ip fw = ALLOW.
Proof.
  induction 1 as [|i ips Hi Hs IH]; intros E ip Hin; [by apply elem_of_nil in Hin|].
  cbn [firstBlocked] in E. case_decide as Hd; [done|]. apply elem_of_cons in Hin as [->|Hin]; [|by apply IH].
  by destruct (EvaluateIp i fw).
Qed.

(** The upstream message [msg] may be delivered as [out] for the expected names: it
    passed the DNSSEC rule, it repeats the names with the letter case that was sent,
    and the firewall allows every address found in it.  If [out] is a well-formed
    response, the addresses are those of its A and AAAA answers. *)
Definition relay_ok (now : Z) (fw : option FirewallConfig) (expected : list gostring) (msg out : bytes) : Prop :=
  (exists logs, VerifyDnssecResponse now msg expected fw = Ret (true, logs)) /\
  (exists qs, ExtractQuestions msg = Ret qs /\ map q_Name qs = expected) /\
  (exists ips, ParseResolvedIpv4s out = Ret ips /\ forall ip, ip ∈ ips -> EvaluateIp ip fw = ALLOW) /\
  (forall p, wire_response_ok p -> out = enc_wire_response p ->
     forall r ip, r ∈ wp_answers p -> ip ∈ rr_addresses r -> EvaluateIp ip fw = ALLOW).

(** What becomes of an upstream message. *)
Inductive verdict : Type := Dropped | Blocked | Relayed.

Definition judged (now : Z) (fw : option FirewallConfig) (expected : list gostring) (msg out : bytes) (v : verdict) : Prop :=
  match v with
  | Dropped => (exists logs, VerifyDnssecResponse now msg expected fw = Ret (false, logs)) \/
               (exists qs, ExtractQuestions msg = Ret qs /\ map q_Name qs <> expected)
  | Blocked => exists ips ip, ParseResolvedIpv4s out = Ret ips /\ ip ∈ ips /\ EvaluateIp ip fw = DENY
  | Relayed => relay_ok now fw expected msg out
  end.

Lemma relay_ok_intro now fw expected msg out logs qs ips :
  bytes_ok out ->
  VerifyDnssecResponse now msg expected fw = Ret (true, logs) -> ExtractQuestions msg = Ret qs ->
  valid0x20 expected qs = true -> ParseResolvedIpv4s out = Ret ips -> firstBlocked ips fw = [] ->
  relay_ok now fw expected msg out.
Proof.
  intros Hb Hv Hq H20 Hips Hblk.
  pose proof (firstBlocked_none ips fw (ParseResolved_nonempty out ips Hb Hips) Hblk) as Hall.
  split; [by eexists|]. split; [exists qs; split; [done|by apply valid0x20_eq]|]. split; [by exists ips|].
  intros p Hp -> r ip Hr Hin. apply Hall. rewrite ParseResolvedIpv4s_enc in Hips by done. simplify_eq.
  apply list_elem_of_In, in_flat_map. exists r. split; by apply list_elem_of_In.
Qed.

Lemma firstBlocked_some ips fw : firstBlocked ips fw <> [] -> exists ip, ip ∈ ips /\ EvaluateIp ip fw = DENY.
Proof.
  induction ips as [|i ips IH]; [done|]. cbn [firstBlocked]. case_decide.
  - intros _. exists i. split; [by left|done].
  - intros Hb. destruct (IH Hb) as (ip & ? & ?). exists ip. split; [by right|done].
Qed.

(** The checks that the three transports share return, and decide the verdict. *)
Lemma checks_cases now fw expected msg out :
  bytes_ok msg -> bytes_ok out -> no_short_rsamd5 msg ->
  exists ok vlogs rqs ips, VerifyDnssecResponse now msg expected fw = Ret (ok, vlogs) /\
    ExtractQuestions msg = Ret rqs /\ ParseResolvedIpv4s out = Ret ips /\ (ok = true -> 12 <= len msg) /\
    judged now fw expected msg out
      (if negb ok then Dropped else if negb (valid0x20 expected rqs) then Dropped
       else if decide (firstBlocked ips fw <> []) then Blocked else Relayed).
Proof.
  intros Hm Ho Hks. destruct (VerifyDnssecResponse_returns now msg expected fw Hm Hks) as ([ok vlogs] & Hv).
  destruct (ExtractQuestions_bounds msg Hm) as (rqs & Hq & _). destruct (ParseResolvedIpv4s_total out Ho) as (ips & Hi).
  exists ok, vlogs, rqs, ips. split; [done|]. split; [done|]. split; [done|]. split.
  { intros ->. destruct (decide (len msg < 12)); [|lia]. by rewrite VerifyDnssecResponse_short in Hv. }
  destruct ok; [|left; by eexists]. destruct (valid0x20 expected rqs) eqn:E20.
  - cbn [negb]. case_decide as Hb.
    + destruct (firstBlocked_some ips fw Hb) as (ip & ? & ?). by exists ips, ip.
    + by eapply relay_ok_intro.
  - right. exists rqs. split; [done|]. intros E. apply valid0x20_eq in E. congruence.
Qed.

Lemma put_id_restored msg id : 2 <= len msg -> put_uint16 msg 0 id = Ret (be16 id ++ drop 2 msg).
Proof.
  intros Hl. rewrite <- (take_drop 2 msg) at 1.
  change (take 2 msg ++ drop 2 msg) with ([] ++ take 2 msg ++ drop 2 msg).
  change 0 with (len (@nil Z)). rewrite put_uint16_app; [done|]. rewrite length_take. unfold len in Hl. lia.
Qed.

Lemma restored_ok id msg : bytes_ok msg -> bytes_ok (be16 id ++ drop 2 msg).
Proof. intros. apply Forall_app. split; [apply be16_ok|by apply Forall_drop]. Qed.

(** The questions of a message, and the error response to it (empty when it is
    shorter than a header). *)
Definition questions_of (b : bytes) : list ParsedQuestion :=
  match ExtractQuestions b with Ret qs => qs | _ => [] end.
Definition error_to (query : bytes) (rcode : Z) : bytes :=
  if decide (len query < 12) then [] else enc_response (word query 0) (word query 2) rcode (questions_of query) [].

Lemma ExtractQuestions_of b : bytes_ok b -> ExtractQuestions b = Ret (questions_of b).
Proof. intros Hb. destruct (ExtractQuestions_bounds b Hb) as (qs & E & _). unfold questions_of. by rewrite E. Qed.

Lemma GenerateErrorResponse_to query rcode :
  bytes_ok query -> exists e, GenerateErrorResponse query rcode = Ret e /\ default [] e = error_to query rcode.
Proof.
  intros Hb. unfold error_to. case_decide.
  - unfold GenerateErrorResponse. rewrite decide_True by done. by eexists.
  - rewrite (GenerateErrorResponse_enc query _ (questions_of query)); [by eexists|lia|by apply ExtractQuestions_of].
Qed.

(** The datagrams among the actions. *)
Definition replies (acts : list action) : list (bytes * UDPAddr) :=
  omap (fun a => match a with Reply b to => Some (b, to) | _ => None end) acts.

Lemma replies_logs l acts : replies (map Log l ++ acts) = replies acts.
Proof. induction l; [done|]. by cbn [map app replies omap list_omap]. Qed.

Lemma udp_relay_cases h now msg m :
  bytes_ok msg -> no_short_rsamd5 msg -> h_pendingUdpQueries h = Some m ->
  match m !! word msg 0 with
  | Some p =>
      2 <= len msg ->
      let restored := be16 (pq_OriginalID p) ++ drop 2 msg in
      exists v acts,
        handleUdpUpstreamResponse h now msg = Ret (with_pending h (Some (delete (word msg 0) m)), acts) /\
        judged now (cfg_Firewall (h_cfg h)) (pq_ExpectedNames p) msg restored v /\
        replies acts = match v with
                       | Dropped => []
                       | Blocked => [(error_to restored DnsRcodeRefused, pq_RemoteAddr p)]
                       | Relayed => [(restored, pq_RemoteAddr p)]
                       end
  | None => handleUdpUpstreamResponse h now msg = Ret (h, [])
  end.
Proof.
  intros Hb Hks Em. unfold handleUdpUpstreamResponse. rewrite Em. change (default ∅ (Some m)) with m.
  destruct (m !! word msg 0) as [p|] eqn:Ep.
  2:{ case_decide; [done|]. by rewrite (get_uint16_word msg 0 0), bind_Ret, Ep by lia. }
  intros H2. set (restored := be16 (pq_OriginalID p) ++ drop 2 msg). rewrite decide_False by lia. rewrite (get_uint16_word msg 0 0), bind_Ret, Ep by lia.
  pose proof (restored_ok (pq_OriginalID p) msg Hb) as Hro. fold restored in Hro.
  destruct (checks_cases now (cfg_Firewall (h_cfg h)) (pq_ExpectedNames p) msg restored Hb Hro Hks)
    as (ok & vlogs & rqs & ips & Ev & Eq & Ei & Hl & Hj).
  cbv zeta. cbn [h_cfg with_pending h_server fmap option_fmap option_map]. rewrite Ev, bind_Ret.
  destruct ok; cbn [negb] in *; [|eexists _, _; split; [done|]; split; [apply Hj|by rewrite replies_logs]].
  specialize (Hl eq_refl). rewrite Eq, bind_Ret.
  destruct (valid0x20 _ rqs); cbn [negb] in *; [|eexists _, _; split; [done|]; split; [apply Hj|by rewrite replies_logs]].
  rewrite put_id_restored, bind_Ret by lia. fold restored. rewrite Ei, bind_Ret, (ExtractQuestions_of restored), bind_Ret by done.
  assert (4 <= len restored) by (unfold restored, be16; len_solve).
  destruct (decide (firstBlocked ips _ <> [])).
  - destruct (GenerateErrorResponse_to restored DnsRcodeRefused Hro) as (e & -> & <-). rewrite bind_Ret.
    eexists _, _. split; [done|]. split; [apply Hj|by rewrite replies_logs].
  - rewrite (get_uint16_word restored 2 2), bind_Ret by lia.
    eexists _, _. split; [done|]. split; [apply Hj|by rewrite replies_logs].
Qed.


(** ** TCP and DNS over HTTPS *)

(** A message behind its length, as on a TCP stream. *)
Definition frame (b : bytes) : bytes := be16 (len b) ++ b.

Lemma prefixed_frame b : prefixed b = Ret (frame b).
Proof.
  unfold prefixed, frame. change (replicate (2 + length b) 0) with ([] ++ [0; 0] ++ replicate (length b) 0).
  change 0 with (len (@nil Z)) at 3. rewrite put_uint16_app, bind_Ret by done. rewrite be16_uint16.
  cbn [app]. change 2 with (len (be16 (len b))). apply copy_at_app. by rewrite length_replicate.
Qed.

Lemma sendTcpError_to query rcode : bytes_ok query -> sendTcpError query rcode = Ret (frame (error_to query rcode)).
Proof.
  intros Hb. unfold sendTcpError. destruct (GenerateErrorResponse_to query rcode Hb) as (e & -> & <-).
  rewrite bind_Ret. apply prefixed_frame.
Qed.

(** What the upstream is asked for a query, and the names expected back. *)
Definition upstream_query (entropy : Z -> Z) (query q' : bytes) (expected : list gostring) : Prop :=
  exists encoded, Apply0x20Encoding entropy query = Ret (encoded, expected) /\ case_eq encoded query /\
    AppendEdns0DoBit encoded = Ret q'.

Lemma upstream_query_total entropy query :
  bytes_ok query -> exists encoded expected q', Apply0x20Encoding entropy query = Ret (encoded, expected) /\
    AppendEdns0DoBit encoded = Ret q' /\ upstream_query entropy query q' expected.
Proof.
  intros Hb. destruct (Apply0x20_case entropy query Hb) as (encoded & expected & Ea & Hc & Ho & _).
  eexists encoded, expected, _. split; [done|]. split; [by apply AppendEdns0DoBit_cases|].
  exists encoded. split; [done|]. split; [done|by apply AppendEdns0DoBit_cases].
Qed.

(** The network only hands over bytes, and no message with an RSA/MD5 key of two bytes. *)
Definition benign (exchange : gostring -> bytes -> option bytes) : Prop :=
  forall a q msg, exchange a q = Some msg -> bytes_ok msg /\ no_short_rsamd5 msg.

(** [b] is what the client may get for [query] when the upstream gave [upstream]:
    [relay msg] when the message passes all the checks, and otherwise an error. *)
Definition answer_for (now : Z) (fw : option FirewallConfig) (expected : list gostring) (query : bytes)
    (upstream : option bytes) (relay : bytes -> bytes) (b : bytes) : Prop :=
  match upstream with
  | None => b = error_to query DnsRcodeServFail
  | Some msg => exists v, judged now fw expected msg msg v /\
      b = match v with
          | Dropped => error_to query DnsRcodeServFail
          | Blocked => error_to query DnsRcodeRefused
          | Relayed => relay msg
          end
  end.

Lemma forwardTcpQuery_cases h now entropy exchange query ip :
  bytes_ok query -> 2 <= len query -> benign exchange ->
  exists q' expected b logs, upstream_query entropy query q' expected /\
    forwardTcpQuery h now entropy exchange query ip = Ret (frame b, logs) /\
    answer_for now (cfg_Firewall (h_cfg h)) expected query (exchange (upstreamAddr (h_fallbackDns h)) (frame q'))
      (fun msg => be16 (word query 0) ++ drop 2 msg) b.
Proof.
  intros Hq H2 Hex. destruct (upstream_query_total entropy query Hq) as (encoded & expected & q' & Ea & Ee & Hu).
  exists q', expected. unfold forwardTcpQuery. rewrite Ea, bind_Ret, Ee, bind_Ret, prefixed_frame, bind_Ret. cbv zeta.
  destruct (exchange _ (frame q')) as [msg|] eqn:Em.
  2:{ rewrite sendTcpError_to by done. by eexists _, _. }
  destruct (Hex _ _ _ Em) as [Hm Hks].
  destruct (checks_cases now (cfg_Firewall (h_cfg h)) expected msg msg Hm Hm Hks)
    as (ok & vlogs & rqs & ips & Ev & Eq & Ei & Hl & Hj).
  rewrite Ev, bind_Ret. rewrite !sendTcpError_to by done.
  destruct ok; cbn [negb] in *; [|eexists _, _; split; [done|]; split; [done|]; by exists Dropped].
  specialize (Hl eq_refl). rewrite Eq, bind_Ret.
  destruct (valid0x20 _ rqs); cbn [negb] in *; [|eexists _, _; split; [done|]; split; [done|]; by exists Dropped].
  rewrite Ei, bind_Ret, (ExtractQuestions_of query), bind_Ret by done.
  destruct (decide (firstBlocked ips _ <> [])); [eexists _, _; split; [done|]; split; [done|]; by exists Blocked|].
  rewrite (get_uint16_word msg 2 2), bind_Ret by lia. rewrite (get_uint16_word query 0 0), bind_Ret by lia.
  rewrite put_id_restored, bind_Ret, prefixed_frame, bind_Ret by lia.
  eexists _, _. split; [done|]. split; [done|]. by exists Relayed.
Qed.


Lemma Resolve_returns s l t1 t2 query ip :
  bytes_ok query -> config_ok (sv_cfg s) -> represents (sv_cache s) l ->
  exists r s' calls l', Resolve crypto_sha256 s t1 t2 query ip = Ret (r, s', calls) /\
    sv_cfg s' = sv_cfg s /\ represents (sv_cache s') l'.
Proof.
  intros Hb Hc Hl. pose proof (Resolve_cases crypto_sha256 s l t1 t2 query ip Hb Hc Hl) as H.
  destruct (standard_query query); [destruct H as (qs & _ & r & s' & c & l' & -> & ? & ? & _)|rewrite H]; by eexists _, _, _, _.
Qed.

(** DoH: a query of at least twelve bytes gets exactly one message, whatever the
    upstream does.  It is the local answer when [Resolve] has one; NXDOMAIN when there
    is no upstream; otherwise SERVFAIL, REFUSED or the upstream's message under the same
    checks as for UDP and TCP. *)
Theorem doh_relay_checked h t1 t2 now entropy exchange query ip l :
  bytes_ok query -> 12 <= len query -> benign exchange ->
  config_ok (sv_cfg (h_server h)) -> represents (sv_cache (h_server h)) l ->
  exists local s' calls, Resolve crypto_sha256 (h_server h) t1 t2 query ip = Ret (local, s', calls) /\
  exists h' b logs,
    resolveQueryAsync h t1 t2 now entropy exchange query ip = Ret (Some b, h', logs) /\ h' = with_server h s' /\
    match local with
    | Some resp => b = if decide (len resp > 0) then resp else error_to query DnsRcodeServFail
    | None =>
        if decide (h_fallbackDns h = []) then b = error_to query DnsRcodeNxDomain
        else exists q' expected, upstream_query entropy query q' expected /\
          answer_for now (cfg_Firewall (h_cfg h)) expected query (exchange (upstreamAddr (h_fallbackDns h)) q') (fun msg => msg) b
    end.
Proof.
  intros Hq H12 Hex Hc Hr.
  destruct (Resolve_returns (h_server h) l t1 t2 query ip Hq Hc Hr) as (local & s' & calls & _ & ER & _).
  assert (forall rcode, GenerateErrorResponse query rcode = Ret (Some (error_to query rcode))) as He.
  { intros. unfold error_to. rewrite decide_False by lia. apply GenerateErrorResponse_enc; [lia|by apply ExtractQuestions_of]. }
  exists local, s', calls. split; [done|]. unfold resolveQueryAsync. rewrite ER, bind_Ret. cbv zeta. rewrite !He.
  destruct local as [resp|]; [case_decide; by eexists _, _, _|].
  cbn [h_fallbackDns with_server h_cfg h_server]. case_decide; [by eexists _, _, _|].
  destruct (upstream_query_total entropy query Hq) as (encoded & expected & q' & Ea & Ee & Hu).
  rewrite Ea, bind_Ret, Ee, bind_Ret.
  assert (forall b (logs : list call),
      answer_for now (cfg_Firewall (h_cfg h)) expected query (exchange (upstreamAddr (h_fallbackDns h)) q') (fun msg => msg) b ->
      exists h' b0 logs0, Ret (Some b, with_server h s', logs) = Ret (Some b0, h', logs0) /\ h' = with_server h s' /\
      (exists q'0 expected0, upstream_query entropy query q'0 expected0 /\
        answer_for now (cfg_Firewall (h_cfg h)) expected0 query (exchange (upstreamAddr (h_fallbackDns h)) q'0) (fun msg => msg) b0))
    as Hdone by (intros; eexists _, _, _; split; [done|]; split; [done|]; by exists q', expected).
  destruct (exchange _ q') as [msg|] eqn:Em; [|rewrite bind_Ret; by apply Hdone].
  destruct (Hex _ _ _ Em) as [Hm Hks].
  destruct (checks_cases now (cfg_Firewall (h_cfg h)) expected msg msg Hm Hm Hks)
    as (ok & vlogs & rqs & ips & Ev & Eq & Ei & Hl & Hj).
  rewrite Ev, bind_Ret. destruct ok; cbn [negb] in *; [|rewrite bind_Ret; apply Hdone; by exists Dropped].
  specialize (Hl eq_refl). rewrite Eq, bind_Ret.
  destruct (valid0x20 _ rqs); cbn [negb] in *; [|rewrite bind_Ret; apply Hdone; by exists Dropped].
  rewrite Ei, bind_Ret, (ExtractQuestions_of query), bind_Ret by done.
  destruct (decide (firstBlocked ips _ <> [])); [rewrite bind_Ret; apply Hdone; by exists Blocked|].
  rewrite (get_uint16_word msg 2 2), bind_Ret by lia. apply Hdone. by exists Relayed.
Qed.

(** ** The table of pending UDP forwards *)

Lemma pickId_free {A} (m : gmap Z A) draws :
  (exists id, id ∈ draws /\ m !! id = None) -> exists id, pickId m draws = Ret id /\ id ∈ draws /\ m !! id = None.
Proof.
  induction draws as [|d draws IH]; intros (id & Hin & Hid); [by apply elem_of_nil in Hin|]. cbn [pickId]. case_decide as Hd.
  - apply elem_of_cons in Hin as [->|Hin]; [rewrite Hid in Hd; by destruct Hd|].
    destruct IH as (x & ? & ? & ?); [eauto|]. exists x. split; [done|]. split; [by right|done].
  - exists d. split; [done|]. split; [by left|]. by apply eq_None_not_Some.
Qed.

(** More distinct draws than pending queries: one is free. *)
Lemma free_draw {A} (m : gmap Z A) draws :
  NoDup draws -> Z.of_nat (size m) < len draws -> exists id, id ∈ draws /\ m !! id = None.
Proof.
  intros Hnd Hl. destruct (decide (Forall (fun id => is_Some (m !! id)) draws)) as [H|H].
  2:{ apply not_Forall_Exists in H; [|apply _]. apply Exists_exists in H as (x & Hx & Hn). exists x.
      split; [done|]. by apply eq_None_not_Some. }
  exfalso. assert (list_to_set draws ⊆ dom m) as Hs.
  { intros x Hx. apply elem_of_list_to_set in Hx. rewrite Forall_forall in H. apply elem_of_dom. by apply H. }
  apply subseteq_size in Hs. rewrite size_list_to_set, size_dom in Hs by done. unfold len in Hl. lia.
Qed.

(** The client may use the upstream: a private or loopback address, or one on the allow list. *)
Definition trusted (fw : option FirewallConfig) (clientIp : gostring) : Prop :=
  (exists ip, ParseIP clientIp = Some ip /\ private_address ip) \/ exists f, fw = Some f /\ clientIp ∈ fw_AllowlistIps f.

Definition asks (acts : list action) : list (gostring * bytes) :=
  omap (fun a => match a with AskUpstream to q => Some (to, q) | _ => None end) acts.

(** The timers that are armed, by identifier. *)
Definition timers (acts : list action) : list Z := omap (fun a => match a with ArmTimer id _ => Some id | _ => None end) acts.
Lemma timers_logs l acts : timers (map Log l ++ acts) = timers acts.
Proof. induction l; [done|]. by cbn [map app timers omap list_omap]. Qed.

Lemma asks_logs l acts : asks (map Log l ++ acts) = asks acts.
Proof. induction l; [done|]. by cbn [map app asks omap list_omap]. Qed.

(** A forwarded query: who is recorded under which identifier, and what is sent. *)
Definition forwarded (h : DnsHandler) (m : gmap Z PendingUdpQuery) (entropy : Z -> Z) (draws : list Z)
    (data : bytes) (raddr : UDPAddr) (h' : DnsHandler) (acts : list action) : Prop :=
  exists id p encoded q' timed, trusted (cfg_Firewall (h_cfg h)) (IPString (ua_IP raddr)) /\
    Z.of_nat (size m) < h_maxUdpForwards h /\ id ∈ draws /\ m !! id = None /\
    h' = with_pending h (Some (<[id := p]> m)) /\ pq_RemoteAddr p = raddr /\ pq_OriginalID p = word data 0 /\
    Apply0x20Encoding entropy data = Ret (encoded, pq_ExpectedNames p) /\
    AppendEdns0DoBit (be16 id ++ drop 2 encoded) = Ret q' /\
    acts = [ArmTimer id timed; AskUpstream (upstreamAddr (h_fallbackDns h)) q'] /\ (12 <= len data -> timed = data).

Lemma forwardUdpQuery_cases h m entropy draws resolves data raddr :
  h_pendingUdpQueries h = Some m -> bytes_ok data -> NoDup draws -> h_maxUdpForwards h < len draws ->
  exists h' acts, forwardUdpQuery h entropy draws resolves data raddr = Ret (h', acts) /\
    ((h' = h /\ asks acts = [] /\ replies acts = [] /\ timers acts = []) \/ forwarded h m entropy draws data raddr h' acts).
Proof.
  intros Em Hb Hnd Hdr. unfold forwardUdpQuery. cbv zeta. rewrite Em. change (default ∅ (Some m)) with m.
  case_decide; [eexists _, _; split; [done|by left]|].
  set (c := IPString (ua_IP raddr)).
  destruct (isPrivateIp c || _) eqn:Ht; cbn [negb]; [|eexists _, _; split; [done|by left]].
  assert (trusted (cfg_Firewall (h_cfg h)) c) as Htr.
  { apply orb_true_iff in Ht as [Ht|Ht]; [left; by apply isPrivateIp_spec|right]. destruct (cfg_Firewall (h_cfg h)) as [f|]; [|done].
    exists f. split; [done|]. apply existsb_true in Ht as (x & Hx & E). apply bool_decide_eq_true in E as ->. done. }
  case_decide; [eexists _, _; split; [done|by left]|]. case_decide; [eexists _, _; split; [done|by left]|].
  rewrite (get_uint16_word data 0 0), bind_Ret by lia.
  destruct (pickId_free m draws) as (id & -> & Hin & Hfree); [apply free_draw; [done|lia]|]. rewrite bind_Ret.
  destruct (Apply0x20_case entropy data Hb) as (encoded & expected & Ea & Hc & Ho & _). rewrite Ea, bind_Ret.
  pose proof (case_eq_length _ _ Hc) as Hlen. rewrite put_id_restored, bind_Ret by (unfold len in *; lia).
  rewrite AppendEdns0DoBit_cases, bind_Ret by (by apply restored_ok).
  destruct resolves; cbn [negb]; [|eexists _, _; split; [done|by left]].
  eexists _, _. split; [done|]. right. eexists id, _, encoded, _, _. split; [done|]. split; [lia|]. split; [done|].
  split; [done|]. split; [done|]. split; [done|]. split; [done|]. split; [done|].
  split; [by apply AppendEdns0DoBit_cases, restored_ok|]. split; [done|]. intros. by rewrite decide_False by lia.
Qed.

(** C11: Anti-amplification: a datagram makes the server ask the upstream at most once,
    and only for a client on the allow list or with one of the addresses that
    [private_address] lists: 127/8, 10/8, 172.16/12, 192.168/16, ::1, fe80::/16, fc00::/16
    and fd00::/8, and also fd::/16 and fd0::/12; and only while fewer than the maximal
    number of queries is pending.  The query is sent under an
    identifier that no pending query has, recorded with the client's address and
    identifier and with the names expected back; a query that is not forwarded changes
    nothing and is not answered. *)
Theorem udp_forward_guarded h m entropy draws resolves data raddr :
  h_pendingUdpQueries h = Some m -> bytes_ok data -> NoDup draws -> h_maxUdpForwards h < len draws ->
  exists h' acts, forwardUdpQuery h entropy draws resolves data raddr = Ret (h', acts) /\
    ((h' = h /\ asks acts = [] /\ replies acts = [] /\ timers acts = []) \/ forwarded h m entropy draws data raddr h' acts).
Proof. apply forwardUdpQuery_cases. Qed.

(** *** Runs of the UDP side *)

Inductive udp_event : Type :=
| EvQuery (t1 t2 : Z) (entropy : Z -> Z) (draws : list Z) (resolves : bool) (data : bytes) (raddr : UDPAddr)
| EvTimeout (id : Z) (data : bytes)
| EvUpstream (now : Z) (msg : bytes).

Definition udp_step (h : DnsHandler) (ev : udp_event) : go (DnsHandler * list action) :=
  match ev with
  | EvQuery t1 t2 entropy draws resolves data raddr => handleUdpMessage h t1 t2 entropy draws resolves data raddr
  | EvTimeout id data => udpTimeout h id data
  | EvUpstream now msg => handleUdpUpstreamResponse h now msg
  end.

(** A ledger of the run.  Every query that is passed on gets the next number, and the ledger
    notes whom it came from and the client's identifier; the book says which number is
    pending under which identifier; every datagram that is sent for an upstream datagram or
    a timer is noted with the number that it answers. *)
Record Ledger := { lg_book : gmap Z nat; lg_sent : list (UDPAddr * Z); lg_answered : list (option nat * (bytes * UDPAddr)) }.
Definition settleId (lg : Ledger) (id : Z) (acts : list action) : Ledger :=
  {| lg_book := delete id (lg_book lg); lg_sent := lg_sent lg;
     lg_answered := lg_answered lg ++ map (fun r => (lg_book lg !! id, r)) (replies acts) |}.
Definition ledgerStep (lg : Ledger) (ev : udp_event) (acts : list action) : Ledger :=
  match ev with
  | EvQuery _ _ _ _ _ data raddr =>
      match timers acts with
      | id :: _ => {| lg_book := <[id := length (lg_sent lg)]> (lg_book lg); lg_sent := lg_sent lg ++ [(raddr, word data 0)]; lg_answered := lg_answered lg |}
      | [] => lg
      end
  | EvTimeout id _ => settleId lg id acts
  | EvUpstream _ msg => if decide (2 <= len msg) then settleId lg (word msg 0) acts else
      {| lg_book := lg_book lg; lg_sent := lg_sent lg; lg_answered := lg_answered lg ++ map (fun r => (None, r)) (replies acts) |}
  end.
Fixpoint udp_run (h : DnsHandler) (lg : Ledger) (evs : list udp_event) : go (DnsHandler * Ledger) :=
  match evs with
  | [] => Ret (h, lg)
  | ev :: evs => '(h, acts) ← udp_step h ev; udp_run h (ledgerStep lg ev acts) evs
  end.
Definition emptyLedger : Ledger := {| lg_book := ∅; lg_sent := []; lg_answered := [] |}.

Definition npending (h : DnsHandler) : Z := Z.of_nat (size (default ∅ (h_pendingUdpQueries h))).

(** The events: bytes, enough draws of fresh identifiers, and no datagram with an RSA/MD5
    key of fewer than three bytes. *)
Definition event_ok (max : Z) (ev : udp_event) : Prop :=
  match ev with
  | EvQuery _ _ _ draws _ data _ => bytes_ok data /\ NoDup draws /\ max < len draws
  | EvTimeout _ data => bytes_ok data
  | EvUpstream _ msg => bytes_ok msg /\ no_short_rsamd5 msg
  end.

Definition udp_inv (h : DnsHandler) : Prop :=
  is_Some (h_pendingUdpQueries h) /\ npending h <= h_maxUdpForwards h /\
  config_ok (sv_cfg (h_server h)) /\ exists l, represents (sv_cache (h_server h)) l.

(** Every answer is for a numbered query, goes to the client that it came from, and no
    number is answered twice. *)
Definition answered_once (lg : Ledger) : Prop :=
  NoDup (lg_answered lg).*1 /\
  Forall (fun a => exists k id0, a.1 = Some k /\ lg_sent lg !! k = Some (a.2.2, id0)) (lg_answered lg).
(** The ledger agrees with the table: the book has the pending queries, each under its
    number, and no number that was answered. *)
Record ledger_inv (h : DnsHandler) (lg : Ledger) : Prop := {
  li_once : answered_once lg;
  li_book : forall m id, h_pendingUdpQueries h = Some m -> m !! id = None -> lg_book lg !! id = None;
  li_pending : forall m id p, h_pendingUdpQueries h = Some m -> m !! id = Some p ->
    exists k, lg_book lg !! id = Some k /\ lg_sent lg !! k = Some (pq_RemoteAddr p, pq_OriginalID p);
  li_inj : forall id id' k, lg_book lg !! id = Some k -> lg_book lg !! id' = Some k -> id = id';
  li_open : forall id k, lg_book lg !! id = Some k -> Some k ∉ (lg_answered lg).*1;
}.

(** One event: it returns and keeps the invariants. *)
Definition step_ok (h : DnsHandler) (lg : Ledger) (ev : udp_event) : Prop :=
  exists h' acts, udp_step h ev = Ret (h', acts) /\ udp_inv h' /\ h_maxUdpForwards h' = h_maxUdpForwards h /\ ledger_inv h' (ledgerStep lg ev acts).

Lemma npending_Some h m : h_pendingUdpQueries h = Some m -> npending h = Z.of_nat (size m).
Proof. unfold npending. by intros ->. Qed.

(** Ending a pending query makes room for one reply, to the client of the query. *)
Lemma end_pending h lg m id p acts :
  udp_inv h -> ledger_inv h lg -> h_pendingUdpQueries h = Some m -> m !! id = Some p ->
  (replies acts = [] \/ exists b, replies acts = [(b, pq_RemoteAddr p)]) ->
  udp_inv (with_pending h (Some (delete id m))) /\ ledger_inv (with_pending h (Some (delete id m))) (settleId lg id acts).
Proof.
  intros (_ & Hn & Hc & Hl) [[Hnd Hall] Hbk Hpd Hinj Hop] Em Hp Hr. split.
  - split; [by eexists|]. cbn [h_maxUdpForwards with_pending h_server]. split; [|by split]. rewrite (npending_Some h m Em) in Hn.
    rewrite (npending_Some _ (delete id m)) by done. rewrite map_size_delete_Some by eauto. lia.
  - destruct (Hpd m id p Em Hp) as (k & Hk & Hs). assert (Forall (fun a : option nat * (bytes * UDPAddr) => a.1 = Some k) (map (fun r => (lg_book lg !! id, r)) (replies acts))) as Hnew
      by (rewrite Hk; by apply Forall_map, Forall_true).
    split; cbn [lg_book lg_sent lg_answered settleId h_pendingUdpQueries with_pending].
    + split.
      * cbn. rewrite fmap_app. apply NoDup_app. split; [done|]. rewrite Hk. split.
        -- intros x Hx Hx'. assert (x = Some k) as -> by (destruct Hr as [Hr|[b Hr]]; rewrite Hr in Hx'; cbn in Hx'; set_solver). by apply (Hop id k Hk).
        -- destruct Hr as [-> |[b ->]]; cbn; [apply NoDup_nil_2|apply NoDup_singleton].
      * cbn. apply Forall_app. split; [done|]. rewrite Hk. destruct Hr as [-> |[b ->]]; [constructor|]. apply Forall_singleton. cbn. eauto.
    + intros m' id' [= <-] Hd. cbn. destruct (decide (id' = id)) as [->|Hne]; [by rewrite lookup_delete_eq|]. rewrite lookup_delete_ne by done. apply (Hbk m); [done|].
      by rewrite <- (lookup_delete_ne m id id') by done.
    + intros m' id' p' [= <-] [Hne Hd]%lookup_delete_Some. cbn. rewrite lookup_delete_ne by done. eauto.
    + cbn. intros id1 id2 k' [_ H1]%lookup_delete_Some [_ H2]%lookup_delete_Some. eauto.
    + cbn. intros id' k' [Hne Hk']%lookup_delete_Some. rewrite fmap_app, elem_of_app. intros [Hx|Hx]; [by eapply Hop|].
      rewrite Hk in Hx. assert (k' = k) as -> by (destruct Hr as [Hr|[b Hr]]; rewrite Hr in Hx; cbn in Hx; set_solver). by apply Hne, (Hinj id id' k).
Qed.

(** A reply for an identifier that is not pending does not happen. *)
Lemma nothing_pending h lg m id : ledger_inv h lg -> h_pendingUdpQueries h = Some m -> m !! id = None -> ledger_inv h (settleId lg id []).
Proof.
  intros [[Hnd Hall] Hbk Hpd Hinj Hop] Em Hn. assert (delete id (lg_book lg) = lg_book lg) as E by (apply delete_id; by apply (Hbk m)).
  split; unfold settleId, answered_once; cbn [lg_book lg_sent lg_answered]; rewrite ?E; cbn [map replies omap list_omap]; rewrite ?app_nil_r; done.
Qed.

Lemma timeout_ok h lg id data : udp_inv h -> ledger_inv h lg -> bytes_ok data -> step_ok h lg (EvTimeout id data).
Proof.
  intros Hi Hlg Hb. pose proof Hi as ([m Em] & _). unfold step_ok. cbn [udp_step ledgerStep]. unfold udpTimeout. rewrite Em.
  change (default ∅ (Some m)) with m. destruct (m !! id) as [p|] eqn:Ep.
  - destruct (GenerateErrorResponse_to data DnsRcodeServFail Hb) as (e & -> & _). rewrite bind_Ret.
    cbn [fmap option_fmap option_map]. eexists _, _. split; [done|].
    match goal with |- _ /\ _ /\ ledger_inv _ (settleId _ _ ?a) => destruct (end_pending h lg m id p a Hi Hlg Em Ep) as [H1 H2]; [right; by eexists|] end. done.
  - eexists _, _. split; [done|]. split; [done|]. split; [done|]. by eapply nothing_pending.
Qed.

Lemma upstream_ok h lg now msg : udp_inv h -> ledger_inv h lg -> bytes_ok msg -> no_short_rsamd5 msg -> step_ok h lg (EvUpstream now msg).
Proof.
  intros Hi Hlg Hb Hks. pose proof Hi as ([m Em] & _). unfold step_ok. cbn [udp_step ledgerStep].
  destruct (decide (2 <= len msg)) as [Hl|Hl].
  - pose proof (udp_relay_cases h now msg m Hb Hks Em) as H. destruct (m !! word msg 0) as [p|] eqn:Ep.
    + destruct H as (v & acts & E & _ & Hr); [lia|]. eexists _, acts. split; [exact E|].
      destruct (end_pending h lg m (word msg 0) p acts Hi Hlg Em Ep) as [H1 H2]; [|done]. rewrite Hr. destruct v; eauto.
    + eexists _, _. split; [exact H|]. split; [done|]. split; [done|]. by eapply nothing_pending.
  - eexists h, []. split; [unfold handleUdpUpstreamResponse; by rewrite decide_True by lia|]. split; [done|]. split; [done|].
    cbn [map replies omap list_omap]. rewrite app_nil_r. by destruct lg.
Qed.

(** A query that is passed on gets a number of its own. *)
Lemma sent_ledger h h' lg m id p :
  ledger_inv h lg -> h_pendingUdpQueries h = Some m -> m !! id = None -> h_pendingUdpQueries h' = Some (<[id := p]> m) ->
  ledger_inv h' {| lg_book := <[id := length (lg_sent lg)]> (lg_book lg); lg_sent := lg_sent lg ++ [(pq_RemoteAddr p, pq_OriginalID p)]; lg_answered := lg_answered lg |}.
Proof.
  intros [[Hnd Hall] Hbk Hpd Hinj Hop] Em Hfree Em'.
  assert (forall id0 k, lg_book lg !! id0 = Some k -> (k < length (lg_sent lg))%nat) as Hlt.
  { intros id0 k Hk. destruct (m !! id0) as [p0|] eqn:E0; [|by rewrite (Hbk m id0 Em E0) in Hk]. destruct (Hpd m id0 p0 Em E0) as (k' & Hk' & Hs). simplify_eq.
    by eapply lookup_lt_Some. }
  assert (Some (length (lg_sent lg)) ∉ (lg_answered lg).*1) as Hnew.
  { intros (a & Ha & Hin)%list_elem_of_fmap. rewrite Forall_forall in Hall. destruct (Hall a Hin) as (k & i0 & Hk & Hs). apply lookup_lt_Some in Hs. rewrite Hk in Ha. injection Ha. lia. }
  split; cbn [lg_book lg_sent lg_answered].
  - split; [done|]. eapply Forall_impl; [exact Hall|]. intros a (k & i0 & Hk & Hs). exists k, i0. split; [done|]. cbn. by apply lookup_app_l_Some.
  - intros m' id' Hm Hn. assert (m' = <[id := p]> m) as -> by congruence. apply lookup_insert_None in Hn as [Hn Hne]. rewrite lookup_insert_ne by done. eauto.
  - intros m' id' p' Hm Hl. assert (m' = <[id := p]> m) as -> by congruence. apply lookup_insert_Some in Hl as [[<- <-]|[Hne Hl]].
    + exists (length (lg_sent lg)). rewrite lookup_insert_eq. split; [done|]. by apply list_lookup_middle.
    + rewrite lookup_insert_ne by done. destruct (Hpd m id' p' Em Hl) as (k & Hk & Hs). exists k. split; [done|]. by apply lookup_app_l_Some.
  - intros i1 i2 k [[<- <-]|[Hn1 H1]]%lookup_insert_Some [[<- Hk2]|[Hn2 H2]]%lookup_insert_Some; [done|apply Hlt in H2; lia|subst k; apply Hlt in H1; lia|eauto].
  - intros i k [[<- <-]|[Hn1 H1]]%lookup_insert_Some; [done|eauto].
Qed.

Lemma query_ok h lg t1 t2 entropy draws resolves data raddr :
  udp_inv h -> ledger_inv h lg -> bytes_ok data -> NoDup draws -> h_maxUdpForwards h < len draws ->
  step_ok h lg (EvQuery t1 t2 entropy draws resolves data raddr).
Proof.
  intros ([m Em] & Hn & Hc & l & Hl) Hlg Hb Hnd Hdr. unfold step_ok. cbn [udp_step ledgerStep]. unfold handleUdpMessage.
  set (ip := IPString (ua_IP raddr)).
  destruct (Resolve_returns (h_server h) l t1 t2 data ip Hb Hc Hl) as (r & s' & calls & l' & -> & Ec & Hl').
  rewrite bind_Ret. cbv zeta. set (h1 := with_server h s').
  assert (udp_inv h1) as Hi1 by (split; [by exists m|]; split; [done|]; split; [by rewrite <- Ec in Hc|by exists l']).
  assert (ledger_inv h1 lg) as Hlg1 by (destruct Hlg; by split).
  destruct r as [resp|].
  { eexists _, _. split; [done|]. split; [done|]. split; [done|]. rewrite timers_logs. by case_decide. }
  case_decide.
  - destruct (forwardUdpQuery_cases h1 m entropy draws resolves data raddr Em Hb Hnd Hdr) as (h' & acts & -> & Hcase).
    rewrite bind_Ret. eexists _, _. split; [done|]. rewrite timers_logs.
    destruct Hcase as [(-> & _ & _ & ->)|(id & p & enc & q' & tm & _ & Hsz & _ & Hfree & -> & Hra & Hid & _ & _ & -> & _)]; [done|].
    destruct Hi1 as (_ & _ & Hc1 & Hl1). split; [|split; [done|]].
    + split; [by eexists|]. split; [|done]. rewrite (npending_Some _ (<[id:=p]> m)) by done. rewrite map_size_insert_None by done. cbn [h_maxUdpForwards with_pending]. lia.
    + cbn [timers omap list_omap]. rewrite <- Hra, <- Hid. by eapply (sent_ledger h1).
  - destruct (GenerateErrorResponse_to data DnsRcodeNxDomain Hb) as (e & -> & _). rewrite bind_Ret.
    eexists _, _. split; [done|]. split; [done|]. split; [done|]. rewrite timers_logs. done.
Qed.

Lemma udp_run_inv evs : forall h lg,
  udp_inv h -> ledger_inv h lg -> Forall (event_ok (h_maxUdpForwards h)) evs ->
  exists h' lg', udp_run h lg evs = Ret (h', lg') /\ udp_inv h' /\ h_maxUdpForwards h' = h_maxUdpForwards h /\ ledger_inv h' lg'.
Proof.
  induction evs as [|ev evs IH]; intros h lg Hi Hlg Hev; [by eexists h, lg|].
  apply Forall_cons in Hev as [He Hev]. cbn [udp_run].
  assert (step_ok h lg ev) as (h1 & acts & -> & Hi1 & Em & Hc).
  { destruct ev; simpl in He; [apply query_ok|apply timeout_ok|apply upstream_ok]; tauto. }
  rewrite bind_Ret. destruct (IH h1 (ledgerStep lg ev acts) Hi1 Hc) as (h' & lg' & E & Hi' & Em' & Hlg'); [by rewrite Em|].
  exists h', lg'. split; [done|]. split; [done|]. split; [congruence|done].
Qed.

(** C10: Every sequence of client datagrams, upstream datagrams and timer expirations
    is processed to its end, and the table of pending forwards never exceeds 2000 entries.
    No forwarded query is answered twice: every datagram that is sent for an upstream
    datagram or a timer answers one of the queries passed on, goes to the client that this
    query came from, and no two answer the same one.  (Datagrams consist of bytes, an
    upstream datagram carries no RSA/MD5 key of fewer than three bytes, and more than 2000
    distinct identifiers are drawn for a query.) *)
Theorem udp_table_bounded server cfg evs :
  config_ok (sv_cfg server) -> (exists l, represents (sv_cache server) l) -> Forall (event_ok 2000) evs ->
  exists h' lg, udp_run (NewDnsHandler server cfg) emptyLedger evs = Ret (h', lg) /\
    is_Some (h_pendingUdpQueries h') /\ npending h' <= 2000 /\ NoDup (lg_answered lg).*1 /\
    Forall (fun '(number, (b, to)) => exists k id0, number = Some k /\ lg_sent lg !! k = Some (to, id0)) (lg_answered lg).
Proof.
  intros Hc Hl Hev. destruct (udp_run_inv evs (NewDnsHandler server cfg) emptyLedger) as (h' & lg & E & (Hs & Hn & _) & Em & [[Hnd Hall] _ _ _ _]).
  - split; [by eexists|]. by split.
  - split; cbn; [split; [apply NoDup_nil_2|constructor]|intros; apply lookup_empty|..].
    + intros m id p [= <-] H. by rewrite lookup_empty in H.
    + intros id id' k H. by rewrite lookup_empty in H.
    + intros id k H. by rewrite lookup_empty in H.
  - done.
  - exists h', lg. split; [done|]. split; [done|]. rewrite Em in Hn. split; [done|]. split; [done|].
    eapply Forall_impl; [exact Hall|]. by intros [number [b to]].
Qed.

(** ** A TCP connection *)

Section Connection.
Context (clock : nat -> Z * Z) (now : Z) (entropy : Z -> Z) (exchange : gostring -> bytes -> option bytes) (ip : gostring).
Hypothesis Hex : benign exchange.
(** No upstream answers a query of one byte. *)
Hypothesis Htiny : forall a x, exchange a (frame [x]) = None.

Lemma forwardTcpQuery_frames h query :
  bytes_ok query -> 1 <= len query -> exists b logs, forwardTcpQuery h now entropy exchange query ip = Ret (frame b, logs).
Proof.
  intros Hb Hl. destruct (decide (2 <= len query)).
  { destruct (forwardTcpQuery_cases h now entropy exchange query ip) as (? & ? & b & logs & _ & E & _); [done..|]. by exists b, logs. }
  destruct query as [|x [|]]; [by vm_compute in Hl| |unfold len in *; simpl in *; lia].
  unfold forwardTcpQuery. change (Apply0x20Encoding entropy [x]) with (Ret ([x], @nil gostring)).
  rewrite bind_Ret. change (AppendEdns0DoBit [x]) with (Ret [x]). rewrite bind_Ret, prefixed_frame, bind_Ret. cbv zeta.
  rewrite Htiny, sendTcpError_to by done. by eexists _, _.
Qed.

Lemma tcpLoop_frames fuel : forall h l input,
  (length input < fuel)%nat -> bytes_ok input -> config_ok (sv_cfg (h_server h)) -> represents (sv_cache (h_server h)) l ->
  exists h' bs logs, tcpLoop fuel h clock now entropy exchange input ip = Ret (h', map frame bs, logs) /\ 3 * len bs <= len input.
Proof.
  induction fuel as [|fuel IH]; intros h l input Hf Hb Hc Hl; [lia|]. cbn [tcpLoop].
  pose proof (len_nonneg input) as Hl0.
  case_decide; [by eexists _, [], _|].
  rewrite (get_uint16_word input 0 0), bind_Ret by lia. set (n := word input 0).
  assert (0 <= n < 65536) as Hn by (apply of_be16_range; by apply nth_bytes_ok).
  case_decide; [by eexists _, [], _|]. case_decide; [by eexists _, [], _|].
  rewrite slice_Ret, bind_Ret by lia. set (query := take _ (drop _ input)).
  assert (bytes_ok query) as Hq by (by apply Forall_take, Forall_drop).
  assert (1 <= len query) as Hqn by (unfold query, len in *; rewrite length_take, length_drop; lia).
  destruct (Resolve_returns (h_server h) l (clock fuel).1 (clock fuel).2 query ip Hq Hc Hl) as (r & s' & calls & l' & -> & Ec & Hl').
  rewrite bind_Ret. cbv zeta. destruct r as [resp|].
  - case_decide; [|by eexists _, [], _]. rewrite prefixed_frame, bind_Ret.
    destruct (IH (with_server h s') l' (drop (Z.to_nat (2 + n)) input)) as (h' & bs & logs & -> & Hle);
      [rewrite length_drop; unfold len in *; lia|by apply Forall_drop|by cbn [h_server with_server]; rewrite Ec|done|].
    rewrite bind_Ret. exists h', (resp :: bs), (calls ++ logs). split; [done|].
    unfold len in *. rewrite length_drop in Hle. cbn [length]. lia.
  - cbn [h_fallbackDns with_server]. case_decide.
    + destruct (forwardTcpQuery_frames (with_server h s') query Hq Hqn) as (b & logs & ->). rewrite bind_Ret.
      eexists _, [b], _. split; [done|]. unfold len in *. simpl. lia.
    + rewrite sendTcpError_to, bind_Ret by done. eexists _, [_], _. split; [done|]. unfold len in *. simpl. lia.
Qed.

End Connection.

(** A TCP connection terminates on every byte stream: the loop ends within as many
    rounds as the stream has bytes, without a panic, and writes a sequence of framed
    messages, no more than one for each query read.  (An upstream that answers a query
    of one byte is excluded.) *)
Theorem tcp_connection_total h l clock now entropy exchange input ip :
  bytes_ok input -> benign exchange -> (forall a x, exchange a (frame [x]) = None) ->
  config_ok (sv_cfg (h_server h)) -> represents (sv_cache (h_server h)) l -> h_rateLimiter h = None ->
  forall conn limiterNow order,
  exists h' bs logs,
    handleTcpConnection h conn limiterNow order clock now entropy exchange input ip = Ret (h', map frame bs, logs) /\
    3 * len bs <= len input /\ conn ∉ h_activeTcpConns h'.
Proof.
  intros Hb Hex Htiny Hc Hl Hrl conn limiterNow order. unfold handleTcpConnection, isRateLimited. rewrite Hrl, bind_Ret.
  destruct (tcpLoop_frames clock now entropy exchange ip Hex Htiny (S (length input)) h l input) as (h' & bs & logs & -> & Hle); [lia|done..|].
  rewrite bind_Ret. eexists _, bs, logs. split; [done|]. split; [done|].
  cbn [closeConn with_conns h_activeTcpConns]. set_solver.
Qed.

End Relay.

(** ** The query of a DoH request *)

Definition b64_char (v : Z) : Z :=
  if decide (v < 26) then v + 65 else if decide (v < 52) then v + 71
  else if decide (v < 62) then v - 4 else if decide (v = 62) then 45 else 95.

(** The encodings of RFC 4648, section 5, without and with padding. *)
Fixpoint b64_encode (padded : bool) (b : bytes) : gostring :=
  let pad n := if padded then replicate n 61 else [] in
  match b with
  | [] => []
  | [x] => [b64_char (x / 4); b64_char (x mod 4 * 16)] ++ pad 2%nat
  | [x; y] => [b64_char (x / 4); b64_char (x mod 4 * 16 + y / 16); b64_char (y mod 16 * 4)] ++ pad 1%nat
  | x :: y :: z :: rest =>
      b64_char (x / 4) :: b64_char (x mod 4 * 16 + y / 16) :: b64_char (y mod 16 * 4 + z / 64) :: b64_char (z mod 64)
        :: b64_encode padded rest
  end.

Lemma b64_val_char v : 0 <= v < 64 -> b64_val (b64_char v) = Some v.
Proof. intros. unfold b64_val, b64_char. repeat case_decide; try lia; f_equal; lia. Qed.

Lemma b64_char_visible v : 0 <= v < 64 -> 45 <= b64_char v.
Proof. intros. unfold b64_char. repeat case_decide; lia. Qed.

Lemma bytes_ind3 (P : bytes -> Prop) :
  P [] -> (forall x, P [x]) -> (forall x y, P [x; y]) -> (forall x y z r, P r -> P (x :: y :: z :: r)) -> forall b, P b.
Proof. intros H0 H1 H2 H3. fix IH 1. intros [|x [|y [|z r]]]; [exact H0|exact (H1 x)|exact (H2 x y)|apply H3, IH]. Qed.

Ltac divlia := Z.div_mod_to_equations; lia.

Lemma b64_quads_encode padded b : bytes_ok b -> b64_quads padded (b64_encode padded b) = Some b.
Proof.
  induction b as [|x|x y|x y z r IH] using bytes_ind3; intros Hb; repeat apply Forall_cons in Hb as [? Hb]; unfold is_byte in *; [done| | |].
  - destruct padded; simpl; rewrite !b64_val_char by divlia; simpl; rewrite ?decide_True by done; do 2 f_equal; divlia.
  - destruct padded; simpl; rewrite !b64_val_char by divlia; simpl; rewrite ?decide_True by done; do 2 f_equal; [divlia|f_equal; divlia|divlia|f_equal; divlia].
  - cbn [b64_encode b64_quads]. rewrite !b64_val_char by divlia. rewrite IH by done. simpl. f_equal. f_equal; [divlia|]. f_equal; [divlia|]. f_equal. divlia.
Qed.

Lemma b64_encode_visible padded b : bytes_ok b -> Forall (fun c => c <> 13 /\ c <> 10) (b64_encode padded b).
Proof.
  assert (forall v, 0 <= v < 64 -> b64_char v <> 13 /\ b64_char v <> 10) as Hv
    by (intros v Hv; pose proof (b64_char_visible v Hv); divlia).
  induction b as [|x|x y|x y z r IH] using bytes_ind3; intros Hb; repeat apply Forall_cons in Hb as [? Hb]; unfold is_byte in *; [done| | |].
  - destruct padded; cbn [b64_encode app replicate]; repeat constructor; (done || (apply Hv; divlia)).
  - destruct padded; cbn [b64_encode app replicate]; repeat constructor; (done || (apply Hv; divlia)).
  - cbn [b64_encode]. repeat (constructor; [apply Hv; divlia|]). by apply IH.
Qed.

Lemma b64_decode_encode padded b : bytes_ok b -> b64_decode padded (b64_encode padded b) = Some b.
Proof. intros Hb. unfold b64_decode. rewrite filter_all by (by apply b64_encode_visible). by apply b64_quads_encode. Qed.

(** The unpadded decoder rejects padding, and agrees where there is none. *)
Lemma b64_quads_raw b : bytes_ok b ->
  b64_quads false (b64_encode true b) = None \/ b64_quads false (b64_encode true b) = Some b.
Proof.
  induction b as [|x|x y|x y z r IH] using bytes_ind3; intros Hb; repeat apply Forall_cons in Hb as [? Hb]; unfold is_byte in *; [by right| | |].
  - left. simpl. by rewrite !b64_val_char by divlia.
  - left. simpl. by rewrite !b64_val_char by divlia.
  - cbn [b64_encode b64_quads]. rewrite !b64_val_char by divlia. simpl. destruct (IH Hb) as [-> | ->]; [by left|right].
    simpl. f_equal. f_equal; [divlia|]. f_equal; [divlia|]. f_equal. divlia.
Qed.

Lemma b64_encode_len padded b : len (b64_encode padded b) <= 4 * ((len b + 2) / 3).
Proof.
  induction b as [|x|x y|x y z r IH] using bytes_ind3; [done|by destruct padded|by destruct padded|].
  cbn [b64_encode]. rewrite !len_cons. pose proof (len_nonneg r). divlia.
Qed.

Lemma b64_encode_nonempty padded b : b <> [] -> b64_encode padded b <> [].
Proof. by destruct b as [|x [|y [|z r]]]. Qed.

(** A DNS message of 1 to 384 bytes sent with GET in base64url, with or without
    padding, reaches the resolver unchanged, and so does one of at most 65535 bytes sent
    with POST. *)
Theorem doh_query_roundtrip r b :
  bytes_ok b -> b <> [] -> dr_Path r = gs "/dns-query" ->
  (forall padded, dr_Method r = gs "GET" -> dr_DnsParam r = b64_encode padded b -> len b <= 384 -> dohQuery r = inr b) /\
  (dr_Method r = gs "POST" -> dr_ContentType r = gs "application/dns-message" -> dr_Body r = Some b -> len b <= 65535 ->
   dohQuery r = inr b).
Proof.
  intros Hb Hne Hp. unfold dohQuery. rewrite decide_False by (intros H; by apply H). split.
  - intros padded -> -> Hl. rewrite decide_True by done. rewrite decide_False by (by apply b64_encode_nonempty).
    pose proof (b64_encode_len padded b). rewrite decide_False by divlia. destruct padded.
    + rewrite b64_decode_encode by done. unfold b64_decode. rewrite filter_all by (by apply b64_encode_visible).
      by destruct (b64_quads_raw b Hb) as [-> | ->].
    + by rewrite b64_decode_encode.
  - intros -> -> -> Hl. rewrite decide_False by done. rewrite decide_True by done. rewrite decide_False by (intros H; by apply H).
    f_equal. apply take_ge. unfold len in Hl. lia.
Qed.

Lemma doh_query_roundtrip_witness :
  dohQuery {| dr_RemoteIp := gs "10.0.0.9"; dr_Method := gs "GET"; dr_Path := gs "/dns-query";
              dr_DnsParam := gs "AAkBAA=="; dr_ContentType := []; dr_Body := None |} = inr [0; 9; 1; 0].
Proof.
  apply (proj1 (doh_query_roundtrip {| dr_RemoteIp := gs "10.0.0.9"; dr_Method := gs "GET"; dr_Path := gs "/dns-query";
      dr_DnsParam := gs "AAkBAA=="; dr_ContentType := []; dr_Body := None |} [0; 9; 1; 0]
      ltac:(by apply (bool_decide_eq_true_1 _)) ltac:(discriminate) eq_refl) true); [reflexivity|reflexivity|by vm_compute].
Defined.

(** ** Life cycle and concrete runs *)

(** A handler can be stopped once.  After [Stop] a second [Stop] panics (its channel
    is closed), and so does [UpdateConfig] when there is a rate limiter (it is destroyed
    twice); and a query that would be forwarded panics too, because the table of pending
    queries is nil. *)
Theorem stop_once `{Unicode} `{Crypto} h :
  h_stopped h = false -> (forall rl, h_rateLimiter h = Some rl -> stopped rl = false) ->
  exists h', Stop h = Ret h' /\ Stop h' = Panic /\
    (forall cfg, h_rateLimiter h <> None -> handlerUpdateConfig h' cfg = Panic) /\
    (forall entropy id draws data raddr, isPrivateIp (IPString (ua_IP raddr)) = true -> h_fallbackDns h <> [] ->
       0 < h_maxUdpForwards h -> bytes_ok data -> 2 <= len data ->
       forwardUdpQuery h' entropy (id :: draws) true data raddr = Panic).
Proof.
  intros Hs Hrl. unfold Stop at 1. rewrite Hs.
  assert (exists rl', match h_rateLimiter h with None => Ret None | Some rl => Some <$> Destroy rl end = Ret rl' /\
    (h_rateLimiter h <> None -> exists r, rl' = Some r /\ stopped r = true)) as (rl' & -> & Hst).
  { destruct (h_rateLimiter h) as [rl|]; [|by eexists]. unfold Destroy. rewrite (Hrl rl) by done.
    eexists. split; [done|]. intros _. by eexists. }
  rewrite bind_Ret. eexists. split; [done|]. split; [done|]. split.
  - intros cfg Hne. destruct (Hst Hne) as (r & -> & Hr). unfold handlerUpdateConfig. cbn [h_rateLimiter].
    unfold Destroy. by rewrite Hr.
  - intros entropy id draws data raddr Hp Hf Hm Hb Hl. unfold forwardUdpQuery. cbn [h_fallbackDns h_cfg h_pendingUdpQueries h_maxUdpForwards].
    rewrite decide_False by done. cbv zeta. rewrite Hp. cbn [orb negb]. change (default ∅ None) with (∅ : gmap Z PendingUdpQuery).
    rewrite map_size_empty. rewrite decide_False by lia. rewrite decide_False by lia.
    rewrite (get_uint16_word data 0 0), bind_Ret by lia. cbn [pickId]. rewrite lookup_empty, decide_False by (by intros [? ?]).
    rewrite bind_Ret. destruct (Apply0x20_case entropy data Hb) as (enc & ex & -> & Hc & Ho & _). rewrite bind_Ret.
    pose proof (case_eq_length _ _ Hc). rewrite put_id_restored, bind_Ret by (unfold len in *; lia).
    by rewrite AppendEdns0DoBit_cases, bind_Ret by (by apply restored_ok).
Qed.

Definition demo_handler : DnsHandler := NewDnsHandler (NewDevDnsServer demo_config) demo_config.
Definition demo_client : UDPAddr := {| ua_IP := [10; 0; 0; 9]; ua_Port := 5000 |}.
(** A pending query for [up.test] under identifier 7. *)
Definition demo_pending : PendingUdpQuery :=
  {| pq_RemoteAddr := demo_client; pq_OriginalID := 9; pq_ExpectedNames := [gs "uP.tEsT"];
     pq_OriginalQuery := demo_query (gs "up.test") |}.
Definition demo_waiting : DnsHandler := with_pending demo_handler (Some {[ 7 := demo_pending ]}).
(** The upstream's answer for [name] under identifier [id]. *)
Definition demo_answer (id : Z) (name : gostring) : bytes :=
  be16 id ++ [129; 128; 0; 1; 0; 1; 0; 0; 0; 0] ++ enc_question name 1 1 ++ enc_rr name 1 [1; 2; 3; 4].
(** What is sent upstream for [up.test], in lower case, and an upstream that answers it. *)
Definition demo_asked : bytes :=
  [0; 9; 1; 0; 0; 1; 0; 0; 0; 0; 0; 1] ++ enc_question (gs "up.test") 1 1 ++ opt_record.
Definition demo_upstream (q0 : bytes) (a : gostring) (q : bytes) : option bytes :=
  if decide (q = q0) then Some (demo_answer 9 (gs "up.test")) else None.

Lemma demo_answer_safe id : is_byte id ->
  bytes_ok (demo_answer id (gs "up.test")) /\ no_short_rsamd5 (U := ascii_unicode) (demo_answer id (gs "up.test")) /\
  no_short_rsamd5 (U := ascii_unicode) (demo_answer id (gs "uP.tEsT")).
Proof.
  intros Hid. split; [|split].
  - apply Forall_app. split; [apply be16_ok|]. by apply (bool_decide_eq_true_1 _).
  - intros s Es. vm_compute in Es. injection Es as <-. repeat constructor; by intros [? [? ?]].
  - intros s Es. vm_compute in Es. injection Es as <-. repeat constructor; by intros [? [? ?]].
Qed.

Lemma demo_upstream_benign q0 : benign (U := ascii_unicode) (demo_upstream q0).
Proof.
  intros a q msg. unfold demo_upstream. case_decide; [|done]. intros E. injection E as <-.
  destruct (demo_answer_safe 9) as (? & ? & _); [by vm_compute|]. done.
Qed.



(** The upstream in these runs is really asked, and its answer relayed. *)
Example tcp_demo_relays :
  exists logs, forwardTcpQuery (U := ascii_unicode) (CR := no_crypto) demo_handler 1500 (fun _ => 0) (demo_upstream (frame demo_asked))
    (demo_query (gs "up.test")) (gs "10.0.0.9") = Ret (frame (demo_answer 9 (gs "up.test")), logs).
Proof. eexists. vm_compute. reflexivity. Qed.

Lemma doh_relay_checked_witness :
  exists h' b logs, resolveQueryAsync (U := ascii_unicode) (CR := no_crypto) demo_handler 1 2 1500 (fun _ => 0) (demo_upstream demo_asked)
    (demo_query (gs "up.test")) (gs "10.0.0.9") = Ret (Some b, h', logs).
Proof.
  destruct (doh_relay_checked (U := ascii_unicode) (CR := no_crypto) demo_handler 1 2 1500 (fun _ => 0) (demo_upstream demo_asked)
    (demo_query (gs "up.test")) (gs "10.0.0.9") []) as (local & s' & calls & _ & h' & b & logs & E & _).
  - by apply (bool_decide_eq_true_1 _).
  - by vm_compute.
  - apply demo_upstream_benign.
  - apply demo_config_ok.
  - apply new_represents.
  - exists h', b, logs. exact E.
Defined.

Lemma udp_forward_guarded_witness :
  exists h' acts, forwardUdpQuery (U := ascii_unicode) (with_pending demo_handler (Some ∅)) (fun _ => 0)
      (seqZ 0 2001) true (demo_query (gs "up.test")) demo_client = Ret (h', acts) /\
    (asks acts = [] \/ Z.of_nat (size (∅ : gmap Z PendingUdpQuery)) < 2000).
Proof.
  destruct (udp_forward_guarded (U := ascii_unicode) (with_pending demo_handler (Some ∅)) ∅ (fun _ => 0) (seqZ 0 2001) true
    (demo_query (gs "up.test")) demo_client) as (h' & acts & E & Hc).
  - reflexivity.
  - by apply (bool_decide_eq_true_1 _).
  - apply NoDup_seqZ.
  - unfold len. rewrite length_seqZ. by vm_compute.
  - exists h', acts. split; [exact E|]. destruct Hc as [(_ & Ha & _)|(id & p & enc & q' & tm & _ & Hs & _)]; [by left|by right].
Defined.

(** A query, the answer to it, and its timer, too late. *)
Definition demo_events : list udp_event :=
  [EvQuery 1 2 (fun _ => 0) (seqZ 0 2001) true (demo_query (gs "up.test")) demo_client; EvUpstream 1500 (demo_answer 0 (gs "up.test")); EvTimeout 0 []].
Example demo_ledger :
  match udp_run (U := ascii_unicode) (CR := no_crypto) demo_handler emptyLedger demo_events with
  | Ret (_, lg) => (lg_answered lg).*1 = [Some 0%nat] /\ map (fun a => a.2.2) (lg_answered lg) = [demo_client] /\ length (lg_sent lg) = 1%nat
  | _ => False
  end.
Proof. vm_compute. done. Qed.

Lemma udp_table_bounded_witness :
  exists h' lg, udp_run (U := ascii_unicode) (CR := no_crypto) demo_handler emptyLedger demo_events = Ret (h', lg) /\ npending h' <= 2000 /\ NoDup (lg_answered lg).*1.
Proof.
  destruct (udp_table_bounded (U := ascii_unicode) (CR := no_crypto) (NewDevDnsServer demo_config) demo_config demo_events) as (h' & lg & E & _ & Hn & Ho & _).
  - apply demo_config_ok.
  - exists []. apply new_represents.
  - constructor; [split; [by apply (bool_decide_eq_true_1 _)|split; [apply NoDup_seqZ|unfold len; rewrite length_seqZ; by vm_compute]]|].
    constructor; [|constructor; [constructor|constructor]].
    destruct (demo_answer_safe 0) as (? & ? & _); [by vm_compute|done].
  - exists h', lg. split; [exact E|]. split; [exact Hn|exact Ho].
Defined.

Lemma tcp_connection_total_witness :
  exists h' bs logs, handleTcpConnection (U := ascii_unicode) (CR := no_crypto) demo_handler 3 0 [] (fun _ => (1, 2)) 1500 (fun _ => 0)
    (demo_upstream (frame demo_asked)) (frame (demo_query (gs "ok.test")) ++ frame (demo_query (gs "up.test")) ++ [0]) (gs "10.0.0.9") =
    Ret (h', map frame bs, logs).
Proof.
  destruct (tcp_connection_total (U := ascii_unicode) (CR := no_crypto) demo_handler [] (fun _ => (1, 2)) 1500 (fun _ => 0)
    (demo_upstream (frame demo_asked)) (frame (demo_query (gs "ok.test")) ++ frame (demo_query (gs "up.test")) ++ [0]) (gs "10.0.0.9"))
    with (conn := 3%nat) (limiterNow := 0) (order := @nil gostring) as (h' & bs & logs & E & _).
  - by apply (bool_decide_eq_true_1 _).
  - apply demo_upstream_benign.
  - intros a x. unfold demo_upstream. by rewrite decide_False by (by vm_compute).
  - apply demo_config_ok.
  - apply new_represents.
  - reflexivity.
  - exists h', bs, logs. exact E.
Defined.

Lemma stop_once_witness :
  exists h', Stop demo_handler = Ret h' /\ Stop h' = Panic.
Proof.
  destruct (stop_once (H := ascii_unicode) (H0 := no_crypto) demo_handler eq_refl) as (h' & H1 & H2 & _); [discriminate|].
  by exists h'.
Defined.

(** The firewall is bypassed by a query without the recursion-desired bit: [x.bad]
    is on the block list and refused to a client that asks for recursion, but the same
    query with the bit cleared is sent to the upstream. *)
Theorem norecursion_bypasses_firewall :
  let query rd := [0; 9; rd; 0; 0; 1; 0; 0; 0; 0; 0; 0] ++ enc_question (gs "x.bad") 1 1 in
  let send rd := handleUdpMessage (U := ascii_unicode) (CR := no_crypto) demo_handler 1 2 (fun _ => 0) [7] true (query rd) demo_client in
  EvaluateDomain (U := ascii_unicode) (gs "x.bad") (Some demo_firewall) = DENY /\
  (exists h acts, send 1 = Ret (h, acts) /\ asks acts = [] /\ replies acts = [(error_to (query 1) DnsRcodeRefused, demo_client)]) /\
  (exists h acts, send 0 = Ret (h, acts) /\ replies acts = [] /\
     asks acts = [(gs "9.9.9.9:53", [0; 7; 0; 0; 0; 1; 0; 0; 0; 0; 0; 1] ++ enc_question (gs "x.bad") 1 1 ++ opt_record)]).
Proof.
  split; [vm_compute; reflexivity|].
  split; eexists _, _; split; [vm_compute; reflexivity|vm_compute; by split|vm_compute; reflexivity|vm_compute; by split].
Qed.

(** A TCP query of one byte makes the forwarding goroutine slice past the query when
    the upstream answers with a bare header: the process panics. *)
Theorem tiny_tcp_query_panics :
  forwardTcpQuery (U := ascii_unicode) (CR := no_crypto) demo_handler 1500 (fun _ => 0)
    (fun _ _ => Some [0; 7; 129; 128; 0; 0; 0; 0; 0; 0; 0; 0]) [7] (gs "10.0.0.9") = Panic.
Proof. vm_compute. reflexivity. Qed.
