(* ===== verification/Daemon.v ===== *)
(** * The daemon and the command line ([main.go])

    Starting, stopping and reloading the three services, the choice of the control
    plane's key, the overrides of the command line, and [config set].  Sockets either
    bind or not ([Binds]); the JSON of the configuration file is a tree. *)
From S2P Require Import Prelude GoStrings NetIP Platform JsonText GoText Config Json Wire Firewall Circuit RateLimiter AuditLog Cache Server Secrets HttpProxy Sni Validation ControlPlane Dnssec Query0x20 Handler.

(** ** The daemon *)

(** A handler that was stopped and is still referenced is [Some] of its stopped state. *)
Record OttergateDaemon := {
  zd_cfg : option ServerConfig;
  zd_dnsHandler : option DnsHandler;
  zd_httpHandler : option HttpHandler;
  zd_sniProxy : option SniProxyService;
}.
Definition newDaemon : OttergateDaemon := {| zd_cfg := None; zd_dnsHandler := None; zd_httpHandler := None; zd_sniProxy := None |}.

(** The errors of starting the DNS and the SNI service, and what the start of the DNS
    service logs ([Services] computes them).  The HTTP service binds its port in the
    background: its [Start] has no error. *)
Record Binds := { b_dns : option gostring; b_sni : option gostring; b_dnsLogs : list call }.

(** [secret]: the random bytes of the HTTP proxy's loop secret. *)
Definition daemonStart (zd : OttergateDaemon) (b : Binds) (secret : bytes) (cfg : ServerConfig)
  : go (option gostring * OttergateDaemon * list call) :=
  let dnsHandler := NewDnsHandler (NewDevDnsServer cfg) cfg in
  match b_dns b with
  | Some err =>
      Ret (Some err, {| zd_cfg := Some cfg; zd_dnsHandler := zd_dnsHandler zd; zd_httpHandler := zd_httpHandler zd; zd_sniProxy := zd_sniProxy zd |}, [])
  | None =>
      let httpHandler := NewHttpHandler cfg secret in
      let logs := b_dnsLogs b ++ [CallSystem (gs "DNS Listener actively enforcing Zero-Trust boundaries on port " ++ fmt_d (cfg_Port cfg));
                   CallSystem (gs "HTTP L7 Sandbox Router active on port " ++ fmt_d (default 80 (cfg_HttpPort cfg)))] in
      match b_sni b with
      | Some err =>
          dnsHandler ← Stop dnsHandler;
          httpHandler ← httpStop httpHandler;
          Ret (Some err, {| zd_cfg := Some cfg; zd_dnsHandler := Some dnsHandler; zd_httpHandler := Some httpHandler; zd_sniProxy := zd_sniProxy zd |}, logs)
      | None =>
          Ret (None, {| zd_cfg := Some cfg; zd_dnsHandler := Some dnsHandler; zd_httpHandler := Some httpHandler;
                        zd_sniProxy := Some (NewSniProxyService cfg) |},
               logs ++ [CallSystem (gs "SNI Proxy active on port " ++ fmt_d (default 443 (cfg_HttpsPort cfg)))])
      end
  end.

(** [if x != nil { x.Stop() }] *)
Definition stopIf {A B} (stop : A -> go B) (o : option A) : go unit :=
  match o with None => Ret tt | Some a => _ ← stop a; Ret tt end.

Definition daemonStop (zd : OttergateDaemon) : go (OttergateDaemon * list call) :=
  _ ← stopIf Stop (zd_dnsHandler zd);
  _ ← stopIf httpStop (zd_httpHandler zd);
  _ ← stopIf sniStop (zd_sniProxy zd);
  Ret ({| zd_cfg := zd_cfg zd; zd_dnsHandler := None; zd_httpHandler := None; zd_sniProxy := None |},
       [CallSystem (gs "Subsystems halted. Sockets closed.")]).

(** The subscriber of the control plane; [b1] and [b2]: the two attempts to bind. *)
Definition daemonReload (zd : OttergateDaemon) (b1 b2 : Binds) (secret : bytes) (newCfg : ServerConfig) : go (OttergateDaemon * list call) :=
  let log0 := CallSystem (gs "Applying dynamic configuration update from Control Plane...") in
  let oldCfg := zd_cfg zd in
  '(zd, l1) ← daemonStop zd;
  '(err, zd, l2) ← daemonStart zd b1 secret newCfg;
  match err with
  | None => Ret (zd, log0 :: l1 ++ l2)
  | Some e =>
      let fallback := CallError (gs "Failed to reload daemon with new configuration: " ++ e ++ gs ". Attempting fallback state rollback...") in
      match oldCfg with
      | None => Panic
      | Some oldCfg =>
          '(err, zd, l3) ← daemonStart zd b2 secret oldCfg;
          Ret (zd, log0 :: l1 ++ l2 ++ [fallback] ++ l3 ++
                   match err with
                   | Some e => [CallError (gs "CRITICAL FAILURE: Fallback rollback failed. System is offline: " ++ e)]
                   | None => []
                   end)
      end
  end.

(** All three services run with [cfg]. *)
Definition running (cfg : ServerConfig) (zd : OttergateDaemon) : Prop :=
  zd_cfg zd = Some cfg /\
  (exists h, zd_dnsHandler zd = Some h /\ h_cfg h = cfg /\ h_stopped h = false /\ (forall rl, h_rateLimiter h = Some rl -> stopped rl = false)) /\
  (exists h, zd_httpHandler zd = Some h /\ hh_cfg h = cfg /\ hh_stopped h = false) /\
  (exists s, zd_sniProxy zd = Some s /\ sn_cfg s = cfg /\ sn_stopped s = false).

Lemma newLimiter_running cfg rl : newLimiter cfg = Some rl -> stopped rl = false.
Proof. unfold newLimiter. case_decide; [|done]. intros [= <-]. done. Qed.

Lemma Stop_running h :
  h_stopped h = false -> (forall rl, h_rateLimiter h = Some rl -> stopped rl = false) -> exists h', Stop h = Ret h' /\ h_stopped h' = true.
Proof.
  intros Hs Hrl. unfold Stop. rewrite Hs. destruct (h_rateLimiter h) as [rl|]; simpl; [|eauto].
  unfold Destroy. rewrite (Hrl rl) by done. simpl. eauto.
Qed.

Lemma start_running zd b secret cfg :
  b_dns b = None -> b_sni b = None -> exists zd' l, daemonStart zd b secret cfg = Ret (None, zd', l) /\ running cfg zd'.
Proof.
  intros H1 H2. unfold daemonStart. rewrite H1, H2. eexists _, _. split; [done|]. unfold running. cbn.
  split_and!; [done|..]; eexists; split_and!; try done. intros rl. apply newLimiter_running.
Qed.

Lemma stop_running cfg zd :
  running cfg zd -> daemonStop zd = Ret ({| zd_cfg := Some cfg; zd_dnsHandler := None; zd_httpHandler := None; zd_sniProxy := None |},
    [CallSystem (gs "Subsystems halted. Sockets closed.")]).
Proof.
  intros (Hc & (h & E1 & _ & Hs & Hrl) & (hh & E2 & _ & Hh) & (s & E3 & _ & Hn)). unfold daemonStop. rewrite E1, E2, E3, Hc.
  destruct (Stop_running h Hs Hrl) as (h' & Hst & _). simpl. rewrite Hst. simpl. unfold httpStop. rewrite Hh. simpl. unfold sniStop. by rewrite Hn.
Qed.

(** A start whose SNI port cannot be bound leaves two stopped services behind. *)
Lemma start_sni_fails zd b secret cfg e :
  b_dns b = None -> b_sni b = Some e ->
  exists zd' l h, daemonStart zd b secret cfg = Ret (Some e, zd', l) /\ zd_dnsHandler zd' = Some h /\ h_stopped h = true.
Proof.
  intros H1 H2. unfold daemonStart. rewrite H1, H2.
  destruct (Stop_running (NewDnsHandler (NewDevDnsServer cfg) cfg)) as (h' & Hst & Hs); [done|apply newLimiter_running|].
  rewrite Hst. simpl. eauto 10.
Qed.

Lemma start_returns zd b secret cfg : exists err zd' l, daemonStart zd b secret cfg = Ret (err, zd', l) /\ (err = None <-> b_dns b = None /\ b_sni b = None).
Proof.
  destruct (b_dns b) as [e|] eqn:E1.
  { unfold daemonStart. rewrite E1. eexists _, _, _. split; [done|]. naive_solver. }
  destruct (b_sni b) as [e|] eqn:E2.
  - destruct (start_sni_fails zd b secret cfg e E1 E2) as (zd' & l & h & E & _). eexists _, _, _. split; [done|]. naive_solver.
  - destruct (start_running zd b secret cfg E1 E2) as (zd' & l & E & _). eexists _, _, _. split; [done|]. naive_solver.
Qed.

(** Reloading a running daemon always returns: with the new configuration running if
    its ports can be bound, and otherwise with the old one running if its ports can. *)
Theorem reload_rolls_back cfg zd b1 b2 secret newCfg :
  running cfg zd ->
  exists zd' l, daemonReload zd b1 b2 secret newCfg = Ret (zd', l) /\
    (b_dns b1 = None -> b_sni b1 = None -> running newCfg zd') /\
    (b_dns b1 <> None \/ b_sni b1 <> None -> b_dns b2 = None -> b_sni b2 = None -> running cfg zd').
Proof.
  intros Hr. unfold daemonReload. rewrite (stop_running cfg zd Hr). destruct Hr as (Hc & _). rewrite Hc, bind_Ret. cbn zeta.
  match goal with |- context [daemonStart ?z b1 secret newCfg] => set (z0 := z) end.
  destruct (start_returns z0 b1 secret newCfg) as (err & z1 & l1 & E1 & He). rewrite E1, bind_Ret.
  destruct err as [e|].
  - destruct (start_returns z1 b2 secret cfg) as (err2 & z2 & l2 & E2 & He2). rewrite E2, bind_Ret. eexists _, _. split; [done|].
    split; [intros; naive_solver|]. intros _ H1 H2. destruct (start_running z1 b2 secret cfg H1 H2) as (z & l & E & Hz). congruence.
  - eexists _, _. split; [done|]. destruct He as [He _]. destruct (He eq_refl) as [H1 H2]. split; [|naive_solver].
    intros _ _. destruct (start_running z0 b1 secret newCfg H1 H2) as (z & l & E & Hz). congruence.
Qed.

(** A daemon whose roll-back fails at the SNI port keeps references to services that
    it stopped itself: the next stop, and so every later reload, panics, and the
    daemon stays offline. *)
Theorem failed_rollback_is_final cfg zd b1 b2 secret newCfg :
  running cfg zd -> b_dns b1 = None -> b_sni b1 <> None -> b_dns b2 = None -> b_sni b2 <> None ->
  exists zd' l, daemonReload zd b1 b2 secret newCfg = Ret (zd', l) /\ daemonStop zd' = Panic /\
    forall b3 b4 c, daemonReload zd' b3 b4 secret c = Panic.
Proof.
  intros Hr H1 H2 H3 H4. destruct (b_sni b1) as [e1|] eqn:E1; [|done]. destruct (b_sni b2) as [e2|] eqn:E2; [|done].
  unfold daemonReload. rewrite (stop_running cfg zd Hr). destruct Hr as (Hc & _). rewrite Hc, bind_Ret. cbn zeta.
  match goal with |- context [daemonStart ?z b1 secret newCfg] => destruct (start_sni_fails z b1 secret newCfg e1 H1 E1) as (z1 & l1 & h1 & S1 & _) end.
  rewrite S1, bind_Ret. destruct (start_sni_fails z1 b2 secret cfg e2 H3 E2) as (z2 & l2 & h2 & S2 & D2 & St). rewrite S2, bind_Ret.
  assert (daemonStop z2 = Panic) as Hp by (unfold daemonStop; rewrite D2; simpl; unfold Stop; by rewrite St).
  eexists _, _. split; [done|]. split; [done|]. intros. by rewrite Hp.
Qed.

(** ** [config set] *)

Definition parseValue (value : gostring) : json :=
  if decide (value = gs "true") then JBool true
  else if decide (value = gs "false") then JBool false
  else match Atoi value with Some num => JNum num | None => JStr value end.

(** The loop of [setDeepValue] and its last assignment: the maps on the way are the
    program's own, so that the update in place is an update of the tree. *)
Fixpoint setParts (m : object) (parts : list gostring) (v : json) : object :=
  match parts with
  | [] => m
  | [last] => <[last := v]> m
  | part :: parts =>
      let next := match m !! part with Some (JObj next) => next | _ => ∅ end in
      <[part := JObj (setParts next parts v)]> m
  end.
(** [None] is the nil map, which cannot be assigned to. *)
Definition setDeepValue (m : option object) (path value : gostring) : go object :=
  match m with
  | None => Panic
  | Some m => Ret (setParts m (Split path dot) (parseValue value))
  end.

Section Load.
Context {JL : JsonLib}.

(** [json.Unmarshal] into a nil [map[string]interface{}]: the error and the map, which is
    there in spite of a number out of range. *)
Definition asObject (j : json) : object := match j with JObj m => m | _ => ∅ end.
Definition unmarshalMap (data : bytes) : option gostring * option object :=
  match parseJson data with
  | None => (Some (syntaxError data), None)
  | Some t =>
      match t with
      | TObj _ => (if numbersOk t then None else Some (typeError t), Some (asObject (ofTree t)))
      | TNull => (None, None)
      | _ => (Some (typeError t), None)
      end
  end.

(** [file]: its bytes, if it can be read.  The map is nil for the text [null]. *)
Definition loadConfig (file : option bytes) : gostring + option object :=
  match file with
  | None => inr (Some ∅)
  | Some data =>
      match unmarshalMap data with
      | (Some e, _) => inl e
      | (None, m) => inr m
      end
  end.
End Load.

(** The overrides of [startEngine]; a map that is nil cannot be assigned to. *)
Definition assign (m : option object) (k : gostring) (v : json) : go (option object) :=
  match m with None => Panic | Some m => Ret (Some (<[k := v]> m)) end.
Definition applyOverrides (m : option object) (portOverride cpPortOverride : gostring) : go (option object) :=
  m ← (if decide (portOverride <> []) then
         match Atoi portOverride with Some port => assign m (gs "port") (JNum port) | None => Ret m end
       else Ret m);
  if decide (cpPortOverride <> []) then
    let '(cpMap, present) := match default ∅ m !! gs "controlPlane" with Some (JObj c) => (c, true) | _ => (∅, false) end in
    let cpMap' := match Atoi cpPortOverride with Some port => <[gs "port" := JNum port]> cpMap | None => cpMap end in
    if present then Ret ((fun m => <[gs "controlPlane" := JObj cpMap']> m) <$> m) else assign m (gs "controlPlane") (JObj cpMap')
  else Ret m.

(** Reading a path. *)
Fixpoint getParts (m : object) (parts : list gostring) : option json :=
  match parts with
  | [] => Some (JObj m)
  | [last] => m !! last
  | part :: parts => match m !! part with Some (JObj next) => getParts next parts | _ => None end
  end.

Lemma setParts_cons m p q parts v :
  setParts m (p :: q :: parts) v = <[p := JObj (setParts (match m !! p with Some (JObj next) => next | _ => ∅ end) (q :: parts) v)]> m.
Proof. done. Qed.
Lemma getParts_cons m p q parts :
  getParts m (p :: q :: parts) = match m !! p with Some (JObj next) => getParts next (q :: parts) | _ => None end.
Proof. done. Qed.

Lemma getParts_set m parts v : parts <> [] -> getParts (setParts m parts v) parts = Some v.
Proof.
  revert m. induction parts as [|p [|q parts] IH]; intros m Hp; [done|simpl; by simplify_map_eq|].
  rewrite setParts_cons, getParts_cons, lookup_insert_eq. by apply IH.
Qed.

Lemma getParts_other parts parts' : forall m v,
  ~ parts `prefix_of` parts' -> ~ parts' `prefix_of` parts -> getParts (setParts m parts v) parts' = getParts m parts'.
Proof.
  revert parts'. induction parts as [|p parts IH]; intros parts' m v H1 H2; [by destruct H1; apply prefix_nil|].
  destruct parts' as [|p' parts']; [by destruct H2; apply prefix_nil|].
  destruct (decide (p = p')) as [-> |Hp].
  - destruct parts as [|q parts]; [destruct H1; apply prefix_cons, prefix_nil|].
    destruct parts' as [|q' parts']; [destruct H2; apply prefix_cons, prefix_nil|].
    rewrite setParts_cons, !getParts_cons, lookup_insert_eq, IH.
    + destruct (m !! p') as [[]|]; try done; cbn [getParts]; destruct parts'; by rewrite lookup_empty.
    + intros ?. apply H1. by apply prefix_cons.
    + intros ?. apply H2. by apply prefix_cons.
  - destruct parts; destruct parts'; cbn [setParts getParts]; by rewrite lookup_insert_ne.
Qed.

Lemma setParts_twice m parts v v' : setParts (setParts m parts v) parts v' = setParts m parts v'.
Proof.
  revert m. induction parts as [|p [|q parts] IH]; intros m; [done|simpl; by rewrite insert_insert_eq|].
  rewrite !setParts_cons, lookup_insert_eq, insert_insert_eq. do 2 f_equal. apply IH.
Qed.

(** [config set] stores the parsed value under the dotted path, leaves every path
    that is neither a prefix nor an extension of it alone, and setting a path again
    overrides the first value. *)
Theorem setDeepValue_spec m path value :
  exists m', setDeepValue (Some m) path value = Ret m' /\
    getParts m' (Split path dot) = Some (parseValue value) /\
    (forall path', ~ Split path dot `prefix_of` Split path' dot -> ~ Split path' dot `prefix_of` Split path dot ->
       getParts m' (Split path' dot) = getParts m (Split path' dot)) /\
    forall value', setDeepValue (Some m') path value' = setDeepValue (Some m) path value'.
Proof.
  eexists. split; [done|]. split; [apply getParts_set, Split_nonnil|]. split; [intros; by apply getParts_other|].
  intros. simpl. by rewrite setParts_twice.
Qed.

Section Stored.
Context {JL : JsonLib}.

(** A stored map is loaded as it was. *)
Lemma unmarshalMap_stored (text : bytes) (m : object) :
  storable maxNestingDepth (JObj m) -> parseJson text = Some (treeOf (JObj m)) -> unmarshalMap text = (None, Some m).
Proof. intros [Hc Hn _] Hp. unfold unmarshalMap. rewrite Hp. cbn [treeOf] in Hn |- *. rewrite Hn. unfold canonical in Hc. cbn [treeOf] in Hc. by rewrite Hc. Qed.
Lemma loadConfig_stored (m : object) : storable maxNestingDepth (JObj m) -> loadConfig (Some (indentText (treeOf (JObj m)))) = inr (Some m).
Proof. intros H. unfold loadConfig. erewrite unmarshalMap_stored; [done|done|]. apply parseJson_indent, H. Qed.
(** What is loaded can be stored. *)
Lemma loadConfig_storable (data : bytes) (m : object) : bytes_ok data -> loadConfig (Some data) = inr (Some m) -> storable maxNestingDepth (JObj m).
Proof.
  intros Hb H. unfold loadConfig, unmarshalMap in H. destruct (parseJson data) as [t|] eqn:E; [|done].
  pose proof (storable_ofTree _ _ (parseJson_ok _ _ E Hb)) as Hs. destruct t; try done. destruct (numbersOk _); [|done]. by simplify_eq.
Qed.

Lemma setParts_storable parts : forall (d : nat) (m : object) v,
  storable d (JObj m) -> Forall string_ok parts -> (length parts <= d)%nat -> (forall e, storable e v) -> storable d (JObj (setParts m parts v)).
Proof.
  induction parts as [|p [|q parts] IH]; intros d m v Hm Hp Hl Hv; [done|..]; apply Forall_cons in Hp as [Hp Hps]; destruct d as [|d]; [simpl in Hl; lia| |simpl in Hl; lia|].
  - by apply storable_insert.
  - rewrite setParts_cons. apply storable_insert; [done|done|]. apply IH; [|done|simpl in *; lia|done].
    apply storable_obj in Hm. destruct (m !! p) as [[]|] eqn:E; try (destruct d; [simpl in Hl; lia|apply storable_empty]). by apply (Hm p).
Qed.
Lemma parseValue_storable value : string_ok value -> (forall n, Atoi value = Some n -> exact n) -> forall d, storable d (parseValue value).
Proof.
  intros Hs Hn d. unfold parseValue. case_decide; [apply storable_bool|]. case_decide; [apply storable_bool|].
  destruct (Atoi value); [by apply storable_num, Hn|by apply storable_str].
Qed.
End Stored.

(** A configuration file that holds the text [null] makes [config set] and the port
    override panic: the nil map is assigned to. *)
Theorem null_config_panics {JL : JsonLib} ws path value port :
  Forall (fun c => is_ws c = true) ws -> is_Some (Atoi port) ->
  exists m, loadConfig (Some (gs "null" ++ ws)) = inr m /\ setDeepValue m path value = Panic /\ applyOverrides m port [] = Panic.
Proof.
  intros Hw [n Hn]. exists None. split; [|split; [done|]].
  - unfold loadConfig, unmarshalMap. change (gs "null" ++ ws) with (compactText TNull ++ ws). by rewrite parseJson_raw by (done || (simpl; lia)).
  - unfold applyOverrides. destruct port as [|c port]; [done|]. rewrite decide_True by done. by rewrite Hn.
Qed.

(** ** The control plane's start *)

Section Boot.
Context {AE : Aead}.

(** The key, and whether it was generated: [env] is OTTERGATE_API_KEY, [token] sixteen
    random bytes. *)
Definition chooseApiKey (env : gostring) (token : bytes) (cfg : ServerConfig) : gostring * bool :=
  let apiKey := if decide (env <> []) then env else match cfg_ControlPlane cfg with Some c => cp_ApiKey c | None => [] end in
  if decide (apiKey = []) then (HexEncode token, true) else (apiKey, false).

Definition cpEnabled (cfg : ServerConfig) : bool :=
  match cfg_ControlPlane cfg with Some c => default true (cp_Enabled c) | None => true end.

(** [None] when it is disabled; one subscriber reloads the daemon. *)
Definition bootControlPlane (env : gostring) (token : bytes) (cfg : ServerConfig) (configPath : gostring) : go (option (ControlPlane * bool)) :=
  if cpEnabled cfg then
    let '(apiKey, ephemeral) := chooseApiKey env token cfg in
    blindIndexSaltBytes ← HKDF [] apiKey (gs "blind_index_salt_derivation") 16;
    let cpPort := match cfg_ControlPlane cfg with Some c => if decide (cp_Port c <> 0) then cp_Port c else 8080 | None => 8080 end in
    let socketPath := match cfg_ControlPlane cfg with Some c => cp_SocketPath c | None => [] end in
    let tls := match cfg_ControlPlane cfg with Some c => cp_Tls c | None => None end in
    cp ← NewControlPlane cpPort socketPath apiKey (HexEncode blindIndexSaltBytes) cfg configPath tls;
    Ret (Some (Subscribe cp, ephemeral))
  else Ret None.

Lemma HKDF_returns salt ikm info L : 0 <= L <= 8160 -> exists okm, HKDF salt ikm info L = Ret okm.
Proof.
  intros HL. unfold HKDF. rewrite decide_False by lia. set (s := if decide (len salt = 0) then _ else salt). clearbody s.
  assert (forall f t okm c, len okm + 32 * Z.of_nat f >= L -> exists r, hkdfLoop f (hmac s ikm) info t okm c L = Ret r) as Hl.
  { induction f as [|f IH]; intros t okm c Hf; cbn [hkdfLoop].
    - rewrite decide_False by lia. rewrite slice_Ret by lia. eauto.
    - case_decide; [|rewrite slice_Ret by lia; eauto]. apply IH. rewrite len_app. unfold len at 2. rewrite hmac_length. lia. }
  apply Hl. rewrite len_nil. lia.
Qed.

(** An enabled control plane always comes up with a key that is not empty, and a
    request that carries it (with a device name) passes the key check; the key is
    generated only if neither the environment nor the file has one. *)
Theorem boot_key_accepted env token cfg path :
  cpEnabled cfg = true -> length token = 16%nat ->
  exists cp ephemeral, bootControlPlane env token cfg path = Ret (Some (cp, ephemeral)) /\ cn_apiKey cp <> [] /\ cn_subscribers cp = 1%nat /\
    (ephemeral = true -> env = []) /\
    forall now hd body, HeaderGet (gs "X-Api-Key") hd = cn_apiKey cp -> HeaderGet (gs "X-Device-Id") hd <> [] ->
      authenticate cp now hd false body = (inr (deviceHashOf cp (HeaderGet (gs "X-Device-Id") hd)), cp).
Proof.
  intros He Ht. unfold bootControlPlane. rewrite He. destruct (chooseApiKey env token cfg) as [apiKey eph] eqn:Ek.
  assert (apiKey <> [] /\ (eph = true -> env = [])) as [Hne Heph].
  { unfold chooseApiKey in Ek. destruct (decide (env <> [])).
    - rewrite decide_False in Ek by done. by simplify_eq.
    - case_decide; simplify_eq; split; try done; [|intros _; by apply dec_stable].
      intros E%(f_equal length). rewrite HexEncode_length, Ht in E. done. }
  destruct (HKDF_returns [] apiKey (gs "blind_index_salt_derivation") 16) as [salt Es]; [lia|]. rewrite Es, bind_Ret. cbn zeta.
  unfold NewControlPlane.
  destruct (HKDF_returns (HexEncode salt) [] (gs "api_key_derivation") 32) as [k1 E1]; [lia|]. rewrite E1, bind_Ret.
  destruct (HKDF_returns (HexEncode salt) [] (gs "device_id_derivation") 32) as [k2 E2]; [lia|]. rewrite E2, !bind_Ret.
  eexists _, eph. split; [done|]. split; [done|]. split; [done|]. split; [done|]. intros now hd body Hk Hd.
  unfold authenticate. rewrite Hk. cbn [cn_apiKey cn_expectedApiKeyHash cn_apiKeySecret Subscribe]. rewrite decide_False by done.
  rewrite decide_False by tauto. by rewrite decide_False by done.
Qed.

End Boot.

(** ** Demonstrations *)

Definition demo_binds (ok : bool) : Binds := {| b_dns := None; b_sni := if ok then None else Some (gs "address in use"); b_dnsLogs := [] |}.
Definition demo_daemon : OttergateDaemon :=
  match daemonStart newDaemon (demo_binds true) [1] demo_http_cfg with Ret (_, zd, _) => zd | _ => newDaemon end.
Lemma demo_daemon_running : running demo_http_cfg demo_daemon.
Proof.
  destruct (start_running newDaemon (demo_binds true) [1] demo_http_cfg) as (zd & l & E & Hr); [done..|].
  unfold demo_daemon. by rewrite E.
Qed.

Lemma reload_rolls_back_witness :
  exists zd' l, daemonReload demo_daemon (demo_binds false) (demo_binds true) [1] demo_new = Ret (zd', l) /\ running demo_http_cfg zd'.
Proof.
  destruct (reload_rolls_back demo_http_cfg demo_daemon (demo_binds false) (demo_binds true) [1] demo_new demo_daemon_running)
    as (zd' & l & E & _ & H). exists zd', l. split; [exact E|]. apply H; [right; discriminate|reflexivity|reflexivity].
Defined.

Lemma failed_rollback_is_final_witness :
  exists zd' l, daemonReload demo_daemon (demo_binds false) (demo_binds false) [1] demo_new = Ret (zd', l) /\ daemonStop zd' = Panic.
Proof.
  destruct (failed_rollback_is_final demo_http_cfg demo_daemon (demo_binds false) (demo_binds false) [1] demo_new demo_daemon_running)
    as (zd' & l & E & H & _); [reflexivity|discriminate|reflexivity|discriminate|]. exists zd', l. split; [exact E|exact H].
Defined.

Lemma null_config_panics_witness :
  exists m, loadConfig (JL := no_floats) (Some (gs "null" ++ [10])) = inr m /\ setDeepValue m (gs "port") (gs "53") = Panic.
Proof.
  destruct (null_config_panics (JL := no_floats) [10] (gs "port") (gs "53") (gs "53")) as (m & H1 & H2 & _); [by repeat constructor|by eexists|].
  exists m. split; [exact H1|exact H2].
Defined.

Lemma boot_key_accepted_witness :
  exists cp eph, bootControlPlane (AE := toy_aead) [] (replicate 16 5) demo_http_cfg (gs "/etc/c.json") = Ret (Some (cp, eph)) /\ cn_apiKey cp <> [].
Proof.
  destruct (boot_key_accepted (AE := toy_aead) [] (replicate 16 5) demo_http_cfg (gs "/etc/c.json")) as (cp & eph & H1 & H2 & _); [reflexivity..|].
  exists cp, eph. split; [exact H1|exact H2].
Defined.
