(* ===== verification/Services.v ===== *)
(** * Sockets: the services' starts and the daemon's reloads

    [Start] of the DNS handler ([pkg/dns/handler.go]), of the HTTP and SNI proxies
    ([pkg/proxy]) and of the control plane, the TLS material they load, their accept
    loops and the rate limiter's collector, and the daemon ([main.go]) over a table of
    the sockets that the process holds.  What other processes hold, the files and the
    parsing of certificates are a class of functions. *)
From S2P Require Import Prelude GoStrings NetIP Platform Config Wire Firewall Circuit RateLimiter AuditLog Cache Server Secrets HttpProxy Sni Validation ControlPlane Dnssec Query0x20 Handler Daemon.

(** ** Sockets *)

Inductive proto : Type := UDP | TCP.
Abbreviation sock := (proto * Z)%type.

(** The sockets of the services of one [Start]. *)
Inductive owner : Type := OUdp | OTcp | ODot | ODoh | OHttp | OSni.

#[export] Instance proto_eq_dec : EqDecision proto.
Proof. solve_decision. Defined.
#[export] Instance owner_eq_dec : EqDecision owner.
Proof. solve_decision. Defined.
#[export] Instance owner_countable : Countable owner.
Proof.
  refine (inj_countable' (fun o => match o with OUdp => 0 | OTcp => 1 | ODot => 2 | ODoh => 3 | OHttp => 4 | OSni => 5 end)%nat
    (fun n => match n with 0 => OUdp | 1 => OTcp | 2 => ODot | 3 => ODoh | 4 => OHttp | _ => OSni end)%nat _).
  by intros [].
Defined.

(** Files, certificates and the other users of the machine.  [foreign s]: binding [s]
    fails although this process does not hold it. *)
Class Host := {
  hostReadFile : gostring -> gostring + bytes;
  hostX509KeyPair : bytes -> bytes -> gostring + bytes;
  hostAppendCerts : bytes -> bool;
  foreign : sock -> bool;
  bindError : sock -> gostring;
  ephemeral : Z;
}.

(** The sockets that are bound, and those that a goroutine is about to bind, by the
    number of the [Start] that made them. *)
Abbreviation table := (gmap (nat * owner) sock).
Record Ports := { pt_bound : table; pt_pending : table }.

Section Services.
Context {HO : Host}.

Definition inUse (n : Ports) (s : sock) : bool := bool_decide (map_Exists (fun _ s' => s' = s) (pt_bound n)).
Definition free (n : Ports) (s : sock) : bool := negb (foreign s) && negb (inUse n s) && bool_decide (0 <= s.2 <= 65535).

Definition listen (n : Ports) (k : nat * owner) (s : sock) : gostring + Ports :=
  if free n s then inr {| pt_bound := <[k := s]> (pt_bound n); pt_pending := pt_pending n |} else inl (bindError s).
Definition spawn (n : Ports) (k : nat * owner) (s : sock) : Ports := {| pt_bound := pt_bound n; pt_pending := <[k := s]> (pt_pending n) |}.

(** Closing a server that has not yet bound its socket keeps it from binding. *)
Definition close (n : Ports) (ks : list (nat * owner)) : Ports :=
  {| pt_bound := foldr delete (pt_bound n) ks; pt_pending := foldr delete (pt_pending n) ks |}.

(** The goroutine of a server runs [ListenAndServe]. *)
Definition serve (n : Ports) (k : nat * owner) (fault : gostring) : Ports * list call :=
  match pt_pending n !! k with
  | None => (n, [])
  | Some s =>
      let n' := {| pt_bound := pt_bound n; pt_pending := delete k (pt_pending n) |} in
      match listen n' k s with
      | inr n' => (n', [])
      | inl e => (n', [CallError (fault ++ e)])
      end
  end.

(** ** TLS material *)

Definition resolveTlsMaterial (data : gostring) : gostring + bytes :=
  if Contains data (gs "-----BEGIN") then inr data else hostReadFile data.

(** The part of [tls.Config] that is set; the certificate is read at every handshake. *)
Record tlsServer := { ts_GetCertificate : gostring + bytes; ts_MinVersion : Z; ts_ClientCAs : option bytes; ts_RequireClientCert : bool }.
Definition VersionTLS13 : Z := 772.

Definition getCertificate (tc : TlsConfig) : gostring + bytes :=
  match resolveTlsMaterial (tls_Cert tc) with
  | inl e => inl (gs "failed to read cert: " ++ e)
  | inr certBytes =>
      match resolveTlsMaterial (tls_Key tc) with
      | inl e => inl (gs "failed to read key: " ++ e)
      | inr keyBytes => hostX509KeyPair certBytes keyBytes
      end
  end.

(** There is no error result. *)
Definition loadTlsConfig (tc : TlsConfig) : tlsServer :=
  let clientCAs :=
    if decide (tls_Ca tc <> []) then
      match resolveTlsMaterial (tls_Ca tc) with
      | inl _ => None
      | inr caBytes => if hostAppendCerts caBytes then Some caBytes else None
      end
    else None in
  {| ts_GetCertificate := getCertificate tc; ts_MinVersion := VersionTLS13; ts_ClientCAs := clientCAs;
     ts_RequireClientCert := bool_decide (is_Some clientCAs) |}.

(** ** The DNS handler *)

Definition with_port (h : DnsHandler) (port : Z) : DnsHandler :=
  {| h_server := h_server h; h_cfg := h_cfg h; h_rateLimiter := h_rateLimiter h; h_port := port;
     h_fallbackDns := h_fallbackDns h; h_maxTcpConns := h_maxTcpConns h; h_idleTimeout := h_idleTimeout h;
     h_stopped := h_stopped h; h_activeTcpConns := h_activeTcpConns h; h_pendingUdpQueries := h_pendingUdpQueries h;
     h_maxUdpForwards := h_maxUdpForwards h |}.

Definition startUdp (n : Ports) (g : nat) (h : DnsHandler) : gostring + (DnsHandler * Ports) :=
  let port := if decide (h_port h = 0) then ephemeral else h_port h in
  match listen n (g, OUdp) (UDP, port) with
  | inl e => inl e
  | inr n => inr (if decide (h_port h = 0) then with_port h port else h, n)
  end.
Definition startTcp (n : Ports) (g : nat) (h : DnsHandler) : gostring + Ports := listen n (g, OTcp) (TCP, h_port h).

(** The sockets of the DNS handler and of the HTTP proxy. *)
Definition dnsKeys (g : nat) : list (nat * owner) := [(g, OUdp); (g, OTcp); (g, ODot); (g, ODoh)].
Definition httpKeys (g : nat) : list (nat * owner) := [(g, OHttp)].
Definition sniKeys (g : nat) : list (nat * owner) := [(g, OSni)].

(** [Stop] with its sockets. *)
Definition dnsStop (n : Ports) (g : nat) (h : DnsHandler) : go (DnsHandler * Ports) := h ← Stop h; Ret (h, close n (dnsKeys g)).

Definition dotPort (cfg : ServerConfig) : Z := default 853 (cfg_DotPort cfg).
Definition dohPort (cfg : ServerConfig) : Z := default 8443 (cfg_DohPort cfg).

(** The error, the handler, the sockets and the log. *)
Definition dnsStart (n : Ports) (g : nat) (h : DnsHandler) : go (option gostring * DnsHandler * Ports * list call) :=
  match startUdp n g h with
  | inl e => Ret (Some e, h, n, [])
  | inr (h, n) =>
      match startTcp n g h with
      | inl e => '(h, n) ← dnsStop n g h; Ret (Some e, h, n, [])
      | inr n =>
          match cfg_Tls (h_cfg h) with
          | None => Ret (None, h, n, [])
          | Some tc =>
              match listen n (g, ODot) (TCP, dotPort (h_cfg h)) with
              | inl e => '(h, n) ← dnsStop n g h; Ret (Some e, h, n, [])
              | inr n =>
                  Ret (None, h, spawn n (g, ODoh) (TCP, dohPort (h_cfg h)),
                       [CallSystem (gs "DoT (DNS over TLS) isolated boundary listening on port " ++ fmt_d (dotPort (h_cfg h)));
                        CallSystem (gs "DoH (DNS over HTTPS) isolated boundary listening on port " ++ fmt_d (dohPort (h_cfg h)))])
              end
          end
      end
  end.

(** The accept loop: a connection, or an error, after which it goes on unless the
    handler was stopped; [closed]: connections that ended before. *)
Inductive acceptEvent : Type := Accepted (conn : nat) | AcceptError (stopped : bool) | ConnClosed (conn : nat).
Fixpoint acceptLoop (h : DnsHandler) (evs : list acceptEvent) : DnsHandler * list nat :=
  match evs with
  | [] => (h, [])
  | Accepted conn :: evs =>
      match acceptConn h conn with
      | None => acceptLoop h evs
      | Some h => let '(h, served) := acceptLoop h evs in (h, conn :: served)
      end
  | AcceptError stopped :: evs => if stopped then (h, []) else acceptLoop h evs
  | ConnClosed conn :: evs => acceptLoop (closeConn h conn) evs
  end.

Definition GetPort (h : DnsHandler) : Z := h_port h.

(** The read loop of the UDP socket: a datagram, with what its handling finds, or an
    error. *)
Section UdpLoop.
Context {U : Unicode} {CR : Crypto}.

Record Datagram := {
  dg_limiterNow : Z; dg_order : list gostring; dg_t1 : Z; dg_t2 : Z; dg_entropy : Z -> Z; dg_draws : list Z; dg_resolves : bool;
  dg_data : bytes; dg_from : UDPAddr;
}.
Inductive udpEvent : Type := UdpRead (dg : Datagram) | UdpError (stopped : bool).
Fixpoint udpReadLoop (h : DnsHandler) (evs : list udpEvent) : go (DnsHandler * list action) :=
  match evs with
  | [] => Ret (h, [])
  | UdpError stopped :: evs => if stopped then Ret (h, []) else udpReadLoop h evs
  | UdpRead dg :: evs =>
      '(h, acts) ← udpReceive h (dg_limiterNow dg) (dg_order dg) (dg_t1 dg) (dg_t2 dg) (dg_entropy dg) (dg_draws dg) (dg_resolves dg) (dg_data dg) (dg_from dg);
      '(h, acts') ← udpReadLoop h evs;
      Ret (h, acts ++ acts')
  end.
End UdpLoop.

(** ** The proxies *)

(** The accept loop of the SNI proxy: every connection is registered and handled. *)
Fixpoint sniAcceptLoop (s : SniProxyService) (evs : list acceptEvent) : SniProxyService * list nat :=
  match evs with
  | [] => (s, [])
  | Accepted conn :: evs => let '(s, served) := sniAcceptLoop (sniTrack s conn) evs in (s, conn :: served)
  | AcceptError stopped :: evs => if stopped then (s, []) else sniAcceptLoop s evs
  | ConnClosed conn :: evs => sniAcceptLoop (sniForget s conn) evs
  end.

Definition httpStart (n : Ports) (g : nat) (h : HttpHandler) : Ports := spawn n (g, OHttp) (TCP, hh_port h).
Definition sniStart (n : Ports) (g : nat) (s : SniProxyService) : gostring + Ports := listen n (g, OSni) (TCP, sn_port s).

(** ** The rate limiter's collector *)

(** A ticker with a period that is not positive panics; [None] is the end of the loop by
    [stopChan], [Some now] a tick. *)
Fixpoint gcLoop (rl : RateLimiter) (evs : list (option Z)) : RateLimiter :=
  match evs with
  | [] => rl
  | None :: _ => rl
  | Some now :: evs => gcLoop (garbageCollect rl now) evs
  end.
Definition startGarbageCollector (rl : RateLimiter) (evs : list (option Z)) : go RateLimiter :=
  if decide (window rl * 2 <= 0) then Panic else Ret (gcLoop rl evs).

(** ** The control plane *)

(** [stale]: a file exists at the socket's path; [bind]: the error of [net.Listen]. *)
Inductive cpEffect : Type := CpRemove (path : gostring) | CpListenUnix (path : gostring) | CpListenTcp (addr : gostring) | CpChmod0600 (path : gostring) | CpLog (c : call).
Definition with_tlsActive (cp : ControlPlane) (active : bool) : ControlPlane :=
  {| cn_cfg := cn_cfg cp; cn_port := cn_port cp; cn_socketPath := cn_socketPath cp; cn_apiKey := cn_apiKey cp;
     cn_blindIndexSalt := cn_blindIndexSalt cp; cn_configFilePath := cn_configFilePath cp; cn_tlsCfg := cn_tlsCfg cp;
     cn_subscribers := cn_subscribers cp; cn_seenNonces := cn_seenNonces cp; cn_currentPoWWindow := cn_currentPoWWindow cp;
     cn_expectedApiKeyHash := cn_expectedApiKeyHash cp; cn_apiKeySecret := cn_apiKeySecret cp; cn_deviceSecret := cn_deviceSecret cp;
     cn_tlsActive := active; cn_stopped := cn_stopped cp |}.
(** The error, the control plane, what was done, and the TLS wrapper of the listener. *)
Definition cpStart (cp : ControlPlane) (stale : bool) (bind : option gostring)
  : option gostring * ControlPlane * list cpEffect * option tlsServer :=
  let tlsConfig := loadTlsConfig <$> cn_tlsCfg cp in
  let cp := with_tlsActive cp (bool_decide (is_Some tlsConfig)) in
  if decide (cn_socketPath cp <> []) then
    let removed := if stale then [CpRemove (cn_socketPath cp)] else [] in
    match bind with
    | Some e => (Some e, cp, removed ++ [CpListenUnix (cn_socketPath cp)], None)
    | None =>
        (None, cp, removed ++ [CpListenUnix (cn_socketPath cp); CpChmod0600 (cn_socketPath cp);
           CpLog (CallSystem (gs "Control Plane locked strictly to Unix Domain Socket at " ++ cn_socketPath cp))], tlsConfig)
    end
  else
    let addr := gs "0.0.0.0:" ++ fmt_d (cn_port cp) in
    match bind with
    | Some e => (Some e, cp, [CpListenTcp addr], None)
    | None =>
        let protocol := match tlsConfig with Some _ => gs "HTTPS/mTLS" | None => gs "HTTP" end in
        (None, cp, [CpListenTcp addr;
           CpLog (CallSystem (gs "Control Plane active using " ++ protocol ++ gs " on port " ++ fmt_d (cn_port cp)))], tlsConfig)
    end.

(** ** The daemon *)

(** The daemon, the sockets of the process, and the [Start]s whose services the daemon
    refers to. *)
Record World := { w_zd : OttergateDaemon; w_net : Ports; w_next : nat; w_dns : option nat; w_http : option nat; w_sni : option nat }.

(** [early]: the goroutine of the HTTP server binds before the SNI proxy does. *)
Definition netStart (w : World) (early : bool) (secret : bytes) (cfg : ServerConfig) : go (option gostring * World * list call) :=
  let g := w_next w in
  '(errDns, _, n, dnsLogs) ← dnsStart (w_net w) g (NewDnsHandler (NewDevDnsServer cfg) cfg);
  match errDns with
  | Some e =>
      '(err, zd, logs) ← daemonStart (w_zd w) {| b_dns := Some e; b_sni := None; b_dnsLogs := dnsLogs |} secret cfg;
      Ret (err, {| w_zd := zd; w_net := n; w_next := S g; w_dns := w_dns w; w_http := w_http w; w_sni := w_sni w |}, logs)
  | None =>
      let n := httpStart n g (NewHttpHandler cfg secret) in
      let '(n, faults) := if early then serve n (g, OHttp) (gs "HTTP Proxy server execution fault: ") else (n, []) in
      match sniStart n g (NewSniProxyService cfg) with
      | inl e =>
          '(err, zd, logs) ← daemonStart (w_zd w) {| b_dns := None; b_sni := Some e; b_dnsLogs := dnsLogs |} secret cfg;
          Ret (err, {| w_zd := zd; w_net := close n (dnsKeys g ++ httpKeys g); w_next := S g; w_dns := Some g; w_http := Some g; w_sni := w_sni w |}, logs ++ faults)
      | inr n =>
          '(err, zd, logs) ← daemonStart (w_zd w) {| b_dns := None; b_sni := None; b_dnsLogs := dnsLogs |} secret cfg;
          Ret (err, {| w_zd := zd; w_net := n; w_next := S g; w_dns := Some g; w_http := Some g; w_sni := Some g |}, logs ++ faults)
      end
  end.

Definition netStop (w : World) : go (World * list call) :=
  '(zd, logs) ← daemonStop (w_zd w);
  let keys := from_option dnsKeys [] (w_dns w) ++ from_option httpKeys [] (w_http w) ++ from_option sniKeys [] (w_sni w) in
  Ret ({| w_zd := zd; w_net := close (w_net w) keys; w_next := w_next w; w_dns := None; w_http := None; w_sni := None |}, logs).

(** The subscriber. *)
Definition netReload (w : World) (early1 early2 : bool) (secret : bytes) (newCfg : ServerConfig) : go World :=
  let oldCfg := zd_cfg (w_zd w) in
  '(w, _) ← netStop w;
  '(err, w, _) ← netStart w early1 secret newCfg;
  match err with
  | None => Ret w
  | Some _ =>
      match oldCfg with
      | None => Panic
      | Some oldCfg => '(_, w, _) ← netStart w early2 secret oldCfg; Ret w
      end
  end.

(** The goroutines of the servers, at any time. *)
Definition background (w : World) (k : nat * owner) : World :=
  {| w_zd := w_zd w; w_net := fst (serve (w_net w) k []); w_next := w_next w; w_dns := w_dns w; w_http := w_http w; w_sni := w_sni w |}.

End Services.

(** ** The socket table *)

Definition noPorts : Ports := {| pt_bound := ∅; pt_pending := ∅ |}.

(** Every socket, bound or about to be, is one of [ks]. *)
Definition confined (ks : list (nat * owner)) (n : Ports) : Prop :=
  (forall k, is_Some (pt_bound n !! k) -> k ∈ ks) /\ (forall k, is_Some (pt_pending n !! k) -> k ∈ ks).

Lemma lookup_deletes {A} (m : gmap (nat * owner) A) ks k : foldr delete m ks !! k = if decide (k ∈ ks) then None else m !! k.
Proof.
  induction ks as [|k' ks IH]; cbn [foldr]; [by rewrite decide_False by apply not_elem_of_nil|].
  destruct (decide (k = k')) as [->|Hn]; [rewrite lookup_delete_eq, decide_True; [done|left]|]. rewrite lookup_delete_ne by done. rewrite IH.
  repeat case_decide; try done; exfalso; set_solver.
Qed.

Lemma close_confined ks ks' n : confined ks n -> (forall k, k ∈ ks -> k ∈ ks') -> close n ks' = noPorts.
Proof.
  intros [H1 H2] Hsub. unfold close, noPorts. f_equal; apply map_eq; intros k; rewrite lookup_deletes, lookup_empty; case_decide as Hk; try done.
  - destruct (pt_bound n !! k) eqn:E; [|done]. exfalso. apply Hk, Hsub, H1. by rewrite E.
  - destruct (pt_pending n !! k) eqn:E; [|done]. exfalso. apply Hk, Hsub, H2. by rewrite E.
Qed.

Lemma confined_empty ks : confined ks noPorts.
Proof. split; intros k [s Hk]; cbn in Hk; by rewrite lookup_empty in Hk. Qed.

Lemma confined_nil n : confined [] n -> n = noPorts.
Proof. intros H. rewrite <- (close_confined [] [] n H ltac:(done)). by destruct n. Qed.

Lemma confined_weaken ks ks' n : confined ks n -> (forall k, k ∈ ks -> k ∈ ks') -> confined ks' n.
Proof. intros [H1 H2] Hs. split; auto. Qed.

Lemma insert_confined (ks : list (nat * owner)) (m : table) k s :
  (forall k', is_Some (m !! k') -> k' ∈ ks) -> k ∈ ks -> forall k', is_Some (<[k := s]> m !! k') -> k' ∈ ks.
Proof. intros Hm Hk k'. destruct (decide (k = k')) as [<-|]; [done|]. rewrite lookup_insert_ne by done. apply Hm. Qed.

Section Facts.
Context {HO : Host}.

Lemma listen_inr n k s n' : listen n k s = inr n' -> n' = {| pt_bound := <[k := s]> (pt_bound n); pt_pending := pt_pending n |}.
Proof. unfold listen. destruct (free n s); congruence. Qed.

Lemma listen_confined ks n k s n' : listen n k s = inr n' -> confined ks n -> k ∈ ks -> confined ks n'.
Proof. intros ->%listen_inr [H1 H2] Hk. split; cbn; [by apply insert_confined|done]. Qed.

Lemma spawn_confined ks n k s : confined ks n -> k ∈ ks -> confined ks (spawn n k s).
Proof. intros [H1 H2] Hk. split; cbn; [done|by apply insert_confined]. Qed.

(** The sockets apart from [k] that a server's goroutine leaves as they are. *)
Lemma serve_spec n k fault n' l :
  serve n k fault = (n', l) ->
  (forall ks, confined ks n -> confined ks n') /\
  (forall k' s, pt_bound n !! k' = Some s -> k' <> k -> pt_bound n' !! k' = Some s) /\
  (forall k' s, pt_bound n' !! k' = Some s -> pt_bound n !! k' = Some s \/ pt_pending n !! k = Some s).
Proof.
  unfold serve. destruct (pt_pending n !! k) as [s|] eqn:E; [|intros [= <- <-]; naive_solver].
  set (n0 := {| pt_bound := pt_bound n; pt_pending := delete k (pt_pending n) |}).
  assert (forall ks, confined ks n -> confined ks n0) as H0.
  { intros ks [H1 H2]. split; [done|]. intros k'. cbn. intros [x Hx]. apply lookup_delete_Some in Hx as [_ Hx]. apply H2. by rewrite Hx. }
  destruct (listen n0 k s) as [e|n1] eqn:El; intros [= <- <-]; [naive_solver|]. split; [|split].
  - intros ks Hks. eapply listen_confined; [done|auto|]. destruct Hks as [_ H2]. apply H2. by rewrite E.
  - intros k' s' Hk' Hne. apply listen_inr in El as ->. cbn. by rewrite lookup_insert_ne.
  - intros k' s' Hk'. apply listen_inr in El as ->. cbn in Hk'. apply lookup_insert_Some in Hk' as [[_ <-]|[_ ?]]; auto.
Qed.

Lemma listen_free n k s :
  foreign s = false -> 0 <= s.2 <= 65535 -> (forall k' s', pt_bound n !! k' = Some s' -> s' <> s) ->
  listen n k s = inr {| pt_bound := <[k := s]> (pt_bound n); pt_pending := pt_pending n |}.
Proof.
  intros Hf Hr Hu. unfold listen, free. rewrite Hf, (bool_decide_true (0 <= s.2 <= 65535)) by done. unfold inUse.
  rewrite bool_decide_false; [done|]. intros (k' & s' & Hk' & ->). by eapply Hu.
Qed.

(** ** Starting the DNS handler *)

Definition healthy (h : DnsHandler) : Prop := h_stopped h = false /\ (forall rl, h_rateLimiter h = Some rl -> stopped rl = false).

Lemma healthy_new cfg : healthy (NewDnsHandler (NewDevDnsServer cfg) cfg).
Proof. split; [done|]. apply newLimiter_running. Qed.

Lemma dnsStop_closes n g h : healthy h -> confined (dnsKeys g) n -> exists h', dnsStop n g h = Ret (h', noPorts).
Proof.
  intros [H1 H2] Hn. unfold dnsStop. destruct (Stop_running h H1 H2) as (h' & -> & _). rewrite bind_Ret. exists h'. by erewrite close_confined.
Qed.

Lemma in_dnsKeys g o : o = OUdp \/ o = OTcp \/ o = ODot \/ o = ODoh -> (g, o) ∈ dnsKeys g.
Proof. unfold dnsKeys. intros [-> |[-> |[-> | ->]]]; set_solver. Qed.

(** The sockets of a handler that has started: the DNS port is bound twice, and with TLS
    the port of DNS over TLS. *)
Definition dnsHolds (cfg : ServerConfig) (g : nat) (n : Ports) : Prop :=
  exists port, (cfg_Port cfg <> 0 -> port = cfg_Port cfg) /\ pt_bound n !! (g, OUdp) = Some (UDP, port) /\ pt_bound n !! (g, OTcp) = Some (TCP, port) /\
    (cfg_Tls cfg <> None -> pt_bound n !! (g, ODot) = Some (TCP, dotPort cfg)).

Ltac table_lookup := intros; cbn; rewrite ?lookup_insert_ne by done; by rewrite lookup_insert_eq.

(** A start from nothing either holds its sockets or holds nothing. *)
Lemma dnsStart_spec g cfg :
  exists err h n logs, dnsStart noPorts g (NewDnsHandler (NewDevDnsServer cfg) cfg) = Ret (err, h, n, logs) /\
    match err with
    | Some _ => n = noPorts
    | None => confined (dnsKeys g) n /\ dnsHolds cfg g n
    end.
Proof.
  pose proof (healthy_new cfg) as Hh. set (h := NewDnsHandler (NewDevDnsServer cfg) cfg) in *. unfold dnsStart, startUdp, startTcp.
  set (port := if decide (h_port h = 0) then ephemeral else h_port h). set (h1 := if decide (h_port h = 0) then with_port h port else h).
  assert (healthy h1 /\ h_port h1 = port /\ h_cfg h1 = cfg /\ (cfg_Port cfg <> 0 -> port = cfg_Port cfg)) as (Hh1 & Hp & Hc & Hport).
  { unfold h1, port. case_decide as Hz; [|done]. repeat split; try apply Hh. by change (cfg_Port cfg) with (h_port h). }
  clearbody h1 port. destruct (listen noPorts (g, OUdp) (UDP, port)) as [e|n1] eqn:E1; [by eexists _, _, _, _|].
  pose proof (listen_confined (dnsKeys g) _ _ _ _ E1 (confined_empty _) ltac:(apply in_dnsKeys; auto)) as C1. rewrite Hp, Hc.
  destruct (listen n1 (g, OTcp) (TCP, port)) as [e|n2] eqn:E2.
  { destruct (dnsStop_closes n1 g h1 Hh1 C1) as [h' ->]. rewrite bind_Ret. by eexists _, _, _, _. }
  pose proof (listen_confined (dnsKeys g) _ _ _ _ E2 C1 ltac:(apply in_dnsKeys; auto)) as C2.
  apply listen_inr in E1, E2. destruct (cfg_Tls cfg) as [tc|] eqn:Et.
  - destruct (listen n2 (g, ODot) (TCP, dotPort cfg)) as [e|n3] eqn:E3.
    { destruct (dnsStop_closes n2 g h1 Hh1 C2) as [h' ->]. rewrite bind_Ret. by eexists _, _, _, _. }
    pose proof (listen_confined (dnsKeys g) _ _ _ _ E3 C2 ltac:(apply in_dnsKeys; auto)) as C3. apply listen_inr in E3. subst n1 n2 n3.
    eexists _, _, _, _. split; [done|]. split; [apply spawn_confined; [done|apply in_dnsKeys; auto]|]. exists port. repeat split; [done|table_lookup..].
  - subst n1 n2. eexists _, _, _, _. split; [done|]. split; [done|]. exists port. repeat split; [done|table_lookup..|done].
Qed.

(** ** Starting the daemon *)

Definition allKeys (g : nat) : list (nat * owner) := dnsKeys g ++ httpKeys g ++ sniKeys g.

(** The daemon runs [cfg] and holds the sockets that a start binds before it returns: those of
    DNS, of DNS over TLS and of the SNI proxy.  The HTTP and DNS-over-HTTPS servers bind in
    the background: see [online]. *)
Definition serving (cfg : ServerConfig) (w : World) : Prop :=
  running cfg (w_zd w) /\ exists g, w_dns w = Some g /\ w_http w = Some g /\ w_sni w = Some g /\ confined (allKeys g) (w_net w) /\
    dnsHolds cfg g (w_net w) /\ pt_bound (w_net w) !! (g, OSni) = Some (TCP, default 443 (cfg_HttpsPort cfg)).

Lemma dnsHolds_mono cfg g n n' :
  (forall k s, pt_bound n !! k = Some s -> k <> (g, OHttp) -> pt_bound n' !! k = Some s) -> dnsHolds cfg g n -> dnsHolds cfg g n'.
Proof. intros Hm (port & Hp & H1 & H2 & H3). exists port. repeat split; [done|by apply Hm..|]. intros Ht. apply Hm; [auto|done]. Qed.

Lemma allKeys_dns g k : k ∈ dnsKeys g -> k ∈ allKeys g.
Proof. unfold allKeys. rewrite elem_of_app. auto. Qed.

(** What runs between the two binds. *)
Definition httpStage (early : bool) (n : Ports) (g : nat) (cfg : ServerConfig) (secret : bytes) : Ports * list call :=
  let n := httpStart n g (NewHttpHandler cfg secret) in
  if early then serve n (g, OHttp) (gs "HTTP Proxy server execution fault: ") else (n, []).

Lemma httpStage_spec early n g cfg secret n' l :
  httpStage early n g cfg secret = (n', l) -> confined (dnsKeys g) n ->
  confined (dnsKeys g ++ httpKeys g) n' /\ (forall k s, pt_bound n !! k = Some s -> k <> (g, OHttp) -> pt_bound n' !! k = Some s) /\
  (forall k s, pt_bound n' !! k = Some s -> pt_bound n !! k = Some s \/ s = (TCP, default 80 (cfg_HttpPort cfg))).
Proof.
  unfold httpStage. intros H Hc. set (n0 := httpStart n g (NewHttpHandler cfg secret)) in *.
  assert (confined (dnsKeys g ++ httpKeys g) n0) as C0.
  { apply spawn_confined; [|set_solver]. eapply confined_weaken; [exact Hc|]. set_solver. }
  destruct early; [|simplify_eq; split; [done|split; auto]]. apply serve_spec in H as (H1 & H2 & H3). split; [auto|]. split; [exact H2|].
  intros k s Hk. apply H3 in Hk as [Hk|Hk]; [by left|right]. cbn in Hk. rewrite lookup_insert_eq in Hk. by injection Hk as <-.
Qed.

Lemma netStart_spec w early secret cfg :
  w_net w = noPorts ->
  exists err w' logs, netStart w early secret cfg = Ret (err, w', logs) /\ match err with Some _ => w_net w' = noPorts | None => serving cfg w' end.
Proof.
  intros Hw. unfold netStart. rewrite Hw. set (g := w_next w). destruct (dnsStart_spec g cfg) as (errDns & h & n & dl & -> & Hd). rewrite bind_Ret.
  destruct errDns as [e|].
  { edestruct (start_returns (w_zd w)) as (err & zd' & l & -> & He). rewrite bind_Ret. eexists _, _, _. split; [done|].
    destruct err; [done|]. naive_solver. }
  destruct Hd as [Hc Hh]. cbn zeta.
  fold (httpStage early n g cfg secret). destruct (httpStage early n g cfg secret) as [n1 faults] eqn:E1.
  apply httpStage_spec in E1 as (C1 & H1 & _); [|done]. unfold sniStart.
  destruct (listen n1 (g, OSni) (TCP, sn_port (NewSniProxyService cfg))) as [e|n2] eqn:E2.
  - destruct (start_sni_fails (w_zd w) {| b_dns := None; b_sni := Some e; b_dnsLogs := dl |} secret cfg e) as (zd' & l & h' & -> & _); [done..|].
    rewrite bind_Ret. eexists _, _, _. split; [done|]. cbn [w_net]. eapply close_confined; [exact C1|done].
  - destruct (start_running (w_zd w) {| b_dns := None; b_sni := None; b_dnsLogs := dl |} secret cfg) as (zd' & l & -> & Hr); [done..|].
    rewrite bind_Ret. eexists _, _, _. split; [done|]. split; [exact Hr|]. exists g. cbn [w_dns w_http w_sni w_net].
    do 3 (split; [done|]). split.
    { eapply listen_confined; [exact E2| |unfold allKeys; set_solver]. eapply confined_weaken; [exact C1|]. unfold allKeys. set_solver. }
    apply listen_inr in E2 as ->. split.
    + eapply dnsHolds_mono; [|exact Hh]. intros k s Hk Hne. cbn. rewrite lookup_insert_ne; [by apply H1|].
      intros <-. destruct Hc as [Hb _]. assert ((g, OSni) ∈ dnsKeys g) by (apply Hb; by rewrite Hk). set_solver.
    + cbn. by rewrite lookup_insert_eq.
Qed.

(** ** Configurations that can be served *)

(** The sockets of a configuration: those bound in the foreground, and those of the HTTP
    and DNS-over-HTTPS servers. *)
Definition foreground (cfg : ServerConfig) : list (owner * sock) :=
  [(OUdp, (UDP, cfg_Port cfg)); (OTcp, (TCP, cfg_Port cfg)); (OSni, (TCP, default 443 (cfg_HttpsPort cfg)))]
  ++ match cfg_Tls cfg with Some _ => [(ODot, (TCP, dotPort cfg))] | None => [] end.
Definition inBackground (cfg : ServerConfig) : list (owner * sock) :=
  (OHttp, (TCP, default 80 (cfg_HttpPort cfg))) :: match cfg_Tls cfg with Some _ => [(ODoh, (TCP, dohPort cfg))] | None => [] end.
Definition socketsOf (cfg : ServerConfig) : list (owner * sock) := foreground cfg ++ inBackground cfg.

(** The ports of [cfg] are valid and distinct, and nobody else holds one of them. *)
Record bindable (cfg : ServerConfig) : Prop := {
  bd_free : Forall (fun x => foreign x.2 = false /\ 1 <= x.2.2 <= 65535) (socketsOf cfg);
  bd_distinct : NoDup (socketsOf cfg).*2;
}.

(** The daemon runs [cfg]; every socket that is bound or about to be bound is one of
    [cfg], in its place; those of the foreground are bound, and those of the background are
    bound or about to be. *)
Definition online (cfg : ServerConfig) (w : World) : Prop :=
  running cfg (w_zd w) /\ exists g, w_dns w = Some g /\ w_http w = Some g /\ w_sni w = Some g /\
    (forall k s, pt_bound (w_net w) !! k = Some s \/ pt_pending (w_net w) !! k = Some s -> k.1 = g /\ (k.2, s) ∈ socketsOf cfg) /\
    (forall o s, (o, s) ∈ foreground cfg -> pt_bound (w_net w) !! (g, o) = Some s) /\
    (forall o s, (o, s) ∈ inBackground cfg -> pt_bound (w_net w) !! (g, o) = Some s \/ pt_pending (w_net w) !! (g, o) = Some s).

(** The daemon runs [cfg] and holds exactly its sockets, all of them. *)
Definition allBound (cfg : ServerConfig) (w : World) : Prop :=
  running cfg (w_zd w) /\ exists g, forall g' o s, pt_bound (w_net w) !! (g', o) = Some s <-> g' = g /\ (o, s) ∈ socketsOf cfg.

(** The goroutines of both background servers have run. *)
Definition settle (w : World) : World :=
  match w_http w with Some g => background (background w (g, OHttp)) (g, ODoh) | None => w end.

Lemma socketsOf_inj cfg o o' s : bindable cfg -> (o, s) ∈ socketsOf cfg -> (o', s) ∈ socketsOf cfg -> o = o'.
Proof.
  intros [_ Hd] [i Hi]%list_elem_of_lookup [j Hj]%list_elem_of_lookup. assert (i = j) as ->; [|congruence].
  apply (NoDup_lookup _ i j s Hd); rewrite list_lookup_fmap; [by rewrite Hi|by rewrite Hj].
Qed.

(** A socket of [cfg] can be bound as long as every bound one is in its place. *)
Lemma listen_place cfg g n o s :
  bindable cfg -> (forall k s, pt_bound n !! k = Some s -> k.1 = g /\ (k.2, s) ∈ socketsOf cfg) -> (o, s) ∈ socketsOf cfg -> pt_bound n !! (g, o) = None ->
  listen n (g, o) s = inr {| pt_bound := <[(g, o) := s]> (pt_bound n); pt_pending := pt_pending n |}.
Proof.
  intros Hb Hn Hs Hno. pose proof (bd_free _ Hb) as Hf. rewrite Forall_forall in Hf. destruct (Hf _ Hs) as [Hf1 Hf2]. cbn in Hf1, Hf2.
  apply listen_free; [done|lia|]. intros [g' o'] s' Hk ->. destruct (Hn _ _ Hk) as [E Hin]. cbn [fst snd] in E, Hin. subst g'.
  rewrite (socketsOf_inj cfg o' o s Hb Hin Hs) in Hk. congruence.
Qed.

Lemma in_socketsOf cfg o s : (o, s) ∈ socketsOf cfg <->
  o = OUdp /\ s = (UDP, cfg_Port cfg) \/ o = OTcp /\ s = (TCP, cfg_Port cfg) \/ o = OSni /\ s = (TCP, default 443 (cfg_HttpsPort cfg)) \/
  o = OHttp /\ s = (TCP, default 80 (cfg_HttpPort cfg)) \/ cfg_Tls cfg <> None /\ (o = ODot /\ s = (TCP, dotPort cfg) \/ o = ODoh /\ s = (TCP, dohPort cfg)).
Proof. unfold socketsOf, foreground, inBackground. destruct (cfg_Tls cfg); rewrite ?elem_of_app, !elem_of_cons, ?elem_of_nil; naive_solver. Qed.

(** The tables that a start makes. *)
Definition dnsTable (cfg : ServerConfig) (g : nat) : Ports :=
  let b : table := <[(g, OTcp) := (TCP, cfg_Port cfg)]> (<[(g, OUdp) := (UDP, cfg_Port cfg)]> ∅) in
  match cfg_Tls cfg with
  | None => {| pt_bound := b; pt_pending := ∅ |}
  | Some _ => {| pt_bound := <[(g, ODot) := (TCP, dotPort cfg)]> b; pt_pending := <[(g, ODoh) := (TCP, dohPort cfg)]> ∅ |}
  end.
Definition httpTable (cfg : ServerConfig) (g : nat) (early : bool) : Ports :=
  let n := dnsTable cfg g in let s := (TCP, default 80 (cfg_HttpPort cfg)) in
  if early then {| pt_bound := <[(g, OHttp) := s]> (pt_bound n); pt_pending := pt_pending n |}
  else {| pt_bound := pt_bound n; pt_pending := <[(g, OHttp) := s]> (pt_pending n) |}.
Definition startTable (cfg : ServerConfig) (g : nat) (early : bool) : Ports :=
  let n := httpTable cfg g early in {| pt_bound := <[(g, OSni) := (TCP, default 443 (cfg_HttpsPort cfg))]> (pt_bound n); pt_pending := pt_pending n |}.

Ltac in_place := apply in_socketsOf; intuition congruence.
Ltac places := intros [? ?] ?; cbn; rewrite ?lookup_insert_Some, ?lookup_empty; intros;
  repeat match goal with H : _ \/ _ |- _ => destruct H | H : _ /\ _ |- _ => destruct H end; simplify_eq; (split; [reflexivity|in_place]).
Ltac vacant := cbn; by rewrite ?lookup_insert_ne, ?lookup_empty by done.
Tactic Notation "bind_next" constr(cfg) := rewrite (listen_place cfg); [|assumption|places|in_place|vacant].

Lemma dnsStart_ok g cfg :
  bindable cfg -> exists h logs, dnsStart noPorts g (NewDnsHandler (NewDevDnsServer cfg) cfg) = Ret (None, h, dnsTable cfg g, logs).
Proof.
  intros Hb. assert (cfg_Port cfg <> 0) as Hp.
  { pose proof (bd_free _ Hb) as Hf. rewrite Forall_forall in Hf. destruct (Hf (OUdp, (UDP, cfg_Port cfg)) ltac:(in_place)) as [_ ?]. cbn in *. lia. }
  unfold dnsStart, startUdp, startTcp, dnsTable. cbn [h_port h_cfg NewDnsHandler]. rewrite !(decide_False (P := cfg_Port cfg = 0)) by done. cbn [h_port h_cfg].
  bind_next cfg. bind_next cfg.
  change (h_cfg (NewDnsHandler (NewDevDnsServer cfg) cfg)) with cfg. destruct (cfg_Tls cfg) as [tc|] eqn:Et; [|by eexists _, _].
  bind_next cfg. by eexists _, _.
Qed.

Lemma httpStage_ok early g cfg secret : bindable cfg -> fst (httpStage early (dnsTable cfg g) g cfg secret) = httpTable cfg g early.
Proof.
  intros Hb. unfold httpStage, httpTable. change (httpStart (dnsTable cfg g) g (NewHttpHandler cfg secret)) with (spawn (dnsTable cfg g) (g, OHttp) (TCP, default 80 (cfg_HttpPort cfg))).
  destruct early; [|done]. unfold serve, spawn. cbn [pt_bound pt_pending]. rewrite lookup_insert_eq.
  assert (pt_bound (dnsTable cfg g) !! (g, OHttp) = None /\ pt_pending (dnsTable cfg g) !! (g, OHttp) = None) as [H1 H2].
  { unfold dnsTable. destruct (cfg_Tls cfg); cbn; by rewrite ?lookup_insert_ne, ?lookup_empty by done. }
  rewrite (listen_place cfg); [| |unfold dnsTable; destruct (cfg_Tls cfg) eqn:E; places|in_place|done]; [|done].
  cbn. by rewrite delete_insert_eq, delete_id.
Qed.

Lemma startTable_online cfg g early zd next :
  running cfg zd -> online cfg {| w_zd := zd; w_net := startTable cfg g early; w_next := next; w_dns := Some g; w_http := Some g; w_sni := Some g |}.
Proof.
  intros Hr. split; [exact Hr|]. exists g. do 3 (split; [done|]). cbn [w_net]. unfold startTable, httpTable, dnsTable. split; [|split].
  - destruct early, (cfg_Tls cfg) eqn:Et; places.
  - intros o s. unfold foreground. destruct early, (cfg_Tls cfg); rewrite ?elem_of_app, !elem_of_cons, ?elem_of_nil; cbn;
      intros; rewrite ?lookup_insert_Some; naive_solver.
  - intros o s. unfold inBackground. destruct early, (cfg_Tls cfg); rewrite !elem_of_cons, ?elem_of_nil; cbn;
      intros; rewrite ?lookup_insert_Some; naive_solver.
Qed.

Lemma netStart_ok w early secret cfg :
  w_net w = noPorts -> bindable cfg -> exists w' logs, netStart w early secret cfg = Ret (None, w', logs) /\ serving cfg w' /\ online cfg w'.
Proof.
  intros Hw Hb. destruct (netStart_spec w early secret cfg Hw) as (err & w' & logs & E0 & Hs). pose proof E0 as E. unfold netStart in E. rewrite Hw in E. set (g := w_next w) in *.
  destruct (dnsStart_ok g cfg Hb) as (h & dl & Ed). rewrite Ed, bind_Ret in E. cbn zeta in E. fold (httpStage early (dnsTable cfg g) g cfg secret) in E.
  pose proof (httpStage_ok early g cfg secret Hb) as Eh. destruct (httpStage early (dnsTable cfg g) g cfg secret) as [n1 faults]. cbn [fst] in Eh. subst n1.
  unfold sniStart in E. change (sn_port (NewSniProxyService cfg)) with (default 443 (cfg_HttpsPort cfg)) in E.
  rewrite (listen_place cfg) in E; [|done| |in_place|]; [|unfold httpTable, dnsTable; destruct early, (cfg_Tls cfg) eqn:?; places|
    unfold httpTable, dnsTable; destruct early, (cfg_Tls cfg); cbn; by rewrite ?lookup_insert_ne, ?lookup_empty by done].
  destruct (start_running (w_zd w) {| b_dns := None; b_sni := None; b_dnsLogs := dl |} secret cfg) as (zd' & l & Er & Hr); [done..|].
  rewrite Er, bind_Ret in E. apply Ret_inj in E. injection E as <- <- <-. eexists _, _. split; [exact E0|]. split; [exact Hs|]. by apply startTable_online.
Qed.

(** A background server that runs leaves the daemon online; its own socket is then bound. *)
Lemma background_online cfg w g o :
  bindable cfg -> online cfg w -> w_http w = Some g ->
  online cfg (background w (g, o)) /\ w_http (background w (g, o)) = Some g /\
  (forall s, (o, s) ∈ inBackground cfg -> pt_bound (w_net (background w (g, o))) !! (g, o) = Some s) /\
  (forall o' s, pt_bound (w_net w) !! (g, o') = Some s -> pt_bound (w_net (background w (g, o))) !! (g, o') = Some s).
Proof.
  intros Hb (Hr & g0 & H1 & H2 & H3 & Hp & Hf & Hbg) Hg. assert (g0 = g) as -> by congruence. unfold background. cbn [w_http w_net]. unfold serve.
  destruct (pt_pending (w_net w) !! (g, o)) as [s|] eqn:Ep; cbn [fst].
  2: { split; [split; [exact Hr|]; exists g; exact (conj H1 (conj H2 (conj H3 (conj Hp (conj Hf Hbg)))))|]. split; [done|]. split; [|done]. intros s Hs. destruct (Hbg o s Hs); congruence. }
  set (n0 := {| pt_bound := pt_bound (w_net w); pt_pending := delete (g, o) (pt_pending (w_net w)) |}).
  assert (forall k s, pt_bound n0 !! k = Some s \/ pt_pending n0 !! k = Some s -> k.1 = g /\ (k.2, s) ∈ socketsOf cfg) as Hp0.
  { intros k s' [Hk|Hk]; cbn in Hk; [by apply Hp; left|]. apply lookup_delete_Some in Hk as [_ Hk]. by apply Hp; right. }
  destruct (Hp _ _ (or_intror Ep)) as [_ Hin]. cbn [fst snd] in Hin. destruct (pt_bound (w_net w) !! (g, o)) as [s0|] eqn:Eb.
  - assert (s0 = s) as ->. { destruct (Hp _ _ (or_introl Eb)) as [_ Hin0]. cbn [fst snd] in Hin0. rewrite in_socketsOf in Hin, Hin0. naive_solver. }
    assert (exists e, listen n0 (g, o) s = inl e) as [e ->].
    { unfold listen, free, inUse. rewrite (bool_decide_true (map_Exists _ _)) by (by exists (g, o), s). rewrite andb_false_r. by eexists. }
    cbn [fst]. split; [split; [done|]; exists g; do 3 (split; [done|]); split; [exact Hp0|]; split; [exact Hf|]|].
    + intros o' s' Hs'. destruct (decide (o' = o)) as [->|Hne].
      * left. destruct (Hbg o s' Hs') as [|E']; [done|]. rewrite E' in Ep. cbn. congruence.
      * destruct (Hbg o' s' Hs'); [by left|right]. cbn. by rewrite lookup_delete_ne by congruence.
    + split; [done|]. split; [|done]. intros s' Hs'. destruct (Hbg o s' Hs') as [|E']; [done|]. cbn. congruence.
  - rewrite (listen_place cfg) by (done || (intros k s' Hk; apply Hp0; by left)). cbn [fst].
    split; [split; [done|]; exists g; do 3 (split; [done|]); split; [|split]|].
    + intros k s' [Hk|Hk]; cbn in Hk; [|by apply Hp0; right]. apply lookup_insert_Some in Hk as [[<- <-]|[_ Hk]]; [done|]. apply Hp. by left.
    + intros o' s' Hs'. cbn. rewrite lookup_insert_ne; [by apply Hf|]. intros [= <-]. apply Hf in Hs'. congruence.
    + intros o' s' Hs'. cbn. destruct (decide (o' = o)) as [->|Hne].
      * left. rewrite lookup_insert_eq. destruct (Hbg o s' Hs'); congruence.
      * rewrite lookup_insert_ne, lookup_delete_ne by congruence. by apply Hbg.
    + split; [done|]. split.
      * intros s' Hs'. cbn. rewrite lookup_insert_eq. destruct (Hbg o s' Hs'); congruence.
      * intros o' s' Ho'. cbn. rewrite lookup_insert_ne; [done|]. congruence.
Qed.

(** Once the background servers have run, every socket is bound. *)
Lemma online_settle cfg w : bindable cfg -> online cfg w -> allBound cfg (settle w).
Proof.
  intros Hb Ho. pose proof Ho as (_ & g & _ & Hg & _). unfold settle. rewrite Hg.
  destruct (background_online cfg w g OHttp Hb Ho Hg) as (Ho1 & Hg1 & Hh & _).
  destruct (background_online cfg _ g ODoh Hb Ho1 Hg1) as (Ho2 & Hg2 & Hd & Hkeep). set (w2 := background _ (g, ODoh)) in *.
  destruct Ho2 as (Hr & g2 & _ & E2 & _ & Hp & Hf & Hbg). assert (g2 = g) as -> by congruence. split; [exact Hr|]. exists g. intros g' o s. split.
  - intros Hk. destruct (Hp _ _ (or_introl Hk)) as [E Hin]. done.
  - intros [-> Hin]. unfold socketsOf in Hin. apply elem_of_app in Hin as [Hin|Hin]; [by apply Hf|].
    unfold inBackground in Hin. apply elem_of_cons in Hin as [[= -> ->]|Hin].
    + apply Hkeep, Hh. unfold inBackground. left.
    + destruct (cfg_Tls cfg) eqn:Et; [|by apply elem_of_nil in Hin]. apply list_elem_of_singleton in Hin as [= -> ->].
      apply Hd. unfold inBackground. rewrite Et. right. left.
Qed.

Lemma netStop_serving cfg w : serving cfg w -> exists w' l, netStop w = Ret (w', l) /\ w_net w' = noPorts /\ zd_cfg (w_zd w') = Some cfg.
Proof.
  intros (Hr & g & H1 & H2 & H3 & Hc & _). unfold netStop. rewrite (stop_running cfg _ Hr), bind_Ret, H1, H2, H3. cbn zeta.
  eexists _, _. split; [done|]. cbn [w_net w_zd zd_cfg from_option]. split; [|done]. by apply close_confined with (ks := allKeys g).
Qed.

Lemma netReload_serving cfg newCfg w early1 early2 secret :
  serving cfg w -> bindable cfg ->
  exists w' cfg', netReload w early1 early2 secret newCfg = Ret w' /\ serving cfg' w' /\ (cfg' = newCfg \/ cfg' = cfg) /\ (bindable newCfg -> cfg' = newCfg) /\
    (bindable cfg' -> online cfg' w').
Proof.
  intros Hs Hb. unfold netReload. destruct Hs as [Hr Hrest] eqn:Es. destruct (netStop_serving cfg w Hs) as (w1 & l1 & -> & Hn1 & _). rewrite bind_Ret.
  destruct (netStart_spec w1 early1 secret newCfg Hn1) as (err & w2 & l2 & E2 & H2). rewrite E2, bind_Ret. destruct err as [e|].
  - assert (zd_cfg (w_zd w) = Some cfg) as -> by apply Hr. destruct (netStart_ok w2 early2 secret cfg H2 Hb) as (w3 & l3 & -> & H3 & Ho). rewrite bind_Ret.
    exists w3, cfg. split; [done|]. split; [done|]. split; [by right|]. split; [|done]. intros Hb'.
    destruct (netStart_ok w1 early1 secret newCfg Hn1 Hb') as (w4 & l4 & E4 & _). congruence.
  - exists w2, newCfg. split; [done|]. split; [done|]. split; [by left|]. split; [done|]. intros Hb'.
    destruct (netStart_ok w1 early1 secret newCfg Hn1 Hb') as (w4 & l4 & E4 & _ & Ho). assert (w4 = w2) as <- by congruence. exact Ho.
Qed.

(** C13: A reload keeps the proxy on line.  If the ports of the configuration that runs are
    valid, distinct and held by nobody else, reloading any new configuration returns, with
    the new one or, when one of its foreground sockets cannot be bound, with the old one
    running again; the DNS, DNS-over-TLS and SNI sockets of that configuration are then
    bound.  If that configuration's ports are all valid, distinct and free, which is so
    for the old one, its HTTP and DNS-over-HTTPS sockets follow when the background
    servers run, and then the process holds exactly its sockets: none is missing and none
    was leaked.  A new configuration with such ports is never rolled back. *)
Theorem reload_never_offline cfg newCfg w early1 early2 secret :
  serving cfg w -> bindable cfg ->
  exists w' cfg', netReload w early1 early2 secret newCfg = Ret w' /\ (cfg' = newCfg \/ cfg' = cfg) /\ (bindable newCfg -> cfg' = newCfg) /\
    serving cfg' w' /\ (bindable cfg' -> allBound cfg' (settle w')).
Proof.
  intros Hs Hb. destruct (netReload_serving cfg newCfg w early1 early2 secret Hs Hb) as (w' & cfg' & H1 & H2 & H3 & H4 & H5).
  exists w', cfg'. do 4 (split; [done|]). intros Hb'. apply online_settle; auto.
Qed.

(** A server's goroutine leaves the daemon serving. *)
Lemma background_serving cfg w k : (forall g, k <> (g, OSni) /\ k <> (g, OUdp) /\ k <> (g, OTcp) /\ k <> (g, ODot)) -> serving cfg w -> serving cfg (background w k).
Proof.
  intros Hk (Hr & g & H1 & H2 & H3 & Hc & (port & Hp & Hu & Ht & Hd) & Hsni). split; [exact Hr|]. exists g. cbn [background w_dns w_http w_sni w_net].
  destruct (serve (w_net w) k []) as [n' l] eqn:E. apply serve_spec in E as (E1 & E2 & _). do 3 (split; [done|]). split; [auto|].
  destruct (Hk g) as (K1 & K2 & K3 & K4). cbn [fst]. split; [|by apply E2].
  exists port. repeat split; [done|by apply E2..|]. intros Htls. apply E2; [auto|done].
Qed.

(** A history of the process: reloads, one after the other, and the servers' goroutines in
    between. *)
Inductive netOp : Type := OpReload (early1 early2 : bool) (secret : bytes) (cfg : ServerConfig) | OpServe (g : nat) (doh : bool).
Fixpoint netRun (w : World) (ops : list netOp) : go World :=
  match ops with
  | [] => Ret w
  | OpReload e1 e2 secret cfg :: ops => w ← netReload w e1 e2 secret cfg; netRun w ops
  | OpServe g doh :: ops => netRun (background w (g, if doh then ODoh else OHttp)) ops
  end.
Definition lastCfg (cfg : ServerConfig) (ops : list netOp) : ServerConfig :=
  foldl (fun c op => match op with OpReload _ _ _ c' => c' | OpServe _ _ => c end) cfg ops.

(** Reloads that do not overlap are applied in order: after any history in which every
    new configuration can be bound, the daemon serves the last one. *)
Theorem reloads_in_order cfg w ops :
  serving cfg w -> bindable cfg -> Forall (fun op => match op with OpReload _ _ _ c => bindable c | OpServe _ _ => True end) ops ->
  exists w', netRun w ops = Ret w' /\ serving (lastCfg cfg ops) w'.
Proof.
  intros Hs Hb Hops. revert cfg w Hs Hb. induction Hops as [|op ops Hop Hops IH]; intros cfg w Hs Hb; cbn [netRun]; [eauto|].
  destruct op as [e1 e2 secret c|g doh].
  - unfold netReload. destruct (netStop_serving cfg w Hs) as (w1 & l1 & -> & Hn1 & _). rewrite bind_Ret.
    destruct (netStart_ok w1 e1 secret c Hn1 Hop) as (w2 & l2 & -> & H2 & _). rewrite !bind_Ret. by apply (IH c).
  - apply (IH cfg); [|done]. apply background_serving; [|done]. intros g'. by destruct doh.
Qed.

End Facts.

(** ** TLS, connections and the collector *)

Section Details.
Context {HO : Host}.

(** Certificate authorities that cannot be read or parsed are ignored without an error:
    the listener then accepts clients without a certificate, and the control plane still
    announces mutual authentication. *)
Theorem unusable_ca_disables_mtls cp tc e :
  cn_tlsCfg cp = Some tc -> Contains (tls_Ca tc) (gs "-----BEGIN") = false -> hostReadFile (tls_Ca tc) = inl e -> cn_socketPath cp = [] ->
  exists cp' ts, cpStart cp false None =
      (None, cp', [CpListenTcp (gs "0.0.0.0:" ++ fmt_d (cn_port cp));
         CpLog (CallSystem (gs "Control Plane active using " ++ gs "HTTPS/mTLS" ++ gs " on port " ++ fmt_d (cn_port cp)))], Some ts) /\
    ts_RequireClientCert ts = false /\ cn_tlsActive cp' = true.
Proof.
  intros Ht Hb He Hs. unfold cpStart. rewrite Ht. cbn [fmap option_fmap option_map]. cbn [with_tlsActive cn_socketPath]. rewrite Hs.
  rewrite decide_False by tauto. eexists _, _. split; [done|]. split; [|done]. cbn [loadTlsConfig ts_RequireClientCert]. unfold resolveTlsMaterial.
  rewrite Hb, He. by case_decide.
Qed.

(** With usable authorities every client has to show a certificate. *)
Lemma usable_ca_requires_client tc ca :
  tls_Ca tc <> [] -> resolveTlsMaterial (tls_Ca tc) = inr ca -> hostAppendCerts ca = true -> ts_RequireClientCert (loadTlsConfig tc) = true.
Proof. intros H1 H2 H3. cbn. rewrite decide_True by done. by rewrite H2, H3. Qed.

(** The number of connections that are served never exceeds the configured limit. *)
Lemma acceptLoop_bounded evs : forall h h' served,
  acceptLoop h evs = (h', served) -> Z.of_nat (size (h_activeTcpConns h)) <= h_maxTcpConns h -> Z.of_nat (size (h_activeTcpConns h')) <= h_maxTcpConns h'.
Proof.
  induction evs as [|[conn|stopped|conn] evs IH]; intros h h' served H Hs; cbn [acceptLoop] in H; [by simplify_eq|..].
  - destruct (acceptConn h conn) as [h1|] eqn:E; [|by eapply IH]. destruct (acceptLoop h1 evs) as [h2 l] eqn:El. simplify_eq.
    eapply IH; [exact El|]. unfold acceptConn in E. case_decide as Hd; [done|]. simplify_eq. cbn [with_conns h_activeTcpConns h_maxTcpConns].
    pose proof (size_union_alt {[conn]} (h_activeTcpConns h)) as Hu. pose proof (subseteq_size (h_activeTcpConns h ∖ {[conn]}) (h_activeTcpConns h) ltac:(set_solver)).
    assert (size ({[conn]} ∪ h_activeTcpConns h) <= 1 + size (h_activeTcpConns h))%nat; [|lia]. rewrite union_comm_L, size_union_alt.
    pose proof (subseteq_size ({[conn]} ∖ h_activeTcpConns h) {[conn]} ltac:(set_solver)) as Hq. rewrite size_singleton in Hq. lia.
  - destruct stopped; [by simplify_eq|by eapply IH].
  - eapply IH; [exact H|]. cbn [closeConn with_conns h_activeTcpConns h_maxTcpConns].
    pose proof (subseteq_size (h_activeTcpConns h ∖ {[conn]}) (h_activeTcpConns h) ltac:(set_solver)). lia.
Qed.

End Details.

Section Accepted.
Context {U : Unicode} {UR : Url} {MR : MapRange}.
Context (HU : forall r, ~ 65 <= unicode_ToLower r <= 90).

Lemma size_empty_bound (n : Z) : 1 <= n -> Z.of_nat (size (∅ : gset nat)) <= n.
Proof. rewrite size_empty. lia. Qed.

(** The listeners of an accepted configuration keep their promises whatever happens on
    the network: the rate limiter's collector does not panic, its clients keep a positive
    window, and no accept loop ever serves more TCP connections than configured. *)
Theorem accepted_config_bounds c cfg evs gc :
  ValidateServerConfig c = inr cfg ->
  let h := NewDnsHandler (NewDevDnsServer cfg) cfg in
  (forall rl, h_rateLimiter h = Some rl -> exists rl', startGarbageCollector rl gc = Ret rl' /\ 100 * millisecond <= window rl' <= 60000 * millisecond) /\
  Z.of_nat (size (h_activeTcpConns (fst (acceptLoop h evs)))) <= cfg_MaxTcpConnections cfg.
Proof.
  intros (_ & _ & _ & _ & Hm & _ & _ & Hw & _)%ValidateServerConfig_inv; [|done]. cbn zeta. split.
  - intros rl. cbn [NewDnsHandler h_rateLimiter]. unfold newLimiter. case_decide; [|done]. intros [= <-]. unfold startGarbageCollector.
    cbn [NewRateLimiter window]. unfold millisecond. rewrite decide_False by lia. eexists. split; [done|].
    assert (forall evs rl, window (gcLoop rl evs) = window rl) as ->; [|cbn; unfold millisecond; lia].
    clear. induction evs as [|[now|] evs IH]; intros rl; cbn [gcLoop]; [done| |done]. by rewrite IH.
  - destruct (acceptLoop _ evs) as [h' served] eqn:E. assert (h_maxTcpConns h' = cfg_MaxTcpConnections cfg) as <-.
    { assert (forall evs h h' l, acceptLoop h evs = (h', l) -> h_maxTcpConns h' = h_maxTcpConns h) as Hk.
      { clear. induction evs as [|[conn|stopped|conn] evs IH]; intros h h' l H; cbn [acceptLoop] in H; [by simplify_eq|..].
        - unfold acceptConn in H. case_decide; [by eapply IH|]. destruct (acceptLoop _ evs) as [h2 l2] eqn:El. simplify_eq. by apply IH in El.
        - destruct stopped; [by simplify_eq|by eapply IH].
        - by apply IH in H. }
      rewrite (Hk _ _ _ _ E). cbn [NewDnsHandler h_maxTcpConns]. by rewrite decide_True by lia. }
    eapply acceptLoop_bounded; [exact E|]. cbn [NewDnsHandler h_activeTcpConns h_maxTcpConns]. rewrite decide_True by lia.
    apply size_empty_bound. lia.
Qed.

End Accepted.

(** ** Demonstrations *)

(** Nobody else listens; no file can be read. *)
Definition open_host : Host :=
  {| hostReadFile := fun _ => inl (gs "no such file"); hostX509KeyPair := fun _ _ => inl (gs "no certificate"); hostAppendCerts := fun _ => true;
     foreign := fun _ => false; bindError := fun _ => gs "address already in use"; ephemeral := 40000 |}.

(** The demonstration configuration on other ports. *)
Definition demo_ports (dns http https : Z) : ServerConfig :=
  {| cfg_Port := dns; cfg_HttpPort := Some http; cfg_HttpsPort := Some https; cfg_Tls := None; cfg_DotPort := None;
     cfg_DohPort := None; cfg_FallbackDns := gs "9.9.9.9"; cfg_Firewall := None;
     cfg_ControlPlane := None; cfg_DnsCacheMaxSize := 16; cfg_DnsCacheTtlMs := 60000; cfg_MaxTcpConnections := 0;
     cfg_TcpIdleTimeoutMs := 0; cfg_RateLimitMaxRequests := 0; cfg_RateLimitWindowMs := 0;
     cfg_UpstreamHttpProxy := []; cfg_UpstreamHttpsProxy := []; cfg_UpstreamNoProxy := []; cfg_Hosts := ∅ |}.
Lemma demo_bindable dns http https :
  1 <= dns <= 65535 -> 1 <= http <= 65535 -> 1 <= https <= 65535 -> https <> dns -> https <> http -> http <> dns ->
  bindable (HO := open_host) (demo_ports dns http https).
Proof.
  intros. constructor.
  - unfold socketsOf, foreground, inBackground, demo_ports. cbn. rewrite !Forall_cons, Forall_nil. cbn. intuition lia.
  - unfold socketsOf, foreground, inBackground, demo_ports. cbn. rewrite !NoDup_cons, !elem_of_cons, !elem_of_nil. split_and!; try apply NoDup_nil_2; intuition congruence.
Qed.

Definition bootWorld : World := {| w_zd := newDaemon; w_net := noPorts; w_next := 0; w_dns := None; w_http := None; w_sni := None |}.
Definition demo_world : World :=
  match netStart (HO := open_host) bootWorld false [1] (demo_ports 53 80 443) with Ret (_, w, _) => w | _ => bootWorld end.
Lemma demo_serving : serving (demo_ports 53 80 443) demo_world.
Proof.
  destruct (netStart_ok (HO := open_host) bootWorld false [1] (demo_ports 53 80 443) eq_refl) as (w & l & E & Hs & _); [apply demo_bindable; lia|].
  unfold demo_world. by rewrite E.
Qed.

(** A new configuration that uses one port twice is rolled back. *)
Lemma reload_never_offline_witness :
  exists w' cfg', netReload (HO := open_host) demo_world true false [1] (demo_ports 53 80 53) = Ret w' /\ serving cfg' w' /\
    (cfg' = demo_ports 53 80 53 \/ cfg' = demo_ports 53 80 443).
Proof.
  destruct (reload_never_offline (HO := open_host) (demo_ports 53 80 443) (demo_ports 53 80 53) demo_world true false [1] demo_serving)
    as (w' & cfg' & H1 & H3 & _ & H2 & _); [apply demo_bindable; lia|].
  exists w', cfg'. split; [exact H1|]. split; [exact H2|exact H3].
Defined.

Lemma reloads_in_order_witness :
  exists w', netRun (HO := open_host) demo_world
      [OpServe 0 false; OpReload false false [1] (demo_ports 5353 80 443); OpReload true false [1] (demo_ports 53 8080 8443)] = Ret w' /\
    serving (demo_ports 53 8080 8443) w'.
Proof.
  apply (reloads_in_order (HO := open_host) (demo_ports 53 80 443) demo_world
    [OpServe 0 false; OpReload false false [1] (demo_ports 5353 80 443); OpReload true false [1] (demo_ports 53 8080 8443)] demo_serving).
  - apply demo_bindable; lia.
  - constructor; [exact I|]. constructor; [apply demo_bindable; lia|]. constructor; [apply demo_bindable; lia|constructor].
Defined.

Lemma accepted_config_bounds_witness :
  Z.of_nat (size (h_activeTcpConns (fst (acceptLoop (NewDnsHandler (NewDevDnsServer upper_accepted) upper_accepted) [Accepted 1; Accepted 2; ConnClosed 1])))) <= 100.
Proof.
  exact (proj2 (accepted_config_bounds (U := ascii_unicode) (UR := simple_url) (MR := list_range) ascii_no_upper upper_config upper_accepted
    [Accepted 1; Accepted 2; ConnClosed 1] [] upper_config_accepted)).
Defined.

Definition demo_tls : TlsConfig := {| tls_Cert := gs "/etc/cert.pem"; tls_Key := gs "/etc/key.pem"; tls_Ca := gs "/etc/ca.pem"; tls_ServerName := [] |}.
Definition demo_cp : ControlPlane :=
  {| cn_cfg := demo_ports 53 80 443; cn_port := 8080; cn_socketPath := []; cn_apiKey := gs "k"; cn_blindIndexSalt := gs "s"; cn_configFilePath := gs "/c.json";
     cn_tlsCfg := Some demo_tls; cn_subscribers := 1; cn_seenNonces := ∅; cn_currentPoWWindow := 0; cn_expectedApiKeyHash := []; cn_apiKeySecret := [];
     cn_deviceSecret := []; cn_tlsActive := false; cn_stopped := false |}.
Lemma unusable_ca_disables_mtls_witness :
  exists cp' l ts, cpStart (HO := open_host) demo_cp false None = (None, cp', l, Some ts) /\ ts_RequireClientCert ts = false.
Proof.
  destruct (unusable_ca_disables_mtls (HO := open_host) demo_cp demo_tls (gs "no such file")) as (cp' & ts & H1 & H2 & _); [reflexivity|vm_compute; reflexivity|reflexivity|reflexivity|].
  eexists cp', _, ts. split; [exact H1|exact H2].
Defined.
