(* ===== verification/Reload.v ===== *)
(** * Concurrent reloads ([main.go], [pkg/controlplane/controlplane.go])

    Every accepted update starts a goroutine that reloads the daemon.  The daemon's lock is
    held by [Stop] and by [Start], not by the reload: the critical sections of two reloads
    interleave.  A step relation on the daemon and the goroutines, its agreement with the
    uninterrupted reload of [Services], and the two ways in which overlapping updates go
    wrong. *)
From S2P Require Import Prelude GoStrings NetIP Platform Config Wire Firewall Circuit RateLimiter AuditLog Cache Server Secrets HttpProxy Sni Validation ControlPlane Dnssec Query0x20 Handler Daemon Services.

(** A goroutine between its critical sections: before it reads the old configuration,
    before [Stop], before [Start], before the roll-back. *)
Inductive phase : Type :=
| RRead (newCfg : ServerConfig)
| RStop (oldCfg : option ServerConfig) (newCfg : ServerConfig)
| RStart (oldCfg : option ServerConfig) (newCfg : ServerConfig)
| RRollback (oldCfg : option ServerConfig)
| RDone.

Section Reload.
Context {HO : Host} (secret : bytes).

(** One critical section; a panic ends the goroutine, which recovers from it. *)
Definition reloadStep (early : bool) (w : World) (p : phase) : World * phase :=
  match p with
  | RRead newCfg => (w, RStop (zd_cfg (w_zd w)) newCfg)
  | RStop oldCfg newCfg => match netStop w with Ret (w', _) => (w', RStart oldCfg newCfg) | _ => (w, RDone) end
  | RStart oldCfg newCfg =>
      match netStart w early secret newCfg with
      | Ret (None, w', _) => (w', RDone)
      | Ret (Some _, w', _) => (w', RRollback oldCfg)
      | _ => (w, RDone)
      end
  | RRollback (Some oldCfg) => match netStart w early secret oldCfg with Ret (_, w', _) => (w', RDone) | _ => (w, RDone) end
  | RRollback None => (w, RDone)
  | RDone => (w, RDone)
  end.

(** The daemon and the reloads that are under way. *)
Record ReloadState := { sy_world : World; sy_reloads : list phase }.

(** A goroutine runs its next critical section, a server binds its socket, or an update
    arrives. *)
Inductive step : ReloadState -> ReloadState -> Prop :=
| step_reload s i p early w' p' :
    sy_reloads s !! i = Some p -> reloadStep early (sy_world s) p = (w', p') ->
    step s {| sy_world := w'; sy_reloads := <[i := p']> (sy_reloads s) |}
| step_serve s (g : nat) (doh : bool) :
    step s {| sy_world := background (sy_world s) (g, if doh then ODoh else OHttp); sy_reloads := sy_reloads s |}
| step_update s cfg : step s {| sy_world := sy_world s; sy_reloads := sy_reloads s ++ [RRead cfg] |}.

(** A schedule of the goroutines. *)
Fixpoint runSched (s : ReloadState) (sched : list nat) : ReloadState :=
  match sched with
  | [] => s
  | i :: sched =>
      match sy_reloads s !! i with
      | None => runSched s sched
      | Some p =>
          let '(w', p') := reloadStep false (sy_world s) p in
          runSched {| sy_world := w'; sy_reloads := <[i := p']> (sy_reloads s) |} sched
      end
  end.

Lemma runSched_steps sched : forall s, rtc step s (runSched s sched).
Proof.
  induction sched as [|i sched IH]; intros s; cbn [runSched]; [done|]. destruct (sy_reloads s !! i) as [p|] eqn:E; [|apply IH].
  destruct (reloadStep false (sy_world s) p) as [w' p'] eqn:Er. eapply rtc_l; [by eapply step_reload|apply IH].
Qed.

(** *** A reload that is not interrupted *)

(** The critical sections of one reload, in a row. *)
Definition reloadAlone (early1 early2 : bool) (w : World) (newCfg : ServerConfig) : World * phase :=
  let '(w, p) := reloadStep false w (RRead newCfg) in
  let '(w, p) := reloadStep false w p in
  let '(w, p) := reloadStep early1 w p in
  reloadStep early2 w p.

Lemma reloadAlone_spec early1 early2 w newCfg w' :
  netReload w early1 early2 secret newCfg = Ret w' -> reloadAlone early1 early2 w newCfg = (w', RDone).
Proof.
  unfold netReload, reloadAlone. cbn [reloadStep]. intros ([w1 l1] & E1 & H)%bind_Ret_inv. rewrite E1. cbn [reloadStep].
  apply bind_Ret_inv in H as ([[err w2] l2] & E2 & H). rewrite E2. destruct err as [e|]; [|by simplify_eq]. cbn [reloadStep].
  destruct (zd_cfg (w_zd w)) as [old|]; [|done]. apply bind_Ret_inv in H as ([[err3 w3] l3] & E3 & H). rewrite E3. by simplify_eq.
Qed.

Lemma runSched_app a b : forall s, runSched s (a ++ b) = runSched (runSched s a) b.
Proof.
  induction a as [|i a IH]; intros s; [done|]. cbn [runSched app]. destruct (sy_reloads s !! i) as [p|]; [|done].
  by destruct (reloadStep false (sy_world s) p).
Qed.

(** A goroutine that runs alone reloads as [netReload] does. *)
Lemma runSched_alone s i newCfg w' :
  sy_reloads s !! i = Some (RRead newCfg) -> netReload (sy_world s) false false secret newCfg = Ret w' ->
  runSched s [i; i; i; i] = {| sy_world := w'; sy_reloads := <[i := RDone]> (sy_reloads s) |}.
Proof.
  intros Hi Hr%reloadAlone_spec. unfold reloadAlone in Hr. pose proof (lookup_lt_Some _ _ _ Hi) as Hlt.
  cbn [runSched]. rewrite Hi. destruct (reloadStep false (sy_world s) (RRead newCfg)) as [w1 p1]. cbn [sy_reloads sy_world].
  rewrite list_lookup_insert_eq by done. destruct (reloadStep false w1 p1) as [w2 p2]. cbn [sy_reloads sy_world]. rewrite list_insert_insert_eq.
  rewrite list_lookup_insert_eq by done. destruct (reloadStep false w2 p2) as [w3 p3]. cbn [sy_reloads sy_world]. rewrite list_insert_insert_eq.
  rewrite list_lookup_insert_eq by done. rewrite Hr. by rewrite list_insert_insert_eq.
Qed.

(** The state in which an update finds the daemon when no reload is under way. *)
Definition quiet (s : ReloadState) : Prop := Forall (fun p => p = RDone) (sy_reloads s).

(** *** A reload among the background servers, under every schedule *)

(** A turn of goroutine [i], or of a background server. *)
Inductive move : Type := Turn (i : nat) (early : bool) | Bind (g : nat) (doh : bool).
Definition moveStep (s : ReloadState) (m : move) : ReloadState :=
  match m with
  | Turn i early =>
      match sy_reloads s !! i with
      | None => s
      | Some p => let '(w', p') := reloadStep early (sy_world s) p in {| sy_world := w'; sy_reloads := <[i := p']> (sy_reloads s) |}
      end
  | Bind g doh => {| sy_world := background (sy_world s) (g, if doh then ODoh else OHttp); sy_reloads := sy_reloads s |}
  end.
Definition execute (s : ReloadState) (ms : list move) : ReloadState := foldl moveStep s ms.
Fixpoint turns (i : nat) (ms : list move) : nat :=
  match ms with [] => 0 | Turn j _ :: ms => (if decide (j = i) then 1 else 0) + turns i ms | Bind _ _ :: ms => turns i ms end.

(** Executions are those of the step relation in which no further update arrives. *)
Lemma execute_steps ms : forall s, rtc step s (execute s ms).
Proof.
  induction ms as [|m ms IH]; intros s; [done|]. cbn [execute foldl]. destruct m as [i early|g doh]; cbn [moveStep].
  - destruct (sy_reloads s !! i) as [p|] eqn:E; [|apply IH]. destruct (reloadStep early (sy_world s) p) as [w' p'] eqn:Er.
    eapply rtc_l; [by eapply step_reload|apply IH].
  - eapply rtc_l; [apply step_serve|apply IH].
Qed.

Definition rank (p : phase) : nat := match p with RRead _ => 4 | RStop _ _ => 3 | RStart _ _ => 2 | RRollback _ => 1 | RDone => 0 end.
(** Served, by the new configuration or the old one. *)
Definition settledOn (cfg newCfg : ServerConfig) (w : World) : Prop :=
  exists cfg', (cfg' = newCfg \/ cfg' = cfg) /\ (bindable newCfg -> cfg' = newCfg) /\ serving cfg' w /\ (bindable cfg' -> online cfg' w).
(** What holds in each phase of a reload from [cfg] to [newCfg]. *)
Definition lone (cfg newCfg : ServerConfig) (w : World) (p : phase) : Prop :=
  match p with
  | RRead c => c = newCfg /\ serving cfg w
  | RStop o c => o = Some cfg /\ c = newCfg /\ serving cfg w
  | RStart o c => o = Some cfg /\ c = newCfg /\ w_net w = noPorts
  | RRollback o => o = Some cfg /\ ~ bindable newCfg /\ w_net w = noPorts
  | RDone => settledOn cfg newCfg w
  end.

Lemma reloadStep_lone cfg newCfg early w p w' p' :
  bindable cfg -> lone cfg newCfg w p -> reloadStep early w p = (w', p') -> lone cfg newCfg w' p' /\ (rank p' <= rank p - 1)%nat.
Proof.
  intros Hb. destruct p as [c|o c|o c|o|]; cbn [lone reloadStep].
  - intros [-> Hs] [= <- <-]. split; [|done]. split; [|done]. destruct Hs as [Hr _]. apply Hr.
  - intros (-> & -> & Hs) H. destruct (netStop_serving cfg w Hs) as (w1 & l & E & Hn & _). rewrite E in H. simplify_eq. done.
  - intros (-> & -> & Hn) H. destruct (netStart_spec w early secret newCfg Hn) as (err & w1 & l & E & Hs). rewrite E in H. destruct err as [e|]; simplify_eq.
    + split; [|done]. split; [done|]. split; [|done]. intros Hb'. destruct (netStart_ok w early secret newCfg Hn Hb') as (w2 & l2 & E2 & _). congruence.
    + split; [|cbn; lia]. exists newCfg. split; [by left|]. split; [done|]. split; [done|]. intros Hb'.
      destruct (netStart_ok w early secret newCfg Hn Hb') as (w2 & l2 & E2 & _ & Ho). assert (w2 = w') as <- by congruence. exact Ho.
  - intros (-> & Hnb & Hn) H. destruct (netStart_ok w early secret cfg Hn Hb) as (w2 & l2 & E2 & Hs & Ho). rewrite E2 in H. simplify_eq.
    split; [|cbn; lia]. exists cfg. split; [by right|]. split; [done|]. by split.
  - intros H [= <- <-]. done.
Qed.

Lemma background_none w k : pt_pending (w_net w) !! k = None -> background w k = w.
Proof. intros H. unfold background, serve. rewrite H. by destruct w. Qed.

Lemma background_lone cfg newCfg w p g (doh : bool) :
  lone cfg newCfg w p -> lone cfg newCfg (background w (g, if doh then ODoh else OHttp)) p.
Proof.
  set (k := (g, if doh then ODoh else OHttp)). assert (forall g', k <> (g', OSni) /\ k <> (g', OUdp) /\ k <> (g', OTcp) /\ k <> (g', ODot)) as Hk
    by (intros g'; unfold k; by destruct doh).
  assert (w_net w = noPorts -> background w k = w) as Hno by (intros E; apply background_none; by rewrite E).
  destruct p as [c|o c|o c|o|]; cbn [lone].
  - intros [-> Hs]. split; [done|]. by apply background_serving.
  - intros (-> & -> & Hs). split; [done|]. split; [done|]. by apply background_serving.
  - intros (-> & -> & Hn). by rewrite Hno.
  - intros (-> & Hnb & Hn). by rewrite Hno.
  - intros (cfg' & H1 & H2 & Hs & Ho). exists cfg'. split; [done|]. split; [done|]. split; [by apply background_serving|]. intros Hb. specialize (Ho Hb).
    pose proof Ho as (_ & g' & _ & Hg & _ & Hp & _). destruct (pt_pending (w_net w) !! k) as [s|] eqn:E; [|by rewrite background_none].
    destruct (Hp _ _ (or_intror E)) as [Eg _]. cbn in Eg. unfold k. rewrite Eg. by apply background_online.
Qed.

(** The state of a lone reload and the turns that it still needs. *)
Lemma execute_lone cfg newCfg ms : bindable cfg -> forall s l p,
  sy_reloads s = l ++ [p] -> Forall (fun p => p = RDone) l -> lone cfg newCfg (sy_world s) p ->
  exists p', sy_reloads (execute s ms) = l ++ [p'] /\ lone cfg newCfg (sy_world (execute s ms)) p' /\ (rank p' <= rank p - turns (length l) ms)%nat.
Proof.
  intros Hb. induction ms as [|m ms IH]; intros s l p Hl Hd Hp; [exists p; split; [done|]; split; [done|]; cbn; lia|]. cbn [execute foldl]. fold (execute (moveStep s m) ms).
  destruct m as [i early|g doh]; cbn [moveStep].
  - destruct (decide (i = length l)) as [->|Hi].
    + rewrite Hl, (list_lookup_middle l [] p (length l)) by done. destruct (reloadStep early (sy_world s) p) as [w' p'] eqn:Er.
      destruct (reloadStep_lone _ _ _ _ _ _ _ Hb Hp Er) as [Hp' Hrk].
      destruct (IH {| sy_world := w'; sy_reloads := <[length l := p']> (l ++ [p]) |} l p') as (q & H1 & H2 & H3); [|done|done|].
      { cbn. by rewrite insert_app_r_alt, Nat.sub_diag by lia. }
      exists q. split; [done|]. split; [done|]. cbn [turns]. rewrite decide_True by done. lia.
    + cbn [turns]. rewrite decide_False by done. cbn [Nat.add]. destruct (sy_reloads s !! i) as [q|] eqn:E; [|by apply IH].
      assert (q = RDone) as ->.
      { rewrite Hl in E. apply lookup_app_Some in E as [E|[Hge E]]; [rewrite Forall_forall in Hd; eapply Hd, list_elem_of_lookup_2, E|].
        apply list_lookup_singleton_Some in E as [E _]. lia. }
      cbn [reloadStep]. rewrite list_insert_id by done. destruct s. by apply IH.
  - cbn [turns]. apply IH; [done|done|]. by apply background_lone.
Qed.

(** C14: Liveness of an update under every schedule.  When an update arrives while no
    other reload is under way, and no further one follows, then after any interleaving of
    the goroutines and the background servers in which the update's goroutine gets four
    turns, the reload has ended and a configuration is served: the new one if its ports are
    valid, distinct and free, and otherwise the new or the old one; if the ports of the
    one that is served are valid, distinct and free, its HTTP and DNS-over-HTTPS sockets
    are bound or about to be.  The ports of the old configuration must be valid, distinct
    and free. *)
Theorem lone_update_served s cfg newCfg ms :
  quiet s -> serving cfg (sy_world s) -> bindable cfg -> (4 <= turns (length (sy_reloads s)) ms)%nat ->
  let s' := execute {| sy_world := sy_world s; sy_reloads := sy_reloads s ++ [RRead newCfg] |} ms in
  quiet s' /\ exists cfg', (cfg' = newCfg \/ cfg' = cfg) /\ (bindable newCfg -> cfg' = newCfg) /\ serving cfg' (sy_world s') /\ (bindable cfg' -> online cfg' (sy_world s')).
Proof.
  intros Hq Hs Hb Ht s'.
  destruct (execute_lone cfg newCfg ms Hb {| sy_world := sy_world s; sy_reloads := sy_reloads s ++ [RRead newCfg] |} (sy_reloads s) (RRead newCfg)) as (p & H1 & H2 & H3);
    [done|done|by split|]. fold s' in H1, H2. cbn [rank] in H3.
  assert (p = RDone) as -> by (destruct p; cbn [rank] in H3; lia || done). split; [|exact H2]. unfold quiet. rewrite H1. apply Forall_app. split; [done|by repeat constructor].
Qed.

End Reload.

(** ** Overlapping updates *)

(** The demonstration daemon when the control plane has accepted two updates. *)
Definition two_updates (a b : ServerConfig) : ReloadState := {| sy_world := demo_world; sy_reloads := [RRead a; RRead b] |}.
Abbreviation sched_run := (runSched (HO := open_host) [1]).

Lemma sched_reachable a b sched : rtc (step (HO := open_host) [1]) (two_updates a b) (sched_run (two_updates a b) sched).
Proof. apply runSched_steps. Qed.

Lemma quiet_done s : sy_reloads s = [RDone; RDone] -> quiet s.
Proof. unfold quiet. intros ->. by repeat constructor. Qed.

(** If both goroutines stop the daemon before either starts it, the second start replaces
    the references of the first: the services of the first update keep their sockets and
    go on serving its policy, and no later stop can reach them. *)
Theorem overlapping_updates_leak :
  let a := demo_ports 5301 8001 4431 in let b := demo_ports 5302 8002 4432 in
  exists s, rtc (step (HO := open_host) [1]) (two_updates a b) s /\ quiet s /\ zd_cfg (w_zd (sy_world s)) = Some b /\
    pt_bound (w_net (sy_world s)) !! (1%nat, OUdp) = Some (UDP, 5301) /\
    (forall w l, netStop (sy_world s) = Ret (w, l) -> pt_bound (w_net w) !! (1%nat, OUdp) = Some (UDP, 5301)).
Proof.
  cbn zeta. eexists. split; [apply (sched_reachable _ _ [0; 0; 1; 1; 0; 1]%nat)|]. split; [apply quiet_done; vm_compute; reflexivity|].
  split; [vm_compute; reflexivity|].
  split; [vm_compute; reflexivity|]. intros w l. unfold netStop. intros ([zd logs] & _ & H)%bind_Ret_inv.
  apply Ret_inj, (f_equal fst) in H. cbn [fst] in H. rewrite <- H. cbn [w_net close pt_bound].
  rewrite lookup_deletes, decide_False; [vm_compute; reflexivity|]. by apply (bool_decide_eq_true_1 _).
Qed.

(** If the two updates use the same ports, the second start fails on the sockets of the
    first, and so does its roll-back: the daemon serves the first update, records the
    configuration before both, and the control plane has stored the second. *)
Theorem overlapping_updates_lost :
  let a := demo_ports 53 8001 443 in let b := demo_ports 53 8002 443 in
  exists s h, rtc (step (HO := open_host) [1]) (two_updates a b) s /\ quiet s /\ zd_cfg (w_zd (sy_world s)) = Some (demo_ports 53 80 443) /\
    zd_dnsHandler (w_zd (sy_world s)) = Some h /\ h_cfg h = a /\ h_stopped h = false.
Proof.
  cbn zeta. set (s := sched_run (two_updates (demo_ports 53 8001 443) (demo_ports 53 8002 443)) [0; 0; 1; 1; 0; 1; 1]%nat).
  exists s. destruct (zd_dnsHandler (w_zd (sy_world s))) as [h|] eqn:E; [|exfalso; vm_compute in E; discriminate]. exists h.
  split; [apply sched_reachable|]. split; [apply quiet_done; vm_compute; reflexivity|]. split; [vm_compute; reflexivity|]. split; [done|].
  assert (h_cfg <$> zd_dnsHandler (w_zd (sy_world s)) = Some (demo_ports 53 8001 443) /\ h_stopped <$> zd_dnsHandler (w_zd (sy_world s)) = Some false) as [H1 H2]
    by (split; vm_compute; reflexivity).
  rewrite E in H1, H2. split; [exact (Some_inj _ _ H1)|exact (Some_inj _ _ H2)].
Qed.

(** The goroutines start in no particular order: the update that was accepted first can be
    applied last, and the daemon then serves a configuration that is no longer stored. *)
Theorem updates_reordered :
  let a := demo_ports 53 8001 443 in let b := demo_ports 53 8002 443 in
  exists s, rtc (step (HO := open_host) [1]) (two_updates a b) s /\ quiet s /\ serving a (sy_world s).
Proof.
  cbn zeta. set (a := demo_ports 53 8001 443). set (b := demo_ports 53 8002 443).
  assert (bindable (HO := open_host) b) as Hb by (apply demo_bindable; lia). assert (bindable (HO := open_host) a) as Ha by (apply demo_bindable; lia).
  destruct (netReload_serving (HO := open_host) (demo_ports 53 80 443) b demo_world false false [1] demo_serving) as (w1 & c1 & E1 & S1 & _ & N1 & _); [apply demo_bindable; lia|].
  rewrite (N1 Hb) in S1. destruct (netReload_serving (HO := open_host) b a w1 false false [1] S1 Hb) as (w2 & c2 & E2 & S2 & _ & N2 & _). rewrite (N2 Ha) in S2.
  eexists. split; [apply (sched_reachable _ _ ([1; 1; 1; 1] ++ [0; 0; 0; 0])%nat)|]. rewrite runSched_app.
  rewrite (runSched_alone (HO := open_host) [1] (two_updates a b) 1 b w1); [|done..].
  rewrite (runSched_alone (HO := open_host) [1] _ 0 a w2); [|done..]. split; [by repeat constructor|exact S2].
Qed.

(** The server of the old configuration runs first, that of the new one in between. *)
Definition demo_moves : list move := [Bind 0 false; Turn 0 false; Turn 0 true; Turn 7 false; Turn 0 false; Bind 1 false; Turn 0 true].
Lemma lone_update_served_witness :
  let s' := execute (HO := open_host) [1] {| sy_world := demo_world; sy_reloads := [RRead (demo_ports 5353 80 443)] |} demo_moves in
  quiet s' /\ serving (demo_ports 5353 80 443) (sy_world s').
Proof.
  destruct (lone_update_served (HO := open_host) [1] {| sy_world := demo_world; sy_reloads := [] |} (demo_ports 53 80 443) (demo_ports 5353 80 443) demo_moves)
    as (Hq & cfg' & _ & H3 & H2 & _); [constructor|exact demo_serving|apply demo_bindable; lia|apply Nat.leb_le; reflexivity|].
  split; [exact Hq|]. rewrite (H3 ltac:(apply demo_bindable; lia)) in H2. exact H2.
Defined.
