(* ===== verification/Cli.v ===== *)
(** * The command line ([main.go])

    The flags, [init], [config view], [config set] and [start], on a disk of files, down to
    the bytes of the configuration file.  The machine decides which file operations fail. *)
From S2P Require Import Prelude GoStrings NetIP Platform JsonText GoText Config Json JsonValues Wire Firewall Circuit RateLimiter AuditLog Cache Server Secrets HttpProxy Sni Validation ControlPlane StoredConfig Dnssec Query0x20 Handler Daemon Services.

(** [statFails] and [readFails]: a file that exists cannot be examined or read;
    [writeFails]: the error of writing a file, and whether the file was already truncated;
    [UserHomeDir] is [None] on an error. *)
Class Machine := {
  statFails : gostring -> bool;
  readFails : gostring -> bool;
  writeFails : gostring -> option (gostring * bool);
  TempDir : gostring;
  UserHomeDir : option gostring;
}.

(** What a command does besides changing files: text, log lines, and what the control plane
    does with its socket. *)
Inductive output : Type := Print (text : bytes) | Usage | Logged (c : call) | Did (e : cpEffect).

Section Cli.
Context {MA : Machine} {U : Unicode} {JL : JsonLib}.

Definition println (text : bytes) : output := Print (text ++ [10]).

(** The JSON literals of the source, whose quotes are written as apostrophes here. *)
Definition jsonText (s : gostring) : bytes := map (fun c => if decide (c = 39) then 34 else c) s.

Definition getHomeConfigDir : gostring := filepathJoin [default (gs ".") UserHomeDir; gs ".ottergate"].

(** [os.ReadFile] *)
Definition readConfig (d : disk) (path : gostring) : option bytes := if readFails path then None else d !! path.

(** The tree of a map, which may be nil. *)
Definition mapTree (m : option object) : tree := treeOf (from_option JObj JNull m).

Definition saveConfig (d : disk) (configPath : gostring) (data : object) : option gostring * disk :=
  match writeFails configPath with
  | Some (e, truncated) => (Some e, if truncated then <[configPath := []]> d else d)
  | None => (None, <[configPath := indentText (treeOf (JObj data))]> d)
  end.

(** The exit status, the disk and the output of a command. *)
Abbreviation exited := (Z * disk * list output)%type.
Definition printUsage (d : disk) : exited := (0, d, [Usage]).

(** ** [init] *)

Definition defaultSocket : gostring := filepathJoin [TempDir; gs "ottergate-cp.sock"].
Definition defaultConf : object :=
  {[ gs "port" := JNum 53; gs "httpPort" := JNum 80; gs "httpsPort" := JNum 443; gs "upstreamHttpProxy" := JStr []; gs "upstreamHttpsProxy" := JStr [];
     gs "upstreamNoProxy" := JStr []; gs "fallbackDns" := JStr (gs "1.1.1.1"); gs "maxTcpConnections" := JNum 100; gs "tcpIdleTimeoutMs" := JNum 30000;
     gs "controlPlane" := JObj {[ gs "enabled" := JBool true; gs "socketPath" := JStr defaultSocket ]};
     gs "firewall" := JObj {[ gs "defaultPolicy" := JStr (gs "deny"); gs "allowlist_ips" := JArr [JStr (gs "127.0.0.1")] ]};
     gs "hosts" := JObj ∅ ]}.

(** In a Go raw string the two characters of [\n] stand for themselves. *)
Definition rawNewline : bytes := [92; 110].

Definition handleInit (d : disk) (configPath : gostring) (isJson : bool) : exited :=
  if bool_decide (is_Some (d !! configPath)) && negb (statFails configPath) then
    (1, d, [if isJson then println (jsonText (gs "{'success':false,'error':'Configuration already exists'}"))
            else Logged (CallError (gs "Configuration already exists at " ++ configPath))])
  else
    match saveConfig d configPath defaultConf with
    | (Some e, d) =>
        (1, d, [if isJson then Print (jsonText (gs "{'success':false,'error':") ++ Quote e ++ gs "}")
                else Logged (CallError (gs "Failed to write configuration file at " ++ configPath ++ gs ": " ++ e))])
    | (None, d) =>
        (0, d, if isJson then
                 [Print (jsonText (gs "{'success':true,'action':'init','path':") ++ Quote configPath ++ jsonText (gs ",'config':") ++
                         compactText (treeOf (JObj defaultConf)) ++ gs "}" ++ rawNewline)]
               else
                 [Logged (CallSystem (gs "Initialized secure default configuration at " ++ configPath));
                  Logged (CallSystem (gs "Security Notice: Default HTTP/HTTPS ports mapped to 80/443."));
                  Logged (CallSystem (gs "If executing within a non-root sandbox, mutate config.json to unprivileged ports (e.g. 8080/8443) to prevent EACCES binding faults."))])
    end.

(** ** [config] *)

Definition handleView (d : disk) (configPath : gostring) (isJson : bool) : exited :=
  if bool_decide (d !! configPath = None) && negb (statFails configPath) then
    (1, d, [if isJson then println (jsonText (gs "{'success':false,'error':'No configuration found. Run init first.'}"))
            else Logged (CallError (gs "No configuration found at " ++ configPath ++ gs ". Run 'ottergate init' first."))])
  else
    match readConfig d configPath with
    | None => (1, d, [])
    | Some data =>
        (0, d, [println (if isJson then compactText (mapTree (snd (unmarshalMap data))) else data)])
    end.

Definition handleSet (d : disk) (configPath key value : gostring) (isJson : bool) : go exited :=
  match loadConfig (readConfig d configPath) with
  | inl _ => Ret (1, d, [])
  | inr currentConfig =>
      m ← setDeepValue currentConfig key value;
      Ret (match saveConfig d configPath m with
           | (Some e, d) =>
               (1, d, [if isJson then Print (jsonText (gs "{'success':false,'error':") ++ Quote e ++ gs "}" ++ rawNewline)
                       else Logged (CallError (gs "Failed to save config: " ++ e))])
           | (None, d) =>
               (0, d, [if isJson then Print (jsonText (gs "{'success':true,'action':'set','key':") ++ Quote key ++ jsonText (gs ",'value':") ++
                                             Quote value ++ gs "}" ++ rawNewline)
                       else Logged (CallSystem (gs "Updated configuration: " ++ key ++ gs " = " ++ value))])
           end)
  end.

Definition handleConfig (d : disk) (configPath : gostring) (args : list gostring) (isJson : bool) : go exited :=
  match args with
  | [] => Ret (printUsage d)
  | subCmd :: rest =>
      if decide (subCmd = gs "view") then Ret (handleView d configPath isJson)
      else if decide (subCmd = gs "set") then
        match rest with
        | key :: value :: _ => handleSet d configPath key value isJson
        | _ => Ret (1, d, [if isJson then println (jsonText (gs "{'success':false,'error':'Missing key or value'}"))
                           else Logged (CallError (gs "Usage: ottergate config set <key> <value>"))])
        end
      else Ret (printUsage d)
  end.

(** ** [start] *)

Context {UR : Url} {AE : Aead} {MR : MapRange} {HO : Host}.

(** What the start finds besides the disk: the environment's key and the random bytes,
    whether the HTTP server binds early, and the control plane's listener. *)
Record Boot := { bt_env : gostring; bt_token : bytes; bt_secret : bytes; bt_early : bool; bt_stale : bool; bt_bind : option gostring }.

(** The exit status, or the daemon and the control plane that run. *)
Inductive started : Type := Stopped (code : Z) | Engine (cfg : ServerConfig) (w : World) (cp : option ControlPlane).

Definition keyNotice (cp : ControlPlane) (ephemeral : bool) : list output :=
  if ephemeral then
    [Logged (CallSystem (gs "[SECURITY] Generated Ephemeral API Key for this session: " ++ cn_apiKey cp));
     Logged (CallSystem (gs "[SECURITY] Do not lose this key. It will not be shown again."))]
  else [Logged (CallSystem (gs "[SECURITY] Control Plane using static API Key from configuration."))].
Definition awaiting : output := Logged (CallSystem (gs "Initialization complete. Awaiting connections...")).

(** From the configuration to the services. *)
Definition startServices (bt : Boot) (configPath : gostring) (serverConfig : ServerConfig) : go (started * list output) :=
  '(err, w, logs) ← netStart bootWorld (bt_early bt) (bt_secret bt) serverConfig;
  match err with
  | Some e => Ret (Stopped 1, map Logged logs ++ [Logged (CallError (gs "Fatal bind error during initialization: " ++ e))])
  | None =>
      boot ← bootControlPlane (bt_env bt) (bt_token bt) serverConfig configPath;
      match boot with
      | None => Ret (Engine serverConfig w None, map Logged logs ++ [awaiting])
      | Some (cp, ephemeral) =>
          let '(err, cp, effects, _) := cpStart cp (bt_stale bt) (bt_bind bt) in
          let cpLogs := map (fun e => match e with CpLog c => Logged c | _ => Did e end) effects in
          match err with
          | Some e =>
              '(_, stopLogs) ← netStop w;
              Ret (Stopped 1, map Logged logs ++ cpLogs ++ [Logged (CallError (gs "Failed to start Control Plane: " ++ e))] ++ map Logged stopLogs)
          | None => Ret (Engine serverConfig w (Some cp), map Logged logs ++ cpLogs ++ keyNotice cp ephemeral ++ [awaiting])
          end
      end
  end.

Definition startEngine (d : disk) (bt : Boot) (configPath portOverride cpPortOverride : gostring) : go (started * list output) :=
  match loadConfig (readConfig d configPath) with
  | inl e => Ret (Stopped 1, [Logged (CallError (gs "Failed to load config: " ++ e))])
  | inr currentConfig =>
      currentConfig ← applyOverrides currentConfig portOverride cpPortOverride;
      match ParseServerConfig (compactText (mapTree currentConfig)) with
      | inl e => Ret (Stopped 1, [Logged (CallError (gs "Configuration Schema Violation: " ++ e))])
      | inr serverConfig => startServices bt configPath serverConfig
      end
  end.

(** The end, after a signal: the exit status is 0 unless the stops take ten seconds. *)
Definition shutdown (w : World) (cp : option ControlPlane) (timedOut : bool) : go (Z * World) :=
  '(w, _) ← netStop w;
  _ ← match cp with None => Ret tt | Some cp => _ ← cpStop cp; Ret tt end;
  Ret (if timedOut then 1 else 0, w).

(** ** The flags *)

Record Flags := { fl_config : gostring; fl_json : bool; fl_port : gostring; fl_cpPort : gostring }.
Definition defaultFlags : Flags := {| fl_config := filepathJoin [getHomeConfigDir; gs "config.json"]; fl_json := false; fl_port := []; fl_cpPort := [] |}.

(** [strconv.ParseBool] *)
Definition ParseBool (s : gostring) : option bool :=
  if decide (s ∈ [gs "1"; gs "t"; gs "T"; gs "true"; gs "TRUE"; gs "True"]) then Some true
  else if decide (s ∈ [gs "0"; gs "f"; gs "F"; gs "false"; gs "FALSE"; gs "False"]) then Some false
  else None.

(** [None] for a flag that takes no value from the next argument. *)
Definition setString (fl : Flags) (name : gostring) : option (gostring -> Flags) :=
  if decide (name ∈ [gs "config"; gs "c"]) then
    Some (fun v => {| fl_config := v; fl_json := fl_json fl; fl_port := fl_port fl; fl_cpPort := fl_cpPort fl |})
  else if decide (name ∈ [gs "port"; gs "p"]) then
    Some (fun v => {| fl_config := fl_config fl; fl_json := fl_json fl; fl_port := v; fl_cpPort := fl_cpPort fl |})
  else if decide (name = gs "cp-port") then
    Some (fun v => {| fl_config := fl_config fl; fl_json := fl_json fl; fl_port := fl_port fl; fl_cpPort := v |})
  else None.
Definition setJson (fl : Flags) (b : bool) : Flags := {| fl_config := fl_config fl; fl_json := b; fl_port := fl_port fl; fl_cpPort := fl_cpPort fl |}.

(** The name and the value after the dashes: [name=value] or [name]. *)
Definition cutFlag (s : gostring) : gostring * option gostring :=
  match IndexByte (drop 1 s) 61 with
  | Some i => (take (Z.to_nat (i + 1)) s, Some (drop (Z.to_nat (i + 2)) s))
  | None => (s, None)
  end.

(** [flag.Parse]: the flags and the remaining arguments; [None] is an error or [-h], both
    of which end in the usage.  The first argument that is no flag ends the flags. *)
Fixpoint parseFlags (fl : Flags) (args : list gostring) : option (Flags * list gostring) :=
  match args with
  | (45 :: (_ :: _) as body) :: rest =>
      if decide (body = [45]) then Some (fl, rest)
      else
        let name := match body with 45 :: n => n | _ => body end in
        if bool_decide (HasPrefix name (gs "-") = true \/ HasPrefix name (gs "=") = true) then None
        else
          let '(name, value) := cutFlag name in
          if decide (name = gs "json") then
            match value with
            | None => parseFlags (setJson fl true) rest
            | Some v => match ParseBool v with Some b => parseFlags (setJson fl b) rest | None => None end
            end
          else
            match setString fl name, value with
            | None, _ => None
            | Some set, Some v => parseFlags (set v) rest
            | Some set, None => match rest with v :: rest => parseFlags (set v) rest | [] => None end
            end
  | _ => Some (fl, args)
  end.

(** ** [main] *)

Inductive command : Type := CmdUsage | CmdInit | CmdConfig (args : list gostring) | CmdStart.
Definition dispatch (args : list gostring) : Flags * command :=
  match parseFlags defaultFlags args with
  | None => (defaultFlags, CmdUsage)
  | Some (fl, []) => (fl, CmdUsage)
  | Some (fl, command :: args) =>
      (fl, if decide (command = gs "init") then CmdInit
           else if decide (command = gs "config") then CmdConfig args
           else if decide (command = gs "start") then CmdStart
           else CmdUsage)
  end.

(** The end of a command, or the engine that it started. *)
Definition main (d : disk) (bt : Boot) (args : list gostring) : go (started * disk * list output) :=
  let exit (x : exited) : started * disk * list output := let '(code, d, out) := x in (Stopped code, d, out) in
  let '(fl, cmd) := dispatch args in
  match cmd with
  | CmdUsage => Ret (exit (printUsage d))
  | CmdInit => Ret (exit (handleInit d (fl_config fl) (fl_json fl)))
  | CmdConfig args => x ← handleConfig d (fl_config fl) args (fl_json fl); Ret (exit x)
  | CmdStart => '(s, out) ← startEngine d bt (fl_config fl) (fl_port fl) (fl_cpPort fl); Ret (s, d, out)
  end.

End Cli.

(** ** Starting *)

Ltac literal_ok := by apply (bool_decide_eq_true_1 _).

Section CliFacts.
Context {MA : Machine} {U : Unicode} {JL : JsonLib} {UR : Url} {AE : Aead} {MR : MapRange} {HO : Host}.
Context (HU : forall r, ~ 65 <= unicode_ToLower r <= 90).

Lemma startServices_serving bt path cfg s out cfg' w cp :
  startServices bt path cfg = Ret (s, out) -> s = Engine cfg' w cp -> cfg' = cfg /\ serving cfg w.
Proof.
  intros H ->. unfold startServices in H. destruct (netStart_spec bootWorld (bt_early bt) (bt_secret bt) cfg eq_refl) as (err & w1 & logs & E & Hs).
  rewrite E, bind_Ret in H. destruct err as [e|]; [done|]. apply bind_Ret_inv in H as (boot & _ & H).
  destruct boot as [[cp1 eph]|]; [|by simplify_eq]. destruct (cpStart cp1 _ _) as [[[err2 cp2] effs] tls]. destruct err2 as [e|]; [|by simplify_eq].
  by apply bind_Ret_inv in H as ([? ?] & _ & H).
Qed.

(** An engine that starts serves a configuration that the validator accepted, with
    the sockets of that configuration in its hands; everything else ends the process. *)
Theorem start_serves_validated d bt path port cpPort cfg w cp out :
  startEngine d bt path port cpPort = Ret (Engine cfg w cp, out) ->
  serving cfg w /\ ValidateServerConfig cfg = inr cfg /\ exists c, ValidateServerConfig c = inr cfg.
Proof.
  unfold startEngine. destruct (loadConfig _) as [e|m]; [done|]. intros (m' & _ & H)%bind_Ret_inv.
  destruct (ParseServerConfig _) as [e|c] eqn:Ep; [done|]. destruct (startServices_serving _ _ _ _ _ _ _ _ H eq_refl) as [-> Hs].
  split; [done|]. unfold ParseServerConfig in Ep. apply bind_ok in Ep as (c0 & _ & Hv). split; [|eauto].
  apply ValidateServerConfig_inv in Hv as (_ & Hs' & ? & ? & ? & ? & ? & ? & Hn & Hh); [|done]. by apply ValidateServerConfig_fix.
Qed.

(** *** Without a file *)

Lemma zero_port_invalid c : cfg_Port c = 0 -> exists e, ValidateServerConfig c = inl e.
Proof.
  intros H. unfold ValidateServerConfig, validateSections, ValidatePort. rewrite H. rewrite (decide_True (P := 0 < 1 \/ 0 > 65535)) by lia. by eexists.
Qed.

Lemma applyOverrides_none m : applyOverrides m [] [] = Ret m.
Proof. unfold applyOverrides. rewrite decide_False by tauto. by rewrite bind_Ret, decide_False by tauto. Qed.

(** The engine does not start without a configuration file: the empty configuration has no
    port. *)
Theorem start_without_file d bt path :
  readConfig d path = None -> exists e, startEngine d bt path [] [] = Ret (Stopped 1, [Logged (CallError (gs "Configuration Schema Violation: " ++ e))]).
Proof.
  intros Hr. unfold startEngine. rewrite Hr. cbn [loadConfig]. rewrite applyOverrides_none, bind_Ret.
  assert (unmarshalServerConfig (compactText (mapTree (Some ∅))) = inr zeroServerConfig) as E by (vm_compute; reflexivity).
  unfold ParseServerConfig. rewrite E. cbn [mbind sum_bind]. destruct (zero_port_invalid zeroServerConfig eq_refl) as [e ->]. by exists e.
Qed.

(** *** After [init] *)

(** The configuration that [init] writes, as the engine reads it. *)
Definition initConfig : ServerConfig :=
  {| cfg_Port := 53; cfg_HttpPort := Some 80; cfg_HttpsPort := Some 443; cfg_Tls := None; cfg_DotPort := None; cfg_DohPort := None;
     cfg_FallbackDns := gs "1.1.1.1";
     cfg_Firewall := Some {| fw_DefaultPolicy := gs "deny"; fw_AllowlistDomains := []; fw_BlocklistDomains := []; fw_AllowlistRanges := []; fw_BlocklistRanges := [];
                             fw_AllowlistIps := [gs "127.0.0.1"]; fw_BlocklistIps := [] |};
     cfg_ControlPlane := Some {| cp_Enabled := Some true; cp_Port := 0; cp_SocketPath := defaultSocket; cp_ApiKey := []; cp_Tls := None |};
     cfg_DnsCacheMaxSize := 1024; cfg_DnsCacheTtlMs := 0; cfg_MaxTcpConnections := 100; cfg_TcpIdleTimeoutMs := 30000; cfg_RateLimitMaxRequests := 0;
     cfg_RateLimitWindowMs := 1000; cfg_UpstreamHttpProxy := []; cfg_UpstreamHttpsProxy := []; cfg_UpstreamNoProxy := []; cfg_Hosts := ∅ |}.

Lemma range_empty {A} : range (∅ : gmap gostring A) = [].
Proof. apply Permutation_nil. rewrite range_perm, map_to_list_empty. done. Qed.

(** Before the validator fills in the defaults. *)
Definition initDecoded : ServerConfig :=
  {| cfg_Port := 53; cfg_HttpPort := Some 80; cfg_HttpsPort := Some 443; cfg_Tls := None; cfg_DotPort := None; cfg_DohPort := None;
     cfg_FallbackDns := gs "1.1.1.1"; cfg_Firewall := cfg_Firewall initConfig; cfg_ControlPlane := cfg_ControlPlane initConfig;
     cfg_DnsCacheMaxSize := 0; cfg_DnsCacheTtlMs := 0; cfg_MaxTcpConnections := 100; cfg_TcpIdleTimeoutMs := 30000; cfg_RateLimitMaxRequests := 0;
     cfg_RateLimitWindowMs := 0; cfg_UpstreamHttpProxy := []; cfg_UpstreamHttpsProxy := []; cfg_UpstreamNoProxy := []; cfg_Hosts := ∅ |}.

Lemma init_decodes : unmarshalTree (treeOf (JObj defaultConf)) = Some initDecoded.
Proof. unfold defaultConf, initDecoded, initConfig. generalize defaultSocket. intros s. vm_compute. reflexivity. Qed.
Lemma init_storable : string_ok defaultSocket -> storable maxNestingDepth (JObj defaultConf).
Proof.
  intros Hs. pose proof max_depth. destruct maxNestingDepth as [|[|[|d]]]; [lia..|].
  repeat first [apply storable_insert | apply storable_empty | apply storable_bool | apply storable_num; split; vm_compute; congruence
    | by apply storable_str | apply storable_str; literal_ok | apply (storable_strs _ [gs "127.0.0.1"]); apply Forall_singleton | literal_ok].
Qed.
Lemma init_accepted : ValidateServerConfig initDecoded = inr initConfig.
Proof. unfold ValidateServerConfig. cbn [cfg_Hosts initDecoded]. rewrite range_empty. vm_compute. reflexivity. Qed.

Lemma boot_socket env token cfg path cp eph c :
  bootControlPlane env token cfg path = Ret (Some (cp, eph)) -> cfg_ControlPlane cfg = Some c -> cn_socketPath cp = cp_SocketPath c.
Proof.
  unfold bootControlPlane. destruct (cpEnabled cfg); [|done]. destruct (chooseApiKey env token cfg) as [k e]. intros (salt & _ & H)%bind_Ret_inv Hc.
  apply bind_Ret_inv in H as (cp0 & H0 & H). simplify_eq. unfold NewControlPlane in H0. apply bind_Ret_inv in H0 as (k1 & _ & H0).
  apply bind_Ret_inv in H0 as (k2 & _ & H0). simplify_eq. cbn. by rewrite Hc.
Qed.

Lemma cpStart_ok cp stale : exists cp' effs tls, cpStart cp stale None = (None, cp', effs, tls) /\ cp' = with_tlsActive cp (cn_tlsActive cp') /\
  (cn_socketPath cp <> [] -> CpListenUnix (cn_socketPath cp) ∈ effs /\ forall addr, CpListenTcp addr ∉ effs).
Proof.
  unfold cpStart. change (cn_socketPath (with_tlsActive cp _)) with (cn_socketPath cp). case_decide as Hs; eexists _, _, _; (split; [done|]); (split; [by destruct cp|]); [|done].
  intros _. clear HU. destruct stale; set_solver.
Qed.

(** Starting from a stored map. *)
Lemma startEngine_stored d bt path data m :
  readConfig d path = Some data -> loadConfig (Some data) = inr (Some m) -> storable maxNestingDepth (JObj m) ->
  startEngine d bt path [] [] =
    match unmarshalTree (treeOf (JObj m)) with
    | None => Ret (Stopped 1, [Logged (CallError (gs "Configuration Schema Violation: " ++ typeError (treeOf (JObj m))))])
    | Some c =>
        match ValidateServerConfig c with
        | inl e => Ret (Stopped 1, [Logged (CallError (gs "Configuration Schema Violation: " ++ e))])
        | inr cfg => startServices bt path cfg
        end
    end.
Proof.
  intros Hr Hl Hs. unfold startEngine. rewrite Hr, Hl, applyOverrides_none, bind_Ret. unfold mapTree. cbn [from_option].
  unfold ParseServerConfig, unmarshalServerConfig. rewrite parseJson_compact by apply Hs. destruct (unmarshalTree _); done.
Qed.

(** The control plane listens on the Unix socket [path], and on no network address. *)
Definition listensOn (path : gostring) (out : list output) : Prop :=
  Did (CpListenUnix path) ∈ out /\ forall addr, Did (CpListenTcp addr) ∉ out.

Lemma did_listen path effs (f : cpEffect -> output) (pre post : list output) :
  f = (fun e => match e with CpLog c => Logged c | _ => Did e end) ->
  CpListenUnix path ∈ effs -> (forall addr, CpListenTcp addr ∉ effs) -> Forall (fun o => match o with Did _ => False | _ => True end) (pre ++ post) ->
  listensOn path (pre ++ map f effs ++ post).
Proof.
  intros -> Hu Ht Hpp. split.
  - apply elem_of_app. right. apply elem_of_app. left. apply list_elem_of_fmap. by exists (CpListenUnix path).
  - intros addr Hin. rewrite !elem_of_app in Hin. rewrite Forall_forall in Hpp. destruct Hin as [Hin|[Hin|Hin]].
    + by apply (Hpp (Did (CpListenTcp addr))), elem_of_app; left.
    + apply list_elem_of_fmap in Hin as (e & He & Hin). destruct e; try done. injection He as ->. by eapply Ht.
    + by apply (Hpp (Did (CpListenTcp addr))), elem_of_app; right.
Qed.

Lemma no_did_logs (l : list call) : Forall (fun o => match o with Did _ => False | _ => True end) (map Logged l).
Proof. by apply Forall_map, Forall_true. Qed.

Lemma boot_key env token cfg path cp eph c :
  bootControlPlane env token cfg path = Ret (Some (cp, eph)) -> cfg_ControlPlane cfg = Some c -> cp_ApiKey c = [] -> env = [] -> cn_apiKey cp = HexEncode token.
Proof.
  unfold bootControlPlane. destruct (cpEnabled cfg); [|done]. unfold chooseApiKey. intros H Hc Hk ->. rewrite Hc, Hk in H.
  destruct (decide ([] <> [])) as [Hx|_]; [by destruct Hx|]. rewrite decide_True in H by done.
  apply bind_Ret_inv in H as (salt & _ & H). apply bind_Ret_inv in H as (cp0 & H0 & H). simplify_eq. unfold NewControlPlane in H0.
  apply bind_Ret_inv in H0 as (k1 & _ & H0). apply bind_Ret_inv in H0 as (k2 & _ & H0). by simplify_eq.
Qed.

(** C15: [init] on a machine without a configuration, followed by [start] without options,
    brings up the whole system, provided that the ports 53, 80 and 443 are free and the
    file and the control plane's socket can be made.  The file that was written is
    accepted; the daemon runs with the deny policy, the DNS and SNI sockets are bound when
    [start] returns, and once the HTTP server's goroutine has run the process holds exactly
    its four sockets; the control plane listens on its Unix socket and on no network
    address, with the generated key if the environment sets none. *)
Theorem init_then_start d bt path isJson :
  d !! path = None -> writeFails path = None -> readFails path = false -> string_ok defaultSocket -> defaultSocket <> [] ->
  bindable initConfig -> length (bt_token bt) = 16%nat -> bt_bind bt = None ->
  exists d' out w cp out', handleInit d path isJson = (0, d', out) /\ startEngine d' bt path [] [] = Ret (Engine initConfig w (Some cp), out') /\
    serving initConfig w /\ allBound initConfig (settle w) /\ listensOn defaultSocket out' /\ (bt_env bt = [] -> cn_apiKey cp = HexEncode (bt_token bt)).
Proof.
  intros Hd Hw Hr Hsock Hne Hb Ht Hbind. unfold handleInit, saveConfig. rewrite Hd, Hw. rewrite bool_decide_false by (by intros [? [=]]). cbn [andb].
  set (data := indentText (treeOf (JObj defaultConf))). exists (<[path := data]> d). pose proof (init_storable Hsock) as Hst.
  rewrite (startEngine_stored _ bt path data defaultConf); [|unfold readConfig; rewrite Hr; apply lookup_insert_eq|by apply loadConfig_stored|done].
  rewrite init_decodes, init_accepted.
  unfold startServices. destruct (netStart_ok bootWorld (bt_early bt) (bt_secret bt) initConfig eq_refl Hb) as (w & logs & -> & Hs & Ho). rewrite bind_Ret.
  destruct (boot_key_accepted (bt_env bt) (bt_token bt) initConfig path) as (cp & eph & Hboot & _); [reflexivity|done|]. rewrite Hboot, bind_Ret, Hbind.
  pose proof (boot_socket _ _ _ _ _ _ _ Hboot eq_refl) as Hsk. cbn in Hsk.
  destruct (cpStart_ok cp (bt_stale bt)) as (cp' & effs & tls & -> & Hcp & Hl). eexists _, w, cp', _. split; [done|]. split; [done|]. split; [done|].
  split; [by apply online_settle|]. rewrite Hsk in Hl. destruct (Hl Hne) as [Hu Htcp]. split.
  - apply did_listen; [done|done|done|]. apply Forall_app. split; [apply no_did_logs|]. apply Forall_app. split; [|by repeat constructor]. unfold keyNotice. destruct eph; by repeat constructor.
  - intros He. rewrite Hcp. by apply (boot_key _ _ _ _ _ _ _ Hboot eq_refl).
Qed.

(** [init] never replaces a configuration, and a failed command changes no other file. *)
Theorem init_keeps_files d path isJson code d' out :
  handleInit d path isJson = (code, d', out) ->
  (forall p, p <> path -> d' !! p = d !! p) /\ (statFails path = false -> forall data, d !! path = Some data -> code = 1 /\ d' = d).
Proof.
  unfold handleInit. destruct (bool_decide _ && _) eqn:E; [by intros [= <- <- <-]|].
  unfold saveConfig. intros H. assert (d' = d \/ exists x, d' = <[path := x]> d) as Hd' by (destruct (writeFails path) as [[e []]|]; simplify_eq; eauto).
  split.
  - intros p Hp. destruct Hd' as [-> |[x ->]]; [done|]. by rewrite lookup_insert_ne.
  - intros Hs data Hd. rewrite Hd, Hs in E. by rewrite bool_decide_true in E.
Qed.

(** *** After [config set] *)

Lemma itoa_not_word n w : 0 <= n -> (exists c t, gs w = c :: t /\ ~ 48 <= c <= 57) -> itoa n <> gs w.
Proof. intros Hn (c & t & E & Hc) H. pose proof (itoa_digits n Hn) as Hd. rewrite H, E in Hd. apply Forall_cons in Hd as [Hd _]. lia. Qed.

Lemma parseValue_itoa n : 0 <= n < 2 ^ 63 -> parseValue (itoa n) = JNum n.
Proof.
  intros Hn. unfold parseValue. rewrite decide_False by (apply itoa_not_word; [lia|exists 116, (gs "rue"); split; [done|lia]]).
  rewrite decide_False by (apply itoa_not_word; [lia|exists 102, (gs "alse"); split; [done|lia]]). by rewrite Atoi_itoa.
Qed.

Lemma ValidateServerConfig_port c c' : ValidateServerConfig c = inr c' -> cfg_Port c' = cfg_Port c.
Proof.
  unfold ValidateServerConfig. intros (_ & H)%bind_unit. do 6 (apply bind_ok in H as (? & _ & H)). apply if_ok in H as [_ H].
  by apply bind_ok in H as (hosts & _ & [= <-]).
Qed.

Lemma decode_port (m : object) c n :
  unmarshalTree (treeOf (JObj m)) = Some c -> m !! gs "port" = Some (JNum n) -> exact n ->
  (forall k v, m !! k = Some v -> foldName k = foldName (gs "port") -> k = gs "port") -> cfg_Port c = n.
Proof.
  unfold unmarshalTree. cbn [treeOf decStruct]. intros H Hp Hn Hu. unfold decodeServerConfig in H. apply bind_Some in H as (port & Hport & H).
  do 18 (apply bind_Some in H as (? & _ & H)). injection H as <-. cbn [cfg_Port]. unfold field in Hport.
  rewrite (fieldValues_single _ _ (intTree n)) in Hport; [|apply entries_NoDup|apply elem_of_entries; by rewrite lookup_fmap, Hp|].
  - cbn in Hport. rewrite Atoi_fmt_d in Hport by (unfold int_ok, exact in *; lia). by injection Hport.
  - intros k t Hin. apply elem_of_entries in Hin. rewrite lookup_fmap in Hin. destruct (m !! k) as [v|] eqn:E; [|done]. eauto.
Qed.

(** The value is in the file, byte for byte. *)
Lemma handleSet_stored d path data m key value isJson d' out :
  d !! path = Some data -> readFails path = false -> loadConfig (Some data) = inr (Some m) -> handleSet d path key value isJson = Ret (0, d', out) ->
  readConfig d' path = Some (indentText (treeOf (JObj (setParts m (Split key dot) (parseValue value))))).
Proof.
  intros Hd Hr Hl H. unfold handleSet, readConfig in *. rewrite Hr in *. rewrite Hd, Hl in H. cbn [setDeepValue] in H. rewrite bind_Ret in H. unfold saveConfig in H.
  destruct (writeFails path) as [[e []]|]; simplify_eq. apply lookup_insert_eq.
Qed.

(** [config set] is kept by the file: a later command loads the file that was written,
    finds the value under its dotted path, and every path that is neither a prefix nor an
    extension of it as it was before. *)
Theorem config_set_kept d path data m key value isJson d' out :
  d !! path = Some data -> bytes_ok data -> readFails path = false -> loadConfig (Some data) = inr (Some m) ->
  Forall string_ok (Split key dot) -> (length (Split key dot) <= maxNestingDepth)%nat -> string_ok value -> (forall n, Atoi value = Some n -> exact n) ->
  handleSet d path key value isJson = Ret (0, d', out) ->
  exists m', loadConfig (readConfig d' path) = inr (Some m') /\ getParts m' (Split key dot) = Some (parseValue value) /\
    forall key', ~ Split key dot `prefix_of` Split key' dot -> ~ Split key' dot `prefix_of` Split key dot ->
      getParts m' (Split key' dot) = getParts m (Split key' dot).
Proof.
  intros Hd Hb Hr Hl Hk Hlen Hv Hn Hset. rewrite (handleSet_stored _ _ _ _ _ _ _ _ _ Hd Hr Hl Hset). eexists. split; [|split].
  - apply loadConfig_stored, setParts_storable; [by eapply loadConfig_storable|done|done|by apply parseValue_storable].
  - apply getParts_set, Split_nonnil.
  - intros. by apply getParts_other.
Qed.

(** What [config set] stores is what [start] serves: after setting the port, an engine
    that starts from the file listens on that port, whatever else the file holds. *)
Theorem set_port_served d bt path data m n isJson d' out cfg w cp out' :
  0 <= n <= 2 ^ 53 -> d !! path = Some data -> bytes_ok data -> readFails path = false -> loadConfig (Some data) = inr (Some m) ->
  (forall k v, m !! k = Some v -> foldName k = foldName (gs "port") -> k = gs "port") ->
  handleSet d path (gs "port") (itoa n) isJson = Ret (0, d', out) ->
  startEngine d' bt path [] [] = Ret (Engine cfg w cp, out') -> cfg_Port cfg = n /\ serving cfg w.
Proof.
  intros Hn Hd Hb Hr Hl Hu Hset Hstart. pose proof (handleSet_stored _ _ _ _ _ _ _ _ _ Hd Hr Hl Hset) as Hread. rewrite parseValue_itoa in Hread by lia.
  change (setParts m (Split (gs "port") dot) (JNum n)) with (<[gs "port" := JNum n]> m) in Hread.
  assert (exact n) as He by (unfold exact; lia). assert (storable maxNestingDepth (JObj (<[gs "port" := JNum n]> m))) as Hst.
  { pose proof (loadConfig_storable _ _ Hb Hl) as Hm. pose proof max_depth. destruct maxNestingDepth; [lia|]. apply storable_insert; [done|literal_ok|by apply storable_num]. }
  rewrite (startEngine_stored _ bt path _ _ Hread (loadConfig_stored _ Hst) Hst) in Hstart. destruct (unmarshalTree _) as [c|] eqn:Ec; [|done].
  destruct (ValidateServerConfig c) as [e|c'] eqn:Ev; [done|]. destruct (startServices_serving _ _ _ _ _ _ _ _ Hstart eq_refl) as [-> Hs]. split; [|done].
  rewrite (ValidateServerConfig_port _ _ Ev). apply (decode_port _ c n Ec); [apply lookup_insert_eq|done|].
  intros k v Hk Hf. apply lookup_insert_Some in Hk as [[<- _]|[_ Hk]]; [done|eauto].
Qed.

(** *** After an update *)

Lemma encryptHeaders_ok (fits : Z -> Prop) key nonces c : @ints_fit fits c -> @ints_fit fits (encryptHeaders key nonces c).
Proof.
  intros (H1 & H2 & H3 & H4). split; [done|]. split; [done|]. split; [done|]. intros k h. cbn. rewrite map_lookup_imap.
  destruct (cfg_Hosts c !! k) as [h0|] eqn:E; [|done]. simpl. intros [= <-]. destruct (H4 k h0 E) as (R1 & R2 & R3). split; [done|]. split; [|done].
  cbn. intros p. destruct (hc_HttpProxy h0) as [p0|]; [|done]. intros [= <-]. by apply (R2 p0).
Qed.

(** The file of a configuration, loaded as a map. *)
Lemma loadConfig_encoded c : wf_config c -> @ints_fit exact c ->
  exists m, loadConfig (Some (encodeConfig c)) = inr (Some m) /\ storable maxNestingDepth (JObj m) /\ unmarshalTree (treeOf (JObj m)) = Some c.
Proof.
  intros Hw He. set (t := TObj (encodeServerConfig c)). pose proof (config_good c (wf_utf8 c Hw)) as Hg. fold t in Hg.
  assert (JObj (asObject (ofTree t)) = ofTree t) as Hm by done. exists (asObject (ofTree t)). rewrite Hm. split; [|split].
  - assert (unmarshalMap (encodeConfig c) = (if numbersOk t then None else Some (typeError t), Some (asObject (ofTree t)))) as E
      by (unfold unmarshalMap, encodeConfig; fold t; by rewrite parseJson_encoder).
    unfold loadConfig. by rewrite E, (exact_numbersOk c He : numbersOk t = true).
  - by apply storable_ofTree.
  - exact (unmarshal_encoded transport_interface c He).
Qed.

Lemma bootControlPlane_returns env token cfg path : length token = 16%nat -> exists boot, bootControlPlane env token cfg path = Ret boot.
Proof.
  intros Ht. destruct (cpEnabled cfg) eqn:E; [|eexists; unfold bootControlPlane; by rewrite E].
  destruct (boot_key_accepted env token cfg path E Ht) as (cp & eph & -> & _). eauto.
Qed.

Lemma startServices_ok bt path cfg :
  bindable cfg -> length (bt_token bt) = 16%nat -> bt_bind bt = None ->
  exists w cp out, startServices bt path cfg = Ret (Engine cfg w cp, out) /\ serving cfg w /\ online cfg w.
Proof.
  intros Hb Ht Hbind. unfold startServices. destruct (netStart_ok bootWorld (bt_early bt) (bt_secret bt) cfg eq_refl Hb) as (w & logs & -> & Hs & Ho). rewrite bind_Ret.
  destruct (bootControlPlane_returns (bt_env bt) (bt_token bt) cfg path Ht) as [[[cp eph]|] ->]; rewrite bind_Ret; [|by eexists w, _, _].
  rewrite Hbind. destruct (cpStart_ok cp (bt_stale bt)) as (cp' & effs & tls & -> & _). by eexists w, _, _.
Qed.


(** *** The end *)

(** A signal ends the engine cleanly: every socket is released, no service is stopped
    twice, and the exit status is 0. *)
Theorem shutdown_clean cfg w cp :
  serving cfg w -> (forall c, cp = Some c -> cn_stopped c = false) -> exists w', shutdown w cp false = Ret (0, w') /\ w_net w' = noPorts.
Proof.
  intros Hs Hc. unfold shutdown. destruct (netStop_serving cfg w Hs) as (w' & l & -> & Hn & _). rewrite bind_Ret. exists w'. split; [|done].
  destruct cp as [c|]; [|done]. unfold cpStop. by rewrite (Hc c eq_refl).
Qed.

(** ** The command line *)

(** The usage says [ottergate <command> [options]], but the first argument that is no
    option ends the options: what follows the command is ignored. *)
Theorem options_after_command_ignored cmd opts : HasPrefix cmd (gs "-") = false -> fst (dispatch (cmd :: opts)) = defaultFlags.
Proof.
  intros H. unfold dispatch. assert (parseFlags defaultFlags (cmd :: opts) = Some (defaultFlags, cmd :: opts)) as ->; [|done].
  destruct cmd as [|c [|c2 cmd]]; cbn [parseFlags]; try done; [by repeat case_match|]. destruct (decide (c = 45)) as [->|Hn].
  - exfalso. apply not_true_iff_false in H. apply H, HasPrefix_true. by exists (c2 :: cmd).
  - by repeat (case_match; try done).
Qed.

(** A wrong option ends in the usage, with exit status 0. *)
Theorem wrong_option_succeeds d bt rest : main d bt (gs "--prot" :: rest) = Ret (Stopped 0, d, [Usage]).
Proof. reflexivity. Qed.

(** With --json the answer of [config set] ends in a backslash and the letter n instead of
    a line break, and so is no JSON text. *)
Theorem set_answer_not_json d path key value d' out m :
  loadConfig (readConfig d path) = inr (Some m) -> handleSet d path key value true = Ret (0, d', out) ->
  exists text, out = [Print (text ++ [92; 110])].
Proof.
  intros Hl H. unfold handleSet in H. rewrite Hl in H. cbn [setDeepValue] in H. rewrite bind_Ret in H. destruct (saveConfig _ _ _) as [[e|] d1]; [by simplify_eq|].
  exists (jsonText (gs "{'success':true,'action':'set','key':") ++ Quote key ++ jsonText (gs ",'value':") ++ Quote value ++ gs "}").
  rewrite <- !app_assoc. by injection H as _ <-.
Qed.

End CliFacts.

(** ** Demonstrations *)

Definition demo_machine : Machine :=
  {| statFails := fun _ => false; readFails := fun _ => false; writeFails := fun _ => None; TempDir := gs "/tmp"; UserHomeDir := Some (gs "/home/otter") |}.
Definition demo_boot : Boot := {| bt_env := []; bt_token := replicate 16 5; bt_secret := [1]; bt_early := true; bt_stale := false; bt_bind := None |}.

Abbreviation demo_start := (startEngine (MA := demo_machine) (U := ascii_unicode) (JL := no_floats) (UR := simple_url) (AE := toy_aead) (MR := list_range) (HO := open_host)).

(** With the ports of the other processes out of the way. *)
Lemma open_bindable cfg :
  Forall (fun x => 1 <= x.2.2 <= 65535) (socketsOf cfg) -> NoDup (socketsOf cfg).*2 -> bindable (HO := open_host) cfg.
Proof. intros H1 H2. split; [|exact H2]. eapply Forall_impl; [exact H1|]. done. Qed.

Lemma init_bindable : bindable (HO := open_host) (initConfig (MA := demo_machine)).
Proof. by apply open_bindable; apply (bool_decide_eq_true_1 _). Qed.

Lemma init_then_start_witness :
  exists d' out w cp out', handleInit (MA := demo_machine) (U := ascii_unicode) ∅ (gs "/c.json") false = (0, d', out) /\
    demo_start d' demo_boot (gs "/c.json") [] [] = Ret (Engine (initConfig (MA := demo_machine)) w (Some cp), out') /\
    allBound (initConfig (MA := demo_machine)) (settle (HO := open_host) w) /\ listensOn (gs "/tmp/ottergate-cp.sock") out'.
Proof.
  destruct (init_then_start (MA := demo_machine) (U := ascii_unicode) (JL := no_floats) (UR := simple_url) (AE := toy_aead) (MR := list_range) (HO := open_host)
    ∅ demo_boot (gs "/c.json") false) as (d' & out & w & cp & out' & H1 & H2 & _ & H3 & H4 & _);
    [reflexivity|reflexivity|reflexivity|literal_ok|discriminate|exact init_bindable|reflexivity|reflexivity|].
  exists d', out, w, cp, out'. split; [exact H1|]. split; [exact H2|]. split; [exact H3|exact H4].
Defined.

Lemma init_keeps_files_witness : (handleInit (MA := demo_machine) (U := ascii_unicode) {[ gs "/c.json" := [7] ]} (gs "/c.json") false).1.1 = 1.
Proof.
  destruct (handleInit (MA := demo_machine) (U := ascii_unicode) {[ gs "/c.json" := [7] ]} (gs "/c.json") false) as [[code d'] out] eqn:E.
  exact (proj1 (proj2 (init_keeps_files (MA := demo_machine) (U := ascii_unicode) _ _ _ _ _ _ E) eq_refl [7] eq_refl)).
Defined.

Lemma start_without_file_witness :
  exists e, demo_start ∅ demo_boot (gs "/c.json") [] [] = Ret (Stopped 1, [Logged (CallError (gs "Configuration Schema Violation: " ++ e))]).
Proof.
  apply (start_without_file (MA := demo_machine) (U := ascii_unicode) (JL := no_floats) (UR := simple_url) (AE := toy_aead) (MR := list_range) (HO := open_host)
    ∅ demo_boot (gs "/c.json")). reflexivity.
Defined.

(** The disk after [init] and [config set port 5353]. *)
Definition demo_file : bytes := indentText (treeOf (JObj (defaultConf (MA := demo_machine)))).
Definition demo_disk : disk := {[ gs "/c.json" := demo_file ]}.
Definition demo_disk_set : disk :=
  match handleSet (MA := demo_machine) (U := ascii_unicode) (JL := no_floats) demo_disk (gs "/c.json") (gs "port") (itoa 5353) false with Ret (_, d, _) => d | _ => ∅ end.
Definition demo_engine : go (started * list output) := demo_start demo_disk_set demo_boot (gs "/c.json") [] [].
Definition engine_config (s : go (started * list output)) : option (ServerConfig * World * option ControlPlane * list output) :=
  match s with Ret (Engine cfg w cp, out) => Some (cfg, w, cp, out) | _ => None end.

Lemma engine_config_Some s cfg w cp out : engine_config s = Some (cfg, w, cp, out) -> s = Ret (Engine cfg w cp, out).
Proof. unfold engine_config. repeat (case_match; try done). by intros [= -> -> -> ->]. Qed.

Lemma demo_engine_runs : exists cfg w cp out, demo_engine = Ret (Engine cfg w cp, out).
Proof.
  assert (match engine_config demo_engine with Some _ => true | None => false end = true) as H by (vm_compute; reflexivity).
  destruct (engine_config demo_engine) as [[[[cfg w] cp] out]|] eqn:E; [|discriminate]. exists cfg, w, cp, out. by apply engine_config_Some.
Qed.

Lemma demo_file_bytes : bytes_ok demo_file.
Proof. literal_ok. Qed.
Lemma demo_file_loads : loadConfig (JL := no_floats) (Some demo_file) = inr (Some (defaultConf (MA := demo_machine))).
Proof. apply loadConfig_stored, init_storable. literal_ok. Qed.

Lemma set_port_served_witness : exists cfg w cp out, demo_engine = Ret (Engine cfg w cp, out) /\ cfg_Port cfg = 5353.
Proof.
  destruct demo_engine_runs as (cfg & w & cp & out & E). exists cfg, w, cp, out. split; [exact E|].
  eapply (set_port_served (MA := demo_machine) (U := ascii_unicode) (JL := no_floats) (UR := simple_url) (AE := toy_aead) (MR := list_range) (HO := open_host)
    demo_disk demo_boot (gs "/c.json") demo_file (defaultConf (MA := demo_machine)) 5353 false demo_disk_set);
    [lia|reflexivity|exact demo_file_bytes|reflexivity|exact demo_file_loads| |vm_compute; reflexivity|exact E].
  intros k v Hk Hf. destruct (decide (k = gs "port")) as [->|Hn]; [reflexivity|exfalso].
  assert (map_Forall (fun k _ => k = gs "port" \/ foldName k <> foldName (gs "port")) (defaultConf (MA := demo_machine))) as Hall by (by apply (bool_decide_eq_true_1 _)).
  destruct (Hall k v Hk); contradiction.
Defined.

Lemma config_set_kept_witness :
  exists m', loadConfig (JL := no_floats) (readConfig (MA := demo_machine) demo_disk_set (gs "/c.json")) = inr (Some m') /\ getParts m' (Split (gs "port") dot) = Some (JNum 5353).
Proof.
  destruct (config_set_kept (MA := demo_machine) (U := ascii_unicode) (JL := no_floats)
    demo_disk (gs "/c.json") demo_file (defaultConf (MA := demo_machine)) (gs "port") (itoa 5353) false demo_disk_set [Logged (CallSystem (gs "Updated configuration: port = 5353"))])
    as (m' & H1 & H2 & _);
    [reflexivity|exact demo_file_bytes|reflexivity|exact demo_file_loads|literal_ok|apply Nat.leb_le; vm_compute; reflexivity|literal_ok| |vm_compute; reflexivity|].
  - intros n Hn. vm_compute in Hn. injection Hn as <-. split; vm_compute; congruence.
  - exists m'. split; [exact H1|exact H2].
Defined.

Lemma start_serves_validated_witness : exists cfg w cp out, demo_engine = Ret (Engine cfg w cp, out) /\ serving cfg w.
Proof.
  destruct demo_engine_runs as (cfg & w & cp & out & E). exists cfg, w, cp, out. split; [exact E|].
  exact (proj1 (start_serves_validated (MA := demo_machine) (U := ascii_unicode) (JL := no_floats) (UR := simple_url) (AE := toy_aead) (MR := list_range) (HO := open_host)
    ascii_no_upper demo_disk_set demo_boot (gs "/c.json") [] [] cfg w cp out E)).
Defined.

Lemma shutdown_clean_witness : exists w', shutdown demo_world (Some demo_cp) false = Ret (0, w') /\ w_net w' = noPorts.
Proof. apply (shutdown_clean (demo_ports 53 80 443) demo_world (Some demo_cp) demo_serving). intros c [= <-]. reflexivity. Defined.

Lemma options_after_command_ignored_witness : fst (dispatch (MA := demo_machine) [gs "start"; gs "--port"; gs "5353"]) = defaultFlags (MA := demo_machine).
Proof. apply (options_after_command_ignored (MA := demo_machine)). vm_compute. reflexivity. Defined.

Abbreviation update_outcome :=
  (putConfig (U := ascii_unicode) (UR := simple_url) (AE := toy_aead) (MR := list_range) (JL := no_floats) demo_key (demo_ambient 7) demo_cp ∅ (gs "10.0.0.9") (gs "/api/v1/config") (gs "dev")
    (marshalConfig demo_new) new_writer).
Abbreviation update_stored := (encryptHeaders (AE := toy_aead) demo_key (am_nonce (demo_ambient 7)) demo_accepted).
Lemma update_bindable : bindable (HO := open_host) update_stored.
Proof. by apply open_bindable; apply (bool_decide_eq_true_1 _). Qed.


(** *** Large integers *)

(** Floating-point numbers as far as [2^54], where they are even: halves go to the multiple
    of four. *)
Definition roundEven (n : Z) : Z := if decide (n mod 2 = 0) then n else if decide (n mod 4 = 1) then n - 1 else n + 1.
Definition toFloat (n : Z) : option Z := if decide (exact n) then Some n else if decide (- 2 ^ 54 <= n <= 2 ^ 54) then Some (roundEven n) else None.
Lemma roundEven_even n : roundEven n mod 2 = 0 /\ n - 1 <= roundEven n <= n + 1.
Proof. unfold roundEven. repeat case_decide; split; Z.div_mod_to_equations; lia. Qed.
Lemma toFloat_even r : r mod 2 = 0 -> - 2 ^ 54 <= r <= 2 ^ 54 -> toFloat r = Some r.
Proof. intros He Hr. unfold toFloat, roundEven. case_decide; [done|]. by rewrite !decide_True. Qed.
Lemma toFloat_fixed n r : toFloat n = Some r -> toFloat r = Some r /\ int_ok r.
Proof.
  unfold toFloat at 1. case_decide as He; [intros [= <-]; split; [unfold toFloat; by rewrite decide_True|unfold exact, int_ok in *; lia]|].
  case_decide; [|done]. intros [= <-]. destruct (roundEven_even n) as [Hm Hr].
  assert (- 2 ^ 54 <= roundEven n <= 2 ^ 54) as Hb by (clear He; set (r := roundEven n) in *; Z.div_mod_to_equations; lia).
  split; [by apply toFloat_even|unfold int_ok; lia].
Qed.
Definition round_floats : JsonLib.
Proof.
  refine {| ParseFloat := fun x => fmt_d <$> (n ← Atoi x; toFloat n); syntaxError := fun _ => gs "syntax"; typeError := fun _ => gs "type" |}.
  - intros x y (r & _ & ->)%fmap_Some. apply number_fmt_d.
  - intros x y (r & (n & _ & Hr)%bind_Some & ->)%fmap_Some. apply toFloat_fixed in Hr as [Hf Hi]. rewrite Atoi_fmt_d by done. simpl. by rewrite Hf.
Defined.

Definition large_host (n : Z) : HostConfig :=
  {| hc_Records := []; hc_TlsProxy := None; hc_Redirect := None;
     hc_HttpProxy := Some {| hp_Enabled := true; hp_Upstream := gs "http://93.184.216.34"; hp_Headers := ∅; hp_ForwardRequestBody := true;
                             hp_MaxRequestBodyBytes := n; hp_ClientTls := None |} |}.
Definition host_limit (c : result ServerConfig) : option Z :=
  match c with inr c => hc ← cfg_Hosts c !! gs "a.example"; hp ← hc_HttpProxy hc; Some (hp_MaxRequestBodyBytes hp) | inl _ => None end.
(** The file of an accepted update says [2^53 + 1]; the start, which reads it into an
    [interface{}], serves [2^53]. *)
Theorem large_integer_changes_at_restart :
  let file := encodeConfig (config_with {[ gs "a.example" := large_host (2 ^ 53 + 1) ]}) in
  let parse := ParseServerConfig (U := ascii_unicode) (UR := simple_url) (MR := list_range) (JL := round_floats) in
  host_limit (parse file) = Some (2 ^ 53 + 1) /\
  match loadConfig (JL := round_floats) (Some file) with inr m => host_limit (parse (compactText (mapTree m))) | inl _ => None end = Some (2 ^ 53).
Proof. vm_compute. done. Qed.
