(* ===== verification/Restart.v ===== *)
(** * Restarts: the control plane's file and the next start

    What the requests of the control plane ([pkg/controlplane/controlplane.go]) leave on
    the disk and what a start ([main.go]) makes of it, from the start of one process to the
    start of the next. *)
From S2P Require Import Prelude GoStrings NetIP Platform JsonText GoText Config Json JsonValues Wire Firewall Circuit RateLimiter AuditLog Cache Server Secrets HttpProxy Sni Validation ControlPlane StoredConfig Dnssec Query0x20 Handler Daemon Services Cli.

Section Restart.
Context {MA : Machine} {U : Unicode} {JL : JsonLib} {UR : Url} {AE : Aead} {MR : MapRange} {HO : Host}.
Context (HU : forall r, ~ 65 <= unicode_ToLower r <= 90).

(** What a start without overrides reads from the file and validates. *)
Definition reads (d : disk) (path : gostring) (cfg : ServerConfig) : Prop :=
  exists data m, readConfig d path = Some data /\ loadConfig (Some data) = inr m /\ ParseServerConfig (compactText (mapTree m)) = inr cfg.

Lemma reads_start d path cfg bt : reads d path cfg -> startEngine d bt path [] [] = startServices bt path cfg.
Proof. intros (data & m & Hr & Hl & Hp). unfold startEngine. by rewrite Hr, Hl, applyOverrides_none, bind_Ret, Hp. Qed.

(** An engine that started has read its configuration from the file, which exists. *)
Lemma start_reads d bt path cfg w cp out : startEngine d bt path [] [] = Ret (Engine cfg w cp, out) -> reads d path cfg.
Proof.
  intros H. destruct (readConfig d path) as [data|] eqn:Er.
  2: { destruct (start_without_file d bt path Er) as [e He]. rewrite He in H. done. }
  unfold startEngine in H. rewrite Er in H. destruct (loadConfig (Some data)) as [e|m] eqn:El; [done|]. rewrite applyOverrides_none, bind_Ret in H.
  destruct (ParseServerConfig _) as [e|c] eqn:Ep; [done|]. destruct (startServices_serving _ _ _ _ _ _ _ _ H eq_refl) as [-> _]. by exists data, m.
Qed.

(** The control plane that starts has the configuration of the engine, and its path. *)
Lemma boot_config env token cfg path cp eph :
  bootControlPlane env token cfg path = Ret (Some (cp, eph)) -> cn_cfg cp = cfg /\ cn_configFilePath cp = Clean path.
Proof.
  unfold bootControlPlane. destruct (cpEnabled cfg); [|done]. destruct (chooseApiKey env token cfg) as [k e]. intros (salt & _ & H)%bind_Ret_inv.
  apply bind_Ret_inv in H as (cp0 & H0 & H). simplify_eq. unfold NewControlPlane in H0. apply bind_Ret_inv in H0 as (k1 & _ & H0).
  apply bind_Ret_inv in H0 as (k2 & _ & H0). by simplify_eq.
Qed.
Lemma cpStart_config cp stale bind err cp' effs tls : cpStart cp stale bind = (err, cp', effs, tls) -> cn_cfg cp' = cn_cfg cp /\ cn_configFilePath cp' = cn_configFilePath cp.
Proof. unfold cpStart. repeat case_match; intros; by simplify_eq. Qed.
Lemma start_config d bt path cfg w cp out :
  startEngine d bt path [] [] = Ret (Engine cfg w (Some cp), out) -> cn_cfg cp = cfg /\ cn_configFilePath cp = Clean path.
Proof.
  intros H. pose proof (start_reads _ _ _ _ _ _ _ H) as Hr. rewrite (reads_start _ _ _ bt Hr) in H. unfold startServices in H.
  apply bind_Ret_inv in H as ([[err w1] logs] & _ & H). destruct err; [done|]. apply bind_Ret_inv in H as (boot & Hb & H). destruct boot as [[cp0 eph]|]; [|done].
  destruct (cpStart cp0 _ _) as [[[err cp1] effs] tls] eqn:Ec. destruct err; [by apply bind_Ret_inv in H as ([? ?] & _ & H)|].
  apply cpStart_config in Ec as [E1 E2]. apply boot_config in Hb as [E3 E4]. apply Ret_inj, (f_equal fst) in H. cbn [fst] in H. injection H as _ <-. by rewrite E1, E2.
Qed.

(** The file of the control plane means its configuration. *)
Definition in_sync (cp : ControlPlane) (d : disk) : Prop :=
  readFails (cn_configFilePath cp) = false /\ reads d (cn_configFilePath cp) (cn_cfg cp).

(** The file that an accepted update writes is read back. *)
Lemma encoded_reads d path key nonces body c :
  length key = 32%nat -> nonces_ok nonces -> bytes_ok body -> ParseServerConfig body = inr c -> short_secrets c -> @ints_fit exact c -> readFails path = false ->
  reads (<[path := encodeConfig (encryptHeaders key nonces c)]> d) path (encryptHeaders key nonces c).
Proof.
  intros Hkey Hn Hb Hp Hs Hi Hf. set (stored := encryptHeaders key nonces c).
  destruct (loadConfig_encoded stored (encrypt_wf key nonces c Hkey Hn (parse_wf HU _ _ Hb Hp)) (encryptHeaders_ok _ key nonces c Hi)) as (m & Hl & Hst & Hu).
  exists (encodeConfig stored), (Some m). split; [unfold readConfig; rewrite Hf; apply lookup_insert_eq|]. split; [exact Hl|].
  unfold ParseServerConfig in Hp |- *. apply bind_ok in Hp as (c0 & _ & Hv). unfold unmarshalServerConfig, mapTree. cbn [from_option].
  rewrite parseJson_compact by apply Hst. rewrite Hu. exact (stored_config_loads _ _ _ _ HU Hkey Hn Hv Hs).
Qed.

Lemma in_sync_same cp cp' d d' :
  cn_configFilePath cp' = cn_configFilePath cp -> cn_cfg cp' = cn_cfg cp -> d' !! cn_configFilePath cp = d !! cn_configFilePath cp -> in_sync cp d -> in_sync cp' d'.
Proof.
  intros Hp Hc Hd [Hf (data & m & Hr & H)]. unfold in_sync. rewrite Hp, Hc. split; [done|]. exists data, m. split; [|done]. unfold readConfig in *. by rewrite Hf, Hd in *.
Qed.

Lemma putConfig_in_sync key am cp d ip path dev body w :
  length key = 32%nat -> nonces_ok (am_nonce am) -> bytes_ok body -> (forall c, ParseServerConfig body = inr c -> short_secrets c /\ @ints_fit exact c) -> in_sync cp d ->
  let o := putConfig key am cp d ip path dev body w in in_sync (oc_cp o) (oc_disk o).
Proof.
  intros Hkey Hn Hb Hs Hsy. cbn zeta. unfold putConfig. pose proof (tempPath_ne cp am) as Hne.
  assert (forall b, in_sync cp (removeTemp cp am (<[tempPath cp am := b]> d))) as Hrej.
  { intros b. eapply in_sync_same; [done|done| |exact Hsy]. unfold removeTemp. destruct (am_remove am); by simplify_map_eq. }
  destruct (ParseServerConfig body) as [e|c] eqn:Ec; [done|]. destruct (am_open am); cbn [negb reply oc_cp oc_disk]; [|done].
  destruct (am_write am); cbn [negb reply oc_cp oc_disk]; [|apply Hrej]. destruct (am_rename am); cbn [negb reply oc_cp oc_disk]; [|apply Hrej].
  destruct (Hs c eq_refl) as [Hs1 Hs2]. destruct Hsy as [Hf _]. split; [exact Hf|]. by eapply encoded_reads.
Qed.

Lemma in_sync_step key v am cp d r :
  harmless (key, v, am, r) -> in_sync cp d -> let o := cpServeHTTP key v am cp d r in in_sync (oc_cp o) (oc_disk o).
Proof.
  intros (Hkey & Hn & Hbody) Hsy. cbn zeta. assert (forall win ns, in_sync (with_nonces cp win ns) d) as Hsame by done.
  destruct (cpServeHTTP_effect key v am cp d r) as [(Hc & Hd & _)|[(Hc & Hd & _)|(body & dev & _ & Ha & ->)]]; [by rewrite Hc, Hd|by rewrite Hc, Hd|].
  destruct (Hbody body (au_body _ _ _ _ Ha)) as [Hb Hs]. set (cp' := with_nonces cp _ _).
  destruct (apiRequest_effect key v am cp' d r dev body (json_type new_writer)) as [(Hc & Hd & _)|(_ & _ & ->)]; [rewrite Hc, Hd; apply Hsame|].
  apply putConfig_in_sync; [done..|apply Hsame].
Qed.

(** C8: The configuration file is never ahead of or behind the control plane, from the
    start of one process to the start of the next.  Let a process start without
    overriding options from a file whose path is in its shortest form.  After any sequence
    of requests to its control plane, authorised or not and with any failure of the file
    system on the way, the file is read, parsed and accepted as exactly the configuration
    that the control plane has, and a process that starts from it starts its services
    with that one.  (An accepted body consists of
    bytes, its secrets are at most 4065 bytes long and its integers within the 53 bits of
    a floating-point number; the master key has 32 bytes and nonces 12.) *)
Theorem file_in_sync d bt path cfg w cp out l bt' :
  startEngine d bt path [] [] = Ret (Engine cfg w (Some cp), out) -> Clean path = path -> Forall harmless l ->
  let '(cp', d') := after cp d l in
  reads d' path (cn_cfg cp') /\ startEngine d' bt' path [] [] = startServices bt' path (cn_cfg cp').
Proof.
  intros Hstart Hpath Hl. pose proof (start_reads _ _ _ _ _ _ _ Hstart) as Hr. destruct (start_config _ _ _ _ _ _ _ Hstart) as [Hc Hp]. rewrite Hpath in Hp.
  destruct (after_invariant (fun cp d => cn_configFilePath cp = path /\ in_sync cp d)) with l cp d as [Hp' [_ Hr']]; [|done| |].
  - intros key v am cp1 d1 r Hh [Hp1 Hsy]. cbn zeta. split; [|by apply in_sync_step].
    destruct (cpServeHTTP_effect key v am cp1 d1 r) as [(-> & _)|[(-> & _)|(body & dev & _ & _ & ->)]]; [done|done|].
    set (cp' := with_nonces cp1 _ _). destruct (apiRequest_effect key v am cp' d1 r dev body (json_type new_writer)) as [(-> & _)|(_ & _ & ->)]; [done|].
    unfold putConfig. repeat case_match; done.
  - split; [done|]. unfold in_sync. rewrite Hp, Hc. split; [|done]. destruct Hr as (data & m & Hd & _). unfold readConfig in Hd. by destruct (readFails path).
  - destruct (after cp d l) as [cp' d']. cbn [fst snd] in *. rewrite Hp' in Hr'. split; [done|by apply reads_start].
Qed.

End Restart.

(** ** Demonstrations *)

(** The toy cipher with a hash of zeros, under which every nonce is a proof of work. *)
Definition zero_hash : Aead :=
  {| sha256 := fun _ => replicate 32 0; hmac := hmac (Aead := toy_aead); Seal := Seal (Aead := toy_aead); Open := Open (Aead := toy_aead);
     Seal_length := Seal_length (Aead := toy_aead); Seal_bytes := Seal_bytes (Aead := toy_aead); Open_Seal := Open_Seal (Aead := toy_aead);
     hmac_length := hmac_length (Aead := toy_aead) |}.
(** The API key of the demonstration requests. *)
Definition keyed_boot : Boot := {| bt_env := gs "key"; bt_token := replicate 16 5; bt_secret := [1]; bt_early := true; bt_stale := false; bt_bind := None |}.
Abbreviation restart_start := (startEngine (MA := demo_machine) (U := ascii_unicode) (JL := no_floats) (UR := simple_url) (AE := zero_hash) (MR := list_range) (HO := open_host)).
Abbreviation restart_after := (after (U := ascii_unicode) (UR := simple_url) (AE := zero_hash) (MR := list_range) (JL := no_floats)).
Definition restart_engine : go (started * list output) := restart_start demo_disk_set keyed_boot (gs "/c.json") [] [].

Lemma restart_engine_cp : exists cfg w cp out, restart_engine = Ret (Engine cfg w (Some cp), out) /\
  let s := restart_after cp demo_disk_set demo_arrivals in s.2 !! gs "/c.json" = Some (encodeConfig (cn_cfg s.1)) /\ cfg_Port (cn_cfg s.1) = 53.
Proof.
  assert (match engine_config restart_engine with
          | Some (_, _, Some cp, _) => let s := restart_after cp demo_disk_set demo_arrivals in bool_decide (s.2 !! gs "/c.json" = Some (encodeConfig (cn_cfg s.1)) /\ cfg_Port (cn_cfg s.1) = 53)
          | _ => false end = true) as H by (vm_compute; reflexivity).
  destruct (engine_config restart_engine) as [[[[cfg w] [cp|]] out]|] eqn:E; [|discriminate..]. apply bool_decide_eq_true in H.
  exists cfg, w, cp, out. split; [by apply engine_config_Some|exact H].
Qed.

(** The engine listens on port 5353; the updates put port 53 in force, and a restart serves
    that. *)
Lemma file_in_sync_witness :
  exists cp, let '(cp', d') := restart_after cp demo_disk_set demo_arrivals in
  cfg_Port (cn_cfg cp') = 53 /\
  restart_start d' keyed_boot (gs "/c.json") [] [] = startServices (AE := zero_hash) (HO := open_host) keyed_boot (gs "/c.json") (cn_cfg cp').
Proof.
  destruct restart_engine_cp as (cfg & w & cp & out & E & _ & Hport). exists cp.
  pose proof (file_in_sync (MA := demo_machine) (U := ascii_unicode) (JL := no_floats) (UR := simple_url) (AE := zero_hash) (MR := list_range) (HO := open_host) ascii_no_upper
    demo_disk_set keyed_boot (gs "/c.json") cfg w cp out demo_arrivals keyed_boot E ltac:(vm_compute; reflexivity) demo_harmless) as H.
  destruct (restart_after cp demo_disk_set demo_arrivals) as [cp' d']. split; [exact Hport|exact (proj2 H)].
Defined.
